(** * Colour management of image buffers: display-buffer cache, catalog,
      processors and partial updates.

    A shallow embedding of [source/blender/imbuf/intern/colormanagement.c].

    Conventions of the embedding.
    - A C [int] is a [Z]; operations whose result C leaves undefined
      (a shift by a negative or too large count, signed overflow, an index
      outside an array, a dereferenced NULL) make the embedded function
      return [Crash]; [Done] means that the C code runs through and is
      defined.
    - A C [float] is an IEEE-754 binary32 datum ([spec_float] with precision
      24 and maximal exponent 128); [==] and [!=] are the IEEE comparisons.
    - A nullable pointer is an [option].
    - A buffer that is written ([unsigned char *display_buffer], the bit
      field, a float buffer transformed in place) is a list, and a store
      outside it is a [Crash]; a buffer that is only read ([linear_buffer],
      [byte_buffer] of a partial update) is the memory behind the pointer, a
      function from element offsets to values.
    - The transform engine (OCIO), the block cache (moviecache), the thread
      pool and the pixel conversion helpers live outside this file of the
      repository; they are fields of the classes [HeaderConstants],
      [Helpers], [TransformEngine] and [TransformThreads], or small models
      that carry a doc comment saying so.  Debug-only assertions
      ([BLI_assert]) and the global lock are not part of the embedding. *)

From Stdlib Require Import ZArith List Bool Lia.
From Stdlib Require Import Floats.SpecFloat.
From Stdlib Require Import Strings.String.
From stdpp Require Import base option list list_numbers.

Local Open Scope Z_scope.

(** ** Execution results

    [Done a]: the C function ran through with result (and state) [a].
    [Crash]: the C code did something the language leaves undefined at this
    input (NULL dereference, access outside an array, undefined shift or
    overflow). *)

Inductive exec (A : Type) : Type :=
  | Done (a : A)
  | Crash.
Arguments Done {A} a.
Arguments Crash {A}.

#[global] Instance exec_ret : MRet exec := fun A a => Done a.
#[global] Instance exec_bind : MBind exec := fun A B f m =>
  match m with
  | Done a => f a
  | Crash => Crash
  end.
#[global] Instance exec_fmap : FMap exec := fun A B f m =>
  match m with
  | Done a => Done (f a)
  | Crash => Crash
  end.

(** [*p] for a nullable pointer [p]. *)
Definition deref {A} (p : option A) : exec A :=
  match p with
  | Some a => Done a
  | None => Crash
  end.

(** ** C scalar types *)

Module CFloat.

(** [float]: IEEE-754 binary32. *)
Definition prec : Z := 24.
Definition emax : Z := 128.

Definition float := spec_float.

Definition zero : float := S754_zero false.
Definition neg_zero : float := S754_zero true.
(** [1.0f] = 2^23 * 2^-23 in canonical form. *)
Definition one : float := S754_finite false 8388608 (-23).
Definition two : float := S754_finite false 8388608 (-22).
Definition nan : float := S754_nan.
(** [FLT_EPSILON] of <float.h>: 2^-23. *)
Definition FLT_EPSILON : float := S754_finite false 8388608 (-46).

(** C [a == b], [a != b], [a > b] on floats. *)
Definition eq (a b : float) : bool := SFeqb a b.
Definition ne (a b : float) : bool := negb (SFeqb a b).
Definition gt (a b : float) : bool := SFltb b a.
Definition div (a b : float) : float := SFdiv prec emax a b.

(** [max_ff] of BLI_math_base: [(a > b) ? a : b]. *)
Definition max_ff (a b : float) : float := if gt a b then a else b.

End CFloat.

Abbreviation float := CFloat.float.

Module CInt.

Definition INT_MIN : Z := - 2 ^ 31.
Definition INT_MAX : Z := 2 ^ 31 - 1.

Definition in_int (z : Z) : bool := (INT_MIN <=? z) && (z <=? INT_MAX).

(** [a - b] on [int]: undefined on overflow. *)
Definition sub (a b : Z) : exec Z :=
  if in_int (a - b) then Done (a - b) else Crash.

(** [1 << n] on [int]: undefined for a negative count and when the
    result is not representable (C11 6.5.7p4). *)
Definition shl1 (n : Z) : exec Z :=
  if (0 <=? n) && (n <? 31) then Done (Z.shiftl 1 n) else Crash.

(** Conversion of an [int] to [size_t] (64 bit) and [size_t] products. *)
Definition SIZE_MOD : Z := 2 ^ 64.
Definition to_size_t (z : Z) : Z := z mod SIZE_MOD.
Definition size_mul (a b : Z) : Z := (a * b) mod SIZE_MOD.
Definition size_add (a b : Z) : Z := (a + b) mod SIZE_MOD.

End CInt.

(** ** Strings *)

(** [STREQ(a, b)]: [strcmp(a, b) == 0]. *)
Definition STREQ (a b : string) : bool := String.eqb a b.

(** [s[0] == 0]. *)
Definition str_is_empty (s : string) : bool :=
  match s with EmptyString => true | String _ _ => false end.

(** [BLI_strncpy(dst, src, maxncpy)]: at most [maxncpy - 1] characters of
    [src], then the terminator. *)
Definition BLI_strncpy (src : string) (maxncpy : nat) : string :=
  String.substring 0 (Nat.pred maxncpy) src.

(** [strstr(s, sep)] as an offset into [s]. *)
Definition strstr (s sep : string) : option nat := String.index 0 sep s.

(** A [CurveMapping *] that is not NULL: the address, and the
    [changed_timestamp] found behind it when the settings are read. *)
Record CurveMapping := {
  curve_mapping_addr : Z;
  changed_timestamp : Z
}.

(** A [float pixel[4]]. *)
Record Pixel := {
  px_r : float;
  px_g : float;
  px_b : float;
  px_a : float
}.

Definition pixel_rgb (p : Pixel) : float * float * float := (px_r p, px_g p, px_b p).

Definition pixel_set_rgb (p : Pixel) (c : float * float * float) : Pixel :=
  {| px_r := fst (fst c); px_g := snd (fst c); px_b := snd c; px_a := px_a p |}.

Definition pixel_set_r (p : Pixel) (v : float) : Pixel :=
  {| px_r := v; px_g := px_g p; px_b := px_b p; px_a := px_a p |}.

(** The arguments of [OCIO_createDisplayProcessor]. *)
Record DisplayProcessorRequest := {
  req_from_colorspace : string;
  req_view_transform : string;
  req_display : string;
  req_look : string;
  req_scale : float;
  req_exponent : float
}.

(** ** What the file takes from elsewhere *)

(** Constants of headers that are not part of this file:
    [MAX_COLORSPACE_NAME] (DNA_color_types.h, the size of every name array
    of the catalog), [COLORMANAGE_VIEW_USE_CURVES] (DNA_color_types.h),
    [IMB_COLORMANAGE_IS_DATA] and [IB_DISPLAY_BUFFER_INVALID]
    (IMB_imbuf_types.h). *)
Class HeaderConstants := {
  MAX_COLORSPACE_NAME : nat;
  COLORMANAGE_VIEW_USE_CURVES : Z;
  IMB_COLORMANAGE_IS_DATA : Z;
  IB_DISPLAY_BUFFER_INVALID : Z
}.

(** Helpers of other libraries, of which only the values matter here. *)
Class Helpers := {
  (** BLI_string *)
  BLI_strcasecmp : string -> string -> Z;
  (** <math.h> *)
  powf : float -> float -> float;
  (** BKE_colortools: curve evaluation *)
  BKE_curvemapping_evaluate_premulRGBF :
    CurveMapping -> float * float * float -> float * float * float;
  BKE_curvemap_evaluateF : CurveMapping -> float -> float;
  (** BLI_math_color: byte and float pixel conversions *)
  rgba_uchar_to_float : list Byte.byte -> Pixel;
  rgba_float_to_uchar : Pixel -> Byte.byte * Byte.byte * Byte.byte * Byte.byte;
  rgb_float_to_uchar : Pixel -> Byte.byte * Byte.byte * Byte.byte;
  unit_float_to_uchar_clamp : float -> Byte.byte;
  straight_to_premul_v4 : Pixel -> Pixel;
  premul_to_straight_v4_v4 : Pixel -> Pixel;
  (** what an automatic [float pixel[4]] holds before it is assigned *)
  pixel_indeterminate : Pixel;
  (** [IMB_buffer_float_from_byte] (divers.c): the float buffer it fills
      from a byte buffer; width, height, destination and source stride *)
  IMB_buffer_float_from_byte :
    option (Z -> Byte.byte) -> Z -> Z -> Z -> Z -> (Z -> float);
  (** the bytes that [IMB_buffer_byte_from_float] (divers.c) computes for
      the pixel in column [x] of row [y] of a float buffer: source, source
      channels, dither, source stride, [x], [y] *)
  byte_from_float_pixel :
    (Z -> float) -> Z -> float -> Z -> Z -> Z ->
    Byte.byte * Byte.byte * Byte.byte * Byte.byte
}.

(** The transform engine (OCIO); its compiled processors are opaque. *)
Class TransformEngine := {
  OCIO_CPUProcessor : Type;
  OCIO_createDisplayProcessor : DisplayProcessorRequest -> option OCIO_CPUProcessor;
  OCIO_configGetProcessorWithNames : string -> string -> option OCIO_CPUProcessor;
  OCIO_configGetDisplayColorSpaceName : string -> string -> option string;
  OCIO_cpuProcessorApplyRGBA : OCIO_CPUProcessor -> Pixel -> Pixel;
  OCIO_cpuProcessorApplyRGBA_predivide : OCIO_CPUProcessor -> Pixel -> Pixel;
  OCIO_cpuProcessorApplyRGB :
    OCIO_CPUProcessor -> float * float * float -> float * float * float;
  (** on a packed image: buffer, width, height, channels *)
  OCIO_cpuProcessorApply : OCIO_CPUProcessor -> list float -> Z -> Z -> Z -> list float;
  OCIO_cpuProcessorApply_predivide :
    OCIO_CPUProcessor -> list float -> Z -> Z -> Z -> list float
}.

Record ColormanageProcessor {engine : TransformEngine} := {
  cpu_processor : option OCIO_CPUProcessor;
  curve_mapping : option CurveMapping;
  is_data_result : bool
}.

(** The thread pool behind [processor_transform_apply_threaded], which
    hands row ranges of a buffer to worker threads: processor, byte buffer,
    float buffer, width, height, channels, predivide. *)
Class TransformThreads {engine : TransformEngine} := {
  processor_transform_apply_threaded :
    ColormanageProcessor -> option (list Byte.byte) -> option (list float) ->
    Z -> Z -> Z -> bool -> option (list Byte.byte) * option (list float)
}.

(** ** The catalog: colour spaces, displays, views and looks *)

(** Of a [ColorSpace] the description and the lazily created processors are
    left out: no operation below reads them. *)
Record ColorSpace := {
  colorspace_index : Z;
  colorspace_name : string;
  is_invertible : bool;
  is_data : bool
}.

Record ColorManagedView := {
  view_index : Z;
  view_name : string
}.

Record ColorManagedDisplay := {
  display_index : Z;
  display_name : string;
  (** the [LinkData] list of the views of this display *)
  display_views : list ColorManagedView
}.

Record ColorManagedLook := {
  look_index : Z;
  look_name : string;
  look_ui_name : string;
  look_view : string;
  look_process_space : string;
  is_noop : bool
}.

(** The file-level globals [global_colorspaces], [global_displays], ...;
    of the role names only the one of the scene-linear role is read by the
    operations below. *)
Record Catalog := {
  global_role_scene_linear : string;
  global_colorspaces : list ColorSpace;
  global_displays : list ColorManagedDisplay;
  global_views : list ColorManagedView;
  global_looks : list ColorManagedLook;
  global_tot_colorspace : Z;
  global_tot_display : Z;
  global_tot_view : Z;
  global_tot_looks : Z
}.

(** The state of the globals at program start (static initialisers). *)
Definition catalog_initial : Catalog :=
  {| global_role_scene_linear := EmptyString;
     global_colorspaces := []; global_displays := []; global_views := [];
     global_looks := [];
     global_tot_colorspace := 0; global_tot_display := 0;
     global_tot_view := 0; global_tot_looks := 0 |}.

(** What the configuration loader (OCIO) enumerates: the name of the colour
    space under the scene-linear role if there is one, colour spaces with
    their invertible and data flags, displays with the ordered names of
    their views, looks with their process space. *)
Record OCIO_Config := {
  config_role_scene_linear : option string;
  config_colorspaces : list (string * bool * bool);
  config_displays : list (string * list string);
  config_looks : list (string * string)
}.

Section CatalogOps.

Context {constants : HeaderConstants} {helpers : Helpers}.

(** *** Displays *)

Definition colormanage_display_add (cat : Catalog) (name : string) : Catalog :=
  let index := match last (global_displays cat) with
               | Some last_display => display_index last_display
               | None => 0
               end in
  let display := {| display_index := index + 1;
                    display_name := BLI_strncpy name MAX_COLORSPACE_NAME;
                    display_views := [] |} in
  {| global_role_scene_linear := global_role_scene_linear cat;
     global_colorspaces := global_colorspaces cat;
     global_displays := global_displays cat ++ [display];
     global_views := global_views cat;
     global_looks := global_looks cat;
     global_tot_colorspace := global_tot_colorspace cat;
     global_tot_display := global_tot_display cat;
     global_tot_view := global_tot_view cat;
     global_tot_looks := global_tot_looks cat |}.

Definition colormanage_display_get_named (cat : Catalog) (name : string)
  : option ColorManagedDisplay :=
  find (fun display => STREQ (display_name display) name) (global_displays cat).

Definition IMB_colormanagement_display_get_named_index (cat : Catalog) (name : string) : Z :=
  match colormanage_display_get_named cat name with
  | Some display => display_index display
  | None => 0
  end.

(** *** Views *)

Definition colormanage_view_add (cat : Catalog) (name : string)
  : Catalog * ColorManagedView :=
  let index := global_tot_view cat in
  let view := {| view_index := index + 1;
                 view_name := BLI_strncpy name MAX_COLORSPACE_NAME |} in
  ({| global_role_scene_linear := global_role_scene_linear cat;
     global_colorspaces := global_colorspaces cat;
      global_displays := global_displays cat;
      global_views := global_views cat ++ [view];
      global_looks := global_looks cat;
      global_tot_colorspace := global_tot_colorspace cat;
      global_tot_display := global_tot_display cat;
      global_tot_view := global_tot_view cat + 1;
      global_tot_looks := global_tot_looks cat |}, view).

Definition colormanage_view_get_named (cat : Catalog) (name : string)
  : option ColorManagedView :=
  find (fun view => STREQ (view_name view) name) (global_views cat).

Definition IMB_colormanagement_view_get_named_index (cat : Catalog) (name : string) : Z :=
  match colormanage_view_get_named cat name with
  | Some view => view_index view
  | None => 0
  end.

(** *** Looks *)

Definition colormanage_look_add (cat : Catalog)
    (name process_space : string) (noop : bool) : Catalog :=
  let index := global_tot_looks cat in
  let lname := BLI_strncpy name MAX_COLORSPACE_NAME in
  let look :=
    match strstr lname " - " with
    | Some separator_offset =>
        (* a look of one view: "<view> - <label>" *)
        {| look_index := index + 1;
           look_name := lname;
           look_ui_name :=
             BLI_strncpy
               (String.substring (separator_offset + 3) (String.length lname) lname)
               MAX_COLORSPACE_NAME;
           look_view := BLI_strncpy lname (separator_offset + 1);
           look_process_space := BLI_strncpy process_space MAX_COLORSPACE_NAME;
           is_noop := noop |}
    | None =>
        {| look_index := index + 1;
           look_name := lname;
           look_ui_name := BLI_strncpy name MAX_COLORSPACE_NAME;
           look_view := EmptyString;
           look_process_space := BLI_strncpy process_space MAX_COLORSPACE_NAME;
           is_noop := noop |}
    end in
  {| global_role_scene_linear := global_role_scene_linear cat;
     global_colorspaces := global_colorspaces cat;
     global_displays := global_displays cat;
     global_views := global_views cat;
     global_looks := global_looks cat ++ [look];
     global_tot_colorspace := global_tot_colorspace cat;
     global_tot_display := global_tot_display cat;
     global_tot_view := global_tot_view cat;
     global_tot_looks := global_tot_looks cat + 1 |}.

Definition colormanage_look_get_named (cat : Catalog) (name : string)
  : option ColorManagedLook :=
  find (fun look => STREQ (look_name look) name) (global_looks cat).

Definition IMB_colormanagement_look_get_named_index (cat : Catalog) (name : string) : Z :=
  match colormanage_look_get_named cat name with
  | Some look => look_index look
  | None => 0
  end.

Definition colormanage_compatible_look (look : ColorManagedLook)
    (view_name : option string) : bool :=
  if is_noop look then true
  else
    str_is_empty (look_view look)
    || match view_name with
       | Some v => STREQ (look_view look) v
       | None => false
       end.

(** [look_descr] is dereferenced as returned by the lookup. *)
Definition colormanage_use_look (cat : Catalog) (look : string)
    (view_name : option string) : exec bool :=
  look_descr ← deref (colormanage_look_get_named cat look);
  mret (negb (is_noop look_descr) && colormanage_compatible_look look_descr view_name).

(** The sibling that tests the descriptor before it reads it: the look
    part of [is_ibuf_rect_in_display_space]. *)
Definition look_has_process_space (cat : Catalog) (look : string) : bool :=
  match colormanage_look_get_named cat look with
  | Some look_descr => negb (STREQ (look_process_space look_descr) EmptyString)
  | None => false
  end.

(** *** Colour spaces *)

Definition colorspace_set_index (colorspace : ColorSpace) (index : Z) : ColorSpace :=
  {| colorspace_index := index;
     colorspace_name := colorspace_name colorspace;
     is_invertible := is_invertible colorspace;
     is_data := is_data colorspace |}.

(** The second loop of [colormanage_colorspace_add]: the spaces after the
    new one are renumbered. *)
Fixpoint colorspace_renumber (l : list ColorSpace) (counter : Z) : list ColorSpace :=
  match l with
  | [] => []
  | prev_space :: rest =>
      colorspace_set_index prev_space counter :: colorspace_renumber rest (counter + 1)
  end.

(** The first loop and the insertion: spaces up to the first one that
    sorts after the new name keep their place and are renumbered, the new
    space goes before that one. *)
Fixpoint colorspace_insert (l : list ColorSpace) (colorspace : ColorSpace) (counter : Z)
  : list ColorSpace :=
  match l with
  | [] => [colorspace_set_index colorspace counter]
  | prev_space :: rest =>
      if BLI_strcasecmp (colorspace_name prev_space) (colorspace_name colorspace) >? 0
      then colorspace_set_index colorspace counter
           :: colorspace_renumber (prev_space :: rest) (counter + 1)
      else colorspace_set_index prev_space counter
           :: colorspace_insert rest colorspace (counter + 1)
  end.

Definition colormanage_colorspace_add (cat : Catalog)
    (name : string) (invertible data : bool) : Catalog :=
  let colorspace := {| colorspace_index := 0;
                       colorspace_name := BLI_strncpy name MAX_COLORSPACE_NAME;
                       is_invertible := invertible;
                       is_data := data |} in
  {| global_role_scene_linear := global_role_scene_linear cat;
     global_colorspaces := colorspace_insert (global_colorspaces cat) colorspace 1;
     global_displays := global_displays cat;
     global_views := global_views cat;
     global_looks := global_looks cat;
     global_tot_colorspace := global_tot_colorspace cat + 1;
     global_tot_display := global_tot_display cat;
     global_tot_view := global_tot_view cat;
     global_tot_looks := global_tot_looks cat |}.

Definition colormanage_colorspace_get_named (cat : Catalog) (name : string)
  : option ColorSpace :=
  find (fun colorspace => STREQ (colorspace_name colorspace) name) (global_colorspaces cat).

(** *** Loading and freeing a configuration *)

(** [BLI_addtail(&display->views, display_view)] for the display that
    [colormanage_display_add] has just linked at the tail. *)
Fixpoint last_display_add_view (displays : list ColorManagedDisplay)
    (view : ColorManagedView) : list ColorManagedDisplay :=
  match displays with
  | [] => []
  | [display] =>
      [{| display_index := display_index display;
          display_name := display_name display;
          display_views := display_views display ++ [view] |}]
  | display :: rest => display :: last_display_add_view rest view
  end.

(** One turn of the loop over the views of a display. *)
Definition load_config_view (cat : Catalog) (viewname : string) : Catalog :=
  let '(cat1, view) :=
    match colormanage_view_get_named cat viewname with
    | Some view => (cat, view)
    | None => colormanage_view_add cat viewname
    end in
  {| global_role_scene_linear := global_role_scene_linear cat1;
     global_colorspaces := global_colorspaces cat1;
     global_displays := last_display_add_view (global_displays cat1) view;
     global_views := global_views cat1;
     global_looks := global_looks cat1;
     global_tot_colorspace := global_tot_colorspace cat1;
     global_tot_display := global_tot_display cat1;
     global_tot_view := global_tot_view cat1;
     global_tot_looks := global_tot_looks cat1 |}.

(** *** The queries of the loader on a configuration *)

(** The engine answers them (OCIO, not under src).  The names by index are
    the names of the entries in their order, and a query by name finds the
    first entry that the configuration enumerates under the name. *)
Definition OCIO_configColorSpaceNames (config : OCIO_Config) : list string :=
  (fun cs => fst (fst cs)) <$> config_colorspaces config.

Definition OCIO_configGetColorSpace (config : OCIO_Config) (name : string)
  : option (string * bool * bool) :=
  List.find (fun cs => String.eqb (fst (fst cs)) name) (config_colorspaces config).

(** [OCIO_colorSpaceIsInvertible] and [OCIO_colorSpaceIsData]; the loader
    passes what the query for an enumerated name returned, which is never
    NULL. *)
Definition OCIO_colorSpaceIsInvertible (ocio_colorspace : option (string * bool * bool))
  : bool :=
  match ocio_colorspace with
  | Some cs => snd (fst cs)
  | None => false
  end.

Definition OCIO_colorSpaceIsData (ocio_colorspace : option (string * bool * bool)) : bool :=
  match ocio_colorspace with
  | Some cs => snd cs
  | None => false
  end.

Definition OCIO_configDisplays (config : OCIO_Config) : list string :=
  fst <$> config_displays config.

(** The views [OCIO_configGetView(config, displayname, 0 ..
    OCIO_configGetNumViews(config, displayname) - 1)]. *)
Definition OCIO_configViews (config : OCIO_Config) (displayname : string) : list string :=
  match List.find (fun d => String.eqb (fst d) displayname) (config_displays config) with
  | Some d => snd d
  | None => []
  end.

Definition OCIO_configLookNames (config : OCIO_Config) : list string :=
  fst <$> config_looks config.

Definition OCIO_configGetLook (config : OCIO_Config) (name : string)
  : option (string * string) :=
  List.find (fun lk => String.eqb (fst lk) name) (config_looks config).

Definition OCIO_lookGetProcessSpace (ocio_look : option (string * string)) : string :=
  match ocio_look with
  | Some lk => snd lk
  | None => EmptyString
  end.

(** One turn of the loop over the colour spaces: the flags are those of
    the colour space that the configuration returns for the name. *)
Definition load_config_colorspace (config : OCIO_Config) (cat : Catalog) (name : string)
  : Catalog :=
  let ocio_colorspace := OCIO_configGetColorSpace config name in
  let is_invertible := OCIO_colorSpaceIsInvertible ocio_colorspace in
  let is_data := OCIO_colorSpaceIsData ocio_colorspace in
  colormanage_colorspace_add cat name is_invertible is_data.

(** One turn of the loop over the displays: the views are those that the
    configuration returns for the name of the display. *)
Definition load_config_display (config : OCIO_Config) (cat : Catalog) (displayname : string)
  : Catalog :=
  fold_left load_config_view (OCIO_configViews config displayname)
            (colormanage_display_add cat displayname).

(** One turn of the loop over the looks. *)
Definition load_config_look (config : OCIO_Config) (cat : Catalog) (name : string)
  : Catalog :=
  let ocio_look := OCIO_configGetLook config name in
  let process_space := OCIO_lookGetProcessSpace ocio_look in
  colormanage_look_add cat name process_space false.

Definition set_global_tot_display (cat : Catalog) (n : Z) : Catalog :=
  {| global_role_scene_linear := global_role_scene_linear cat;
     global_colorspaces := global_colorspaces cat;
     global_displays := global_displays cat;
     global_views := global_views cat;
     global_looks := global_looks cat;
     global_tot_colorspace := global_tot_colorspace cat;
     global_tot_display := n;
     global_tot_view := global_tot_view cat;
     global_tot_looks := global_tot_looks cat |}.

(** [colormanage_role_color_space_name_get] for the scene-linear role
    (no backup role): the name stays as it is when the role is not found. *)
Definition load_role_scene_linear (cat : Catalog) (config : OCIO_Config) : Catalog :=
  {| global_role_scene_linear :=
       match config_role_scene_linear config with
       | Some name => BLI_strncpy name MAX_COLORSPACE_NAME
       | None => global_role_scene_linear cat
       end;
     global_colorspaces := global_colorspaces cat;
     global_displays := global_displays cat;
     global_views := global_views cat;
     global_looks := global_looks cat;
     global_tot_colorspace := global_tot_colorspace cat;
     global_tot_display := global_tot_display cat;
     global_tot_view := global_tot_view cat;
     global_tot_looks := global_tot_looks cat |}.

(** [colormanage_load_config], without the other role names and the
    luminance and XYZ matrices, which no operation below reads. *)
Definition colormanage_load_config (cat : Catalog) (config : OCIO_Config) : Catalog :=
  let cat0 := load_role_scene_linear cat config in
  let cat1 := fold_left (load_config_colorspace config) (OCIO_configColorSpaceNames config)
                        cat0 in
  let tot_display := Z.of_nat (length (OCIO_configDisplays config)) in
  let cat2 := fold_left (load_config_display config) (OCIO_configDisplays config) cat1 in
  let cat3 := set_global_tot_display cat2 tot_display in
  let cat4 := colormanage_look_add cat3 "None" EmptyString true in
  fold_left (load_config_look config) (OCIO_configLookNames config) cat4.

(** [colormanage_free_config]: every list is emptied, every count reset. *)
Definition colormanage_free_config (cat : Catalog) : Catalog :=
  {| global_role_scene_linear := global_role_scene_linear cat;
     global_colorspaces := [];
     global_displays := [];
     global_views := [];
     global_looks := [];
     global_tot_colorspace := 0;
     global_tot_display := 0;
     global_tot_view := 0;
     global_tot_looks := 0 |}.

(** *** Initialisation *)

Section Init.

(** The environment of [colormanagement_init]: the value of [$OCIO], the
    configuration the engine builds from it, the data directory, the
    configuration read from the file in that directory, and the engine's
    built-in fallback configuration (each may fail and give NULL). *)
Variable ocio_env : option string.
Variable OCIO_configCreateFromEnv : option OCIO_Config.
Variable configdir : option string.
Variable OCIO_configCreateFromFile : string -> option OCIO_Config.
Variable OCIO_configCreateFallback : option OCIO_Config.

(** The configuration chosen by the first three blocks. *)
Definition init_choose_config : option OCIO_Config :=
  let config0 : option OCIO_Config :=
    match ocio_env with
    | Some env => if negb (str_is_empty env) then OCIO_configCreateFromEnv else None
    | None => None
    end in
  let config1 :=
    match config0 with
    | Some c => Some c
    | None =>
        match configdir with
        | Some dir => OCIO_configCreateFromFile dir
        | None => None
        end
    end in
  match config1 with
  | Some c => Some c
  | None => OCIO_configCreateFallback
  end.

(** The catalog after [if (config) { ... colormanage_load_config ... }]. *)
Definition init_first_load (cat : Catalog) : Catalog :=
  match init_choose_config with
  | Some config => colormanage_load_config cat config
  | None => cat
  end.

(** The test that sends initialisation to the fallback configuration. *)
Definition init_needs_fallback (cat : Catalog) : bool :=
  (global_tot_display cat =? 0) || (global_tot_view cat =? 0).

(** [colormanagement_init]; the second load hands the result of
    [OCIO_configCreateFallback] to the loader without a test. *)
Definition colormanagement_init (cat : Catalog) : exec Catalog :=
  let cat1 := init_first_load cat in
  if init_needs_fallback cat1 then
    let cat2 := colormanage_free_config cat1 in
    config ← deref OCIO_configCreateFallback;
    mret (colormanage_load_config cat2 config)
  else mret cat1.

End Init.

End CatalogOps.

(** ** The display-buffer cache *)

Definition curve_mapping_ptr (cm : option CurveMapping) : option Z :=
  curve_mapping_addr <$> cm.

(** [p != q] on two such pointers. *)
Definition ptr_ne (p q : option Z) : bool :=
  match p, q with
  | Some a, Some b => negb (a =? b)
  | None, None => false
  | _, _ => true
  end.

(** [curve_mapping ? curve_mapping->changed_timestamp : 0] *)
Definition curve_mapping_timestamp_of (cm : option CurveMapping) : Z :=
  match cm with
  | Some c => changed_timestamp c
  | None => 0
  end.

Record ColormanageCacheViewSettings := {
  cvs_flag : Z;
  cvs_look : Z;
  cvs_view : Z;
  cvs_exposure : float;
  cvs_gamma : float;
  cvs_dither : float;
  cvs_curve_mapping : option CurveMapping
}.

Record ColormanageCacheDisplaySettings := {
  cds_display : Z
}.

Record ColormanageCacheKey := {
  key_view : Z;
  key_display : Z
}.

Record ColormanageCacheData := {
  data_flag : Z;
  data_look : Z;
  data_exposure : float;
  data_gamma : float;
  data_dither : float;
  data_curve_mapping : option Z;
  data_curve_mapping_timestamp : Z
}.

(** The image buffer that [colormanage_cache_put] allocates around a display
    buffer: its size, its [rect] (the display buffer, four bytes a pixel) and
    the [data] of its [colormanage_cache]. *)
Record CacheImBuf := {
  cache_x : Z;
  cache_y : Z;
  cache_rect : list Byte.byte;
  cache_data : option ColormanageCacheData
}.

(** Modelled from the spec: the block cache (moviecache) is a store from
    keys to objects with an equality contract over the keys
    ([colormanage_hashcmp]); it is a list of bindings here, looked up and
    replaced by key.  Its memory budget and its eviction of old entries are
    not modelled: the statements about lookups hold for every content of the
    store. *)
Definition MovieCache := list (ColormanageCacheKey * CacheImBuf).

Record ColormanageCache := {
  moviecache : option MovieCache;
  data : option ColormanageCacheData
}.

(** The fields of [ImBuf] that colour management reads and writes. *)
Record ImBuf := {
  ibuf_x : Z;
  ibuf_y : Z;
  ibuf_channels : Z;
  ibuf_dither : float;
  ibuf_userflags : Z;
  ibuf_colormanage_flag : Z;
  rect_colorspace : option ColorSpace;
  display_buffer_flags : option (list Z);
  colormanage_cache : option ColormanageCache
}.

Definition set_display_buffer_flags (ibuf : ImBuf) (flags : option (list Z)) : ImBuf :=
  {| ibuf_x := ibuf_x ibuf; ibuf_y := ibuf_y ibuf;
     ibuf_channels := ibuf_channels ibuf; ibuf_dither := ibuf_dither ibuf;
     ibuf_userflags := ibuf_userflags ibuf;
     ibuf_colormanage_flag := ibuf_colormanage_flag ibuf;
     rect_colorspace := rect_colorspace ibuf;
     display_buffer_flags := flags;
     colormanage_cache := colormanage_cache ibuf |}.

Definition set_colormanage_cache (ibuf : ImBuf) (c : option ColormanageCache) : ImBuf :=
  {| ibuf_x := ibuf_x ibuf; ibuf_y := ibuf_y ibuf;
     ibuf_channels := ibuf_channels ibuf; ibuf_dither := ibuf_dither ibuf;
     ibuf_userflags := ibuf_userflags ibuf;
     ibuf_colormanage_flag := ibuf_colormanage_flag ibuf;
     rect_colorspace := rect_colorspace ibuf;
     display_buffer_flags := display_buffer_flags ibuf;
     colormanage_cache := c |}.

(** What the code asks of its collaborators, in the order of the calls. *)
Inductive Call :=
  | Call_moviecache_get (key : ColormanageCacheKey)
  | Call_moviecache_put (key : ColormanageCacheKey) (cache_ibuf : CacheImBuf)
  | Call_freeImBuf (cache_ibuf : CacheImBuf)
  | Call_display_processor_new
  | Call_processor_free
  | Call_update_rect_here (xmin ymin xmax ymax : Z)
  | Call_threaded_scanlines (total_scanlines : Z).

Definition colormanage_moviecache_get (ibuf : ImBuf) : option MovieCache :=
  match colormanage_cache ibuf with
  | None => None
  | Some c => moviecache c
  end.

Definition colormanage_cachedata_get (cache_ibuf : CacheImBuf) : option ColormanageCacheData :=
  cache_data cache_ibuf.

(** Returns true when the keys differ, as the hash table wants it. *)
Definition colormanage_hashcmp (a b : ColormanageCacheKey) : bool :=
  negb (key_view a =? key_view b) || negb (key_display a =? key_display b).

Definition colormanage_moviecache_ensure (ibuf : ImBuf) : ImBuf * MovieCache :=
  let c := match colormanage_cache ibuf with
           | None => {| moviecache := None; data := None |}
           | Some c => c
           end in
  match moviecache c with
  | Some mc => (set_colormanage_cache ibuf (Some c), mc)
  | None =>
      (set_colormanage_cache ibuf (Some {| moviecache := Some []; data := data c |}), [])
  end.

Definition colormanage_settings_to_key
    (view_settings : ColormanageCacheViewSettings)
    (display_settings : ColormanageCacheDisplaySettings) : ColormanageCacheKey :=
  {| key_view := cvs_view view_settings; key_display := cds_display display_settings |}.

(** [IMB_moviecache_get]: the object stored under an equal key. *)
Definition IMB_moviecache_get (mc : MovieCache) (key : ColormanageCacheKey)
  : option CacheImBuf :=
  snd <$> find (fun kv => negb (colormanage_hashcmp (fst kv) key)) mc.

(** [IMB_moviecache_put]: the object replaces what an equal key held. *)
Definition IMB_moviecache_put (mc : MovieCache) (key : ColormanageCacheKey)
    (cache_ibuf : CacheImBuf) : MovieCache :=
  (key, cache_ibuf) :: List.filter (fun kv => colormanage_hashcmp (fst kv) key) mc.

Definition colormanage_cache_get_ibuf (ibuf : ImBuf) (key : ColormanageCacheKey)
  : option CacheImBuf * list Call :=
  match colormanage_moviecache_get ibuf with
  | None => (None, [])
  | Some mc => (IMB_moviecache_get mc key, [Call_moviecache_get key])
  end.

(** [a[i]] for an [unsigned int] array. *)
Definition array_get (a : list Z) (i : Z) : exec Z :=
  if 0 <=? i then deref (a !! Z.to_nat i) else Crash.

(** [a[i] = v] *)
Definition array_set (a : list Z) (i : Z) (v : Z) : exec (list Z) :=
  if (0 <=? i) && (i <? Z.of_nat (length a))
  then Done (<[Z.to_nat i := v]> a)
  else Crash.

(** The comparison of a stored snapshot with the requesting settings:
    true when some field differs. *)
Definition cache_data_mismatch (cache_data : ColormanageCacheData)
    (view_settings : ColormanageCacheViewSettings) : bool :=
  let curve_mapping := cvs_curve_mapping view_settings in
  let curve_mapping_timestamp := curve_mapping_timestamp_of curve_mapping in
  negb (data_look cache_data =? cvs_look view_settings)
  || CFloat.ne (data_exposure cache_data) (cvs_exposure view_settings)
  || CFloat.ne (data_gamma cache_data) (cvs_gamma view_settings)
  || CFloat.ne (data_dither cache_data) (cvs_dither view_settings)
  || negb (data_flag cache_data =? cvs_flag view_settings)
  || ptr_ne (data_curve_mapping cache_data) (curve_mapping_ptr curve_mapping)
  || negb (data_curve_mapping_timestamp cache_data =? curve_mapping_timestamp).

(** The result of a lookup: the display buffer (NULL on a miss), the value
    left in [*cache_handle], and the calls made on the way. *)
Record CacheGetResult := {
  got_buffer : option (list Byte.byte);
  got_handle : option CacheImBuf;
  got_calls : list Call
}.

Definition cache_miss (calls : list Call) : CacheGetResult :=
  {| got_buffer := None; got_handle := None; got_calls := calls |}.

Definition colormanage_cache_get (ibuf : ImBuf)
    (view_settings : ColormanageCacheViewSettings)
    (display_settings : ColormanageCacheDisplaySettings) : exec CacheGetResult :=
  view_flag ← CInt.shl1 (cvs_view view_settings - 1);
  let key := colormanage_settings_to_key view_settings display_settings in
  (* check whether image was marked as dirty for requested transform *)
  flags ← deref (display_buffer_flags ibuf);
  element ← array_get flags (cds_display display_settings - 1);
  if Z.land element view_flag =? 0 then mret (cache_miss [])
  else
    let '(found, calls) := colormanage_cache_get_ibuf ibuf key in
    match found with
    | Some cache_ibuf =>
        cache_data ← deref (colormanage_cachedata_get cache_ibuf);
        if cache_data_mismatch cache_data view_settings
        then mret (cache_miss (calls ++ [Call_freeImBuf cache_ibuf]))
        else mret {| got_buffer := Some (cache_rect cache_ibuf);
                     got_handle := Some cache_ibuf;
                     got_calls := calls |}
    | None => mret (cache_miss calls)
    end.

(** The snapshot that [colormanage_cache_put] stores. *)
Definition cache_data_of (view_settings : ColormanageCacheViewSettings)
  : ColormanageCacheData :=
  let curve_mapping := cvs_curve_mapping view_settings in
  {| data_look := cvs_look view_settings;
     data_exposure := cvs_exposure view_settings;
     data_gamma := cvs_gamma view_settings;
     data_dither := cvs_dither view_settings;
     data_flag := cvs_flag view_settings;
     data_curve_mapping := curve_mapping_ptr curve_mapping;
     data_curve_mapping_timestamp := curve_mapping_timestamp_of curve_mapping |}.

Record CachePutResult := {
  put_ibuf : ImBuf;
  put_handle : CacheImBuf;
  put_calls : list Call
}.

Definition colormanage_cache_put (ibuf : ImBuf)
    (view_settings : ColormanageCacheViewSettings)
    (display_settings : ColormanageCacheDisplaySettings)
    (display_buffer : list Byte.byte) : exec CachePutResult :=
  view_flag ← CInt.shl1 (cvs_view view_settings - 1);
  let '(ibuf1, mc) := colormanage_moviecache_ensure ibuf in
  let key := colormanage_settings_to_key view_settings display_settings in
  (* mark display buffer as valid *)
  flags ← deref (display_buffer_flags ibuf1);
  let display_index := cds_display display_settings - 1 in
  element ← array_get flags display_index;
  flags1 ← array_set flags display_index (Z.lor element view_flag);
  let ibuf2 := set_display_buffer_flags ibuf1 (Some flags1) in
  (* buffer itself, and the data needed to check whether it can be used *)
  let cache_ibuf := {| cache_x := ibuf_x ibuf; cache_y := ibuf_y ibuf;
                       cache_rect := display_buffer;
                       cache_data := Some (cache_data_of view_settings) |} in
  let c := match colormanage_cache ibuf2 with
           | Some c => c
           | None => {| moviecache := None; data := None |}
           end in
  let ibuf3 :=
    set_colormanage_cache ibuf2
      (Some {| moviecache := Some (IMB_moviecache_put mc key cache_ibuf);
               data := data c |}) in
  mret {| put_ibuf := ibuf3; put_handle := cache_ibuf;
          put_calls := [Call_moviecache_put key cache_ibuf] |}.

(** The "ever computed" bit of a (display, view) pair, both 1-based, in a
    bit field: bit [view - 1] of element [display - 1]. *)
Definition display_buffer_bit (flags : list Z) (display view : Z) : bool :=
  match flags !! Z.to_nat (display - 1) with
  | Some element => Z.testbit element (view - 1)
  | None => false
  end.

(** The same request with another exposure. *)
Definition with_exposure (view_settings : ColormanageCacheViewSettings) (exposure : float)
  : ColormanageCacheViewSettings :=
  {| cvs_flag := cvs_flag view_settings;
     cvs_look := cvs_look view_settings;
     cvs_view := cvs_view view_settings;
     cvs_exposure := exposure;
     cvs_gamma := cvs_gamma view_settings;
     cvs_dither := cvs_dither view_settings;
     cvs_curve_mapping := cvs_curve_mapping view_settings |}.

(** The content of the block cache of an image buffer (empty when there is
    none yet). *)
Definition moviecache_of (ibuf : ImBuf) : MovieCache :=
  match colormanage_moviecache_get ibuf with
  | Some mc => mc
  | None => []
  end.

(** ** Processors *)

(** The settings a caller hands in ([ColorManagedViewSettings],
    [ColorManagedDisplaySettings]). *)
Record ColorManagedViewSettings := {
  vs_flag : Z;
  vs_look : string;
  vs_view_transform : string;
  vs_exposure : float;
  vs_gamma : float;
  vs_curve_mapping : option CurveMapping
}.

Record ColorManagedDisplaySettings := {
  display_device : string
}.

Section Processors.

Context {constants : HeaderConstants} {helpers : Helpers}
        {engine : TransformEngine} {threads : TransformThreads}.

(** *** [create_display_buffer_processor] *)

Definition display_processor_scale (exposure : float) : float :=
  if CFloat.eq exposure CFloat.zero then CFloat.one
  else powf CFloat.two exposure.

Definition display_processor_exponent (gamma : float) : float :=
  if CFloat.eq gamma CFloat.one then CFloat.one
  else CFloat.div CFloat.one (CFloat.max_ff CFloat.FLT_EPSILON gamma).

(** What the function hands to [OCIO_createDisplayProcessor]. *)
Definition display_buffer_processor_request (cat : Catalog)
    (look view_transform display : string) (exposure gamma : float)
    (from_colorspace : string) : exec DisplayProcessorRequest :=
  use_look ← colormanage_use_look cat look (Some view_transform);
  let scale := display_processor_scale exposure in
  let exponent := display_processor_exponent gamma in
  mret {| req_from_colorspace := from_colorspace;
          req_view_transform := view_transform;
          req_display := display;
          req_look := if use_look : bool then look else EmptyString;
          req_scale := scale;
          req_exponent := exponent |}.

Definition create_display_buffer_processor (cat : Catalog)
    (look view_transform display : string) (exposure gamma : float)
    (from_colorspace : string) : exec (option OCIO_CPUProcessor) :=
  request ← display_buffer_processor_request cat look view_transform display
              exposure gamma from_colorspace;
  mret (OCIO_createDisplayProcessor request).

Definition display_transform_get_colorspace (cat : Catalog)
    (view_settings : ColorManagedViewSettings)
    (display_settings : ColorManagedDisplaySettings) : option ColorSpace :=
  match OCIO_configGetDisplayColorSpaceName (display_device display_settings)
                                            (vs_view_transform view_settings) with
  | Some colorspace_name => colormanage_colorspace_get_named cat colorspace_name
  | None => None
  end.

(** [IMB_colormanagement_display_processor_new] for view settings that are
    not NULL. *)
Definition IMB_colormanagement_display_processor_new (cat : Catalog)
    (view_settings : ColorManagedViewSettings)
    (display_settings : ColorManagedDisplaySettings) : exec ColormanageProcessor :=
  let data_result :=
    match display_transform_get_colorspace cat view_settings display_settings with
    | Some display_space => is_data display_space
    | None => false
    end in
  cpu ← create_display_buffer_processor cat
          (vs_look view_settings) (vs_view_transform view_settings)
          (display_device display_settings)
          (vs_exposure view_settings) (vs_gamma view_settings)
          (global_role_scene_linear cat);
  let curves :=
    if negb (Z.land (vs_flag view_settings) COLORMANAGE_VIEW_USE_CURVES =? 0)
    then vs_curve_mapping view_settings
    else None in
  mret {| cpu_processor := cpu; curve_mapping := curves; is_data_result := data_result |}.

(** [color_space] is dereferenced as returned by the lookup. *)
Definition IMB_colormanagement_colorspace_processor_new (cat : Catalog)
    (from_colorspace to_colorspace : string) : exec ColormanageProcessor :=
  color_space ← deref (colormanage_colorspace_get_named cat to_colorspace);
  mret {| cpu_processor := OCIO_configGetProcessorWithNames from_colorspace to_colorspace;
          curve_mapping := None;
          is_data_result := is_data color_space |}.

(** *** Application to one pixel *)

Definition apply_curve_rgb (cm_processor : ColormanageProcessor) (pixel : Pixel) : Pixel :=
  match curve_mapping cm_processor with
  | Some cm => pixel_set_rgb pixel (BKE_curvemapping_evaluate_premulRGBF cm (pixel_rgb pixel))
  | None => pixel
  end.

Definition IMB_colormanagement_processor_apply_v4 (cm_processor : ColormanageProcessor)
    (pixel : Pixel) : Pixel :=
  let pixel1 := apply_curve_rgb cm_processor pixel in
  match cpu_processor cm_processor with
  | Some cpu => OCIO_cpuProcessorApplyRGBA cpu pixel1
  | None => pixel1
  end.

Definition IMB_colormanagement_processor_apply_v4_predivide
    (cm_processor : ColormanageProcessor) (pixel : Pixel) : Pixel :=
  let pixel1 := apply_curve_rgb cm_processor pixel in
  match cpu_processor cm_processor with
  | Some cpu => OCIO_cpuProcessorApplyRGBA_predivide cpu pixel1
  | None => pixel1
  end.

Definition IMB_colormanagement_processor_apply_v3 (cm_processor : ColormanageProcessor)
    (pixel : Pixel) : Pixel :=
  let pixel1 := apply_curve_rgb cm_processor pixel in
  match cpu_processor cm_processor with
  | Some cpu => pixel_set_rgb pixel1 (OCIO_cpuProcessorApplyRGB cpu (pixel_rgb pixel1))
  | None => pixel1
  end.

Definition IMB_colormanagement_processor_apply_pixel (cm_processor : ColormanageProcessor)
    (pixel : Pixel) (channels : Z) : Pixel :=
  if channels =? 4 then IMB_colormanagement_processor_apply_v4_predivide cm_processor pixel
  else if channels =? 3 then IMB_colormanagement_processor_apply_v3 cm_processor pixel
  else if channels =? 1 then
    match curve_mapping cm_processor with
    | Some cm => pixel_set_r pixel (BKE_curvemap_evaluateF cm (px_r pixel))
    | None => pixel
    end
  else pixel.

(** *** Application to a buffer *)

Definition bytes4 (c : Byte.byte * Byte.byte * Byte.byte * Byte.byte) : list Byte.byte :=
  let '(b0, b1, b2, b3) := c in [b0; b1; b2; b3].

(** [buffer[i]] and [buffer[i] = v] at a [size_t] offset. *)
Definition buffer_get {A} (buffer : list A) (i : Z) : exec A :=
  deref (buffer !! Z.to_nat i).

Definition buffer_set {A} (buffer : list A) (i : Z) (v : A) : exec (list A) :=
  if i <? Z.of_nat (length buffer) then Done (<[Z.to_nat i := v]> buffer) else Crash.

(** A loop body run for every element of a range, in order. *)
Fixpoint exec_fold {S A} (body : S -> A -> exec S) (range : list A) (s : S) : exec S :=
  match range with
  | [] => Done s
  | a :: rest => s1 ← body s a; exec_fold body rest s1
  end.

(** [for (y = y0; y < y1; y++) for (x = x0; x < x1; x++) body] *)
Definition for_yx {S} (y0 y1 x0 x1 : Z) (body : S -> Z -> Z -> exec S) (s : S) : exec S :=
  exec_fold (fun s1 y => exec_fold (fun s2 x => body s2 y x) (seqZ x0 (x1 - x0)) s1)
            (seqZ y0 (y1 - y0)) s.

(** [curve_mapping_apply_pixel] on the pixel at [offset] of a float buffer. *)
Definition curve_mapping_apply_pixel (cm : CurveMapping) (buffer : list float)
    (offset channels : Z) : exec (list float) :=
  if channels =? 1 then
    v ← buffer_get buffer offset;
    buffer_set buffer offset (BKE_curvemap_evaluateF cm v)
  else if channels =? 2 then
    v0 ← buffer_get buffer offset;
    buffer1 ← buffer_set buffer offset (BKE_curvemap_evaluateF cm v0);
    v1 ← buffer_get buffer1 (offset + 1);
    buffer_set buffer1 (offset + 1) (BKE_curvemap_evaluateF cm v1)
  else
    r ← buffer_get buffer offset;
    g ← buffer_get buffer (offset + 1);
    b ← buffer_get buffer (offset + 2);
    let c := BKE_curvemapping_evaluate_premulRGBF cm (r, g, b) in
    buffer1 ← buffer_set buffer offset (fst (fst c));
    buffer2 ← buffer_set buffer1 (offset + 1) (snd (fst c));
    buffer_set buffer2 (offset + 2) (snd c).

(** [channels * (((size_t)y) * width + x)] *)
Definition pixel_offset (channels y width x : Z) : Z :=
  CInt.size_mul channels (CInt.size_add (CInt.size_mul (CInt.to_size_t y) width) x).

Definition IMB_colormanagement_processor_apply (cm_processor : ColormanageProcessor)
    (buffer : list float) (width height channels : Z) (predivide : bool)
  : exec (list float) :=
  (* apply curve mapping *)
  buffer1 ←
    match curve_mapping cm_processor with
    | Some cm =>
        for_yx 0 height 0 width
          (fun buf y x => curve_mapping_apply_pixel cm buf (pixel_offset channels y width x) channels)
          buffer
    | None => Done buffer
    end;
  match cpu_processor cm_processor with
  | Some cpu =>
      if 3 <=? channels then
        (* apply OCIO processor *)
        if predivide
        then mret (OCIO_cpuProcessorApply_predivide cpu buffer1 width height channels)
        else mret (OCIO_cpuProcessorApply cpu buffer1 width height channels)
      else mret buffer1
  | None => mret buffer1
  end.

Definition buffer_get4 (buffer : list Byte.byte) (offset : Z) : exec (list Byte.byte) :=
  b0 ← buffer_get buffer offset;
  b1 ← buffer_get buffer (offset + 1);
  b2 ← buffer_get buffer (offset + 2);
  b3 ← buffer_get buffer (offset + 3);
  mret [b0; b1; b2; b3].

(** [n] bytes stored from [offset] on. *)
Definition buffer_store (buffer : list Byte.byte) (offset : Z) (bytes : list Byte.byte)
  : exec (list Byte.byte) :=
  if offset + Z.of_nat (length bytes) <=? Z.of_nat (length buffer)
  then Done (list_inserts (Z.to_nat offset) bytes buffer)
  else Crash.

Definition IMB_colormanagement_processor_apply_byte (cm_processor : ColormanageProcessor)
    (buffer : list Byte.byte) (width height channels : Z) : exec (list Byte.byte) :=
  for_yx 0 height 0 width
    (fun buf y x =>
       let offset := pixel_offset channels y width x in
       bytes ← buffer_get4 buf offset;
       let pixel := IMB_colormanagement_processor_apply_v4 cm_processor
                      (rgba_uchar_to_float bytes) in
       buffer_store buf offset (bytes4 (rgba_float_to_uchar pixel)))
    buffer.

(** *** Colour space transformation of a buffer *)

Definition colormanagement_transform_ex (cat : Catalog)
    (byte_buffer : option (list Byte.byte)) (float_buffer : option (list float))
    (width height channels : Z) (from_colorspace to_colorspace : string)
    (predivide do_threaded : bool)
  : exec (option (list Byte.byte) * option (list float)) :=
  if str_is_empty from_colorspace then mret (byte_buffer, float_buffer)
  else if STREQ from_colorspace to_colorspace then
    (* source and destination are identical: simply do nothing *)
    mret (byte_buffer, float_buffer)
  else
    cm_processor ← IMB_colormanagement_colorspace_processor_new cat
                     from_colorspace to_colorspace;
    if do_threaded then
      mret (processor_transform_apply_threaded cm_processor byte_buffer float_buffer
              width height channels predivide)
    else
      byte_buffer1 ←
        match byte_buffer with
        | Some bytes =>
            Some <$> IMB_colormanagement_processor_apply_byte cm_processor bytes
                       width height channels
        | None => Done None
        end;
      float_buffer1 ←
        match float_buffer with
        | Some floats =>
            Some <$> IMB_colormanagement_processor_apply cm_processor floats
                       width height channels predivide
        | None => Done None
        end;
      mret (byte_buffer1, float_buffer1).

Definition IMB_colormanagement_transform (cat : Catalog) (buffer : list float)
    (width height channels : Z) (from_colorspace to_colorspace : string)
    (predivide : bool) : exec (list float) :=
  r ← colormanagement_transform_ex cat None (Some buffer) width height channels
        from_colorspace to_colorspace predivide false;
  deref (snd r).

Definition IMB_colormanagement_transform_v4 (cat : Catalog) (pixel : Pixel)
    (from_colorspace to_colorspace : string) : exec Pixel :=
  if str_is_empty from_colorspace then mret pixel
  else if STREQ from_colorspace to_colorspace then mret pixel
  else
    cm_processor ← IMB_colormanagement_colorspace_processor_new cat
                     from_colorspace to_colorspace;
    mret (IMB_colormanagement_processor_apply_v4 cm_processor pixel).

(** *** Partial update of a display buffer *)

(** Modelled from the spec: [IMB_buffer_byte_from_float] is not in this
    file.  It quantises a block of [width] x [height] float pixels back to
    bytes and stores one pixel of four bytes for each, row [y] starting
    [stride_to * y] pixels after [rect_to]; here [rect_to] is an offset
    into the display buffer. *)
Definition IMB_buffer_byte_from_float (display_buffer : list Byte.byte) (rect_to : Z)
    (rect_from : Z -> float) (channels_from : Z) (dither : float)
    (width height stride_to stride_from : Z) : exec (list Byte.byte) :=
  for_yx 0 height 0 width
    (fun buf y x =>
       let to := CInt.size_add rect_to
                   (CInt.size_mul (CInt.size_add (CInt.size_mul (CInt.to_size_t stride_to) y) x) 4) in
       buffer_store buf to
         (bytes4 (byte_from_float_pixel rect_from channels_from dither stride_from x y)))
    display_buffer.

(** [memcpy(dst + dst_offset, src + src_offset, n)] into a display buffer. *)
Definition memcpy (dst : list Byte.byte) (dst_offset : Z) (src : Z -> Byte.byte)
    (src_offset n : Z) : exec (list Byte.byte) :=
  if dst_offset + n <=? Z.of_nat (length dst)
  then Done (list_inserts (Z.to_nat dst_offset) (src <$> seqZ src_offset n) dst)
  else Crash.

Definition colorspace_to_scene_linear_cpu_processor (cat : Catalog)
    (colorspace : ColorSpace) : option OCIO_CPUProcessor :=
  OCIO_configGetProcessorWithNames (colorspace_name colorspace)
                                   (global_role_scene_linear cat).

Definition IMB_colormanagement_colorspace_to_scene_linear_v3 (cat : Catalog)
    (pixel : Pixel) (colorspace : option ColorSpace) : Pixel :=
  match colorspace with
  | None => pixel
  | Some cs =>
      match colorspace_to_scene_linear_cpu_processor cat cs with
      | Some processor =>
          pixel_set_rgb pixel (OCIO_cpuProcessorApplyRGB processor (pixel_rgb pixel))
      | None => pixel
      end
  end.

(** [((size_t)y * stride + x) * channels] *)
Definition buffer_index (y stride x channels : Z) : Z :=
  CInt.size_mul (CInt.size_add (CInt.size_mul (CInt.to_size_t y) stride) x) channels.

(** The pixel read at [linear_index] from the float buffer or, without
    one, from the byte buffer. *)
Definition partial_update_source_pixel (cat : Catalog) (rect_space : option ColorSpace)
    (linear_buffer : option (Z -> float)) (byte_buffer : option (Z -> Byte.byte))
    (channels linear_index : Z) : Pixel :=
  match linear_buffer with
  | Some lb =>
      if channels =? 4 then
        {| px_r := lb linear_index; px_g := lb (linear_index + 1);
           px_b := lb (linear_index + 2); px_a := lb (linear_index + 3) |}
      else if channels =? 3 then
        {| px_r := lb linear_index; px_g := lb (linear_index + 1);
           px_b := lb (linear_index + 2); px_a := CFloat.one |}
      else if channels =? 1 then pixel_set_r pixel_indeterminate (lb linear_index)
      else pixel_indeterminate
  | None =>
      match byte_buffer with
      | Some bb =>
          let pixel := rgba_uchar_to_float
                         [bb linear_index; bb (linear_index + 1);
                          bb (linear_index + 2); bb (linear_index + 3)] in
          straight_to_premul_v4
            (IMB_colormanagement_colorspace_to_scene_linear_v3 cat pixel rect_space)
      | None => pixel_indeterminate
      end
  end.

(** The store of one pixel into the intermediate float buffer. *)
Definition float_buffer_put (fb : Z -> float) (index channels : Z) (pixel : Pixel)
  : Z -> float :=
  fun i =>
    if channels =? 4 then
      if i =? index then px_r pixel else if i =? index + 1 then px_g pixel
      else if i =? index + 2 then px_b pixel else if i =? index + 3 then px_a pixel
      else fb i
    else if channels =? 3 then
      if i =? index then px_r pixel else if i =? index + 1 then px_g pixel
      else if i =? index + 2 then px_b pixel else fb i
    else
      if i =? index then px_r pixel else fb i.

(** The bytes stored for one pixel when no dither is wanted. *)
Definition display_pixel_bytes (channels : Z) (pixel : Pixel) : list Byte.byte :=
  if channels =? 4 then bytes4 (rgba_float_to_uchar (premul_to_straight_v4_v4 pixel))
  else if channels =? 3 then
    let '(r, g, b) := rgb_float_to_uchar pixel in [r; g; b; Byte.xff]
  else
    let v := unit_float_to_uchar_clamp (px_r pixel) in [v; v; v; v].

Definition partial_buffer_update_rect (cat : Catalog) (ibuf : ImBuf)
    (display_buffer : list Byte.byte)
    (linear_buffer : option (Z -> float)) (byte_buffer : option (Z -> Byte.byte))
    (display_stride linear_stride linear_offset_x linear_offset_y : Z)
    (cm_processor : option ColormanageProcessor)
    (xmin ymin xmax ymax : Z) : exec (list Byte.byte) :=
  let dither := ibuf_dither ibuf in
  let rect_space := rect_colorspace ibuf in
  width ← CInt.sub xmax xmin;
  height ← CInt.sub ymax ymin;
  let is_data_buffer :=
    negb (Z.land (ibuf_colormanage_flag ibuf) IMB_COLORMANAGE_IS_DATA =? 0) in
  let use_float := CFloat.ne dither CFloat.zero in
  let channels :=
    if use_float && match cm_processor with Some _ => false | None => true end then 4
    else ibuf_channels ibuf in
  let display_buffer_float0 : Z -> float := fun _ => CFloat.zero in
  '(display_buffer1, display_buffer_float) ←
    match cm_processor with
    | Some processor =>
        for_yx ymin ymax xmin xmax
          (fun '(buf, fb) y x =>
             let display_index := buffer_index y display_stride x 4 in
             ly ← CInt.sub y linear_offset_y;
             lx ← CInt.sub x linear_offset_x;
             let linear_index := buffer_index ly linear_stride lx channels in
             let pixel := partial_update_source_pixel cat rect_space linear_buffer
                            byte_buffer channels linear_index in
             let pixel1 :=
               if is_data_buffer then pixel
               else IMB_colormanagement_processor_apply_pixel processor pixel channels in
             if use_float then
               let index := buffer_index (y - ymin) width (x - xmin) channels in
               mret (buf, float_buffer_put fb index channels pixel1)
             else
               buf1 ← buffer_store buf display_index (display_pixel_bytes channels pixel1);
               mret (buf1, fb))
          (display_buffer, display_buffer_float0)
    | None =>
        if use_float then
          (* for dither a float buffer is needed first *)
          mret (display_buffer,
                IMB_buffer_float_from_byte byte_buffer width height width display_stride)
        else
          buf1 ← exec_fold
                   (fun buf i =>
                      let byte_offset := buffer_index linear_stride i xmin 4 in
                      let display_offset := buffer_index display_stride i xmin 4 in
                      bb ← deref byte_buffer;
                      memcpy buf display_offset bb byte_offset (CInt.size_mul 4 width))
                   (seqZ ymin (ymax - ymin)) display_buffer;
          mret (buf1, display_buffer_float0)
    end;
  if use_float then
    let display_index := buffer_index ymin display_stride xmin channels in
    IMB_buffer_byte_from_float display_buffer1 display_index display_buffer_float
      channels dither width height display_stride width
  else mret display_buffer1.

Record PartialThreadData := {
  td_ibuf : ImBuf;
  td_linear_buffer : option (Z -> float);
  td_byte_buffer : option (Z -> Byte.byte);
  td_display_stride : Z;
  td_linear_stride : Z;
  td_linear_offset_x : Z;
  td_linear_offset_y : Z;
  td_cm_processor : option ColormanageProcessor;
  td_xmin : Z;
  td_ymin : Z;
  td_xmax : Z
}.

(** The display buffer of the thread data is threaded through as state. *)
Definition partial_buffer_update_rect_thread_do (cat : Catalog)
    (data_v : PartialThreadData)
    (display_buffer : list Byte.byte) (scanline : Z) : exec (list Byte.byte) :=
  let ymin := td_ymin data_v + scanline in
  let num_scanlines := 1 in
  partial_buffer_update_rect cat (td_ibuf data_v) display_buffer
    (td_linear_buffer data_v) (td_byte_buffer data_v)
    (td_display_stride data_v) (td_linear_stride data_v)
    (td_linear_offset_x data_v) (td_linear_offset_y data_v)
    (td_cm_processor data_v)
    (td_xmin data_v) ymin (td_xmax data_v) (ymin + num_scanlines).

(** Modelled from the spec: [IMB_processor_apply_threaded_scanlines] is
    the thread pool.  It runs the worker once for every scanline
    [0 .. total_scanlines - 1] and joins before it returns; how the
    scanlines are spread over threads is not modelled, they run here in
    ascending order. *)
Definition IMB_processor_apply_threaded_scanlines (total_scanlines : Z)
    (do_thread : list Byte.byte -> Z -> exec (list Byte.byte))
    (display_buffer : list Byte.byte) : exec (list Byte.byte) :=
  exec_fold do_thread (seqZ 0 total_scanlines) display_buffer.

(** *** From the caller's settings to the cache's *)

Definition colormanage_view_settings_to_cache (cat : Catalog) (ibuf : ImBuf)
    (view_settings : ColorManagedViewSettings) : ColormanageCacheViewSettings :=
  let look := IMB_colormanagement_look_get_named_index cat (vs_look view_settings) in
  let view := IMB_colormanagement_view_get_named_index cat (vs_view_transform view_settings) in
  {| cvs_look := look;
     cvs_view := view;
     cvs_exposure := vs_exposure view_settings;
     cvs_gamma := vs_gamma view_settings;
     cvs_dither := ibuf_dither ibuf;
     cvs_flag := vs_flag view_settings;
     cvs_curve_mapping := vs_curve_mapping view_settings |}.

Definition colormanage_display_settings_to_cache (cat : Catalog)
    (display_settings : ColorManagedDisplaySettings) : ColormanageCacheDisplaySettings :=
  {| cds_display :=
       IMB_colormanagement_display_get_named_index cat (display_device display_settings) |}.

Definition is_ibuf_rect_in_display_space (cat : Catalog) (ibuf : ImBuf)
    (view_settings : ColorManagedViewSettings)
    (display_settings : ColorManagedDisplaySettings) : exec bool :=
  if (Z.land (vs_flag view_settings) COLORMANAGE_VIEW_USE_CURVES =? 0)
     && CFloat.eq (vs_exposure view_settings) CFloat.zero
     && CFloat.eq (vs_gamma view_settings) CFloat.one
  then
    rect_space ← deref (rect_colorspace ibuf);
    let from_colorspace := colorspace_name rect_space in
    let to_colorspace :=
      OCIO_configGetDisplayColorSpaceName (display_device display_settings)
                                          (vs_view_transform view_settings) in
    if look_has_process_space cat (vs_look view_settings) then mret false
    else
      match to_colorspace with
      | Some to => mret (STREQ from_colorspace to)
      | None => mret false
      end
  else mret false.

(** [memset(flags, 0, n * sizeof(unsigned int))] *)
Definition memset_zero (flags : list Z) (n : Z) : exec (list Z) :=
  if (0 <=? n) && (n <=? Z.of_nat (length flags))
  then Done (replicate (Z.to_nat n) 0 ++ drop (Z.to_nat n) flags)
  else Crash.

(** The display buffer handed out by the cache is the [rect] of the cached
    image buffer: what is written through the pointer is written there. *)
Fixpoint moviecache_write_rect (mc : MovieCache) (key : ColormanageCacheKey)
    (display_buffer : list Byte.byte) : MovieCache :=
  match mc with
  | [] => []
  | (k, cache_ibuf) :: rest =>
      if negb (colormanage_hashcmp k key)
      then (k, {| cache_x := cache_x cache_ibuf; cache_y := cache_y cache_ibuf;
                  cache_rect := display_buffer;
                  cache_data := cache_data cache_ibuf |}) :: rest
      else (k, cache_ibuf) :: moviecache_write_rect rest key display_buffer
  end.

Definition ibuf_write_display_buffer (ibuf : ImBuf) (key : ColormanageCacheKey)
    (display_buffer : list Byte.byte) : ImBuf :=
  match colormanage_cache ibuf with
  | Some c =>
      set_colormanage_cache ibuf
        (Some {| moviecache :=
                   (fun mc => moviecache_write_rect mc key display_buffer) <$> moviecache c;
                 data := data c |})
  | None => ibuf
  end.

(** [display_buffer] after the guarded lookup of
    [imb_partial_display_buffer_update_ex]: it stays NULL when all display
    buffers are marked invalid. *)
Definition partial_update_cache_lookup (ibuf : ImBuf)
    (cache_view_settings : ColormanageCacheViewSettings)
    (cache_display_settings : ColormanageCacheDisplaySettings) : exec CacheGetResult :=
  if Z.land (ibuf_userflags ibuf) IB_DISPLAY_BUFFER_INVALID =? 0
  then colormanage_cache_get ibuf cache_view_settings cache_display_settings
  else mret (cache_miss []).

(** The first block of [imb_partial_display_buffer_update_ex], run when
    the bit field exists: the lookup, then the bit field is cleared and
    the bit of the requested pair set. *)
Definition partial_update_lookup (cat : Catalog) (ibuf : ImBuf) (flags : list Z)
    (view_settings : ColorManagedViewSettings)
    (display_settings : ColorManagedDisplaySettings)
  : exec (ImBuf * CacheGetResult) :=
  let cache_view_settings := colormanage_view_settings_to_cache cat ibuf view_settings in
  let cache_display_settings := colormanage_display_settings_to_cache cat display_settings in
  view_flag ← CInt.shl1 (cvs_view cache_view_settings - 1);
  let display_index := cds_display cache_display_settings - 1 in
  got ← partial_update_cache_lookup ibuf cache_view_settings cache_display_settings;
  (* Mark all other buffers as invalid. *)
  flags1 ← memset_zero flags (global_tot_display cat);
  element ← array_get flags1 display_index;
  flags2 ← array_set flags1 display_index (Z.lor element view_flag);
  mret (set_display_buffer_flags ibuf (Some flags2), got).

Definition imb_partial_display_buffer_update_ex (cat : Catalog) (ibuf : ImBuf)
    (linear_buffer : option (Z -> float)) (byte_buffer : option (Z -> Byte.byte))
    (stride offset_x offset_y : Z)
    (view_settings : ColorManagedViewSettings)
    (display_settings : ColorManagedDisplaySettings)
    (xmin ymin xmax ymax : Z) (do_threads : bool) : exec (ImBuf * list Call) :=
  '(ibuf1, got) ←
    match display_buffer_flags ibuf with
    | Some flags => partial_update_lookup cat ibuf flags view_settings display_settings
    | None => mret (ibuf, cache_miss [])
    end;
  let buffer_width := ibuf_x ibuf in
  match got_buffer got with
  | Some display_buffer =>
      skip_transform ←
        match linear_buffer, byte_buffer with
        | None, Some _ => is_ibuf_rect_in_display_space cat ibuf1 view_settings display_settings
        | _, _ => mret false
        end;
      cm_processor ←
        (if skip_transform : bool then mret None
         else Some <$> IMB_colormanagement_display_processor_new cat
                         view_settings display_settings);
      '(display_buffer1, how) ←
        (if do_threads then
           let data := {| td_ibuf := ibuf1;
                          td_linear_buffer := linear_buffer;
                          td_byte_buffer := byte_buffer;
                          td_display_stride := buffer_width;
                          td_linear_stride := stride;
                          td_linear_offset_x := offset_x;
                          td_linear_offset_y := offset_y;
                          td_cm_processor := cm_processor;
                          td_xmin := xmin; td_ymin := ymin; td_xmax := xmax |} in
           total_scanlines ← CInt.sub ymax ymin;
           buf ← IMB_processor_apply_threaded_scanlines total_scanlines
                   (partial_buffer_update_rect_thread_do cat data) display_buffer;
           mret (buf, Call_threaded_scanlines total_scanlines)
         else
           buf ← partial_buffer_update_rect cat ibuf1 display_buffer linear_buffer byte_buffer
                   buffer_width stride offset_x offset_y cm_processor
                   xmin ymin xmax ymax;
           mret (buf, Call_update_rect_here xmin ymin xmax ymax));
      let key := colormanage_settings_to_key
                   (colormanage_view_settings_to_cache cat ibuf view_settings)
                   (colormanage_display_settings_to_cache cat display_settings) in
      let calls :=
        got_calls got
        ++ (if skip_transform : bool then [] else [Call_display_processor_new])
        ++ [how]
        ++ (match cm_processor with Some _ => [Call_processor_free] | None => [] end)
        ++ (match got_handle got with
            | Some cache_ibuf => [Call_freeImBuf cache_ibuf]
            | None => []
            end) in
      mret (ibuf_write_display_buffer ibuf1 key display_buffer1, calls)
  | None => mret (ibuf1, got_calls got)
  end.

(** The value of [display_buffer] when [imb_partial_display_buffer_update_ex]
    reaches [if (display_buffer)]: the display buffer of the requested pair
    if the lookup found it, NULL otherwise. *)
Definition partial_update_display_buffer (cat : Catalog) (ibuf : ImBuf)
    (view_settings : ColorManagedViewSettings)
    (display_settings : ColorManagedDisplaySettings) : exec (option (list Byte.byte)) :=
  match display_buffer_flags ibuf with
  | Some flags =>
      r ← partial_update_lookup cat ibuf flags view_settings display_settings;
      mret (got_buffer (snd r))
  | None => mret None
  end.

Definition IMB_partial_display_buffer_update (cat : Catalog) (ibuf : ImBuf)
    (linear_buffer : option (Z -> float)) (byte_buffer : option (Z -> Byte.byte))
    (stride offset_x offset_y : Z)
    (view_settings : ColorManagedViewSettings)
    (display_settings : ColorManagedDisplaySettings)
    (xmin ymin xmax ymax : Z) : exec (ImBuf * list Call) :=
  imb_partial_display_buffer_update_ex cat ibuf linear_buffer byte_buffer
    stride offset_x offset_y view_settings display_settings xmin ymin xmax ymax false.

(** [(((size_t)width) * height >= 64 * 64)] *)
Definition partial_update_do_threads (width height : Z) : bool :=
  64 * 64 <=? CInt.size_mul (CInt.to_size_t width) height.

Definition IMB_partial_display_buffer_update_threaded (cat : Catalog) (ibuf : ImBuf)
    (linear_buffer : option (Z -> float)) (byte_buffer : option (Z -> Byte.byte))
    (stride offset_x offset_y : Z)
    (view_settings : ColorManagedViewSettings)
    (display_settings : ColorManagedDisplaySettings)
    (xmin ymin xmax ymax : Z) : exec (ImBuf * list Call) :=
  width ← CInt.sub xmax xmin;
  height ← CInt.sub ymax ymin;
  let do_threads := partial_update_do_threads width height in
  imb_partial_display_buffer_update_ex cat ibuf linear_buffer byte_buffer
    stride offset_x offset_y view_settings display_settings xmin ymin xmax ymax do_threads.

End Processors.

(** ** Catalog queries by index *)

(** [BLI_findlink] of BLI_listbase, which is not part of this file: the
    link at position [number] counted from 0, NULL when [number] is
    negative or the list is too short. *)
Definition BLI_findlink {A} (listbase : list A) (number : Z) : option A :=
  if 0 <=? number then listbase !! Z.to_nat number else None.

Definition colormanage_display_get_indexed (cat : Catalog) (index : Z)
  : exec (option ColorManagedDisplay) :=
  (* display indices are 1-based *)
  number ← CInt.sub index 1;
  Done (BLI_findlink (global_displays cat) number).

Definition IMB_colormanagement_display_get_indexed_name (cat : Catalog) (index : Z)
  : exec (option string) :=
  display ← colormanage_display_get_indexed cat index;
  Done (match display with
        | Some found => Some (display_name found)
        | None => None
        end).

Definition colormanage_view_get_indexed (cat : Catalog) (index : Z)
  : exec (option ColorManagedView) :=
  (* view transform indices are 1-based *)
  number ← CInt.sub index 1;
  Done (BLI_findlink (global_views cat) number).

Definition IMB_colormanagement_view_get_indexed_name (cat : Catalog) (index : Z)
  : exec (option string) :=
  view ← colormanage_view_get_indexed cat index;
  Done (match view with
        | Some found => Some (view_name found)
        | None => None
        end).

Definition colormanage_colorspace_get_indexed (cat : Catalog) (index : Z)
  : exec (option ColorSpace) :=
  (* color space indices are 1-based *)
  number ← CInt.sub index 1;
  Done (BLI_findlink (global_colorspaces cat) number).

Definition IMB_colormanagement_colorspace_get_named_index (cat : Catalog) (name : string) : Z :=
  match colormanage_colorspace_get_named cat name with
  | Some colorspace => colorspace_index colorspace
  | None => 0
  end.

(** Unlike its siblings this one returns the empty string, not NULL, for
    an index without a colour space. *)
Definition IMB_colormanagement_colorspace_get_indexed_name (cat : Catalog) (index : Z)
  : exec string :=
  colorspace ← colormanage_colorspace_get_indexed cat index;
  Done (match colorspace with
        | Some cs => colorspace_name cs
        | None => EmptyString
        end).

Definition colormanage_look_get_indexed (cat : Catalog) (index : Z)
  : exec (option ColorManagedLook) :=
  (* look indices are 1-based *)
  number ← CInt.sub index 1;
  Done (BLI_findlink (global_looks cat) number).

Definition IMB_colormanagement_look_get_indexed_name (cat : Catalog) (index : Z)
  : exec (option string) :=
  look ← colormanage_look_get_indexed cat index;
  Done (match look with
        | Some found => Some (look_name found)
        | None => None
        end).

(** ** Defaults and checks of the settings *)

(** The sizes of the name arrays of the settings structures
    (DNA_color_types.h): [look] and [view_transform] of
    [ColorManagedViewSettings], [display_device] of
    [ColorManagedDisplaySettings], [name] of
    [ColorManagedColorspaceSettings]. *)
Class SettingsSizes := {
  sizeof_look : nat;
  sizeof_view_transform : nat;
  sizeof_display_device : nat;
  sizeof_colorspace_settings_name : nat
}.

(** What the current configuration of the engine names as defaults:
    [OCIO_configGetDefaultDisplay] and [OCIO_configGetDefaultView]. *)
Class ConfigDefaults := {
  OCIO_configGetDefaultDisplay : option string;
  OCIO_configGetDefaultView : string -> option string
}.

(** [strcasecmp] of <strings.h>, behind [STRCASEEQ]. *)
Class LibC := {
  strcasecmp : string -> string -> Z
}.

Definition STRCASEEQ {libc : LibC} (a b : string) : bool := strcasecmp a b =? 0.

Section SettingsChecks.

Context {constants : HeaderConstants} {sizes : SettingsSizes}
        {defaults : ConfigDefaults} {libc : LibC}.

Definition colormanage_display_get_default_name : option string :=
  OCIO_configGetDefaultDisplay.

(** [display_name[0]] is read from what the engine returned. *)
Definition colormanage_display_get_default (cat : Catalog)
  : exec (option ColorManagedDisplay) :=
  display_name ← deref colormanage_display_get_default_name;
  if str_is_empty display_name then Done None
  else Done (colormanage_display_get_named cat display_name).

(** [display->name] is read from the display that the caller hands in. *)
Definition colormanage_view_get_default_name (display : option ColorManagedDisplay)
  : exec (option string) :=
  display ← deref display;
  Done (OCIO_configGetDefaultView (display_name display)).

Definition colormanage_view_get_default (cat : Catalog)
    (display : option ColorManagedDisplay) : exec (option ColorManagedView) :=
  name ← colormanage_view_get_default_name display;
  match name with
  | None => Done None
  | Some name =>
      if str_is_empty name then Done None
      else Done (colormanage_view_get_named cat name)
  end.

Definition colormanage_view_get_named_for_display (cat : Catalog)
    (display_name name : string) : option ColorManagedView :=
  match colormanage_display_get_named cat display_name with
  | None => None
  | Some display =>
      find (fun view => STRCASEEQ name (view_name view)) (display_views display)
  end.

Definition IMB_colormanagement_display_get_default_name (cat : Catalog) : exec string :=
  display ← colormanage_display_get_default cat;
  display ← deref display;
  Done (display_name display).

Definition IMB_colormanagement_display_get_none_name (cat : Catalog) : option string :=
  match colormanage_display_get_named cat "None" with
  | Some _ => Some "None"%string
  | None => colormanage_display_get_default_name
  end.

Definition IMB_colormanagement_view_get_default_name (cat : Catalog)
    (display_name : string) : exec (option string) :=
  let display := colormanage_display_get_named cat display_name in
  view ← match display with
         | Some _ => colormanage_view_get_default cat display
         | None => Done None
         end;
  Done (match view with
        | Some view => Some (view_name view)
        | None => None
        end).

Definition set_view_transform (view_settings : ColorManagedViewSettings) (name : string)
  : ColorManagedViewSettings :=
  {| vs_flag := vs_flag view_settings;
     vs_look := vs_look view_settings;
     vs_view_transform := name;
     vs_exposure := vs_exposure view_settings;
     vs_gamma := vs_gamma view_settings;
     vs_curve_mapping := vs_curve_mapping view_settings |}.

Definition set_look (view_settings : ColorManagedViewSettings) (name : string)
  : ColorManagedViewSettings :=
  {| vs_flag := vs_flag view_settings;
     vs_look := name;
     vs_view_transform := vs_view_transform view_settings;
     vs_exposure := vs_exposure view_settings;
     vs_gamma := vs_gamma view_settings;
     vs_curve_mapping := vs_curve_mapping view_settings |}.

(** The default view of a display that is known by name: NULL for an
    unknown display. *)
Definition default_view_of_device (cat : Catalog) (display_device : string)
  : exec (option ColorManagedView) :=
  let display := colormanage_display_get_named cat display_device in
  match display with
  | Some _ => colormanage_view_get_default cat display
  | None => Done None
  end.

Definition IMB_colormanagement_init_default_view_settings (cat : Catalog)
    (display_settings : ColorManagedDisplaySettings) : exec ColorManagedViewSettings :=
  (* First, try use "Standard" view transform of the requested device. *)
  default_view ←
    match colormanage_view_get_named_for_display cat
            (display_device display_settings) "Standard" with
    | Some view => Done (Some view)
    | None =>
        (* fall back to the default view transform of the display *)
        default_view_of_device cat (display_device display_settings)
    end;
  Done {| vs_view_transform :=
            match default_view with
            | Some view => BLI_strncpy (view_name view) sizeof_view_transform
            | None => EmptyString
            end;
          vs_look := BLI_strncpy "None" sizeof_look;
          vs_flag := 0;
          vs_gamma := CFloat.one;
          vs_exposure := CFloat.zero;
          vs_curve_mapping := None |}.

(** The settings a function works with: those of the caller or, when the
    caller hands in NULL, the default ones. *)
Definition applied_view_settings (cat : Catalog)
    (view_settings : option ColorManagedViewSettings)
    (display_settings : ColorManagedDisplaySettings) : exec ColorManagedViewSettings :=
  match view_settings with
  | Some view_settings => Done view_settings
  | None => IMB_colormanagement_init_default_view_settings cat display_settings
  end.

Definition colormanage_check_display_settings (cat : Catalog)
    (display_settings : ColorManagedDisplaySettings)
    (default_display : ColorManagedDisplay) : ColorManagedDisplaySettings :=
  if str_is_empty (display_device display_settings) then
    {| display_device := BLI_strncpy (display_name default_display) sizeof_display_device |}
  else
    match colormanage_display_get_named cat (display_device display_settings) with
    | Some _ => display_settings
    | None =>
        {| display_device :=
             BLI_strncpy (display_name default_display) sizeof_display_device |}
    end.

(** [default_look->name] is read from the head of the look list without a
    test. *)
Definition colormanage_check_view_settings (cat : Catalog)
    (display_settings : ColorManagedDisplaySettings)
    (view_settings : ColorManagedViewSettings) : exec ColorManagedViewSettings :=
  let default_look := head (global_looks cat) in
  view_settings1 ←
    (if str_is_empty (vs_view_transform view_settings) then
       default_view ← default_view_of_device cat (display_device display_settings);
       match default_view with
       | Some view =>
           Done (set_view_transform view_settings
                   (BLI_strncpy (view_name view) sizeof_view_transform))
       | None => Done view_settings
       end
     else
       match colormanage_view_get_named cat (vs_view_transform view_settings) with
       | Some _ => Done view_settings
       | None =>
           default_view ← default_view_of_device cat (display_device display_settings);
           match default_view with
           | Some view =>
               Done (set_view_transform view_settings
                       (BLI_strncpy (view_name view) sizeof_view_transform))
           | None => Done view_settings
           end
       end);
  view_settings2 ←
    (if str_is_empty (vs_look view_settings1) then
       look ← deref default_look;
       Done (set_look view_settings1 (BLI_strncpy (look_name look) sizeof_look))
     else
       match colormanage_look_get_named cat (vs_look view_settings1) with
       | Some _ => Done view_settings1
       | None =>
           look ← deref default_look;
           Done (set_look view_settings1 (BLI_strncpy (look_name look) sizeof_look))
       end);
  if CFloat.eq (vs_exposure view_settings2) CFloat.zero
     && CFloat.eq (vs_gamma view_settings2) CFloat.zero
  then
    Done {| vs_flag := vs_flag view_settings2;
            vs_look := vs_look view_settings2;
            vs_view_transform := vs_view_transform view_settings2;
            vs_exposure := CFloat.zero;
            vs_gamma := CFloat.one;
            vs_curve_mapping := vs_curve_mapping view_settings2 |}
  else Done view_settings2.

(** On the [name] of a [ColorManagedColorspaceSettings]. *)
Definition colormanage_check_colorspace_settings (cat : Catalog) (name : string) : string :=
  if str_is_empty name then name
  else
    match colormanage_colorspace_get_named cat name with
    | Some _ => name
    | None => BLI_strncpy EmptyString sizeof_colorspace_settings_name
    end.

Definition IMB_colormanagement_validate_settings (cat : Catalog)
    (display_settings : ColorManagedDisplaySettings)
    (view_settings : ColorManagedViewSettings) : exec ColorManagedViewSettings :=
  let display := colormanage_display_get_named cat (display_device display_settings) in
  default_view ← colormanage_view_get_default cat display;
  display ← deref display;
  let view_link :=
    find (fun view => STREQ (view_name view) (vs_view_transform view_settings))
         (display_views display) in
  match view_link, default_view with
  | None, Some default_view =>
      Done (set_view_transform view_settings
              (BLI_strncpy (view_name default_view) sizeof_view_transform))
  | _, _ => Done view_settings
  end.

End SettingsChecks.

(** ** Roles *)

(** The role names among the file-level globals that the catalog record
    leaves out ([global_role_data], ...). *)
Record RoleNames := {
  global_role_data : string;
  global_role_color_picking : string;
  global_role_texture_painting : string;
  global_role_default_byte : string;
  global_role_default_float : string;
  global_role_default_sequencer : string
}.

(** The values of the [COLOR_ROLE_...] enumeration (IMB_colormanagement.h)
    and any other [int]. *)
Inductive ColorRole :=
  | COLOR_ROLE_SCENE_LINEAR
  | COLOR_ROLE_COLOR_PICKING
  | COLOR_ROLE_TEXTURE_PAINTING
  | COLOR_ROLE_DEFAULT_SEQUENCER
  | COLOR_ROLE_DEFAULT_BYTE
  | COLOR_ROLE_DEFAULT_FLOAT
  | COLOR_ROLE_DATA
  | COLOR_ROLE_other (role : Z).

(** NULL for a role that is none of the seven. *)
Definition IMB_colormanagement_role_colorspace_name_get (cat : Catalog)
    (roles : RoleNames) (role : ColorRole) : option string :=
  match role with
  | COLOR_ROLE_DATA => Some (global_role_data roles)
  | COLOR_ROLE_SCENE_LINEAR => Some (global_role_scene_linear cat)
  | COLOR_ROLE_COLOR_PICKING => Some (global_role_color_picking roles)
  | COLOR_ROLE_TEXTURE_PAINTING => Some (global_role_texture_painting roles)
  | COLOR_ROLE_DEFAULT_SEQUENCER => Some (global_role_default_sequencer roles)
  | COLOR_ROLE_DEFAULT_FLOAT => Some (global_role_default_float roles)
  | COLOR_ROLE_DEFAULT_BYTE => Some (global_role_default_byte roles)
  | COLOR_ROLE_other _ => None
  end.

(** On a [colorspace] that is not NULL; [BLI_strncpy] reads the name that
    the role lookup returned. *)
Definition colorspace_set_default_role (cat : Catalog) (roles : RoleNames)
    (colorspace : string) (size : nat) (role : ColorRole) : exec string :=
  if str_is_empty colorspace then
    role_colorspace ← deref (IMB_colormanagement_role_colorspace_name_get cat roles role);
    Done (BLI_strncpy role_colorspace size)
  else Done colorspace.

(** [role_colorspace] goes into [strcmp] as the role lookup returned it. *)
Definition colormanage_colorspace_get_roled (cat : Catalog) (roles : RoleNames)
    (role : ColorRole) : exec (option ColorSpace) :=
  role_colorspace ← deref (IMB_colormanagement_role_colorspace_name_get cat roles role);
  Done (colormanage_colorspace_get_named cat role_colorspace).

(** ** The settings of a file *)

(** Of a [Scene]: its display and view settings, the colour space name of
    its sequencer, and its [ed]: NULL, or the strips that
    [SEQ_for_each_callback] visits, each with the colour space name of its
    [strip] if it has one. *)
Record Scene := {
  scene_display_settings : ColorManagedDisplaySettings;
  scene_view_settings : ColorManagedViewSettings;
  scene_sequencer_colorspace : string;
  scene_ed : option (list (option string))
}.

(** Of a [Main]: the scenes, and the colour space names of the images and
    of the movie clips. *)
Record Main := {
  main_scenes : list Scene;
  main_images : list string;
  main_movieclips : list string
}.

(** A loop body that gives each element of a list a new value. *)
Fixpoint exec_map {A B} (f : A -> exec B) (l : list A) : exec (list B) :=
  match l with
  | [] => Done []
  | a :: rest =>
      b ← f a;
      bs ← exec_map f rest;
      Done (b :: bs)
  end.

Section FileConfig.

Context {constants : HeaderConstants} {sizes : SettingsSizes}
        {defaults : ConfigDefaults} {libc : LibC}.

(** [seq_callback] *)
Definition seq_callback (cat : Catalog) (strip : option string) : option string :=
  match strip with
  | Some name => Some (colormanage_check_colorspace_settings cat name)
  | None => None
  end.

(** One turn of the loop over the scenes. *)
Definition check_file_config_scene (cat : Catalog) (roles : RoleNames)
    (default_display : ColorManagedDisplay) (scene : Scene) : exec Scene :=
  (* check scene color management settings *)
  let display_settings :=
    colormanage_check_display_settings cat (scene_display_settings scene) default_display in
  view_settings ←
    colormanage_check_view_settings cat display_settings (scene_view_settings scene);
  let name := colormanage_check_colorspace_settings cat (scene_sequencer_colorspace scene) in
  let name1 :=
    if str_is_empty name
    then BLI_strncpy (global_role_default_sequencer roles) MAX_COLORSPACE_NAME
    else name in
  (* check sequencer strip input color space settings *)
  let ed :=
    match scene_ed scene with
    | Some seqbase => Some (seq_callback cat <$> seqbase)
    | None => None
    end in
  Done {| scene_display_settings := display_settings;
          scene_view_settings := view_settings;
          scene_sequencer_colorspace := name1;
          scene_ed := ed |}.

Definition IMB_colormanagement_check_file_config (cat : Catalog) (roles : RoleNames)
    (bmain : Main) : exec Main :=
  default_display ← colormanage_display_get_default cat;
  match default_display with
  | None =>
      (* happens when OCIO configuration is incorrect *)
      Done bmain
  | Some default_display =>
      scenes ← exec_map (check_file_config_scene cat roles default_display)
                 (main_scenes bmain);
      Done {| main_scenes := scenes;
              main_images := colormanage_check_colorspace_settings cat <$> main_images bmain;
              main_movieclips :=
                colormanage_check_colorspace_settings cat <$> main_movieclips bmain |}
  end.

End FileConfig.

(** ** The colour spaces of an image buffer *)

Definition set_colormanage_flag (ibuf : ImBuf) (flag : Z) : ImBuf :=
  {| ibuf_x := ibuf_x ibuf; ibuf_y := ibuf_y ibuf;
     ibuf_channels := ibuf_channels ibuf; ibuf_dither := ibuf_dither ibuf;
     ibuf_userflags := ibuf_userflags ibuf;
     ibuf_colormanage_flag := flag;
     rect_colorspace := rect_colorspace ibuf;
     display_buffer_flags := display_buffer_flags ibuf;
     colormanage_cache := colormanage_cache ibuf |}.

Definition set_rect_colorspace (ibuf : ImBuf) (colorspace : option ColorSpace) : ImBuf :=
  {| ibuf_x := ibuf_x ibuf; ibuf_y := ibuf_y ibuf;
     ibuf_channels := ibuf_channels ibuf; ibuf_dither := ibuf_dither ibuf;
     ibuf_userflags := ibuf_userflags ibuf;
     ibuf_colormanage_flag := ibuf_colormanage_flag ibuf;
     rect_colorspace := colorspace;
     display_buffer_flags := display_buffer_flags ibuf;
     colormanage_cache := colormanage_cache ibuf |}.

Section ImageSpaces.

Context {constants : HeaderConstants} {helpers : Helpers}
        {engine : TransformEngine} {threads : TransformThreads}.

Definition IMB_colormanagement_space_is_data (colorspace : option ColorSpace) : bool :=
  match colorspace with
  | Some colorspace => is_data colorspace
  | None => false
  end.

Definition IMB_colormanagement_space_name_is_data (cat : Catalog) (name : string) : bool :=
  IMB_colormanagement_space_is_data (colormanage_colorspace_get_named cat name).

(** [flag |= IMB_COLORMANAGE_IS_DATA] for a data colour space,
    [flag &= ~IMB_COLORMANAGE_IS_DATA] otherwise. *)
Definition colormanage_flag_for_space (flag : Z) (colorspace : option ColorSpace) : Z :=
  if IMB_colormanagement_space_is_data colorspace
  then Z.lor flag IMB_COLORMANAGE_IS_DATA
  else Z.land flag (Z.lnot IMB_COLORMANAGE_IS_DATA).

Definition IMB_colormanagement_check_is_data (cat : Catalog) (ibuf : ImBuf) (name : string)
  : ImBuf :=
  let colorspace := colormanage_colorspace_get_named cat name in
  set_colormanage_flag ibuf (colormanage_flag_for_space (ibuf_colormanage_flag ibuf) colorspace).

Definition IMB_colormanagement_assign_rect_colorspace (cat : Catalog) (ibuf : ImBuf)
    (name : string) : ImBuf :=
  let colorspace := colormanage_colorspace_get_named cat name in
  let ibuf1 := set_rect_colorspace ibuf colorspace in
  set_colormanage_flag ibuf1
    (colormanage_flag_for_space (ibuf_colormanage_flag ibuf1) colorspace).

(** The image buffer and the new value of its [float_colorspace]. *)
Definition IMB_colormanagement_assign_float_colorspace (cat : Catalog) (ibuf : ImBuf)
    (name : string) : ImBuf * option ColorSpace :=
  let colorspace := colormanage_colorspace_get_named cat name in
  (set_colormanage_flag ibuf
     (colormanage_flag_for_space (ibuf_colormanage_flag ibuf) colorspace),
   colorspace).

Definition IMB_colormanagement_get_float_colorspace (cat : Catalog) (roles : RoleNames)
    (float_colorspace : option ColorSpace) : option string :=
  match float_colorspace with
  | Some colorspace => Some (colorspace_name colorspace)
  | None => IMB_colormanagement_role_colorspace_name_get cat roles COLOR_ROLE_SCENE_LINEAR
  end.

Definition IMB_colormanagement_get_rect_colorspace (cat : Catalog) (roles : RoleNames)
    (ibuf : ImBuf) : option string :=
  match rect_colorspace ibuf with
  | Some colorspace => Some (colorspace_name colorspace)
  | None => IMB_colormanagement_role_colorspace_name_get cat roles COLOR_ROLE_DEFAULT_BYTE
  end.

Definition colormanage_imbuf_set_default_spaces (cat : Catalog) (roles : RoleNames)
    (ibuf : ImBuf) : ImBuf :=
  set_rect_colorspace ibuf
    (colormanage_colorspace_get_named cat (global_role_default_byte roles)).

(** [colormanage_imbuf_make_linear] on an image buffer with its
    [rect_float] and [rect]; [predivide] is what [IMB_alpha_affects_rgb]
    says of the image buffer, and [imb_freerectImBuf] leaves [rect] NULL. *)
Definition colormanage_imbuf_make_linear (cat : Catalog) (ibuf : ImBuf)
    (rect_float : option (list float)) (rect : option (list Byte.byte))
    (predivide : bool) (from_colorspace : string)
  : exec (ImBuf * option (list float) * option (list Byte.byte)) :=
  let colorspace := colormanage_colorspace_get_named cat from_colorspace in
  if IMB_colormanagement_space_is_data colorspace then
    Done (set_colormanage_flag ibuf
            (Z.lor (ibuf_colormanage_flag ibuf) IMB_COLORMANAGE_IS_DATA),
          rect_float, rect)
  else
    match rect_float with
    | Some buffer =>
        let to_colorspace := global_role_scene_linear cat in
        buffer1 ← IMB_colormanagement_transform cat buffer
                    (ibuf_x ibuf) (ibuf_y ibuf) (ibuf_channels ibuf)
                    from_colorspace to_colorspace predivide;
        Done (ibuf, Some buffer1, None)
    | None => Done (ibuf, rect_float, rect)
    end.

End ImageSpaces.

(** ** The description of a colour space *)

(** ['\r'] and ['\n'] *)
Definition is_line_break (c : Ascii.ascii) : bool :=
  Ascii.eqb c (Ascii.ascii_of_nat 13) || Ascii.eqb c (Ascii.ascii_of_nat 10).

(** The first loop of [colormanage_description_strip]: from the end of the
    string backwards, every line break is overwritten with a terminator,
    up to the first character that is none; the string then ends before
    the line breaks it ended with. *)
Fixpoint strip_trailing_line_breaks (description : string) : string :=
  match description with
  | EmptyString => EmptyString
  | String c rest =>
      match strip_trailing_line_breaks rest with
      | EmptyString => if is_line_break c then EmptyString else String c EmptyString
      | String _ _ as stripped => String c stripped
      end
  end.

(** The second loop: every line break that is left becomes a space. *)
Fixpoint line_breaks_to_spaces (description : string) : string :=
  match description with
  | EmptyString => EmptyString
  | String c rest =>
      String (if is_line_break c then Ascii.ascii_of_nat 32 else c)
             (line_breaks_to_spaces rest)
  end.

Definition colormanage_description_strip (description : string) : string :=
  line_breaks_to_spaces (strip_trailing_line_breaks description).

(** ** The hash of a cache key *)

(** [a << n] on [int]: defined for a count within the width of the type
    and a value that is not negative and whose product with [2 ^ n] is
    representable (C11 6.5.7p4). *)
Definition int_shl (a n : Z) : exec Z :=
  if (0 <=? n) && (n <? 32) && (0 <=? a) && (a * 2 ^ n <=? CInt.INT_MAX)
  then Done (Z.shiftl a n)
  else Crash.

(** [(key->display << 16) | (key->view % 0xffff)] as an [unsigned int]. *)
Definition colormanage_hashhash (key : ColormanageCacheKey) : exec Z :=
  shifted ← int_shl (key_display key) 16;
  let rval := Z.lor shifted (Z.rem (key_view key) 65535) in
  Done (rval mod 2 ^ 32).

(** ** The rectangle of delayed updates *)

Record rcti := {
  rcti_xmin : Z;
  rcti_xmax : Z;
  rcti_ymin : Z;
  rcti_ymax : Z
}.

(** [BLI_rcti_init] (arguments in the order xmin, xmax, ymin, ymax) and
    [BLI_rcti_union] of BLI_rect, which is not part of this file. *)
Class RectOps := {
  BLI_rcti_init : Z -> Z -> Z -> Z -> rcti;
  BLI_rcti_union : rcti -> rcti -> rcti
}.

(** [IMB_partial_display_buffer_update_delayed] on the [invalid_rect] of
    the image buffer. *)
Definition IMB_partial_display_buffer_update_delayed {rects : RectOps}
    (invalid_rect : rcti) (xmin ymin xmax ymax : Z) : rcti :=
  if rcti_xmin invalid_rect =? rcti_xmax invalid_rect then
    BLI_rcti_init xmin xmax ymin ymax
  else
    let rect := BLI_rcti_init xmin xmax ymin ymax in
    BLI_rcti_union invalid_rect rect.

(** ** Menu items of the user interface *)

(** The fields of an [EnumPropertyItem] of RNA. *)
Record EnumPropertyItem := {
  item_value : Z;
  item_identifier : string;
  item_icon : Z;
  item_name : string;
  item_description : string
}.

(** [RNA_enum_item_add] of RNA, which is not part of this file: the array
    [*items] of [*totitem] items gets the item as its new last one. *)
Definition RNA_enum_item_add (items : list EnumPropertyItem) (item : EnumPropertyItem)
  : list EnumPropertyItem :=
  items ++ [item].

Definition IMB_colormanagement_display_items_add (cat : Catalog)
    (items : list EnumPropertyItem) : list EnumPropertyItem :=
  fold_left
    (fun items display =>
       let item := {| item_value := display_index display;
                      item_name := display_name display;
                      item_identifier := display_name display;
                      item_icon := 0;
                      item_description := EmptyString |} in
       RNA_enum_item_add items item)
    (global_displays cat) items.

Definition colormanagement_view_item_add (items : list EnumPropertyItem)
    (view : ColorManagedView) : list EnumPropertyItem :=
  let item := {| item_value := view_index view;
                 item_name := view_name view;
                 item_identifier := view_name view;
                 item_icon := 0;
                 item_description := EmptyString |} in
  RNA_enum_item_add items item.

Definition IMB_colormanagement_view_items_add (cat : Catalog)
    (items : list EnumPropertyItem) (display_name : string) : list EnumPropertyItem :=
  match colormanage_display_get_named cat display_name with
  | Some display => fold_left colormanagement_view_item_add (display_views display) items
  | None => items
  end.

Definition IMB_colormanagement_look_items_add (cat : Catalog)
    (items : list EnumPropertyItem) (view_name : option string) : list EnumPropertyItem :=
  fold_left
    (fun items look =>
       if negb (colormanage_compatible_look look view_name) then items
       else
         let item := {| item_value := look_index look;
                        item_name := look_ui_name look;
                        item_identifier := look_name look;
                        item_icon := 0;
                        item_description := EmptyString |} in
         RNA_enum_item_add items item)
    (global_looks cat) items.

Section ColorspaceItems.

(** The [description] of a colour space, which the record [ColorSpace]
    leaves out. *)
Variable colorspace_description : ColorSpace -> string.

Definition IMB_colormanagement_colorspace_items_add (cat : Catalog)
    (items : list EnumPropertyItem) : list EnumPropertyItem :=
  fold_left
    (fun items colorspace =>
       if negb (is_invertible colorspace) then items
       else
         let item := {| item_value := colorspace_index colorspace;
                        item_name := colorspace_name colorspace;
                        item_identifier := colorspace_name colorspace;
                        item_icon := 0;
                        item_description := colorspace_description colorspace |} in
         RNA_enum_item_add items item)
    (global_colorspaces cat) items.

End ColorspaceItems.

(** ** Pixels for textures on the GPU *)

(** The value of an [unsigned char], and the conversion of an [int] to
    [unsigned char]. *)
Definition uchar_value (b : Byte.byte) : Z := Z.of_N (Byte.to_N b).

Definition uchar_of_int (z : Z) : Byte.byte :=
  match Byte.of_N (Z.to_N (z mod 256)) with
  | Some b => b
  | None => Byte.x00
  end.

(** [a + b] and [a * b] on [int]: an overflow is undefined. *)
Definition int_add (a b : Z) : exec Z :=
  if CInt.in_int (a + b) then Done (a + b) else Crash.

Definition int_mul (a b : Z) : exec Z :=
  if CInt.in_int (a * b) then Done (a * b) else Crash.

(** Further helpers of other libraries and of the engine. *)
Class PixelHelpers := {
  (** OCIO: what [OCIO_colorSpaceIsBuiltin] says of the colour space of a
      name: is it scene linear, is it sRGB *)
  OCIO_colorSpaceIsBuiltin : string -> bool * bool;
  (** BLI_math_color *)
  linearrgb_to_srgb_v3_v3 : float * float * float -> float * float * float;
  (** BLI_math_vector *)
  mul_v3_fl : float * float * float -> float -> float * float * float
}.

(** [in[0] .. in[3]] at [offset] of a buffer that is only read; a read
    outside the buffer is undefined. *)
Definition read4 {A} (buffer : list A) (offset : Z) : exec (A * A * A * A) :=
  v0 ← buffer_get buffer offset;
  v1 ← buffer_get buffer (offset + 1);
  v2 ← buffer_get buffer (offset + 2);
  v3 ← buffer_get buffer (offset + 3);
  Done (v0, v1, v2, v3).

Section Textures.

Context {constants : HeaderConstants} {helpers : Helpers}
        {engine : TransformEngine} {pixel_helpers : PixelHelpers}.

(** [colormanage_ensure_srgb_scene_linear_info] asks the engine at the
    first call for a colour space and keeps the answer in [info]; the two
    functions below read the colour space there before they test the
    pointer. *)
Definition IMB_colormanagement_space_is_scene_linear (colorspace : option ColorSpace)
  : exec bool :=
  cs ← deref colorspace;
  Done (fst (OCIO_colorSpaceIsBuiltin (colorspace_name cs))).

Definition IMB_colormanagement_space_is_srgb (colorspace : option ColorSpace) : exec bool :=
  cs ← deref colorspace;
  Done (snd (OCIO_colorSpaceIsBuiltin (colorspace_name cs))).

(** [out[c] = (in[c] * in[3]) >> 8] *)
Definition premultiplied_uchar (c a : Byte.byte) : Byte.byte :=
  uchar_of_int (Z.shiftr (uchar_value c * uchar_value a) 8).

(** [IMB_colormanagement_imbuf_to_byte_texture] on an image buffer with
    its [rect], the bytes that the image buffer holds;
    [alpha_affects_rgb] is what [IMB_alpha_affects_rgb] says of the image
    buffer. *)
Definition IMB_colormanagement_imbuf_to_byte_texture (cat : Catalog)
    (out_buffer : list Byte.byte) (offset_x offset_y width height : Z)
    (ibuf : ImBuf) (rect : option (list Byte.byte)) (alpha_affects_rgb : bool)
    (compress_as_srgb store_premultiplied : bool) : exec (list Byte.byte) :=
  processor ←
    (if compress_as_srgb then
       match rect_colorspace ibuf with
       | Some colorspace =>
           is_srgb ← IMB_colormanagement_space_is_srgb (Some colorspace);
           if negb is_srgb
           then Done (colorspace_to_scene_linear_cpu_processor cat colorspace)
           else Done None
       | None => Done None
       end
     else Done None);
  let in_buffer := rect in
  let use_premultiply := alpha_affects_rgb && store_premultiplied in
  exec_fold
    (fun out_buffer1 y =>
       row ← int_add offset_y y;
       row_start ← int_mul row (ibuf_x ibuf);
       in_offset ← int_add row_start offset_x;
       out_offset ← int_mul y width;
       let in_ := CInt.size_mul (CInt.to_size_t in_offset) 4 in
       let out := CInt.size_mul (CInt.to_size_t out_offset) 4 in
       match processor with
       | Some cpu =>
           (* Convert to scene linear, to sRGB and premultiply. *)
           exec_fold
             (fun out_buffer2 x =>
                bb ← deref in_buffer;
                bytes ← buffer_get4 bb (in_ + 4 * x);
                let pixel := rgba_uchar_to_float bytes in
                let pixel1 :=
                  pixel_set_rgb pixel (OCIO_cpuProcessorApplyRGB cpu (pixel_rgb pixel)) in
                let pixel2 :=
                  pixel_set_rgb pixel1 (linearrgb_to_srgb_v3_v3 (pixel_rgb pixel1)) in
                let pixel3 :=
                  if use_premultiply
                  then pixel_set_rgb pixel2 (mul_v3_fl (pixel_rgb pixel2) (px_a pixel2))
                  else pixel2 in
                buffer_store out_buffer2 (out + 4 * x) (bytes4 (rgba_float_to_uchar pixel3)))
             (seqZ 0 width) out_buffer1
       | None =>
           if use_premultiply then
             (* Premultiply only. *)
             exec_fold
               (fun out_buffer2 x =>
                  bb ← deref in_buffer;
                  '(c0, c1, c2, c3) ← read4 bb (in_ + 4 * x);
                  buffer_store out_buffer2 (out + 4 * x)
                    [premultiplied_uchar c0 c3;
                     premultiplied_uchar c1 c3;
                     premultiplied_uchar c2 c3;
                     c3])
               (seqZ 0 width) out_buffer1
           else
             (* Copy only. *)
             exec_fold
               (fun out_buffer2 x =>
                  bb ← deref in_buffer;
                  '(c0, c1, c2, c3) ← read4 bb (in_ + 4 * x);
                  buffer_store out_buffer2 (out + 4 * x) [c0; c1; c2; c3])
               (seqZ 0 width) out_buffer1
       end)
    (seqZ 0 height) out_buffer.

(** [out[0] = v0; out[1] = v1; out[2] = v2; out[3] = v3] at [offset] of a
    float buffer. *)
Definition float_store4 (buffer : list float) (offset : Z) (v0 v1 v2 v3 : float)
  : exec (list float) :=
  buffer1 ← buffer_set buffer offset v0;
  buffer2 ← buffer_set buffer1 (offset + 1) v1;
  buffer3 ← buffer_set buffer2 (offset + 2) v2;
  buffer_set buffer3 (offset + 3) v3.

(** [memcpy(dst + dst_offset, src + src_offset, n * sizeof(float))] into
    a float buffer. *)
Definition memcpy_float (dst : list float) (dst_offset : Z) (src : Z -> float)
    (src_offset n : Z) : exec (list float) :=
  if dst_offset + n <=? Z.of_nat (length dst)
  then Done (list_inserts (Z.to_nat dst_offset) (src <$> seqZ src_offset n) dst)
  else Crash.

(** The same from a float buffer whose size is known: a copy that leaves
    either buffer is undefined. *)
Definition memcpy_float_buffer (dst : list float) (dst_offset : Z) (src : list float)
    (src_offset n : Z) : exec (list float) :=
  if (dst_offset + n <=? Z.of_nat (length dst)) && (src_offset + n <=? Z.of_nat (length src))
  then Done (list_inserts (Z.to_nat dst_offset)
               (take (Z.to_nat n) (drop (Z.to_nat src_offset) src)) dst)
  else Crash.

(** [IMB_colormanagement_imbuf_to_float_texture] on an image buffer with
    its [rect_float], the floats that the image buffer holds;
    [alpha_affects_rgb] is what [IMB_alpha_affects_rgb] says of the image
    buffer. *)
Definition IMB_colormanagement_imbuf_to_float_texture
    (out_buffer : list float) (offset_x offset_y width height : Z)
    (ibuf : ImBuf) (rect_float : option (list float)) (alpha_affects_rgb : bool)
    (store_premultiplied : bool) : exec (list float) :=
  let in_buffer := rect_float in
  let in_channels := ibuf_channels ibuf in
  let use_unpremultiply := alpha_affects_rgb && negb store_premultiplied in
  exec_fold
    (fun out_buffer1 y =>
       row ← int_add offset_y y;
       row_start ← int_mul row (ibuf_x ibuf);
       in_offset ← int_add row_start offset_x;
       out_offset ← int_mul y width;
       let in_ := CInt.size_mul (CInt.to_size_t in_offset) in_channels in
       let out := CInt.size_mul (CInt.to_size_t out_offset) 4 in
       if in_channels =? 1 then
         (* Copy single channel. *)
         exec_fold
           (fun out_buffer2 x =>
              fb ← deref in_buffer;
              v0 ← buffer_get fb (in_ + 1 * x);
              float_store4 out_buffer2 (out + 4 * x) v0 v0 v0 v0)
           (seqZ 0 width) out_buffer1
       else if in_channels =? 3 then
         (* Copy RGB. *)
         exec_fold
           (fun out_buffer2 x =>
              fb ← deref in_buffer;
              let i := in_ + 3 * x in
              v0 ← buffer_get fb i;
              v1 ← buffer_get fb (i + 1);
              v2 ← buffer_get fb (i + 2);
              float_store4 out_buffer2 (out + 4 * x) v0 v1 v2 CFloat.one)
           (seqZ 0 width) out_buffer1
       else if in_channels =? 4 then
         (* Copy or convert RGBA. *)
         if use_unpremultiply then
           exec_fold
             (fun out_buffer2 x =>
                fb ← deref in_buffer;
                '(v0, v1, v2, v3) ← read4 fb (in_ + 4 * x);
                let pixel := premul_to_straight_v4_v4
                               {| px_r := v0; px_g := v1; px_b := v2; px_a := v3 |} in
                float_store4 out_buffer2 (out + 4 * x)
                  (px_r pixel) (px_g pixel) (px_b pixel) (px_a pixel))
             (seqZ 0 width) out_buffer1
         else
           fb ← deref in_buffer;
           (* the size [sizeof(float[4]) * width] is a [size_t] *)
           if width <? 0 then Crash
           else memcpy_float_buffer out_buffer1 out fb in_ (4 * width)
       else Done out_buffer1)
    (seqZ 0 height) out_buffer.

End Textures.

(** ** The display buffer of an image buffer *)

(** Helpers of the display buffer pipeline that live in other files. *)
Class DisplayHelpers := {
  (** BLI_math_color *)
  rgb_uchar_to_float : list Byte.byte -> float * float * float;
  (** the bytes that [IMB_buffer_byte_from_byte] (divers.c) computes,
      between equal profiles and without predivide, for the pixel in
      column [x] of row [y] of a byte buffer: source, source stride,
      [x], [y] *)
  byte_from_byte_pixel :
    (Z -> Byte.byte) -> Z -> Z -> Z -> Byte.byte * Byte.byte * Byte.byte * Byte.byte;
  (** the floats that [IMB_buffer_float_from_byte] (divers.c) computes,
      without predivide, for the pixel in column [x] of row [y] of a byte
      buffer: source, source stride, [x], [y] *)
  float_from_byte_pixel : (Z -> Byte.byte) -> Z -> Z -> Z -> Pixel;
  (** the bytes that [IMB_buffer_byte_from_float] (divers.c) computes for
      the pixel in column [x] of row [y] of a float buffer: source, source
      channels, dither, predivide, source stride, [x], [y] *)
  byte_from_float_pixel_predivide :
    (Z -> float) -> Z -> float -> bool -> Z -> Z -> Z ->
    Byte.byte * Byte.byte * Byte.byte * Byte.byte;
  (** what a float of a block from [MEM_mallocN] holds before it is
      assigned *)
  float_indeterminate : float;
  (** Modelled from the spec: [IMB_processor_apply_threaded] (the thread
      pool) partitions the rows [0 .. buffer_lines - 1] into contiguous
      ranges; these are the ranges for a number of rows, each with its
      first row and its number of rows *)
  IMB_processor_apply_threaded_ranges : Z -> list (Z * Z)
}.

Definition set_userflags (ibuf : ImBuf) (userflags : Z) : ImBuf :=
  {| ibuf_x := ibuf_x ibuf; ibuf_y := ibuf_y ibuf;
     ibuf_channels := ibuf_channels ibuf; ibuf_dither := ibuf_dither ibuf;
     ibuf_userflags := userflags;
     ibuf_colormanage_flag := ibuf_colormanage_flag ibuf;
     rect_colorspace := rect_colorspace ibuf;
     display_buffer_flags := display_buffer_flags ibuf;
     colormanage_cache := colormanage_cache ibuf |}.

(** A float buffer that was written, read as memory. *)
Definition float_memory {display_helpers : DisplayHelpers} (buffer : list float)
  : Z -> float :=
  fun i => match buffer !! Z.to_nat i with
           | Some v => v
           | None => float_indeterminate
           end.

(** What [IMB_display_buffer_acquire] returns when it is not NULL:
    [ibuf->rect] itself, or a display buffer of the cache. *)
Inductive DisplayBufferPointer :=
  | Pointer_rect
  | Pointer_display_buffer (display_buffer : list Byte.byte).

Section DisplayBuffer.

Context {constants : HeaderConstants} {helpers : Helpers}
        {engine : TransformEngine} {threads : TransformThreads}
        {sizes : SettingsSizes} {defaults : ConfigDefaults} {libc : LibC}
        {rects : RectOps} {display_helpers : DisplayHelpers}.

(** Modelled from the spec: [IMB_processor_apply_threaded] runs the
    initialiser and the worker once for every range of rows and joins
    before it returns.  How the ranges are spread over threads is not
    modelled: the workers run here in the order of the ranges, on the
    buffers that they write. *)
Definition IMB_processor_apply_threaded {Buffers Handle} (buffer_lines : Z)
    (init_handle : Z -> Z -> Handle) (do_thread : Handle -> Buffers -> exec Buffers)
    (buffers : Buffers) : exec Buffers :=
  exec_fold (fun buffers1 range => do_thread (init_handle (fst range) (snd range)) buffers1)
            (IMB_processor_apply_threaded_ranges buffer_lines) buffers.

(** Modelled like [IMB_buffer_byte_from_float] above:
    [IMB_buffer_byte_from_byte] and [IMB_buffer_float_from_byte] store one
    pixel of four elements for each pixel of a block of [width] x [height]
    pixels, row [y] starting [stride_to * y] pixels after [rect_to], an
    offset into the buffer that is written. *)
Definition IMB_buffer_byte_from_byte (display_buffer : list Byte.byte) (rect_to : Z)
    (rect_from : option (Z -> Byte.byte)) (width height stride_to stride_from : Z)
  : exec (list Byte.byte) :=
  for_yx 0 height 0 width
    (fun buf y x =>
       from ← deref rect_from;
       let to := CInt.size_add rect_to
                   (CInt.size_mul (CInt.size_add (CInt.size_mul (CInt.to_size_t stride_to) y) x) 4) in
       buffer_store buf to (bytes4 (byte_from_byte_pixel from stride_from x y)))
    display_buffer.

Definition IMB_buffer_float_from_byte_store (display_buffer : list float) (rect_to : Z)
    (rect_from : option (Z -> Byte.byte)) (width height stride_to stride_from : Z)
  : exec (list float) :=
  for_yx 0 height 0 width
    (fun buf y x =>
       from ← deref rect_from;
       let to := CInt.size_add rect_to
                   (CInt.size_mul (CInt.size_add (CInt.size_mul (CInt.to_size_t stride_to) y) x) 4) in
       let pixel := float_from_byte_pixel from stride_from x y in
       float_store4 buf to (px_r pixel) (px_g pixel) (px_b pixel) (px_a pixel))
    display_buffer.

(** [IMB_buffer_byte_from_float] with its [predivide] argument. *)
Definition IMB_buffer_byte_from_float_predivide (display_buffer : list Byte.byte)
    (rect_to : Z) (rect_from : Z -> float) (channels_from : Z) (dither : float)
    (predivide : bool) (width height stride_to stride_from : Z) : exec (list Byte.byte) :=
  for_yx 0 height 0 width
    (fun buf y x =>
       let to := CInt.size_add rect_to
                   (CInt.size_mul (CInt.size_add (CInt.size_mul (CInt.to_size_t stride_to) y) x) 4) in
       buffer_store buf to
         (bytes4 (byte_from_float_pixel_predivide rect_from channels_from dither predivide
                    stride_from x y)))
    display_buffer.

(** *** The workers of the display transform *)

(** [display_buffer] and [display_buffer_byte] of a handle are offsets
    into the two buffers that the workers write; [buffer] and
    [byte_buffer] are the memory behind the pointers. *)
Record DisplayBufferThread := {
  handle_cm_processor : option ColormanageProcessor;
  handle_buffer : option (Z -> float);
  handle_byte_buffer : option (Z -> Byte.byte);
  handle_display_buffer : option Z;
  handle_display_buffer_byte : option Z;
  handle_width : Z;
  handle_start_line : Z;
  handle_tot_line : Z;
  handle_channels : Z;
  handle_dither : float;
  handle_is_data : bool;
  handle_predivide : bool;
  handle_byte_colorspace : string;
  handle_float_colorspace : option string
}.

(** [display_buffer] and [display_buffer_byte] say whether the pointers
    are set; [alpha_affects_rgb] is what [IMB_alpha_affects_rgb] says of
    the image buffer. *)
Record DisplayBufferInitData := {
  init_ibuf : ImBuf;
  init_alpha_affects_rgb : bool;
  init_cm_processor : option ColormanageProcessor;
  init_buffer : option (Z -> float);
  init_byte_buffer : option (Z -> Byte.byte);
  init_display_buffer : bool;
  init_display_buffer_byte : bool;
  init_byte_colorspace : string;
  init_float_colorspace : option string
}.

Definition display_buffer_init_handle (start_line tot_line : Z)
    (init_data : DisplayBufferInitData) : DisplayBufferThread :=
  let ibuf := init_ibuf init_data in
  let channels := ibuf_channels ibuf in
  let dither := ibuf_dither ibuf in
  let is_data := negb (Z.land (ibuf_colormanage_flag ibuf) IMB_COLORMANAGE_IS_DATA =? 0) in
  let offset :=
    CInt.size_mul (CInt.size_mul (CInt.to_size_t channels) start_line) (ibuf_x ibuf) in
  let display_buffer_byte_offset := CInt.size_mul (CInt.size_mul 4 start_line) (ibuf_x ibuf) in
  {| handle_cm_processor := init_cm_processor init_data;
     handle_buffer :=
       match init_buffer init_data with
       | Some buffer => Some (fun i => buffer (offset + i))
       | None => None
       end;
     handle_byte_buffer :=
       match init_byte_buffer init_data with
       | Some byte_buffer => Some (fun i => byte_buffer (offset + i))
       | None => None
       end;
     handle_display_buffer := if init_display_buffer init_data then Some offset else None;
     handle_display_buffer_byte :=
       if init_display_buffer_byte init_data then Some display_buffer_byte_offset else None;
     handle_width := ibuf_x ibuf;
     handle_start_line := start_line;
     handle_tot_line := tot_line;
     handle_channels := channels;
     handle_dither := dither;
     handle_is_data := is_data;
     handle_predivide := init_alpha_affects_rgb init_data;
     handle_byte_colorspace := init_byte_colorspace init_data;
     handle_float_colorspace := init_float_colorspace init_data |}.

(** The linear buffer and [*is_straight_alpha]. *)
Definition display_buffer_apply_get_linear_buffer (cat : Catalog)
    (handle : DisplayBufferThread) (height : Z) (linear_buffer : list float)
  : exec (list float * bool) :=
  let channels := handle_channels handle in
  let width := handle_width handle in
  let buffer_size := CInt.size_mul (CInt.size_mul (CInt.to_size_t channels) width) height in
  let is_data := handle_is_data handle in
  cm_processor ← deref (handle_cm_processor handle);
  let is_data_display := is_data_result cm_processor in
  let predivide := handle_predivide handle in
  match handle_buffer handle with
  | None =>
      let byte_buffer := handle_byte_buffer handle in
      let from_colorspace := handle_byte_colorspace handle in
      let to_colorspace := global_role_scene_linear cat in
      let i_last := CInt.size_mul (CInt.to_size_t width) height in
      (* first convert byte buffer to float, keep in image space *)
      linear_buffer1 ←
        exec_fold
          (fun fp i =>
             if channels =? 3 then
               cp ← deref byte_buffer;
               let '(r, g, b) :=
                 rgb_uchar_to_float
                   [cp (channels * i); cp (channels * i + 1); cp (channels * i + 2)] in
               fp1 ← buffer_set fp (channels * i) r;
               fp2 ← buffer_set fp1 (channels * i + 1) g;
               buffer_set fp2 (channels * i + 2) b
             else if channels =? 4 then
               cp ← deref byte_buffer;
               let pixel :=
                 rgba_uchar_to_float
                   [cp (channels * i); cp (channels * i + 1);
                    cp (channels * i + 2); cp (channels * i + 3)] in
               float_store4 fp (channels * i)
                 (px_r pixel) (px_g pixel) (px_b pixel) (px_a pixel)
             else Done fp)
          (seqZ 0 i_last) linear_buffer;
      linear_buffer2 ←
        (if negb is_data && negb is_data_display then
           (* convert float buffer to scene linear space *)
           IMB_colormanagement_transform cat linear_buffer1 width height channels
             from_colorspace to_colorspace false
         else Done linear_buffer1);
      Done (linear_buffer2, true)
  | Some buffer =>
      match handle_float_colorspace handle with
      | Some from_colorspace =>
          let to_colorspace := global_role_scene_linear cat in
          linear_buffer1 ← memcpy_float linear_buffer 0 buffer 0 buffer_size;
          linear_buffer2 ←
            (if negb is_data && negb is_data_display then
               IMB_colormanagement_transform cat linear_buffer1 width height channels
                 from_colorspace to_colorspace predivide
             else Done linear_buffer1);
          Done (linear_buffer2, false)
      | None =>
          linear_buffer1 ← memcpy_float linear_buffer 0 buffer 0 buffer_size;
          Done (linear_buffer1, false)
      end
  end.

(** The worker on the float and the byte display buffer, each NULL or a
    buffer of its own: [display_buffer_byte != handle->byte_buffer]
    holds. *)
Definition do_display_buffer_apply_thread (cat : Catalog) (handle : DisplayBufferThread)
    (buffers : option (list float) * option (list Byte.byte))
  : exec (option (list float) * option (list Byte.byte)) :=
  let '(display_buffer, display_buffer_byte) := buffers in
  let channels := handle_channels handle in
  let width := handle_width handle in
  let height := handle_tot_line handle in
  let dither := handle_dither handle in
  let is_data := handle_is_data handle in
  match handle_cm_processor handle with
  | None =>
      display_buffer_byte1 ←
        match display_buffer_byte, handle_display_buffer_byte handle with
        | Some bytes, Some to =>
            Some <$> IMB_buffer_byte_from_byte bytes to (handle_byte_buffer handle)
                       width height width width
        | _, _ => Done display_buffer_byte
        end;
      display_buffer1 ←
        match display_buffer, handle_display_buffer handle with
        | Some floats, Some to =>
            Some <$> IMB_buffer_float_from_byte_store floats to (handle_byte_buffer handle)
                       width height width width
        | _, _ => Done display_buffer
        end;
      Done (display_buffer1, display_buffer_byte1)
  | Some cm_processor =>
      let linear_size :=
        CInt.size_mul (CInt.size_mul (CInt.to_size_t channels) width) height in
      let linear_buffer := replicate (Z.to_nat linear_size) float_indeterminate in
      '(linear_buffer1, is_straight_alpha) ←
        display_buffer_apply_get_linear_buffer cat handle height linear_buffer;
      let predivide := handle_predivide handle && negb is_straight_alpha in
      linear_buffer2 ←
        (if is_data then
           (* special case for data buffers - no color space conversions,
              only generate byte buffers *)
           Done linear_buffer1
         else
           (* apply processor *)
           IMB_colormanagement_processor_apply cm_processor linear_buffer1
             width height channels predivide);
      (* copy result to output buffers *)
      display_buffer_byte1 ←
        match display_buffer_byte, handle_display_buffer_byte handle with
        | Some bytes, Some to =>
            (* do conversion *)
            Some <$> IMB_buffer_byte_from_float_predivide bytes to
                       (float_memory linear_buffer2) channels dither predivide
                       width height width width
        | _, _ => Done display_buffer_byte
        end;
      display_buffer1 ←
        match display_buffer, handle_display_buffer handle with
        | Some floats, Some to =>
            floats1 ← memcpy_float floats to (float_memory linear_buffer2) 0
                        (CInt.size_mul (CInt.size_mul (CInt.to_size_t width) height) channels);
            if is_straight_alpha && (channels =? 4) then
              let i_last := CInt.size_mul (CInt.to_size_t width) height in
              Some <$> exec_fold
                         (fun fp i =>
                            r ← buffer_get fp (to + channels * i);
                            g ← buffer_get fp (to + channels * i + 1);
                            b ← buffer_get fp (to + channels * i + 2);
                            a ← buffer_get fp (to + channels * i + 3);
                            let pixel := straight_to_premul_v4
                                           {| px_r := r; px_g := g; px_b := b; px_a := a |} in
                            float_store4 fp (to + channels * i)
                              (px_r pixel) (px_g pixel) (px_b pixel) (px_a pixel))
                         (seqZ 0 i_last) floats1
            else Done (Some floats1)
        | _, _ => Done display_buffer
        end;
      Done (display_buffer1, display_buffer_byte1)
  end.

(** [display_buffer_apply_threaded] on an image buffer with its
    [rect_float] (as [buffer]), its [rect] (as [byte_buffer]) and its
    [float_colorspace]. *)
Definition display_buffer_apply_threaded (cat : Catalog) (roles : RoleNames)
    (ibuf : ImBuf) (float_colorspace : option ColorSpace) (alpha_affects_rgb : bool)
    (buffer : option (Z -> float)) (byte_buffer : option (Z -> Byte.byte))
    (display_buffer : option (list float)) (display_buffer_byte : option (list Byte.byte))
    (cm_processor : option ColormanageProcessor)
  : exec (option (list float) * option (list Byte.byte)) :=
  let init_data :=
    {| init_ibuf := ibuf;
       init_alpha_affects_rgb := alpha_affects_rgb;
       init_cm_processor := cm_processor;
       init_buffer := buffer;
       init_byte_buffer := byte_buffer;
       init_display_buffer := bool_decide (is_Some display_buffer);
       init_display_buffer_byte := bool_decide (is_Some display_buffer_byte);
       init_byte_colorspace :=
         match rect_colorspace ibuf with
         | Some colorspace => colorspace_name colorspace
         | None =>
             (* happens for viewer images *)
             global_role_default_byte roles
         end;
       init_float_colorspace :=
         match float_colorspace with
         | Some colorspace =>
             (* sequencer stores float buffers in non-linear space *)
             Some (colorspace_name colorspace)
         | None => None
         end |} in
  IMB_processor_apply_threaded (ibuf_y ibuf)
    (fun start_line tot_line => display_buffer_init_handle start_line tot_line init_data)
    (do_display_buffer_apply_thread cat)
    (display_buffer, display_buffer_byte).

(** The buffers that were written, and the calls on the engine. *)
Definition colormanage_display_buffer_process_ex (cat : Catalog) (roles : RoleNames)
    (ibuf : ImBuf) (rect_float : option (Z -> float)) (rect : option (Z -> Byte.byte))
    (float_colorspace : option ColorSpace) (alpha_affects_rgb : bool)
    (display_buffer : option (list float)) (display_buffer_byte : option (list Byte.byte))
    (view_settings : ColorManagedViewSettings)
    (display_settings : ColorManagedDisplaySettings)
  : exec (option (list float) * option (list Byte.byte) * list Call) :=
  (* if we're going to transform byte buffer, check whether transformation would
     happen to the same color space as byte buffer itself is *)
  skip_transform ←
    match rect_float, rect_colorspace ibuf with
    | None, Some _ => is_ibuf_rect_in_display_space cat ibuf view_settings display_settings
    | _, _ => Done false
    end;
  cm_processor ←
    (if skip_transform : bool then Done None
     else Some <$> IMB_colormanagement_display_processor_new cat
                     view_settings display_settings);
  buffers ← display_buffer_apply_threaded cat roles ibuf float_colorspace alpha_affects_rgb
              rect_float rect display_buffer display_buffer_byte cm_processor;
  Done (buffers,
        match cm_processor with
        | Some _ => [Call_display_processor_new; Call_processor_free]
        | None => []
        end).

Definition colormanage_display_buffer_process (cat : Catalog) (roles : RoleNames)
    (ibuf : ImBuf) (rect_float : option (Z -> float)) (rect : option (Z -> Byte.byte))
    (float_colorspace : option ColorSpace) (alpha_affects_rgb : bool)
    (display_buffer : list Byte.byte)
    (view_settings : ColorManagedViewSettings)
    (display_settings : ColorManagedDisplaySettings)
  : exec (list Byte.byte * list Call) :=
  r ← colormanage_display_buffer_process_ex cat roles ibuf rect_float rect
        float_colorspace alpha_affects_rgb None (Some display_buffer)
        view_settings display_settings;
  display_buffer1 ← deref (snd (fst r));
  Done (display_buffer1, snd r).

(** *** [IMB_display_buffer_acquire] *)

(** [colormanage_cache_free]: the bit field and the cache of the image
    buffer are freed and their pointers reset. *)
Definition colormanage_cache_free (ibuf : ImBuf) : ImBuf :=
  let ibuf1 := set_display_buffer_flags ibuf None in
  match colormanage_cache ibuf1 with
  | Some _ => set_colormanage_cache ibuf1 None
  | None => ibuf1
  end.

(** What [IMB_display_buffer_acquire] returns and leaves: the pointer,
    [*cache_handle], the image buffer with its [invalid_rect], and the
    calls on the block cache and the engine in their order. *)
Record DisplayBufferAcquired := {
  acquired_buffer : option DisplayBufferPointer;
  acquired_cache_handle : option CacheImBuf;
  acquired_ibuf : ImBuf;
  acquired_invalid_rect : rcti;
  acquired_calls : list Call
}.

(** The test of the early out of [IMB_display_buffer_acquire]: no float
    buffer, and a byte buffer of four channels that is already in display
    space. *)
Definition display_buffer_early_out (cat : Catalog) (ibuf : ImBuf)
    (rect_float : option (Z -> float))
    (applied_view_settings : ColorManagedViewSettings)
    (display_settings : ColorManagedDisplaySettings) : exec bool :=
  match rect_float, rect_colorspace ibuf with
  | None, Some _ =>
      if ibuf_channels ibuf =? 4
      then is_ibuf_rect_in_display_space cat ibuf applied_view_settings display_settings
      else Done false
  | _, _ => Done false
  end.

(** The block of [IMB_display_buffer_acquire] on [invalid_rect]: the
    rectangle of delayed updates is brought up to date in the cached
    display buffer, unless all display buffers are marked invalid, and is
    reset. *)
Definition display_buffer_update_invalid_rect (cat : Catalog) (ibuf : ImBuf)
    (rect_float : option (Z -> float)) (rect : option (Z -> Byte.byte))
    (invalid_rect : rcti)
    (applied_view_settings : ColorManagedViewSettings)
    (display_settings : ColorManagedDisplaySettings) : exec (ImBuf * rcti * list Call) :=
  if negb (rcti_xmin invalid_rect =? rcti_xmax invalid_rect) then
    updated ←
      (if Z.land (ibuf_userflags ibuf) IB_DISPLAY_BUFFER_INVALID =? 0 then
         IMB_partial_display_buffer_update_threaded cat ibuf rect_float rect
           (ibuf_x ibuf) 0 0 applied_view_settings display_settings
           (rcti_xmin invalid_rect) (rcti_ymin invalid_rect)
           (rcti_xmax invalid_rect) (rcti_ymax invalid_rect)
       else Done (ibuf, []));
    Done (fst updated, BLI_rcti_init 0 0 0 0, snd updated)
  else Done (ibuf, invalid_rect, []).

(** The block of [IMB_display_buffer_acquire] that ensures that the bit
    field exists.  The count of displays is not negative when the bit
    field is allocated. *)
Definition display_buffer_ensure_flags (cat : Catalog) (ibuf : ImBuf) : exec ImBuf :=
  match display_buffer_flags ibuf with
  | None =>
      Done (set_display_buffer_flags ibuf
              (Some (replicate (Z.to_nat (global_tot_display cat)) 0)))
  | Some flags =>
      if negb (Z.land (ibuf_userflags ibuf) IB_DISPLAY_BUFFER_INVALID =? 0) then
        (* all display buffers were marked as invalid from other areas,
           now propagate this flag to internal color management routines *)
        flags1 ← memset_zero flags (global_tot_display cat);
        Done (set_userflags (set_display_buffer_flags ibuf (Some flags1))
                (Z.land (ibuf_userflags ibuf) (Z.lnot IB_DISPLAY_BUFFER_INVALID)))
      else Done ibuf
  end.

(** [IMB_display_buffer_acquire] on an image buffer with its
    [rect_float], [rect], [float_colorspace] and [invalid_rect];
    [alpha_affects_rgb] is what [IMB_alpha_affects_rgb] says of the image
    buffer. *)
Definition IMB_display_buffer_acquire (cat : Catalog) (roles : RoleNames)
    (ibuf : ImBuf) (rect_float : option (Z -> float)) (rect : option (Z -> Byte.byte))
    (float_colorspace : option ColorSpace) (alpha_affects_rgb : bool)
    (invalid_rect : rcti)
    (view_settings : option ColorManagedViewSettings)
    (display_settings : ColorManagedDisplaySettings) : exec DisplayBufferAcquired :=
  if (ibuf_x ibuf =? 0) || (ibuf_y ibuf =? 0) then
    Done {| acquired_buffer := None; acquired_cache_handle := None;
            acquired_ibuf := ibuf; acquired_invalid_rect := invalid_rect;
            acquired_calls := [] |}
  else
    (* If no view settings were specified, use default ones *)
    applied_view_settings ← applied_view_settings cat view_settings display_settings;
    (* early out: no float buffer and byte buffer is already in display space,
       let's just use if *)
    early_out ← display_buffer_early_out cat ibuf rect_float
                  applied_view_settings display_settings;
    if early_out : bool then
      Done {| acquired_buffer := match rect with
                                 | Some _ => Some Pointer_rect
                                 | None => None
                                 end;
              acquired_cache_handle := None;
              acquired_ibuf := ibuf; acquired_invalid_rect := invalid_rect;
              acquired_calls := [] |}
    else
      let cache_view_settings :=
        colormanage_view_settings_to_cache cat ibuf applied_view_settings in
      let cache_display_settings :=
        colormanage_display_settings_to_cache cat display_settings in
      '(ibuf1, invalid_rect1, calls1) ←
        display_buffer_update_invalid_rect cat ibuf rect_float rect invalid_rect
          applied_view_settings display_settings;
      ibuf2 ← display_buffer_ensure_flags cat ibuf1;
      got ← colormanage_cache_get ibuf2 cache_view_settings cache_display_settings;
      match got_buffer got with
      | Some display_buffer =>
          Done {| acquired_buffer := Some (Pointer_display_buffer display_buffer);
                  acquired_cache_handle := got_handle got;
                  acquired_ibuf := ibuf2; acquired_invalid_rect := invalid_rect1;
                  acquired_calls := calls1 ++ got_calls got |}
      | None =>
          let buffer_size :=
            CInt.size_mul (CInt.size_mul (CInt.size_mul 4 (CInt.to_size_t (ibuf_x ibuf)))
                             (ibuf_y ibuf)) 1 in
          let display_buffer := replicate (Z.to_nat buffer_size) Byte.x00 in
          processed ← colormanage_display_buffer_process cat roles ibuf2 rect_float rect
                        float_colorspace alpha_affects_rgb display_buffer
                        applied_view_settings display_settings;
          put ← colormanage_cache_put ibuf2 cache_view_settings cache_display_settings
                  (fst processed);
          Done {| acquired_buffer := Some (Pointer_display_buffer (fst processed));
                  acquired_cache_handle := Some (put_handle put);
                  acquired_ibuf := put_ibuf put; acquired_invalid_rect := invalid_rect1;
                  acquired_calls :=
                    calls1 ++ got_calls got ++ snd processed ++ put_calls put |}
      end.

(** [IMB_display_buffer_release]: the calls on the block cache. *)
Definition IMB_display_buffer_release (cache_handle : option CacheImBuf) : list Call :=
  match cache_handle with
  | Some cache_ibuf => [Call_freeImBuf cache_ibuf]
  | None => []
  end.

End DisplayBuffer.

(** ** The processors of colour picking *)

Section ColorPicking.

Context {engine : TransformEngine}.

(** The file-level [global_color_picking_state]. *)
Record ColorPickingState := {
  cpu_processor_to : option OCIO_CPUProcessor;
  cpu_processor_from : option OCIO_CPUProcessor;
  failed : bool
}.

(** Its static initialiser, and what [colormanagement_exit] resets it to. *)
Definition color_picking_state_initial : ColorPickingState :=
  {| cpu_processor_to := None; cpu_processor_from := None; failed := false |}.

(** As everywhere in the engine of this file, a processor and the CPU
    processor that [OCIO_processorGetCPUProcessor] makes of it are one. *)
Definition create_colorspace_transform_processor (from_colorspace to_colorspace : string)
  : option OCIO_CPUProcessor :=
  OCIO_configGetProcessorWithNames from_colorspace to_colorspace.

(** The state, the pixel, and the requests for a processor that went to
    the engine, each with its two colour space names. *)
Definition IMB_colormanagement_scene_linear_to_color_picking_v3 (cat : Catalog)
    (roles : RoleNames) (state : ColorPickingState) (pixel : float * float * float)
  : ColorPickingState * (float * float * float) * list (string * string) :=
  let '(state1, requests) :=
    match cpu_processor_to state with
    | None =>
        if negb (failed state) then
          (* Create processor if none exists. *)
          let from_colorspace := global_role_scene_linear cat in
          let to_colorspace := global_role_color_picking roles in
          match create_colorspace_transform_processor from_colorspace to_colorspace with
          | Some processor =>
              ({| cpu_processor_to := Some processor;
                  cpu_processor_from := cpu_processor_from state;
                  failed := failed state |},
               [(from_colorspace, to_colorspace)])
          | None =>
              ({| cpu_processor_to := cpu_processor_to state;
                  cpu_processor_from := cpu_processor_from state;
                  failed := true |},
               [(from_colorspace, to_colorspace)])
          end
        else (state, [])
    | Some _ => (state, [])
    end in
  match cpu_processor_to state1 with
  | Some processor => (state1, OCIO_cpuProcessorApplyRGB processor pixel, requests)
  | None => (state1, pixel, requests)
  end.

Definition IMB_colormanagement_color_picking_to_scene_linear_v3 (cat : Catalog)
    (roles : RoleNames) (state : ColorPickingState) (pixel : float * float * float)
  : ColorPickingState * (float * float * float) * list (string * string) :=
  let '(state1, requests) :=
    match cpu_processor_from state with
    | None =>
        if negb (failed state) then
          (* Create processor if none exists. *)
          let from_colorspace := global_role_color_picking roles in
          let to_colorspace := global_role_scene_linear cat in
          match create_colorspace_transform_processor from_colorspace to_colorspace with
          | Some processor =>
              ({| cpu_processor_to := cpu_processor_to state;
                  cpu_processor_from := Some processor;
                  failed := failed state |},
               [(from_colorspace, to_colorspace)])
          | None =>
              ({| cpu_processor_to := cpu_processor_to state;
                  cpu_processor_from := cpu_processor_from state;
                  failed := true |},
               [(from_colorspace, to_colorspace)])
          end
        else (state, [])
    | Some _ => (state, [])
    end in
  match cpu_processor_from state1 with
  | Some processor => (state1, OCIO_cpuProcessorApplyRGB processor pixel, requests)
  | None => (state1, pixel, requests)
  end.

(** A call of one of the two functions with its pixel, and a sequence of
    such calls on the state: the state, the pixels and the requests of
    all calls in their order. *)
Inductive ColorPickingCall :=
  | To_color_picking (pixel : float * float * float)
  | To_scene_linear (pixel : float * float * float).

Definition color_picking_call (cat : Catalog) (roles : RoleNames)
    (state : ColorPickingState) (call : ColorPickingCall)
  : ColorPickingState * (float * float * float) * list (string * string) :=
  match call with
  | To_color_picking pixel =>
      IMB_colormanagement_scene_linear_to_color_picking_v3 cat roles state pixel
  | To_scene_linear pixel =>
      IMB_colormanagement_color_picking_to_scene_linear_v3 cat roles state pixel
  end.

Fixpoint color_picking_calls (cat : Catalog) (roles : RoleNames)
    (state : ColorPickingState) (calls : list ColorPickingCall)
  : ColorPickingState * list (float * float * float) * list (string * string) :=
  match calls with
  | [] => (state, [], [])
  | call :: rest =>
      let '(state1, pixel, requests) := color_picking_call cat roles state call in
      let '(state2, pixels, requests2) := color_picking_calls cat roles state1 rest in
      (state2, pixel :: pixels, requests ++ requests2)
  end.

End ColorPicking.

(** ** Notions used in the statements *)

(** The entries of a configuration as the loader fetches them: every name
    in the order of the enumeration, with what the query by that name
    returns. *)
Definition config_fetched (config : OCIO_Config) : OCIO_Config :=
  {| config_role_scene_linear := config_role_scene_linear config;
     config_colorspaces :=
       (fun name => (name,
                     OCIO_colorSpaceIsInvertible (OCIO_configGetColorSpace config name),
                     OCIO_colorSpaceIsData (OCIO_configGetColorSpace config name)))
         <$> OCIO_configColorSpaceNames config;
     config_displays :=
       (fun name => (name, OCIO_configViews config name)) <$> OCIO_configDisplays config;
     config_looks :=
       (fun name => (name, OCIO_lookGetProcessSpace (OCIO_configGetLook config name)))
         <$> OCIO_configLookNames config |}.

Section LoaderLoops.

Context {constants : HeaderConstants} {helpers : Helpers}.

(** The loops of the loader on entries that are fetched already: a display
    with its views, and a whole configuration. *)
Definition load_config_display_entry (cat : Catalog) (d : string * list string) : Catalog :=
  fold_left load_config_view (snd d) (colormanage_display_add cat (fst d)).

Definition load_config_entries (cat : Catalog) (config : OCIO_Config) : Catalog :=
  let cat0 := load_role_scene_linear cat config in
  let cat1 :=
    fold_left (fun c cs => colormanage_colorspace_add c (fst (fst cs)) (snd (fst cs)) (snd cs))
              (config_colorspaces config) cat0 in
  let tot_display := Z.of_nat (length (config_displays config)) in
  let cat2 := fold_left load_config_display_entry (config_displays config) cat1 in
  let cat3 := set_global_tot_display cat2 tot_display in
  let cat4 := colormanage_look_add cat3 "None" EmptyString true in
  fold_left (fun c lk => colormanage_look_add c (fst lk) (snd lk) false)
            (config_looks config) cat4.

End LoaderLoops.


(** A call that only looks a display buffer up or releases one. *)
Definition is_lookup_call (c : Call) : bool :=
  match c with
  | Call_moviecache_get _ | Call_freeImBuf _ => true
  | _ => false
  end.

(** A call that runs the region writer: on the calling thread, or through
    the thread pool. *)
Definition is_update_here (c : Call) : bool :=
  match c with Call_update_rect_here _ _ _ _ => true | _ => false end.

Definition is_update_threaded (c : Call) : bool :=
  match c with Call_threaded_scanlines _ => true | _ => false end.

(** The bit field in which only the bit of the pair (display, view), both
    1-based, is set; [n] elements. *)
Definition only_bit_set (n : nat) (display view : Z) : list Z :=
  <[Z.to_nat (display - 1) := Z.shiftl 1 (view - 1)]> (replicate n 0).

(** The byte offsets of the display buffer that belong to pixels of the
    rectangle [xmin, xmax) x [ymin, ymax), for rows of [stride] pixels. *)
Definition in_rect_bytes (stride xmin ymin xmax ymax : Z) (i : Z) : Prop :=
  exists x y, xmin <= x < xmax /\ ymin <= y < ymax
              /\ (y * stride + x) * 4 <= i < (y * stride + x) * 4 + 4.

(** Two display buffers of the same size that agree outside a set of byte
    offsets. *)
Definition agree_outside (P : Z -> Prop) (old new : list Byte.byte) : Prop :=
  length new = length old
  /\ forall i : nat, ~ P (Z.of_nat i) -> new !! i = old !! i.

(** Byte [k] of the pixel in column [x] of row [y]. *)
Definition pixel_byte (buffer : list Byte.byte) (stride x y k : Z) : option Byte.byte :=
  buffer !! Z.to_nat ((y * stride + x) * 4 + k).

(** The entries of a list carry the indices 1, 2, ... in list order. *)
Definition numbered {A} (index : A -> Z) (l : list A) : Prop :=
  index <$> l = seqZ 1 (Z.of_nat (length l)).

(** Every list of the catalog is numbered from 1 in list order, and the
    counts that are kept while the lists grow are the lengths of their
    lists ... *)
Definition catalog_lists_numbered (cat : Catalog) : Prop :=
  numbered colorspace_index (global_colorspaces cat)
  /\ numbered display_index (global_displays cat)
  /\ numbered view_index (global_views cat)
  /\ numbered look_index (global_looks cat)
  /\ global_tot_colorspace cat = Z.of_nat (length (global_colorspaces cat))
  /\ global_tot_view cat = Z.of_nat (length (global_views cat))
  /\ global_tot_looks cat = Z.of_nat (length (global_looks cat)).

(** ... and so is the display count, which the loader sets once. *)
Definition catalog_numbered (cat : Catalog) : Prop :=
  catalog_lists_numbered cat
  /\ global_tot_display cat = Z.of_nat (length (global_displays cat)).

(** The counts fit an [int], as the variables that hold them do. *)
Definition catalog_counts_representable (cat : Catalog) : Prop :=
  global_tot_colorspace cat <= CInt.INT_MAX
  /\ global_tot_display cat <= CInt.INT_MAX
  /\ global_tot_view cat <= CInt.INT_MAX
  /\ global_tot_looks cat <= CInt.INT_MAX.

(** Neighbours in the list of colour spaces are in the order of
    [BLI_strcasecmp] on their names. *)
Fixpoint colorspaces_sorted {helpers : Helpers} (l : list ColorSpace) : bool :=
  match l with
  | [] => true
  | a :: rest =>
      match rest with
      | [] => true
      | b :: _ => BLI_strcasecmp (colorspace_name a) (colorspace_name b) <=? 0
      end && colorspaces_sorted rest
  end.

(** The look that stands in a catalog for "no look". *)
Definition look_none : ColorManagedLook :=
  {| look_index := 1; look_name := "None"; look_ui_name := "None";
     look_view := EmptyString; look_process_space := EmptyString; is_noop := true |}.

(** What the configuration says of a colour space, and what the catalog
    keeps of it: the name, cut to the size of the name array, and the two
    flags. *)
Definition colorspace_entry (colorspace : ColorSpace) : string * bool * bool :=
  (colorspace_name colorspace, is_invertible colorspace, is_data colorspace).

Definition config_colorspace_entry {constants : HeaderConstants}
    (cs : string * bool * bool) : string * bool * bool :=
  (BLI_strncpy (fst (fst cs)) MAX_COLORSPACE_NAME, snd (fst cs), snd cs).

(** What the configuration says of a display, and what the catalog keeps
    of it: the name and the names of its views, in order. *)
Definition display_entry (display : ColorManagedDisplay) : string * list string :=
  (display_name display, view_name <$> display_views display).

Definition config_display_entry {constants : HeaderConstants}
    (d : string * list string) : string * list string :=
  (BLI_strncpy (fst d) MAX_COLORSPACE_NAME, snd d).

(** Every view name of the configuration fits the name array of a view. *)
Definition config_view_names_fit {constants : HeaderConstants} (config : OCIO_Config) : Prop :=
  Forall (fun d => Forall (fun viewname => (String.length viewname < MAX_COLORSPACE_NAME)%nat)
                          (snd d))
         (config_displays config).

(** The views of a catalog have different names, and every view that a
    display lists is one of them. *)
Definition views_registered_once (cat : Catalog) : Prop :=
  NoDup (view_name <$> global_views cat)
  /\ forall display view,
       display ∈ global_displays cat -> view ∈ display_views display ->
       view ∈ global_views cat.

(** Every name of the catalog fits the name arrays, terminator included. *)
Definition catalog_names_fit {constants : HeaderConstants} (cat : Catalog) : Prop :=
  Forall (fun colorspace =>
            (String.length (colorspace_name colorspace) < MAX_COLORSPACE_NAME)%nat)
         (global_colorspaces cat)
  /\ Forall (fun display => (String.length (display_name display) < MAX_COLORSPACE_NAME)%nat)
            (global_displays cat)
  /\ Forall (fun view => (String.length (view_name view) < MAX_COLORSPACE_NAME)%nat)
            (global_views cat)
  /\ Forall (fun look => (String.length (look_name look) < MAX_COLORSPACE_NAME)%nat)
            (global_looks cat).

(** The name arrays of the settings are at least as long as those of the
    catalog. *)
Definition settings_hold_catalog_names {constants : HeaderConstants}
    {sizes : SettingsSizes} : Prop :=
  (MAX_COLORSPACE_NAME <= sizeof_look)%nat
  /\ (MAX_COLORSPACE_NAME <= sizeof_view_transform)%nat
  /\ (MAX_COLORSPACE_NAME <= sizeof_display_device)%nat
  /\ (MAX_COLORSPACE_NAME <= sizeof_colorspace_settings_name)%nat.

(** Settings that name a display, a view and a look of the catalog. *)
Definition display_settings_known (cat : Catalog)
    (display_settings : ColorManagedDisplaySettings) : Prop :=
  is_Some (colormanage_display_get_named cat (display_device display_settings)).

Definition look_known (cat : Catalog) (view_settings : ColorManagedViewSettings) : Prop :=
  is_Some (colormanage_look_get_named cat (vs_look view_settings)).

Definition view_known (cat : Catalog) (view_settings : ColorManagedViewSettings) : Prop :=
  is_Some (colormanage_view_get_named cat (vs_view_transform view_settings)).

(** A colour space setting that is empty or names a colour space of the
    catalog. *)
Definition colorspace_setting_known (cat : Catalog) (name : string) : Prop :=
  name = EmptyString \/ is_Some (colormanage_colorspace_get_named cat name).

(** A scene whose settings name a display and a look of the catalog, so
    that [colormanage_use_look] is defined on its look; whose sequencer
    colour space is one of the catalog or the name of the role; and whose
    strips have colour space settings that are empty or known. *)
Definition scene_settings_known {constants : HeaderConstants}
    (cat : Catalog) (roles : RoleNames) (scene : Scene) : Prop :=
  display_settings_known cat (scene_display_settings scene)
  /\ look_known cat (scene_view_settings scene)
  /\ (forall view_name,
        colormanage_use_look cat (vs_look (scene_view_settings scene)) view_name <> Crash)
  /\ (is_Some (colormanage_colorspace_get_named cat (scene_sequencer_colorspace scene))
      \/ scene_sequencer_colorspace scene
         = BLI_strncpy (global_role_default_sequencer roles) MAX_COLORSPACE_NAME)
  /\ match scene_ed scene with
     | Some seqbase =>
         Forall (fun strip => match strip with
                              | Some name => colorspace_setting_known cat name
                              | None => True
                              end) seqbase
     | None => True
     end.

(** A string without a line break. *)
Fixpoint single_line (s : string) : bool :=
  match s with
  | EmptyString => true
  | String c rest => negb (is_line_break c) && single_line rest
  end.

(** A string of line breaks only. *)
Fixpoint only_line_breaks (s : string) : bool :=
  match s with
  | EmptyString => true
  | String c rest => is_line_break c && only_line_breaks rest
  end.

(** The last character of a string. *)
Fixpoint last_char (s : string) : option Ascii.ascii :=
  match s with
  | EmptyString => None
  | String c EmptyString => Some c
  | String _ rest => last_char rest
  end.

(** The pixel in column [x] of row [y] lies in a rectangle. *)
Definition in_rcti (rect : rcti) (x y : Z) : Prop :=
  rcti_xmin rect <= x < rcti_xmax rect /\ rcti_ymin rect <= y < rcti_ymax rect.

(** What the delayed update needs of the rectangle operations: the
    rectangle that [BLI_rcti_init] makes holds the pixels between its
    bounds, the union holds the pixels of both rectangles. *)
Definition rect_ops_cover {rects : RectOps} : Prop :=
  (forall xmin xmax ymin ymax x y,
     xmin <= x < xmax -> ymin <= y < ymax ->
     in_rcti (BLI_rcti_init xmin xmax ymin ymax) x y)
  /\ (forall a b x y, in_rcti a x y \/ in_rcti b x y -> in_rcti (BLI_rcti_union a b) x y).

(** The first [n] pixels of a buffer of four elements a pixel are the
    expected ones, and the rest of the buffer is as it was. *)
Definition pixels_written {A} (expected : Z -> list A) (old : list A)
    (n : Z) (new : list A) : Prop :=
  length new = length old
  /\ (forall p k, 0 <= p < n -> 0 <= k < 4 ->
        new !! Z.to_nat (4 * p + k) = expected p !! Z.to_nat k)
  /\ (forall i : nat, 4 * n <= Z.of_nat i -> new !! i = old !! i).

(** The four elements of pixel [p] of a buffer. *)
Definition pixel_bytes {A} (buffer : list A) (p : Z) : list A :=
  take 4 (drop (Z.to_nat (4 * p)) buffer).

(** The element at an offset of a buffer that holds it. *)
Definition element_at {A} (d : A) (buffer : list A) (i : Z) : A :=
  default d (buffer !! Z.to_nat i).

(** The bytes that [IMB_colormanagement_imbuf_to_byte_texture] stores,
    without a processor, for the pixel at [i] of its source. *)
Definition texture_bytes (use_premultiply : bool) (bb : Z -> Byte.byte) (i : Z)
  : list Byte.byte :=
  if use_premultiply then
    [premultiplied_uchar (bb i) (bb (i + 3));
     premultiplied_uchar (bb (i + 1)) (bb (i + 3));
     premultiplied_uchar (bb (i + 2)) (bb (i + 3));
     bb (i + 3)]
  else [bb i; bb (i + 1); bb (i + 2); bb (i + 3)].

(** The floats that [IMB_colormanagement_imbuf_to_float_texture] stores
    for the pixel at [i] of a source of [in_channels] channels. *)
Definition texture_floats {helpers : Helpers} (in_channels : Z) (use_unpremultiply : bool)
    (fb : Z -> float) (i : Z) : list float :=
  if in_channels =? 1 then [fb i; fb i; fb i; fb i]
  else if in_channels =? 3 then [fb i; fb (i + 1); fb (i + 2); CFloat.one]
  else if use_unpremultiply then
    let pixel := premul_to_straight_v4_v4
                   {| px_r := fb i; px_g := fb (i + 1);
                      px_b := fb (i + 2); px_a := fb (i + 3) |} in
    [px_r pixel; px_g pixel; px_b pixel; px_a pixel]
  else [fb i; fb (i + 1); fb (i + 2); fb (i + 3)].

(** Two states of an image buffer that differ at most in the bit field,
    the cache and the user flags. *)
Definition same_image (a b : ImBuf) : Prop :=
  ibuf_x b = ibuf_x a /\ ibuf_y b = ibuf_y a
  /\ ibuf_channels b = ibuf_channels a /\ ibuf_dither b = ibuf_dither a
  /\ ibuf_colormanage_flag b = ibuf_colormanage_flag a
  /\ rect_colorspace b = rect_colorspace a.

(** The exposure and the gamma of the caller's settings are numbers (every
    comparison with a NaN is false, also with itself). *)
Definition settings_are_numbers (view_settings : option ColorManagedViewSettings) : Prop :=
  match view_settings with
  | Some settings =>
      CFloat.eq (vs_exposure settings) (vs_exposure settings) = true
      /\ CFloat.eq (vs_gamma settings) (vs_gamma settings) = true
  | None => True
  end.

(** The only calls are lookups in the block cache. *)
Definition only_moviecache_gets (calls : list Call) : Prop :=
  forall call, call ∈ calls -> exists key, call = Call_moviecache_get key.

(** The pixel that a call hands in. *)
Definition call_pixel (call : ColorPickingCall) : float * float * float :=
  match call with
  | To_color_picking pixel => pixel
  | To_scene_linear pixel => pixel
  end.

(** The processors that may still be asked of the engine: none after a
    failure, otherwise one for every direction that has none. *)
Definition color_picking_budget {engine : TransformEngine} (state : ColorPickingState)
  : nat :=
  if failed state then 0%nat
  else (match cpu_processor_to state with Some _ => 0 | None => 1 end
        + match cpu_processor_from state with Some _ => 0 | None => 1 end)%nat.

(** * Concrete inputs *)

(** A configuration with one display of two views and one look of its own. *)
Definition example_config : OCIO_Config :=
  {| config_role_scene_linear := Some "Linear"%string;
     config_colorspaces := [("Linear", true, false); ("sRGB", true, false);
                            ("Non-Color", false, true)]%string;
     config_displays := [("sRGB", ["Standard"; "Raw"])]%string;
     config_looks := [("Standard - High Contrast", "Linear")]%string |}.

(** A configuration that enumerates one colour space and no display. *)
Definition example_config_no_displays : OCIO_Config :=
  {| config_role_scene_linear := None;
     config_colorspaces := [("Old"%string, true, false)];
     config_displays := []; config_looks := [] |}.

(** A configuration that enumerates nothing. *)
Definition empty_config : OCIO_Config :=
  {| config_role_scene_linear := None;
     config_colorspaces := []; config_displays := []; config_looks := [] |}.

Definition example_strcasecmp (a b : string) : Z :=
  match String.compare a b with Lt => -1 | Eq => 0 | Gt => 1 end.

(** One choice of the constants, helpers and engine, to run the code on
    concrete inputs: every conversion gives fixed values, every processor
    leaves its input as it is, and whatever goes through
    [IMB_buffer_byte_from_float] comes out as the byte [0xff]. *)
Definition example_constants : HeaderConstants :=
  {| MAX_COLORSPACE_NAME := 64;
     COLORMANAGE_VIEW_USE_CURVES := 1;
     IMB_COLORMANAGE_IS_DATA := 1;
     IB_DISPLAY_BUFFER_INVALID := 16 |}.

Definition example_pixel : Pixel :=
  {| px_r := CFloat.zero; px_g := CFloat.zero; px_b := CFloat.zero; px_a := CFloat.one |}.

Definition example_helpers : Helpers :=
  {| BLI_strcasecmp := example_strcasecmp;
     powf := fun _ e => e;
     BKE_curvemapping_evaluate_premulRGBF := fun _ c => c;
     BKE_curvemap_evaluateF := fun _ v => v;
     rgba_uchar_to_float := fun _ => example_pixel;
     rgba_float_to_uchar := fun _ => (Byte.x01, Byte.x02, Byte.x03, Byte.x04);
     rgb_float_to_uchar := fun _ => (Byte.x01, Byte.x02, Byte.x03);
     unit_float_to_uchar_clamp := fun _ => Byte.x05;
     straight_to_premul_v4 := fun p => p;
     premul_to_straight_v4_v4 := fun p => p;
     pixel_indeterminate := example_pixel;
     IMB_buffer_float_from_byte := fun _ _ _ _ _ _ => CFloat.zero;
     byte_from_float_pixel := fun _ _ _ _ _ _ => (Byte.xff, Byte.xff, Byte.xff, Byte.xff) |}.

Definition example_engine : TransformEngine :=
  {| OCIO_CPUProcessor := unit;
     OCIO_createDisplayProcessor := fun _ => Some tt;
     OCIO_configGetProcessorWithNames := fun _ _ => Some tt;
     OCIO_configGetDisplayColorSpaceName := fun _ _ => Some "sRGB"%string;
     OCIO_cpuProcessorApplyRGBA := fun _ p => p;
     OCIO_cpuProcessorApplyRGBA_predivide := fun _ p => p;
     OCIO_cpuProcessorApplyRGB := fun _ c => c;
     OCIO_cpuProcessorApply := fun _ b _ _ _ => b;
     OCIO_cpuProcessorApply_predivide := fun _ b _ _ _ => b |}.

Definition example_threads : @TransformThreads example_engine :=
  {| processor_transform_apply_threaded := fun _ bytes floats _ _ _ _ => (bytes, floats) |}.

Definition example_catalog : Catalog :=
  Eval vm_compute in
    @colormanage_load_config example_constants example_helpers
      catalog_initial example_config.

(** An engine whose processors blank what they are applied to: between two
    different colour spaces the transformation is the engine's. *)
Definition blanking_engine : TransformEngine :=
  {| OCIO_CPUProcessor := unit;
     OCIO_createDisplayProcessor := fun _ => Some tt;
     OCIO_configGetProcessorWithNames := fun _ _ => Some tt;
     OCIO_configGetDisplayColorSpaceName := fun _ _ => Some "sRGB"%string;
     OCIO_cpuProcessorApplyRGBA := fun _ _ => example_pixel;
     OCIO_cpuProcessorApplyRGBA_predivide := fun _ _ => example_pixel;
     OCIO_cpuProcessorApplyRGB := fun _ _ => (CFloat.zero, CFloat.zero, CFloat.zero);
     OCIO_cpuProcessorApply := fun _ b _ _ _ => (fun _ => CFloat.zero) <$> b;
     OCIO_cpuProcessorApply_predivide := fun _ b _ _ _ => (fun _ => CFloat.zero) <$> b |}.

Definition blanking_threads : @TransformThreads blanking_engine :=
  {| processor_transform_apply_threaded := fun _ bytes floats _ _ _ _ => (bytes, floats) |}.

(** An image buffer of 2 x 2 pixels whose bit field exists (one display)
    and has no bit set, and a request for the first view on the first
    display at exposure 0 and gamma 1. *)
Definition example_ibuf : ImBuf :=
  {| ibuf_x := 2; ibuf_y := 2; ibuf_channels := 4;
     ibuf_dither := CFloat.zero;
     ibuf_userflags := 0; ibuf_colormanage_flag := 0;
     rect_colorspace := None;
     display_buffer_flags := Some [0];
     colormanage_cache := None |}.

Definition example_cache_view_settings : ColormanageCacheViewSettings :=
  {| cvs_flag := 0; cvs_look := 1; cvs_view := 1;
     cvs_exposure := CFloat.zero; cvs_gamma := CFloat.one; cvs_dither := CFloat.zero;
     cvs_curve_mapping := None |}.

Definition example_cache_display_settings : ColormanageCacheDisplaySettings :=
  {| cds_display := 1 |}.

Definition example_display_buffer : list Byte.byte := replicate 16 Byte.x00.

(** The image buffer after the display buffer was put into its cache. *)
Definition example_ibuf_cached : ImBuf :=
  Eval vm_compute in
    match colormanage_cache_put example_ibuf example_cache_view_settings
            example_cache_display_settings example_display_buffer with
    | Done result => put_ibuf result
    | Crash => example_ibuf
    end.

Definition example_cache_ibuf : CacheImBuf :=
  {| cache_x := 2; cache_y := 2;
     cache_rect := example_display_buffer;
     cache_data := Some (cache_data_of example_cache_view_settings) |}.

(** Requests of a caller for the views "Standard" and "Raw" of the display
    "sRGB", with the look "None", exposure 0 and gamma 1. *)
Definition example_view_settings : ColorManagedViewSettings :=
  {| vs_flag := 0; vs_look := "None"; vs_view_transform := "Standard";
     vs_exposure := CFloat.zero; vs_gamma := CFloat.one; vs_curve_mapping := None |}.

Definition example_view_settings_raw : ColorManagedViewSettings :=
  {| vs_flag := 0; vs_look := "None"; vs_view_transform := "Raw";
     vs_exposure := CFloat.zero; vs_gamma := CFloat.one; vs_curve_mapping := None |}.

Definition example_display_settings : ColorManagedDisplaySettings :=
  {| display_device := "sRGB" |}.

(** A linear float buffer that is black everywhere. *)
Definition example_linear_buffer : Z -> float := fun _ => CFloat.zero.

(** The cached example buffer with the bits of both views set. *)
Definition example_ibuf_both_bits : ImBuf :=
  set_display_buffer_flags example_ibuf_cached (Some [3]).

(** The cached example buffer after a partial update of its top left pixel
    for the view "Standard", and the calls of that update. *)
Definition example_update_standard : ImBuf * list Call :=
  Eval vm_compute in
    match @IMB_partial_display_buffer_update example_constants example_helpers
            example_engine example_catalog example_ibuf_both_bits
            (Some example_linear_buffer) None 2 0 0
            example_view_settings example_display_settings 0 0 1 1 with
    | Done r => r
    | Crash => (example_ibuf, [])
    end.

(** The same for the view "Raw", which was never computed. *)
Definition example_update_raw : ImBuf * list Call :=
  Eval vm_compute in
    match @IMB_partial_display_buffer_update example_constants example_helpers
            example_engine example_catalog example_ibuf_cached
            (Some example_linear_buffer) None 2 0 0
            example_view_settings_raw example_display_settings 0 0 1 1 with
    | Done r => r
    | Crash => (example_ibuf, [])
    end.

(** The threaded variant on the rectangle of the top left pixel, and on a
    rectangle with [xmax < xmin]. *)
Definition example_update_threaded_pixel : ImBuf * list Call :=
  Eval vm_compute in
    match @IMB_partial_display_buffer_update_threaded example_constants example_helpers
            example_engine example_catalog example_ibuf_cached
            (Some example_linear_buffer) None 2 0 0
            example_view_settings example_display_settings 0 0 1 1 with
    | Done r => r
    | Crash => (example_ibuf, [])
    end.

Definition example_update_threaded_inverted : ImBuf * list Call :=
  Eval vm_compute in
    match @IMB_partial_display_buffer_update_threaded example_constants example_helpers
            example_engine example_catalog example_ibuf_cached
            (Some example_linear_buffer) None 2 0 0
            example_view_settings example_display_settings 1 0 0 1 with
    | Done r => r
    | Crash => (example_ibuf, [])
    end.

(** The threaded variant on a rectangle of 64 x 64 pixels for the view
    "Raw", which was never computed. *)
Definition example_update_threaded_raw : ImBuf * list Call :=
  Eval vm_compute in
    match @IMB_partial_display_buffer_update_threaded example_constants example_helpers
            example_engine example_catalog example_ibuf_cached
            (Some example_linear_buffer) None 2 0 0
            example_view_settings_raw example_display_settings 0 0 64 64 with
    | Done r => r
    | Crash => (example_ibuf, [])
    end.

(** An image buffer of 4 x 2 pixels with three float channels and a dither
    amount of 1, a display buffer of that size filled with zero bytes, and a
    processor of the example engine. *)
Definition example_ibuf_rgb_dither : ImBuf :=
  {| ibuf_x := 4; ibuf_y := 2; ibuf_channels := 3;
     ibuf_dither := CFloat.one;
     ibuf_userflags := 0; ibuf_colormanage_flag := 0;
     rect_colorspace := None;
     display_buffer_flags := Some [1];
     colormanage_cache := None |}.

(** The same image buffer with four channels. *)
Definition example_ibuf_rgba_dither : ImBuf :=
  {| ibuf_x := 4; ibuf_y := 2; ibuf_channels := 4;
     ibuf_dither := CFloat.one;
     ibuf_userflags := 0; ibuf_colormanage_flag := 0;
     rect_colorspace := None;
     display_buffer_flags := Some [1];
     colormanage_cache := None |}.

Definition example_display_buffer_4x2 : list Byte.byte := replicate 32 Byte.x00.

Definition example_processor : @ColormanageProcessor example_engine :=
  @Build_ColormanageProcessor example_engine (Some tt) None false.

(** Name arrays of 64 characters in the settings; a configuration whose
    default display is "sRGB" and whose default view is "Standard"; string
    comparison without regard to case taken as plain comparison. *)
Definition example_sizes : SettingsSizes :=
  {| sizeof_look := 64; sizeof_view_transform := 64;
     sizeof_display_device := 64; sizeof_colorspace_settings_name := 64 |}.

Definition example_defaults : ConfigDefaults :=
  {| OCIO_configGetDefaultDisplay := Some "sRGB"%string;
     OCIO_configGetDefaultView := fun _ => Some "Standard"%string |}.

Definition example_libc : LibC :=
  {| strcasecmp := example_strcasecmp |}.

Definition example_roles : RoleNames :=
  {| global_role_data := "Non-Color";
     global_role_color_picking := "sRGB";
     global_role_texture_painting := "sRGB";
     global_role_default_byte := "sRGB";
     global_role_default_float := "Linear";
     global_role_default_sequencer := "sRGB" |}.

(** A file with one scene that names a display, a view, a look and a
    sequencer colour space that the example catalog does not have, and an
    image with such a colour space. *)
Definition example_scene : Scene :=
  {| scene_display_settings := {| display_device := "Rec.2020" |};
     scene_view_settings :=
       {| vs_flag := 0; vs_look := "Filmic"; vs_view_transform := "ACES";
          vs_exposure := CFloat.zero; vs_gamma := CFloat.zero;
          vs_curve_mapping := None |};
     scene_sequencer_colorspace := "Rec.709";
     scene_ed := Some [Some "sRGB"; None; Some "Rec.709"]%string |}.

Definition example_main : Main :=
  {| main_scenes := [example_scene];
     main_images := ["sRGB"; "Rec.709"]%string;
     main_movieclips := [] |}.

(** Rectangle operations: [BLI_rcti_init] orders the bounds it is given,
    [BLI_rcti_union] takes the smaller minima and the larger maxima. *)
Definition example_rects : RectOps :=
  {| BLI_rcti_init := fun xmin xmax ymin ymax =>
       {| rcti_xmin := Z.min xmin xmax; rcti_xmax := Z.max xmin xmax;
          rcti_ymin := Z.min ymin ymax; rcti_ymax := Z.max ymin ymax |};
     BLI_rcti_union := fun a b =>
       {| rcti_xmin := Z.min (rcti_xmin a) (rcti_xmin b);
          rcti_xmax := Z.max (rcti_xmax a) (rcti_xmax b);
          rcti_ymin := Z.min (rcti_ymin a) (rcti_ymin b);
          rcti_ymax := Z.max (rcti_ymax a) (rcti_ymax b) |} |}.

(** The engine knows the colour space "sRGB" as sRGB and "Linear" as scene
    linear; the colour helpers leave their input as it is.  A byte buffer
    of opaque grey: every alpha byte is 255, every colour byte 128. *)
Definition example_pixel_helpers : PixelHelpers :=
  {| OCIO_colorSpaceIsBuiltin := fun name =>
       (String.eqb name "Linear", String.eqb name "sRGB");
     linearrgb_to_srgb_v3_v3 := fun c => c;
     mul_v3_fl := fun c _ => c |}.

Definition example_rect_grey : Z -> Byte.byte :=
  fun i => if i mod 4 =? 3 then Byte.xff else Byte.x80.

(** The 16 bytes of an image of 2 x 2 such pixels. *)
Definition example_rect_grey_bytes : list Byte.byte :=
  Eval vm_compute in example_rect_grey <$> seqZ 0 16.

(** An image buffer of 2 x 2 pixels of one float channel. *)
Definition example_ibuf_grey : ImBuf :=
  {| ibuf_x := 2; ibuf_y := 2; ibuf_channels := 1;
     ibuf_dither := CFloat.zero;
     ibuf_userflags := 0; ibuf_colormanage_flag := 0;
     rect_colorspace := None;
     display_buffer_flags := None;
     colormanage_cache := None |}.

(** The helpers of the display buffer pipeline: byte pixels are copied,
    float pixels come out as the example pixel or as the byte [0xff], and
    the thread pool hands out the first row and the other rows. *)
Definition example_display_helpers : DisplayHelpers :=
  {| rgb_uchar_to_float := fun _ => (CFloat.zero, CFloat.zero, CFloat.zero);
     byte_from_byte_pixel := fun from stride x y =>
       let i := 4 * (y * stride + x) in (from i, from (i + 1), from (i + 2), from (i + 3));
     float_from_byte_pixel := fun _ _ _ _ => example_pixel;
     byte_from_float_pixel_predivide := fun _ _ _ _ _ _ _ =>
       (Byte.xff, Byte.xff, Byte.xff, Byte.xff);
     float_indeterminate := CFloat.zero;
     IMB_processor_apply_threaded_ranges := fun buffer_lines =>
       if buffer_lines <=? 1 then [(0, buffer_lines)] else [(0, 1); (1, buffer_lines - 1)] |}.

(** No rectangle waits for a delayed update. *)
Definition example_invalid_rect : rcti :=
  {| rcti_xmin := 0; rcti_xmax := 0; rcti_ymin := 0; rcti_ymax := 0 |}.

(** [IMB_display_buffer_acquire] in the example catalog, for the example
    settings, on an image buffer with a float buffer that is black. *)
Definition example_acquire (ibuf : ImBuf) (invalid_rect : rcti)
  : exec DisplayBufferAcquired :=
  @IMB_display_buffer_acquire example_constants example_helpers example_engine
    example_threads example_sizes example_defaults example_libc example_rects
    example_display_helpers example_catalog example_roles ibuf
    (Some example_linear_buffer) None None false invalid_rect
    (Some example_view_settings) example_display_settings.

(** What the first such call returns and leaves of the example image
    buffer. *)
Definition example_acquired : DisplayBufferAcquired :=
  Eval vm_compute in
    match example_acquire example_ibuf example_invalid_rect with
    | Done acquired => acquired
    | Crash =>
        {| acquired_buffer := None; acquired_cache_handle := None;
           acquired_ibuf := example_ibuf; acquired_invalid_rect := example_invalid_rect;
           acquired_calls := [] |}
    end.

(** The example image buffer with a byte buffer in the colour space
    "sRGB", which the example engine names for every display and view. *)
Definition example_ibuf_srgb : ImBuf :=
  Eval vm_compute in
    set_rect_colorspace example_ibuf
      (@colormanage_colorspace_get_named example_catalog "sRGB").

(** What the call returns and leaves after the cache of the image buffer
    was freed. *)
Definition example_acquired_after_free : DisplayBufferAcquired :=
  Eval vm_compute in
    match example_acquire (colormanage_cache_free (acquired_ibuf example_acquired))
            example_invalid_rect with
    | Done acquired => acquired
    | Crash => example_acquired
    end.

(** The cached example buffer after the partial update for the view "Raw"
    and then a partial update of the same pixel for the view "Standard",
    whose bit the first update cleared. *)
Definition example_update_standard_miss : ImBuf * list Call :=
  Eval vm_compute in
    match @IMB_partial_display_buffer_update example_constants example_helpers
            example_engine example_catalog (fst example_update_raw)
            (Some example_linear_buffer) None 2 0 0
            example_view_settings example_display_settings 0 0 1 1 with
    | Done r => r
    | Crash => (example_ibuf, [])
    end.

(** * Properties *)

(** ** The catalog: what the loader preserves *)

Section CatalogFacts.

Context {constants : HeaderConstants} {helpers : Helpers}.

Lemma fold_look_add_displays (looks : list (string * string)) (cat : Catalog) :
  let cat' := fold_left (fun c lk => colormanage_look_add c (fst lk) (snd lk) false)
                        looks cat in
  global_tot_display cat' = global_tot_display cat
  /\ global_displays cat' = global_displays cat
  /\ global_tot_view cat' = global_tot_view cat.
Proof.
  revert cat. induction looks as [|lk looks IH]; intros cat; simpl; [tauto|].
  destruct (IH (colormanage_look_add cat (fst lk) (snd lk) false))
    as (H1 & H2 & H3).
  rewrite H1, H2, H3. unfold colormanage_look_add. simpl. tauto.
Qed.

Lemma last_display_add_view_length displays view :
  length (last_display_add_view displays view) = length displays.
Proof.
  induction displays as [|d rest IH]; [reflexivity|].
  destruct rest as [|d' rest']; [reflexivity|].
  change (S (length (last_display_add_view (d' :: rest') view)) = S (length (d' :: rest'))).
  now rewrite IH.
Qed.

Lemma load_config_view_displays_length cat viewname :
  length (global_displays (load_config_view cat viewname))
  = length (global_displays cat).
Proof.
  unfold load_config_view.
  destruct (colormanage_view_get_named cat viewname); simpl;
    apply last_display_add_view_length.
Qed.

Lemma fold_left_fmap {A B C} (f : A -> C -> A) (g : B -> C) (l : list B) (a : A) :
  fold_left f (g <$> l) a = fold_left (fun a x => f a (g x)) l a.
Proof.
  revert a. induction l as [|x l IH]; intros a; simpl; [reflexivity | apply IH].
Qed.

(** The loader runs its loops on the entries as it fetches them. *)
Lemma colormanage_load_config_fetched cat config :
  colormanage_load_config cat config = load_config_entries cat (config_fetched config).
Proof.
  unfold colormanage_load_config, load_config_entries, config_fetched.
  cbn [config_colorspaces config_displays config_looks].
  rewrite !fold_left_fmap, !length_fmap. reflexivity.
Qed.

Lemma config_fetched_lengths config :
  length (config_colorspaces (config_fetched config)) = length (config_colorspaces config)
  /\ length (config_displays (config_fetched config)) = length (config_displays config)
  /\ length (config_looks (config_fetched config)) = length (config_looks config).
Proof.
  unfold config_fetched, OCIO_configColorSpaceNames, OCIO_configDisplays,
    OCIO_configLookNames.
  cbn. rewrite !length_fmap. repeat split.
Qed.

(** A query by name finds the entry itself when no name is enumerated
    twice. *)
Lemma find_first_key {A} (key : A -> string) (l : list A) (x : A) :
  NoDup (key <$> l) -> x ∈ l ->
  List.find (fun y => String.eqb (key y) (key x)) l = Some x.
Proof.
  induction l as [|a l IH]; intros Hnodup Hx.
  - now apply elem_of_nil in Hx.
  - rewrite fmap_cons in Hnodup. apply NoDup_cons in Hnodup as [Hfresh Hnodup].
    apply elem_of_cons in Hx as [->|Hx]; simpl.
    + now rewrite String.eqb_refl.
    + destruct (String.eqb (key a) (key x)) eqn:Heq; [|now apply IH].
      apply String.eqb_eq in Heq. exfalso. apply Hfresh. rewrite Heq.
      apply list_elem_of_fmap. now exists x.
Qed.

Lemma fetched_entries_distinct {A} (key : A -> string) (fetch : string -> A) (l : list A) :
  NoDup (key <$> l) ->
  (forall x, x ∈ l -> fetch (key x) = x) ->
  fetch <$> (key <$> l) = l.
Proof.
  intros Hnodup Hfetch. rewrite <- list_fmap_compose.
  rewrite <- (list_fmap_id l) at 2. apply Forall_fmap_ext, Forall_forall.
  intros x Hx. apply Hfetch. exact Hx.
Qed.

Lemma config_fetched_colorspaces config :
  NoDup (OCIO_configColorSpaceNames config) ->
  config_colorspaces (config_fetched config) = config_colorspaces config.
Proof.
  intros Hnodup.
  unfold config_fetched, OCIO_configColorSpaceNames, OCIO_configGetColorSpace in *.
  cbn [config_colorspaces].
  apply (fetched_entries_distinct (fun cs => fst (fst cs))); [exact Hnodup|].
  intros [[name invertible] data] Hx.
  rewrite (find_first_key (fun cs => fst (fst cs)) _ _ Hnodup Hx). reflexivity.
Qed.

Lemma config_fetched_displays config :
  NoDup (OCIO_configDisplays config) ->
  config_displays (config_fetched config) = config_displays config.
Proof.
  intros Hnodup. unfold config_fetched, OCIO_configDisplays, OCIO_configViews in *.
  cbn [config_displays].
  apply (fetched_entries_distinct fst); [exact Hnodup|].
  intros [name views] Hx.
  rewrite (find_first_key fst _ _ Hnodup Hx). reflexivity.
Qed.

(** The views that a query by the name of a display returns are the views
    of an entry, or none. *)
Lemma OCIO_configViews_entry config displayname :
  OCIO_configViews config displayname = []
  \/ exists d, d ∈ config_displays config /\ OCIO_configViews config displayname = snd d.
Proof.
  unfold OCIO_configViews.
  destruct (List.find _ (config_displays config)) as [d|] eqn:Hfind; [right | now left].
  apply find_some in Hfind as [Hin _]. exists d. split; [|reflexivity].
  now apply list_elem_of_In.
Qed.

Lemma load_config_display_length cat d :
  length (global_displays (load_config_display_entry cat d))
  = S (length (global_displays cat)).
Proof.
  unfold load_config_display_entry.
  assert (H : forall views c,
             length (global_displays (fold_left load_config_view views c))
             = length (global_displays c)).
  { induction views as [|v views IH]; intros c; simpl; [reflexivity|].
    rewrite IH. apply load_config_view_displays_length. }
  rewrite H. unfold colormanage_display_add. simpl.
  rewrite length_app. simpl. lia.
Qed.

Lemma fold_load_config_display_length displays cat :
  length (global_displays (fold_left load_config_display_entry displays cat))
  = (length displays + length (global_displays cat))%nat.
Proof.
  revert cat. induction displays as [|d displays IH]; intros cat; simpl; [reflexivity|].
  rewrite IH, load_config_display_length. lia.
Qed.

(** After a load the display count is the number of displays of the
    configuration. *)
Lemma load_config_tot_display cat config :
  global_tot_display (load_config_entries cat config)
  = Z.of_nat (length (config_displays config)).
Proof.
  unfold load_config_entries.
  match goal with |- global_tot_display (fold_left _ _ ?c) = _ =>
    destruct (fold_look_add_displays (config_looks config) c) as (H1 & _ & _) end.
  rewrite H1. reflexivity.
Qed.

Lemma fold_colorspace_add_displays spaces cat :
  global_displays
    (fold_left (fun c cs => colormanage_colorspace_add c
                              (fst (fst cs)) (snd (fst cs)) (snd cs)) spaces cat)
  = global_displays cat.
Proof.
  revert cat. induction spaces as [|cs spaces IH]; intros cat; simpl; [reflexivity|].
  now rewrite IH.
Qed.

(** Loaded into a catalog without displays, a configuration leaves as many
    display records as it has displays. *)
Lemma load_config_displays_length cat config :
  global_displays cat = [] ->
  length (global_displays
            (load_config_entries cat config))
  = length (config_displays config).
Proof.
  intros Hempty. unfold load_config_entries.
  match goal with |- length (global_displays (fold_left _ _ ?c)) = _ =>
    destruct (fold_look_add_displays (config_looks config) c) as (_ & H2 & _) end.
  rewrite H2. simpl.
  rewrite fold_load_config_display_length, fold_colorspace_add_displays. simpl.
  rewrite Hempty. simpl. lia.
Qed.

End CatalogFacts.

(** ** Lookups by name *)

Section LookupFacts.

Context {constants : HeaderConstants} {helpers : Helpers}.

(** A display name without an entry gives NULL and the index 0. *)
Lemma display_lookup_miss cat name :
  (forall display, In display (global_displays cat) -> display_name display <> name) ->
  colormanage_display_get_named cat name = None
  /\ IMB_colormanagement_display_get_named_index cat name = 0.
Proof.
  intros Hmiss.
  assert (Hnone : colormanage_display_get_named cat name = None).
  { unfold colormanage_display_get_named.
    destruct (find _ (global_displays cat)) as [d|] eqn:Hfind; [|reflexivity].
    apply find_some in Hfind. destruct Hfind as [Hin Heq].
    apply String.eqb_eq in Heq. now apply Hmiss in Hin. }
  split; [exact Hnone|].
  unfold IMB_colormanagement_display_get_named_index. now rewrite Hnone.
Qed.

(** A look name without an entry gives NULL and the index 0. *)
Lemma look_lookup_miss cat name :
  (forall look, In look (global_looks cat) -> look_name look <> name) ->
  colormanage_look_get_named cat name = None
  /\ IMB_colormanagement_look_get_named_index cat name = 0.
Proof.
  intros Hmiss.
  assert (Hnone : colormanage_look_get_named cat name = None).
  { unfold colormanage_look_get_named.
    destruct (find _ (global_looks cat)) as [l|] eqn:Hfind; [|reflexivity].
    apply find_some in Hfind. destruct Hfind as [Hin Heq].
    apply String.eqb_eq in Heq. now apply Hmiss in Hin. }
  split; [exact Hnone|].
  unfold IMB_colormanagement_look_get_named_index. now rewrite Hnone.
Qed.

(** [colormanage_use_look] reads through whatever the lookup returned. *)
Lemma colormanage_use_look_null cat look view_name :
  colormanage_look_get_named cat look = None ->
  colormanage_use_look cat look view_name = Crash.
Proof. intros Hnone. unfold colormanage_use_look. now rewrite Hnone. Qed.

Lemma colormanage_use_look_found cat look view_name look_descr :
  colormanage_look_get_named cat look = Some look_descr ->
  colormanage_use_look cat look view_name
  = Done (negb (is_noop look_descr) && colormanage_compatible_look look_descr view_name).
Proof. intros Hsome. unfold colormanage_use_look. now rewrite Hsome. Qed.

(** The sibling in [is_ibuf_rect_in_display_space] never crashes. *)
Lemma look_has_process_space_null cat look :
  colormanage_look_get_named cat look = None ->
  look_has_process_space cat look = false.
Proof. intros Hnone. unfold look_has_process_space. now rewrite Hnone. Qed.

End LookupFacts.

(** C9. In the catalog loaded from the example configuration no display
    and no look is called "Filmic": the lookups return NULL and the index 0,
    the guarded reader of [is_ibuf_rect_in_display_space] answers without a
    crash, and [colormanage_use_look] dereferences the NULL descriptor. *)
Theorem colormanage_use_look_unknown_name_crashes :
  colormanage_display_get_named example_catalog "Filmic" = None
  /\ IMB_colormanagement_display_get_named_index example_catalog "Filmic" = 0
  /\ colormanage_look_get_named example_catalog "Filmic" = None
  /\ IMB_colormanagement_look_get_named_index example_catalog "Filmic" = 0
  /\ look_has_process_space example_catalog "Filmic" = false
  /\ colormanage_use_look example_catalog "Filmic" (Some "Standard"%string) = Crash.
Proof. repeat split; vm_compute; reflexivity. Qed.

(** ** Scale and exponent of the display processor *)

Lemma float_eq_one_inv (x : float) : CFloat.eq x CFloat.one = true -> x = CFloat.one.
Proof.
  unfold CFloat.eq, SFeqb, SFcompare, CFloat.one.
  destruct x as [s|s| |s m e]; try destruct s; try (intros Hx; discriminate Hx).
  destruct (Z.compare_spec e (-23)) as [He| |]; try (intros Hx; discriminate Hx).
  destruct (PosDef.Pos.compare_cont Eq m 8388608) eqn:Hm;
    try (intros Hx; discriminate Hx).
  intros _. apply (Pos.compare_eq m 8388608) in Hm. now subst.
Qed.

Lemma float_eq_zero_inv (x : float) :
  CFloat.eq x CFloat.zero = true -> exists s, x = S754_zero s.
Proof.
  unfold CFloat.eq, SFeqb, SFcompare, CFloat.zero.
  destruct x as [s|s| |s m e]; try destruct s; try (intros Hx; discriminate Hx); eauto.
Qed.

Section DisplayProcessorFacts.

Context {constants : HeaderConstants} {helpers : Helpers}
        {engine : TransformEngine}.

(** C7. For a look that the catalog knows, [create_display_buffer_processor]
    reaches the engine, whatever the exposure and the gamma are, and the
    request it passes has the colour space, the view and the display of the
    call, scale 1.0 when [exposure == 0] and [powf(2, exposure)] otherwise,
    and the exponent [1 / max_ff(FLT_EPSILON, gamma)] for every gamma: the
    value 1.0 passed when [gamma == 1] is that quotient.  If [powf(2, +-0)]
    is 1, the scale is [powf(2, exposure)] for every exposure. *)
Theorem create_display_buffer_processor_scale_exponent
    cat look view_transform display exposure gamma from_colorspace :
  is_Some (colormanage_look_get_named cat look) ->
  exists request,
    display_buffer_processor_request cat look view_transform display
      exposure gamma from_colorspace = Done request
    /\ create_display_buffer_processor cat look view_transform display
         exposure gamma from_colorspace = Done (OCIO_createDisplayProcessor request)
    /\ req_from_colorspace request = from_colorspace
    /\ req_view_transform request = view_transform
    /\ req_display request = display
    /\ (CFloat.eq exposure CFloat.zero = true -> req_scale request = CFloat.one)
    /\ (CFloat.eq exposure CFloat.zero = false ->
        req_scale request = powf CFloat.two exposure)
    /\ ((forall s, powf CFloat.two (S754_zero s) = CFloat.one) ->
        req_scale request = powf CFloat.two exposure)
    /\ req_exponent request
       = CFloat.div CFloat.one (CFloat.max_ff CFloat.FLT_EPSILON gamma)
    /\ (CFloat.eq gamma CFloat.one = true -> req_exponent request = CFloat.one).
Proof.
  intros [look_descr Hlook].
  unfold create_display_buffer_processor, display_buffer_processor_request.
  rewrite (colormanage_use_look_found cat look (Some view_transform) look_descr Hlook).
  cbn. eexists. split; [reflexivity|]. split; [reflexivity|].
  cbn [req_from_colorspace req_view_transform req_display req_scale req_exponent].
  unfold display_processor_scale, display_processor_exponent.
  repeat split.
  - now intros ->.
  - now intros ->.
  - intros Hpow. destruct (CFloat.eq exposure CFloat.zero) eqn:He; [|reflexivity].
    destruct (float_eq_zero_inv _ He) as [s ->]. now rewrite Hpow.
  - destruct (CFloat.eq gamma CFloat.one) eqn:Hg; [|reflexivity].
    apply float_eq_one_inv in Hg. subst gamma. vm_compute. reflexivity.
  - now intros ->.
Qed.

End DisplayProcessorFacts.

(** The statement above for the look "Standard - High Contrast" with the
    view "Standard", exposure 2 and gamma 2: the engine is asked for the
    scale [powf(2, 2)] and the exponent 0.5. *)
Lemma create_display_buffer_processor_scale_exponent_witness :
  exists request,
    @display_buffer_processor_request example_helpers example_catalog
      "Standard - High Contrast" "Standard" "sRGB" CFloat.two CFloat.two "Linear"
    = Done request
    /\ req_look request = "Standard - High Contrast"%string
    /\ req_scale request = @powf example_helpers CFloat.two CFloat.two
    /\ req_exponent request = S754_finite false 8388608 (-24).
Proof.
  destruct (@create_display_buffer_processor_scale_exponent
              example_helpers example_engine example_catalog
              "Standard - High Contrast" "Standard" "sRGB" CFloat.two CFloat.two "Linear")
    as (request & Hrequest & _ & _ & _ & _ & _ & Hscale & _ & Hexponent & _).
  - vm_compute. eexists. reflexivity.
  - exists request. split; [exact Hrequest|]. split.
    + vm_compute in Hrequest. injection Hrequest as <-. reflexivity.
    + split; [apply Hscale; reflexivity|]. rewrite Hexponent. vm_compute. reflexivity.
Defined.

(** ** Transformations between equal colour spaces *)

Section TransformFacts.

Context {constants : HeaderConstants} {helpers : Helpers}
        {engine : TransformEngine} {threads : TransformThreads}.

Lemma colormanagement_transform_ex_noop cat byte_buffer float_buffer
    width height channels from_colorspace to_colorspace predivide do_threaded :
  from_colorspace = EmptyString \/ from_colorspace = to_colorspace ->
  colormanagement_transform_ex cat byte_buffer float_buffer width height channels
    from_colorspace to_colorspace predivide do_threaded
  = Done (byte_buffer, float_buffer).
Proof.
  intros [-> | ->]; unfold colormanagement_transform_ex; [reflexivity|].
  destruct (str_is_empty to_colorspace); [reflexivity|].
  unfold STREQ. now rewrite String.eqb_refl.
Qed.

(** C8. [IMB_colormanagement_transform] returns the float buffer as it
    was, and [IMB_colormanagement_transform_v4] the pixel as it was, when
    the source colour space is the empty string or equals the destination
    colour space; width, height, channel count and predivide are free. *)
Theorem colormanagement_transform_noop_identity cat buffer pixel
    width height channels from_colorspace to_colorspace predivide :
  from_colorspace = EmptyString \/ from_colorspace = to_colorspace ->
  IMB_colormanagement_transform cat buffer width height channels
    from_colorspace to_colorspace predivide = Done buffer
  /\ IMB_colormanagement_transform_v4 cat pixel from_colorspace to_colorspace
     = Done pixel.
Proof.
  intros Hnoop. split.
  - unfold IMB_colormanagement_transform.
    now rewrite colormanagement_transform_ex_noop.
  - unfold IMB_colormanagement_transform_v4.
    destruct Hnoop as [-> | ->]; [reflexivity|].
    destruct (str_is_empty to_colorspace); [reflexivity|].
    unfold STREQ. now rewrite String.eqb_refl.
Qed.

End TransformFacts.

(** The statement above for a buffer of one RGB pixel that is declared sRGB
    and asked to become sRGB. *)
Lemma colormanagement_transform_noop_identity_witness :
  @IMB_colormanagement_transform example_helpers example_engine example_threads
    example_catalog [CFloat.one; CFloat.zero; CFloat.two] 1 1 3 "sRGB" "sRGB" true
  = Done [CFloat.one; CFloat.zero; CFloat.two].
Proof.
  apply (@colormanagement_transform_noop_identity example_helpers example_engine
           example_threads example_catalog _ example_pixel 1 1 3 "sRGB" "sRGB" true).
  right. reflexivity.
Defined.

Example transform_between_different_spaces :
  @IMB_colormanagement_transform example_helpers blanking_engine blanking_threads
    example_catalog [CFloat.one; CFloat.zero; CFloat.two] 1 1 3 "Linear" "sRGB" true
  = Done [CFloat.zero; CFloat.zero; CFloat.zero].
Proof. vm_compute. reflexivity. Qed.

Example transform_to_unknown_space_crashes :
  @IMB_colormanagement_transform example_helpers blanking_engine blanking_threads
    example_catalog [CFloat.one; CFloat.zero; CFloat.two] 1 1 3 "Linear" "Rec.2020" true
  = Crash.
Proof. vm_compute. reflexivity. Qed.

(** ** The display-buffer cache *)

Lemma shl1_done (n : Z) :
  0 <= n < 31 -> CInt.shl1 n = Done (Z.shiftl 1 n).
Proof.
  intros Hn. unfold CInt.shl1.
  destruct (Z.leb_spec 0 n); [|lia]. destruct (Z.ltb_spec n 31); [|lia]. reflexivity.
Qed.

Lemma land_shiftl1_testbit (a n : Z) :
  0 <= n -> (Z.land a (Z.shiftl 1 n) =? 0) = negb (Z.testbit a n).
Proof.
  intros Hn. rewrite Z.shiftl_1_l.
  destruct (Z.testbit a n) eqn:Hbit; simpl.
  - apply Z.eqb_neq. intros Hzero.
    assert (Hb : Z.testbit (Z.land a (2 ^ n)) n = true).
    { rewrite Z.land_spec, Hbit, Z.pow2_bits_true by lia. reflexivity. }
    rewrite Hzero, Z.bits_0 in Hb. discriminate.
  - apply Z.eqb_eq. apply Z.bits_inj'. intros i Hi.
    rewrite Z.land_spec, Z.bits_0, Z.pow2_bits_eqb by lia.
    destruct (Z.eqb_spec n i) as [<-|]; [now rewrite Hbit | apply andb_false_r].
Qed.

Lemma lor_shiftl1_testbit (a n i : Z) :
  0 <= n -> 0 <= i ->
  Z.testbit (Z.lor a (Z.shiftl 1 n)) i = Z.testbit a i || (i =? n).
Proof.
  intros Hn Hi. rewrite Z.lor_spec, Z.shiftl_1_l, Z.pow2_bits_eqb by lia.
  now rewrite (Z.eqb_sym n i).
Qed.

Lemma array_get_done (a : list Z) (i : Z) :
  0 <= i < Z.of_nat (length a) ->
  exists element, a !! Z.to_nat i = Some element /\ array_get a i = Done element.
Proof.
  intros Hi. unfold array_get.
  destruct (Z.leb_spec 0 i); [|lia].
  destruct (lookup_lt_is_Some_2 a (Z.to_nat i)) as [element Helement]; [lia|].
  exists element. now rewrite Helement.
Qed.

Lemma array_set_done (a : list Z) (i v : Z) :
  0 <= i < Z.of_nat (length a) ->
  array_set a i v = Done (<[Z.to_nat i := v]> a).
Proof.
  intros Hi. unfold array_set.
  destruct (Z.leb_spec 0 i); [|lia].
  destruct (Z.ltb_spec i (Z.of_nat (length a))); [|lia]. reflexivity.
Qed.

Lemma colormanage_hashcmp_same key : colormanage_hashcmp key key = false.
Proof. unfold colormanage_hashcmp. now rewrite !Z.eqb_refl. Qed.

Lemma IMB_moviecache_get_put mc key cache_ibuf :
  IMB_moviecache_get (IMB_moviecache_put mc key cache_ibuf) key = Some cache_ibuf.
Proof.
  unfold IMB_moviecache_get, IMB_moviecache_put. simpl.
  now rewrite colormanage_hashcmp_same.
Qed.

Lemma ptr_ne_true (p q : option Z) : p <> q -> ptr_ne p q = true.
Proof.
  destruct p as [a|], q as [b|]; simpl; try reflexivity; intros Hne.
  - destruct (Z.eqb_spec a b); [subst; contradiction | reflexivity].
  - contradiction.
Qed.

Lemma ptr_ne_same (p : option Z) : ptr_ne p p = false.
Proof. destruct p; simpl; [now rewrite Z.eqb_refl | reflexivity]. Qed.

(** Any field that differs makes the comparison of the lookup fail. *)
Lemma cache_data_mismatch_intro cache_data view_settings :
  data_look cache_data <> cvs_look view_settings
  \/ CFloat.ne (data_exposure cache_data) (cvs_exposure view_settings) = true
  \/ CFloat.ne (data_gamma cache_data) (cvs_gamma view_settings) = true
  \/ CFloat.ne (data_dither cache_data) (cvs_dither view_settings) = true
  \/ data_flag cache_data <> cvs_flag view_settings
  \/ data_curve_mapping cache_data <> curve_mapping_ptr (cvs_curve_mapping view_settings)
  \/ data_curve_mapping_timestamp cache_data
     <> curve_mapping_timestamp_of (cvs_curve_mapping view_settings) ->
  cache_data_mismatch cache_data view_settings = true.
Proof.
  unfold cache_data_mismatch.
  intros [H|[H|[H|[H|[H|[H|H]]]]]].
  - apply Z.eqb_neq in H. rewrite H. reflexivity.
  - rewrite H. now rewrite orb_true_r.
  - rewrite H. now rewrite !orb_true_r.
  - rewrite H. now rewrite !orb_true_r.
  - apply Z.eqb_neq in H. rewrite H. simpl. now rewrite !orb_true_r.
  - apply ptr_ne_true in H. rewrite H. simpl. now rewrite !orb_true_r.
  - apply Z.eqb_neq in H. rewrite H. simpl. now rewrite !orb_true_r.
Qed.

(** When the comparison succeeds, every field agrees (floats as [==]). *)
Lemma cache_data_mismatch_false cache_data view_settings :
  cache_data_mismatch cache_data view_settings = false ->
  data_look cache_data = cvs_look view_settings
  /\ CFloat.eq (data_exposure cache_data) (cvs_exposure view_settings) = true
  /\ CFloat.eq (data_gamma cache_data) (cvs_gamma view_settings) = true
  /\ CFloat.eq (data_dither cache_data) (cvs_dither view_settings) = true
  /\ data_flag cache_data = cvs_flag view_settings
  /\ data_curve_mapping cache_data = curve_mapping_ptr (cvs_curve_mapping view_settings)
  /\ data_curve_mapping_timestamp cache_data
     = curve_mapping_timestamp_of (cvs_curve_mapping view_settings).
Proof.
  unfold cache_data_mismatch, CFloat.ne, CFloat.eq.
  intros H. repeat (apply orb_false_elim in H; destruct H as [H ?]).
  repeat match goal with
         | Hn : negb _ = false |- _ => apply negb_false_iff in Hn
         end.
  repeat split; try assumption; try (now apply Z.eqb_eq).
  destruct (data_curve_mapping cache_data) as [a|],
           (curve_mapping_ptr (cvs_curve_mapping view_settings)) as [b|];
    simpl in *; try discriminate; try reflexivity.
  match goal with Hn : negb (a =? b) = false |- _ =>
    apply negb_false_iff, Z.eqb_eq in Hn; now subst end.
Qed.

(** The lookup up to the block cache: with the bit of the pair set, the
    result is decided by what the block cache holds under the key. *)
Lemma colormanage_cache_get_bit_set ibuf view_settings display_settings flags :
  display_buffer_flags ibuf = Some flags ->
  1 <= cvs_view view_settings <= 31 ->
  1 <= cds_display display_settings <= Z.of_nat (length flags) ->
  display_buffer_bit flags (cds_display display_settings) (cvs_view view_settings) = true ->
  colormanage_cache_get ibuf view_settings display_settings
  = let key := colormanage_settings_to_key view_settings display_settings in
    let '(found, calls) := colormanage_cache_get_ibuf ibuf key in
    match found with
    | Some cache_ibuf =>
        cache_data ← deref (colormanage_cachedata_get cache_ibuf);
        if cache_data_mismatch cache_data view_settings
        then mret (cache_miss (calls ++ [Call_freeImBuf cache_ibuf]))
        else mret {| got_buffer := Some (cache_rect cache_ibuf);
                     got_handle := Some cache_ibuf;
                     got_calls := calls |}
    | None => mret (cache_miss calls)
    end.
Proof.
  intros Hflags Hview Hdisplay Hbit. unfold colormanage_cache_get.
  rewrite shl1_done by lia. cbn. rewrite Hflags. cbn.
  destruct (array_get_done flags (cds_display display_settings - 1)) as (element & Hl & ->);
    [lia|]. cbn.
  unfold display_buffer_bit in Hbit. rewrite Hl in Hbit.
  rewrite land_shiftl1_testbit, Hbit by lia. reflexivity.
Qed.

(** A display buffer that the lookup returns is the [rect] of an entry of
    the block cache whose snapshot agrees with the request in every field. *)
Lemma colormanage_cache_get_hit_matches ibuf view_settings display_settings result buffer :
  colormanage_cache_get ibuf view_settings display_settings = Done result ->
  got_buffer result = Some buffer ->
  exists cache_ibuf cache_data,
    IMB_moviecache_get (moviecache_of ibuf)
      (colormanage_settings_to_key view_settings display_settings) = Some cache_ibuf
    /\ cache_rect cache_ibuf = buffer
    /\ got_handle result = Some cache_ibuf
    /\ colormanage_cachedata_get cache_ibuf = Some cache_data
    /\ cache_data_mismatch cache_data view_settings = false.
Proof.
  unfold colormanage_cache_get. intros Hget Hbuf.
  destruct (CInt.shl1 _) as [view_flag|]; [|discriminate]. cbn in Hget.
  destruct (display_buffer_flags ibuf) as [flags|]; [|discriminate]. cbn in Hget.
  destruct (array_get flags _) as [element|]; [|discriminate]. cbn in Hget.
  destruct (Z.land element view_flag =? 0).
  { injection Hget as <-. discriminate. }
  unfold colormanage_cache_get_ibuf, moviecache_of in *.
  destruct (colormanage_moviecache_get ibuf) as [mc|].
  2:{ injection Hget as <-. discriminate. }
  destruct (IMB_moviecache_get mc _) as [cache_ibuf|] eqn:Hfound.
  2:{ injection Hget as <-. discriminate. }
  destruct (colormanage_cachedata_get cache_ibuf) as [cache_data|] eqn:Hdata;
    [|discriminate]. cbn in Hget.
  destruct (cache_data_mismatch cache_data view_settings) eqn:Hcmp.
  { injection Hget as <-. discriminate. }
  injection Hget as <-. cbn in Hbuf. injection Hbuf as <-.
  exists cache_ibuf, cache_data. repeat split; assumption.
Qed.

Lemma colormanage_moviecache_ensure_flags ibuf :
  display_buffer_flags (fst (colormanage_moviecache_ensure ibuf)) = display_buffer_flags ibuf.
Proof.
  unfold colormanage_moviecache_ensure.
  destruct (colormanage_cache ibuf) as [c|]; simpl; [destruct (moviecache c)|]; reflexivity.
Qed.

(** [colormanage_cache_put] written out for a valid pair. *)
Lemma colormanage_cache_put_done ibuf view_settings display_settings display_buffer flags :
  display_buffer_flags ibuf = Some flags ->
  1 <= cvs_view view_settings <= 31 ->
  1 <= cds_display display_settings <= Z.of_nat (length flags) ->
  exists result element,
    colormanage_cache_put ibuf view_settings display_settings display_buffer = Done result
    /\ flags !! Z.to_nat (cds_display display_settings - 1) = Some element
    /\ display_buffer_flags (put_ibuf result)
       = Some (<[Z.to_nat (cds_display display_settings - 1) :=
                   Z.lor element (Z.shiftl 1 (cvs_view view_settings - 1))]> flags)
    /\ moviecache_of (put_ibuf result)
       = IMB_moviecache_put (moviecache_of ibuf)
           (colormanage_settings_to_key view_settings display_settings) (put_handle result)
    /\ put_handle result
       = {| cache_x := ibuf_x ibuf; cache_y := ibuf_y ibuf;
            cache_rect := display_buffer;
            cache_data := Some (cache_data_of view_settings) |}
    /\ put_calls result
       = [Call_moviecache_put (colormanage_settings_to_key view_settings display_settings)
            (put_handle result)].
Proof.
  intros Hflags Hview Hdisplay. unfold colormanage_cache_put.
  rewrite shl1_done by lia. cbn.
  pose proof (colormanage_moviecache_ensure_flags ibuf) as Hensure.
  assert (Hmc : snd (colormanage_moviecache_ensure ibuf) = moviecache_of ibuf).
  { unfold colormanage_moviecache_ensure, moviecache_of, colormanage_moviecache_get.
    destruct (colormanage_cache ibuf) as [c|]; simpl; [destruct (moviecache c)|]; reflexivity. }
  destruct (colormanage_moviecache_ensure ibuf) as [ibuf1 mc]. simpl in Hensure, Hmc.
  rewrite Hensure, Hflags. cbn.
  destruct (array_get_done flags (cds_display display_settings - 1)) as (element & Hl & ->);
    [lia|]. cbn.
  rewrite array_set_done by lia. cbn.
  eexists _, element. split; [reflexivity|]. cbn.
  subst mc. repeat split; try reflexivity. exact Hl.
Qed.

(** The fast reject: with the bit of the pair unset the lookup returns NULL
    before it touches the block cache. *)
Lemma colormanage_cache_get_bit_unset ibuf view_settings display_settings flags :
  display_buffer_flags ibuf = Some flags ->
  1 <= cvs_view view_settings <= 31 ->
  1 <= cds_display display_settings <= Z.of_nat (length flags) ->
  display_buffer_bit flags (cds_display display_settings) (cvs_view view_settings) = false ->
  colormanage_cache_get ibuf view_settings display_settings
  = Done {| got_buffer := None; got_handle := None; got_calls := [] |}.
Proof.
  intros Hflags Hview Hdisplay Hbit. unfold colormanage_cache_get.
  rewrite shl1_done by lia. cbn. rewrite Hflags. cbn.
  destruct (array_get_done flags (cds_display display_settings - 1))
    as (element & Hl & ->); [lia|]. cbn.
  unfold display_buffer_bit in Hbit. rewrite Hl in Hbit.
  rewrite land_shiftl1_testbit, Hbit by lia. reflexivity.
Qed.


Lemma cache_data_of_matches view_settings :
  CFloat.eq (cvs_exposure view_settings) (cvs_exposure view_settings) = true ->
  CFloat.eq (cvs_gamma view_settings) (cvs_gamma view_settings) = true ->
  CFloat.eq (cvs_dither view_settings) (cvs_dither view_settings) = true ->
  cache_data_mismatch (cache_data_of view_settings) view_settings = false.
Proof.
  intros He Hg Hd. unfold cache_data_mismatch, cache_data_of, CFloat.ne.
  unfold CFloat.eq in He, Hg, Hd.
  cbn [data_look data_exposure data_gamma data_dither data_flag data_curve_mapping
       data_curve_mapping_timestamp].
  rewrite He, Hg, Hd, !Z.eqb_refl, ptr_ne_same. reflexivity.
Qed.

(** After a put, the same request is served from the cache (floats that
    compare equal to themselves, that is, no NaN among them) ... *)
Lemma colormanage_cache_get_after_put
    ibuf view_settings display_settings display_buffer flags result :
  display_buffer_flags ibuf = Some flags ->
  1 <= cvs_view view_settings <= 31 ->
  1 <= cds_display display_settings <= Z.of_nat (length flags) ->
  CFloat.eq (cvs_exposure view_settings) (cvs_exposure view_settings) = true ->
  CFloat.eq (cvs_gamma view_settings) (cvs_gamma view_settings) = true ->
  CFloat.eq (cvs_dither view_settings) (cvs_dither view_settings) = true ->
  colormanage_cache_put ibuf view_settings display_settings display_buffer = Done result ->
  colormanage_cache_get (put_ibuf result) view_settings display_settings
  = Done {| got_buffer := Some display_buffer;
            got_handle := Some (put_handle result);
            got_calls :=
              [Call_moviecache_get
                 (colormanage_settings_to_key view_settings display_settings)] |}.
Proof.
  intros Hflags Hview Hdisplay He Hg Hd Hput.
  destruct (colormanage_cache_put_done ibuf view_settings display_settings display_buffer
              flags Hflags Hview Hdisplay)
    as (result' & element & Hput' & Hl & Hflags' & Hmc & Hhandle & Hcalls).
  rewrite Hput in Hput'. injection Hput' as <-.
  assert (Hlen : (Z.to_nat (cds_display display_settings - 1) < length flags)%nat)
    by (apply lookup_lt_Some in Hl; exact Hl).
  rewrite (colormanage_cache_get_bit_set _ _ _ _ Hflags' Hview).
  - cbn zeta. unfold colormanage_cache_get_ibuf.
    unfold moviecache_of in Hmc.
    destruct (colormanage_moviecache_get (put_ibuf result)) as [mc'|] eqn:Hmc'.
    + rewrite Hmc, IMB_moviecache_get_put, Hhandle.
      cbn [colormanage_cachedata_get cache_data deref mbind exec_bind].
      rewrite cache_data_of_matches by assumption. reflexivity.
    + discriminate Hmc.
  - rewrite length_insert. exact Hdisplay.
  - unfold display_buffer_bit. rewrite list_lookup_insert_eq by exact Hlen.
    rewrite lor_shiftl1_testbit by lia. rewrite Z.eqb_refl. apply orb_true_r.
Qed.

(** ... and the request with a different exposure is not: the entry is
    freed and the lookup misses. *)
Lemma colormanage_cache_get_after_put_other_exposure
    ibuf view_settings display_settings display_buffer flags result exposure :
  display_buffer_flags ibuf = Some flags ->
  1 <= cvs_view view_settings <= 31 ->
  1 <= cds_display display_settings <= Z.of_nat (length flags) ->
  CFloat.ne (cvs_exposure view_settings) exposure = true ->
  colormanage_cache_put ibuf view_settings display_settings display_buffer = Done result ->
  colormanage_cache_get (put_ibuf result) (with_exposure view_settings exposure)
    display_settings
  = Done {| got_buffer := None;
            got_handle := None;
            got_calls :=
              [Call_moviecache_get
                 (colormanage_settings_to_key view_settings display_settings);
               Call_freeImBuf (put_handle result)] |}.
Proof.
  intros Hflags Hview Hdisplay Hne Hput.
  destruct (colormanage_cache_put_done ibuf view_settings display_settings display_buffer
              flags Hflags Hview Hdisplay)
    as (result' & element & Hput' & Hl & Hflags' & Hmc & Hhandle & Hcalls).
  rewrite Hput in Hput'. injection Hput' as <-.
  assert (Hlen : (Z.to_nat (cds_display display_settings - 1) < length flags)%nat)
    by (apply lookup_lt_Some in Hl; exact Hl).
  unfold moviecache_of in Hmc.
  destruct (colormanage_moviecache_get (put_ibuf result)) as [mc'|] eqn:Hmc';
    [|discriminate Hmc].
  assert (H3 : 1 <= cds_display display_settings
               <= Z.of_nat (length (<[Z.to_nat (cds_display display_settings - 1) :=
                    Z.lor element (Z.shiftl 1 (cvs_view view_settings - 1))]> flags)))
    by (rewrite length_insert; exact Hdisplay).
  assert (H4 : display_buffer_bit
                 (<[Z.to_nat (cds_display display_settings - 1) :=
                      Z.lor element (Z.shiftl 1 (cvs_view view_settings - 1))]> flags)
                 (cds_display display_settings) (cvs_view view_settings) = true).
  { unfold display_buffer_bit. rewrite list_lookup_insert_eq by exact Hlen.
    rewrite lor_shiftl1_testbit by lia. rewrite Z.eqb_refl. apply orb_true_r. }
  assert (H6 : IMB_moviecache_get mc'
                 (colormanage_settings_to_key view_settings display_settings)
               = Some (put_handle result))
    by (rewrite Hmc; apply IMB_moviecache_get_put).
  assert (H7 : colormanage_cachedata_get (put_handle result)
               = Some (cache_data_of view_settings))
    by (rewrite Hhandle; reflexivity).
  rewrite (colormanage_cache_get_bit_set (put_ibuf result)
             (with_exposure view_settings exposure) display_settings _
             Hflags' Hview H3 H4).
  cbn zeta. unfold colormanage_cache_get_ibuf.
  change (colormanage_settings_to_key (with_exposure view_settings exposure) display_settings)
    with (colormanage_settings_to_key view_settings display_settings).
  rewrite Hmc', H6, H7.
  cbn [deref mbind exec_bind].
  rewrite (cache_data_mismatch_intro (cache_data_of view_settings)
             (with_exposure view_settings exposure) (or_intror (or_introl Hne))).
  reflexivity.
Qed.

(** C1. Let the bit of the requested pair be set and let the block cache
    hold an entry under the (view, display) key whose stored snapshot differs
    from the requesting settings in some field (look, exposure, gamma,
    dither, flags, curve-mapping pointer or curve-mapping timestamp; floats
    compared with [!=]).  Then [colormanage_cache_get] calls [IMB_freeImBuf]
    on that entry and returns NULL with a NULL handle; the buffer of the
    entry is not returned. *)
Theorem colormanage_cache_get_stale_entry_misses
    ibuf view_settings display_settings flags mc cache_ibuf cache_data :
  display_buffer_flags ibuf = Some flags ->
  1 <= cvs_view view_settings <= 31 ->
  1 <= cds_display display_settings <= Z.of_nat (length flags) ->
  display_buffer_bit flags (cds_display display_settings) (cvs_view view_settings) = true ->
  colormanage_moviecache_get ibuf = Some mc ->
  IMB_moviecache_get mc (colormanage_settings_to_key view_settings display_settings)
  = Some cache_ibuf ->
  colormanage_cachedata_get cache_ibuf = Some cache_data ->
  (data_look cache_data <> cvs_look view_settings
   \/ CFloat.ne (data_exposure cache_data) (cvs_exposure view_settings) = true
   \/ CFloat.ne (data_gamma cache_data) (cvs_gamma view_settings) = true
   \/ CFloat.ne (data_dither cache_data) (cvs_dither view_settings) = true
   \/ data_flag cache_data <> cvs_flag view_settings
   \/ data_curve_mapping cache_data <> curve_mapping_ptr (cvs_curve_mapping view_settings)
   \/ data_curve_mapping_timestamp cache_data
      <> curve_mapping_timestamp_of (cvs_curve_mapping view_settings)) ->
  colormanage_cache_get ibuf view_settings display_settings
  = Done {| got_buffer := None;
            got_handle := None;
            got_calls :=
              [Call_moviecache_get (colormanage_settings_to_key view_settings display_settings);
               Call_freeImBuf cache_ibuf] |}.
Proof.
  intros Hflags Hview Hdisplay Hbit Hmc Hfound Hdata Hdiff.
  rewrite (colormanage_cache_get_bit_set _ _ _ _ Hflags Hview Hdisplay Hbit).
  cbn zeta. unfold colormanage_cache_get_ibuf. rewrite Hmc, Hfound, Hdata. cbn.
  rewrite (cache_data_mismatch_intro _ _ Hdiff). reflexivity.
Qed.


(** The statement above for the cached example buffer, asked again at
    exposure 1 instead of 0. *)
Lemma colormanage_cache_get_stale_entry_misses_witness :
  colormanage_cache_get example_ibuf_cached
    (with_exposure example_cache_view_settings CFloat.one) example_cache_display_settings
  = Done {| got_buffer := None;
            got_handle := None;
            got_calls := [Call_moviecache_get {| key_view := 1; key_display := 1 |};
                          Call_freeImBuf example_cache_ibuf] |}.
Proof.
  apply (colormanage_cache_get_stale_entry_misses example_ibuf_cached
           (with_exposure example_cache_view_settings CFloat.one)
           example_cache_display_settings [1]
           [({| key_view := 1; key_display := 1 |}, example_cache_ibuf)]
           example_cache_ibuf (cache_data_of example_cache_view_settings)).
  - reflexivity.
  - simpl. lia.
  - simpl. lia.
  - reflexivity.
  - reflexivity.
  - reflexivity.
  - reflexivity.
  - right. left. reflexivity.
Defined.


Example cache_get_after_put_serves_buffer :
  colormanage_cache_get example_ibuf_cached example_cache_view_settings
    example_cache_display_settings
  = Done {| got_buffer := Some example_display_buffer;
            got_handle := Some example_cache_ibuf;
            got_calls := [Call_moviecache_get {| key_view := 1; key_display := 1 |}] |}.
Proof. vm_compute. reflexivity. Qed.

(** A stored exposure of +0 and a requested exposure of -0 compare equal
    with [==]: the entry is served. *)
Example cache_get_negative_zero_exposure :
  colormanage_cache_get example_ibuf_cached
    (with_exposure example_cache_view_settings CFloat.neg_zero)
    example_cache_display_settings
  = Done {| got_buffer := Some example_display_buffer;
            got_handle := Some example_cache_ibuf;
            got_calls := [Call_moviecache_get {| key_view := 1; key_display := 1 |}] |}.
Proof. vm_compute. reflexivity. Qed.

(** A NaN never equals what is stored, not even itself. *)
Example cache_get_nan_exposure_always_misses :
  match colormanage_cache_put example_ibuf
          (with_exposure example_cache_view_settings CFloat.nan)
          example_cache_display_settings example_display_buffer with
  | Done result =>
      got_buffer <$> colormanage_cache_get (put_ibuf result)
                       (with_exposure example_cache_view_settings CFloat.nan)
                       example_cache_display_settings
  | Crash => Crash
  end = Done None.
Proof. vm_compute. reflexivity. Qed.

(** ** Partial updates: the bit field and the calls *)

(** Inversion of a run that completed: every step before the result
    completed as well. *)
Ltac exec_inv H :=
  repeat (cbn [mbind exec_bind mret exec_ret fmap exec_fmap] in H;
          match type of H with
          | exec_bind _ ?m = Done _ =>
              let E := fresh "Estep" in
              destruct m eqn:E; [|discriminate H]
          | mbind _ ?m = Done _ =>
              let E := fresh "Estep" in
              destruct m eqn:E; [|discriminate H]
          | exec_fmap _ ?m = Done _ =>
              let E := fresh "Estep" in
              destruct m eqn:E; [|discriminate H]
          | (let '(_, _) := ?p in _) = Done _ => destruct p
          end);
  cbn [mbind exec_bind mret exec_ret fmap exec_fmap] in H.

Lemma shl1_inv (n v : Z) : CInt.shl1 n = Done v -> 0 <= n < 31 /\ v = Z.shiftl 1 n.
Proof.
  unfold CInt.shl1. destruct (Z.leb_spec 0 n), (Z.ltb_spec n 31); simpl; try discriminate.
  intros [= <-]. split; [lia | reflexivity].
Qed.

Lemma array_get_inv (a : list Z) (i v : Z) :
  array_get a i = Done v -> 0 <= i < Z.of_nat (length a) /\ a !! Z.to_nat i = Some v.
Proof.
  unfold array_get. destruct (Z.leb_spec 0 i); [|discriminate].
  destruct (a !! Z.to_nat i) as [w|] eqn:Hl; [|discriminate].
  intros [= <-]. split; [|reflexivity].
  apply lookup_lt_Some in Hl. lia.
Qed.

Lemma array_set_inv (a : list Z) (i v : Z) (a' : list Z) :
  array_set a i v = Done a' ->
  0 <= i < Z.of_nat (length a) /\ a' = <[Z.to_nat i := v]> a.
Proof.
  unfold array_set.
  destruct (Z.leb_spec 0 i), (Z.ltb_spec i (Z.of_nat (length a))); simpl; try discriminate.
  intros [= <-]. split; [lia | reflexivity].
Qed.

Lemma memset_zero_inv (flags : list Z) (n : Z) (flags' : list Z) :
  memset_zero flags n = Done flags' ->
  0 <= n <= Z.of_nat (length flags)
  /\ flags' = replicate (Z.to_nat n) 0 ++ drop (Z.to_nat n) flags.
Proof.
  unfold memset_zero.
  destruct (Z.leb_spec 0 n), (Z.leb_spec n (Z.of_nat (length flags))); simpl; try discriminate.
  intros [= <-]. split; [lia | reflexivity].
Qed.

(** The lookup only ever asks the block cache for the entry and releases
    what it got. *)
Lemma colormanage_cache_get_calls ibuf view_settings display_settings got :
  colormanage_cache_get ibuf view_settings display_settings = Done got ->
  forallb is_lookup_call (got_calls got) = true.
Proof.
  unfold colormanage_cache_get. intros Hget. exec_inv Hget.
  destruct (Z.land _ _ =? 0).
  { injection Hget as <-. reflexivity. }
  unfold colormanage_cache_get_ibuf in Hget.
  destruct (colormanage_moviecache_get ibuf) as [mc|].
  2:{ injection Hget as <-. reflexivity. }
  destruct (IMB_moviecache_get mc _) as [cache_ibuf|].
  2:{ injection Hget as <-. reflexivity. }
  exec_inv Hget.
  destruct (cache_data_mismatch _ _); injection Hget as <-; reflexivity.
Qed.

Section PartialUpdateFacts.

Context {constants : HeaderConstants} {helpers : Helpers}
        {engine : TransformEngine}.

Lemma partial_update_cache_lookup_calls ibuf view_settings display_settings got :
  partial_update_cache_lookup ibuf view_settings display_settings = Done got ->
  forallb is_lookup_call (got_calls got) = true.
Proof.
  unfold partial_update_cache_lookup.
  destruct (Z.land _ _ =? 0).
  - apply colormanage_cache_get_calls.
  - intros [= <-]. reflexivity.
Qed.

(** What the first block leaves behind: the elements of the bit field that
    belong to displays are zero, except that the bit of the requested pair is
    set in the element of its display. *)
Lemma partial_update_lookup_inv cat ibuf flags view_settings display_settings ibuf1 got :
  partial_update_lookup cat ibuf flags view_settings display_settings = Done (ibuf1, got) ->
  let view := IMB_colormanagement_view_get_named_index cat (vs_view_transform view_settings) in
  let display :=
    IMB_colormanagement_display_get_named_index cat (display_device display_settings) in
  exists flags1 element,
    1 <= view <= 31
    /\ 1 <= display <= Z.of_nat (length flags)
    /\ 0 <= global_tot_display cat <= Z.of_nat (length flags)
    /\ flags1 = replicate (Z.to_nat (global_tot_display cat)) 0
                ++ drop (Z.to_nat (global_tot_display cat)) flags
    /\ flags1 !! Z.to_nat (display - 1) = Some element
    /\ ibuf1 = set_display_buffer_flags ibuf
                 (Some (<[Z.to_nat (display - 1) :=
                            Z.lor element (Z.shiftl 1 (view - 1))]> flags1))
    /\ partial_update_cache_lookup ibuf
         (colormanage_view_settings_to_cache cat ibuf view_settings)
         (colormanage_display_settings_to_cache cat display_settings) = Done got.
Proof.
  unfold partial_update_lookup. cbv zeta. intros Hrun. exec_inv Hrun.
  injection Hrun as <- <-.
  match goal with H : CInt.shl1 _ = Done _ |- _ => apply shl1_inv in H; destruct H as [Hv ->] end.
  match goal with H : memset_zero _ _ = Done _ |- _ =>
    apply memset_zero_inv in H; destruct H as [Hn ->] end.
  match goal with H : array_get _ _ = Done _ |- _ =>
    apply array_get_inv in H; destruct H as [Hd Hl] end.
  match goal with H : array_set _ _ _ = Done _ |- _ =>
    apply array_set_inv in H; destruct H as [_ ->] end.
  cbn [cvs_view cds_display colormanage_view_settings_to_cache
       colormanage_display_settings_to_cache] in Hv, Hd, Hl |- *.
  rewrite length_app, length_replicate, length_drop in Hd.
  eexists _, _.
  split; [lia|]. split; [lia|]. split; [lia|]. split; [reflexivity|].
  split; [exact Hl|]. split; reflexivity.
Qed.

Lemma ibuf_write_display_buffer_flags ibuf key display_buffer :
  display_buffer_flags (ibuf_write_display_buffer ibuf key display_buffer)
  = display_buffer_flags ibuf.
Proof.
  unfold ibuf_write_display_buffer. destruct (colormanage_cache ibuf); reflexivity.
Qed.

Lemma lookup_calls_no_update (calls : list Call) :
  forallb is_lookup_call calls = true ->
  existsb is_update_threaded calls = false /\ existsb is_update_here calls = false.
Proof.
  induction calls as [|c calls IH]; simpl; [tauto|].
  intros H. apply andb_true_iff in H. destruct H as [Hc Hrest].
  destruct (IH Hrest) as [-> ->]. destruct c; try discriminate; tauto.
Qed.

(** A completed run of [imb_partial_display_buffer_update_ex], taken apart:
    the bit field of the result is the one the first block left, and the
    region writer ran exactly when a display buffer was found, through the
    thread pool if [do_threads] and on the calling thread otherwise. *)
Lemma imb_partial_display_buffer_update_ex_inv cat ibuf linear_buffer byte_buffer
    stride offset_x offset_y view_settings display_settings
    xmin ymin xmax ymax do_threads ibuf' calls :
  imb_partial_display_buffer_update_ex cat ibuf linear_buffer byte_buffer
    stride offset_x offset_y view_settings display_settings
    xmin ymin xmax ymax do_threads = Done (ibuf', calls) ->
  exists found,
    partial_update_display_buffer cat ibuf view_settings display_settings = Done found
    /\ existsb is_update_threaded calls = do_threads && bool_decide (is_Some found)
    /\ existsb is_update_here calls = negb do_threads && bool_decide (is_Some found)
    /\ match display_buffer_flags ibuf with
       | None => ibuf' = ibuf /\ calls = []
       | Some flags =>
           exists ibuf1 got,
             partial_update_lookup cat ibuf flags view_settings display_settings
             = Done (ibuf1, got)
             /\ display_buffer_flags ibuf' = display_buffer_flags ibuf1
             /\ (got_buffer got = None -> ibuf' = ibuf1 /\ calls = got_calls got)
       end.
Proof.
  unfold imb_partial_display_buffer_update_ex, partial_update_display_buffer.
  intros Hrun.
  destruct (display_buffer_flags ibuf) as [flags|] eqn:Hflags.
  2:{ cbn in Hrun. injection Hrun as <- <-. exists None.
      destruct do_threads; repeat split; reflexivity. }
  destruct (partial_update_lookup cat ibuf flags view_settings display_settings)
    as [[ibuf1 got]|] eqn:Hlookup; [|discriminate Hrun].
  cbn [mbind exec_bind mret exec_ret snd] in Hrun |- *.
  exists (got_buffer got). split; [reflexivity|].
  pose proof (partial_update_lookup_inv _ _ _ _ _ _ _ Hlookup)
    as (flags1 & element & _ & _ & _ & _ & _ & _ & Hcalls).
  apply partial_update_cache_lookup_calls, lookup_calls_no_update in Hcalls.
  destruct Hcalls as [Hnt Hnh].
  destruct (got_buffer got) as [display_buffer|] eqn:Hbuf.
  2:{ injection Hrun as <- <-. rewrite Hnt, Hnh.
      destruct do_threads; repeat split; try reflexivity.
      all: exists ibuf1, got; repeat split; reflexivity. }
  assert (Hsome : bool_decide (is_Some (Some display_buffer)) = true)
    by (apply bool_decide_eq_true; eauto).
  rewrite Hsome, !andb_true_r.
  destruct do_threads; exec_inv Hrun; injection Hrun as <- <-;
    match goal with
    | E : _ = Done (?l, ?c) |- _ => exec_inv E; injection E as <- <-
    end;
    rewrite !existsb_app, Hnt, Hnh; cbn [orb andb negb].
  - split; [|split].
    + destruct a; cbn; now rewrite ?orb_true_r.
    + destruct a, a0, (got_handle got); reflexivity.
    + exists ibuf1, got. split; [reflexivity|]. split; [apply ibuf_write_display_buffer_flags|].
      intros Hx; rewrite Hbuf in Hx; discriminate Hx.
  - split; [|split].
    + destruct a, a0, (got_handle got); reflexivity.
    + destruct a; cbn; now rewrite ?orb_true_r.
    + exists ibuf1, got. split; [reflexivity|]. split; [apply ibuf_write_display_buffer_flags|].
      intros Hx; rewrite Hbuf in Hx; discriminate Hx.
Qed.

Lemma replicate_bit_field_lookup (n : nat) (rest : list Z) (display view d : Z) element :
  1 <= d <= Z.of_nat n ->
  1 <= display ->
  (replicate n 0 ++ rest) !! Z.to_nat (display - 1) = Some element ->
  (<[Z.to_nat (display - 1) := Z.lor element (Z.shiftl 1 (view - 1))]>
     (replicate n 0 ++ rest)) !! Z.to_nat (d - 1)
  = Some (if d =? display then Z.shiftl 1 (view - 1) else 0).
Proof.
  intros Hd Hdisplay Hel.
  destruct (Z.eqb_spec d display) as [->|Hne].
  - rewrite list_lookup_insert_eq by (apply lookup_lt_Some in Hel; exact Hel).
    rewrite lookup_app_l in Hel by (rewrite length_replicate; lia).
    apply lookup_replicate_1 in Hel. destruct Hel as [-> _]. reflexivity.
  - rewrite list_lookup_insert_ne by lia.
    rewrite lookup_app_l by (rewrite length_replicate; lia).
    apply lookup_replicate_2. lia.
Qed.

(** C3. After a partial update (plain or threaded variant) that completed
    on an image buffer whose bit field exists, the bit field has its old
    size, the bit of the requested (display, view) pair is set, and among the
    bits of the displays of the catalog no other bit is set; a lookup for any
    other pair of a display of the catalog and a view then returns NULL
    without a call to the block cache ("never computed"). *)
Theorem partial_update_leaves_only_requested_bit cat ibuf linear_buffer byte_buffer
    stride offset_x offset_y view_settings display_settings
    xmin ymin xmax ymax flags ibuf' calls :
  display_buffer_flags ibuf = Some flags ->
  IMB_partial_display_buffer_update cat ibuf linear_buffer byte_buffer
    stride offset_x offset_y view_settings display_settings xmin ymin xmax ymax
  = Done (ibuf', calls)
  \/ IMB_partial_display_buffer_update_threaded cat ibuf linear_buffer byte_buffer
       stride offset_x offset_y view_settings display_settings xmin ymin xmax ymax
     = Done (ibuf', calls) ->
  exists flags',
    display_buffer_flags ibuf' = Some flags'
    /\ length flags' = length flags
    /\ display_buffer_bit flags'
         (IMB_colormanagement_display_get_named_index cat (display_device display_settings))
         (IMB_colormanagement_view_get_named_index cat (vs_view_transform view_settings))
       = true
    /\ (forall d v,
          1 <= d <= global_tot_display cat -> 1 <= v ->
          (display_buffer_bit flags' d v = true
           <-> d = IMB_colormanagement_display_get_named_index cat
                     (display_device display_settings)
               /\ v = IMB_colormanagement_view_get_named_index cat
                        (vs_view_transform view_settings)))
    /\ (forall other_view other_display,
          1 <= cds_display other_display <= global_tot_display cat ->
          1 <= cvs_view other_view <= 31 ->
          ~ (cds_display other_display
             = IMB_colormanagement_display_get_named_index cat
                 (display_device display_settings)
             /\ cvs_view other_view
                = IMB_colormanagement_view_get_named_index cat
                    (vs_view_transform view_settings)) ->
          colormanage_cache_get ibuf' other_view other_display
          = Done {| got_buffer := None; got_handle := None; got_calls := [] |}).
Proof.
  intros Hflags Hrun.
  assert (Hex : exists do_threads,
            imb_partial_display_buffer_update_ex cat ibuf linear_buffer byte_buffer
              stride offset_x offset_y view_settings display_settings
              xmin ymin xmax ymax do_threads = Done (ibuf', calls)).
  { destruct Hrun as [Hrun|Hrun].
    - exists false. exact Hrun.
    - unfold IMB_partial_display_buffer_update_threaded in Hrun. exec_inv Hrun. eauto. }
  destruct Hex as [do_threads Hex].
  apply imb_partial_display_buffer_update_ex_inv in Hex.
  destruct Hex as (found & _ & _ & _ & Hshape). rewrite Hflags in Hshape.
  destruct Hshape as (ibuf1 & got & Hlookup & Hflags' & _).
  apply partial_update_lookup_inv in Hlookup.
  destruct Hlookup as (flags1 & element & Hview & Hdisplay & Htot & -> & Hel & -> & _).
  cbn [display_buffer_flags set_display_buffer_flags] in Hflags'.
  eexists. split; [exact Hflags'|].
  assert (Hlen : length (<[Z.to_nat
                             (IMB_colormanagement_display_get_named_index cat
                                (display_device display_settings) - 1) :=
                            Z.lor element
                              (Z.shiftl 1
                                 (IMB_colormanagement_view_get_named_index cat
                                    (vs_view_transform view_settings) - 1))]>
                          (replicate (Z.to_nat (global_tot_display cat)) 0
                           ++ drop (Z.to_nat (global_tot_display cat)) flags))
                 = length flags).
  { rewrite length_insert, length_app, length_replicate, length_drop. lia. }
  split; [exact Hlen|].
  split.
  { unfold display_buffer_bit.
    rewrite list_lookup_insert_eq by (apply lookup_lt_Some in Hel; exact Hel).
    rewrite lor_shiftl1_testbit by lia. rewrite Z.eqb_refl. apply orb_true_r. }
  assert (Hbits : forall d v,
            1 <= d <= global_tot_display cat -> 1 <= v ->
            display_buffer_bit
              (<[Z.to_nat
                   (IMB_colormanagement_display_get_named_index cat
                      (display_device display_settings) - 1) :=
                  Z.lor element
                    (Z.shiftl 1
                       (IMB_colormanagement_view_get_named_index cat
                          (vs_view_transform view_settings) - 1))]>
                 (replicate (Z.to_nat (global_tot_display cat)) 0
                  ++ drop (Z.to_nat (global_tot_display cat)) flags)) d v = true
            <-> d = IMB_colormanagement_display_get_named_index cat
                      (display_device display_settings)
                /\ v = IMB_colormanagement_view_get_named_index cat
                         (vs_view_transform view_settings)).
  { intros d v Hd Hv. unfold display_buffer_bit.
    rewrite (replicate_bit_field_lookup _ _ _ _ d element) by (try exact Hel; lia).
    destruct (Z.eqb_spec d
                (IMB_colormanagement_display_get_named_index cat
                   (display_device display_settings))) as [->|Hne].
    - rewrite Z.shiftl_1_l, Z.pow2_bits_eqb by lia.
      destruct (Z.eqb_spec
                  (IMB_colormanagement_view_get_named_index cat
                     (vs_view_transform view_settings) - 1) (v - 1)) as [Heq|Hneq].
      + split; [intros _; split; [reflexivity | lia] | reflexivity].
      + split; [discriminate | intros [_ ->]; contradiction].
    - rewrite Z.bits_0. split; [discriminate | intros [-> _]; contradiction]. }
  split; [exact Hbits|].
  intros other_view other_display Hd Hv Hother.
  apply (colormanage_cache_get_bit_unset _ _ _ _ Hflags' Hv); [rewrite Hlen; lia|].
  destruct (display_buffer_bit _ (cds_display other_display) (cvs_view other_view))
    eqn:Hbit; [|reflexivity].
  apply Hbits in Hbit; [contradiction | lia | lia].
Qed.

(** What a miss does.  When the lookup of the partial update finds no
    display buffer, the call completes; it has only looked up and released,
    so it has created no processor, run no region writer and put nothing
    into the cache; the image buffer is as before except for its bit field:
    without a bit field nothing changes at all, and a bit field sized to the
    display count is rewritten to hold the bit of the requested pair only. *)
Lemma partial_update_miss_only_rewrites_bit_field cat ibuf linear_buffer byte_buffer
    stride offset_x offset_y view_settings display_settings
    xmin ymin xmax ymax do_threads :
  partial_update_display_buffer cat ibuf view_settings display_settings = Done None ->
  exists ibuf' calls,
    imb_partial_display_buffer_update_ex cat ibuf linear_buffer byte_buffer
      stride offset_x offset_y view_settings display_settings
      xmin ymin xmax ymax do_threads = Done (ibuf', calls)
    /\ forallb is_lookup_call calls = true
    /\ ibuf' = set_display_buffer_flags ibuf (display_buffer_flags ibuf')
    /\ match display_buffer_flags ibuf with
       | None => ibuf' = ibuf /\ calls = []
       | Some flags =>
           Z.of_nat (length flags) = global_tot_display cat ->
           display_buffer_flags ibuf'
           = Some (only_bit_set (length flags)
                     (IMB_colormanagement_display_get_named_index cat
                        (display_device display_settings))
                     (IMB_colormanagement_view_get_named_index cat
                        (vs_view_transform view_settings)))
       end.
Proof.
  unfold partial_update_display_buffer, imb_partial_display_buffer_update_ex.
  intros Hmiss.
  destruct (display_buffer_flags ibuf) as [flags|] eqn:Hflags.
  2:{ exists ibuf, []. cbn. repeat split; try reflexivity.
      destruct ibuf; cbn in *; now subst. }
  destruct (partial_update_lookup cat ibuf flags view_settings display_settings)
    as [[ibuf1 got]|] eqn:Hlookup; [|discriminate Hmiss].
  cbn [mbind exec_bind mret exec_ret snd] in Hmiss |- *.
  injection Hmiss as Hmiss. rewrite Hmiss.
  exists ibuf1, (got_calls got). split; [reflexivity|].
  apply partial_update_lookup_inv in Hlookup.
  destruct Hlookup as (flags1 & element & Hview & Hdisplay & Htot & -> & Hel & -> & Hcalls).
  split; [eapply partial_update_cache_lookup_calls; exact Hcalls|].
  split; [reflexivity|].
  intros Hsize. cbn [display_buffer_flags set_display_buffer_flags].
  unfold only_bit_set. f_equal.
  revert Hel. rewrite <- Hsize, Nat2Z.id, drop_all, app_nil_r. intros Hel.
  apply lookup_replicate_1 in Hel. destruct Hel as [-> _]. reflexivity.
Qed.

(** C10, as the code has it.  For a rectangle with [xmin <= xmax] and
    [ymin <= ymax] whose width and height fit an [int], a completed call of
    the threaded variant hands the region to the thread pool exactly when its
    lookup found a display buffer and the area is at least 64 * 64, and runs
    the region writer on the calling thread exactly when the lookup found a
    display buffer and the area is smaller. *)
Theorem partial_update_threaded_dispatch cat ibuf linear_buffer byte_buffer
    stride offset_x offset_y view_settings display_settings
    xmin ymin xmax ymax ibuf' calls :
  xmin <= xmax -> ymin <= ymax ->
  xmax - xmin <= CInt.INT_MAX -> ymax - ymin <= CInt.INT_MAX ->
  IMB_partial_display_buffer_update_threaded cat ibuf linear_buffer byte_buffer
    stride offset_x offset_y view_settings display_settings xmin ymin xmax ymax
  = Done (ibuf', calls) ->
  exists found,
    partial_update_display_buffer cat ibuf view_settings display_settings = Done found
    /\ existsb is_update_threaded calls
       = (64 * 64 <=? (xmax - xmin) * (ymax - ymin)) && bool_decide (is_Some found)
    /\ existsb is_update_here calls
       = negb (64 * 64 <=? (xmax - xmin) * (ymax - ymin)) && bool_decide (is_Some found).
Proof.
  intros Hx Hy Hw Hh Hrun.
  unfold IMB_partial_display_buffer_update_threaded in Hrun.
  assert (Hsub : forall a b, a <= b -> b - a <= CInt.INT_MAX -> CInt.sub b a = Done (b - a)).
  { intros a b Hab Hmax. unfold CInt.sub, CInt.in_int, CInt.INT_MIN, CInt.INT_MAX in *.
    destruct (Z.leb_spec (- 2 ^ 31) (b - a)), (Z.leb_spec (b - a) (2 ^ 31 - 1));
      try reflexivity; lia. }
  rewrite (Hsub _ _ Hx Hw), (Hsub _ _ Hy Hh) in Hrun.
  cbn [mbind exec_bind] in Hrun.
  assert (Hflag : partial_update_do_threads (xmax - xmin) (ymax - ymin)
                  = (64 * 64 <=? (xmax - xmin) * (ymax - ymin))).
  { unfold partial_update_do_threads, CInt.size_mul, CInt.to_size_t, CInt.SIZE_MOD.
    unfold CInt.INT_MAX in *.
    rewrite (Z.mod_small (xmax - xmin)) by lia.
    rewrite Z.mod_small by nia. reflexivity. }
  rewrite Hflag in Hrun.
  apply imb_partial_display_buffer_update_ex_inv in Hrun.
  destruct Hrun as (found & Hfound & Ht & Hh' & _).
  exists found. repeat split; assumption.
Qed.

End PartialUpdateFacts.

(** The statement C3 for the cached example buffer with both bits set,
    updated for the view "Standard": the bit of "Raw" is cleared. *)
Lemma partial_update_leaves_only_requested_bit_witness :
  exists flags',
    display_buffer_flags (fst example_update_standard) = Some flags'
    /\ display_buffer_bit flags' 1 1 = true
    /\ display_buffer_bit flags' 1 2 = false.
Proof.
  destruct (@partial_update_leaves_only_requested_bit example_constants example_helpers
              example_engine example_catalog example_ibuf_both_bits
              (Some example_linear_buffer) None 2 0 0
              example_view_settings example_display_settings 0 0 1 1 [3]
              (fst example_update_standard) (snd example_update_standard))
    as (flags' & Hflags & _ & Hset & Hothers & _).
  - reflexivity.
  - left. vm_compute. reflexivity.
  - exists flags'. split; [exact Hflags|]. split; [exact Hset|].
    destruct (display_buffer_bit flags' 1 2) eqn:Hbit; [|reflexivity].
    apply (Hothers 1 2) in Hbit; [|vm_compute; split; discriminate | lia].
    destruct Hbit as [_ Hview]. vm_compute in Hview. discriminate Hview.
Defined.

(** The view "Raw" of the cached example buffer was never computed, the
    lookup of the partial update misses, and the call changes the bit field
    from [1] (only "Standard" computed) to [2] (only "Raw" marked). *)
Lemma partial_update_miss_changes_bit_field :
  @partial_update_display_buffer example_constants example_catalog example_ibuf_cached
    example_view_settings_raw example_display_settings = Done None
  /\ @IMB_partial_display_buffer_update example_constants example_helpers example_engine
       example_catalog example_ibuf_cached (Some example_linear_buffer) None 2 0 0
       example_view_settings_raw example_display_settings 0 0 1 1
     = Done example_update_raw
  /\ display_buffer_flags example_ibuf_cached = Some [1]
  /\ display_buffer_flags (fst example_update_raw) = Some [2]
  /\ fst example_update_raw <> example_ibuf_cached.
Proof.
  repeat split; try (vm_compute; reflexivity).
  intros Heq. apply (f_equal display_buffer_flags) in Heq. vm_compute in Heq. discriminate Heq.
Qed.

(** The rewritten bit field at the same input. *)
Lemma partial_update_miss_only_rewrites_bit_field_witness :
  exists ibuf' calls,
    @imb_partial_display_buffer_update_ex example_constants example_helpers example_engine
      example_catalog example_ibuf_cached (Some example_linear_buffer) None 2 0 0
      example_view_settings_raw example_display_settings 0 0 1 1 false
    = Done (ibuf', calls)
    /\ forallb is_lookup_call calls = true
    /\ display_buffer_flags ibuf' = Some (only_bit_set 1 1 2).
Proof.
  destruct (@partial_update_miss_only_rewrites_bit_field example_constants example_helpers
              example_engine example_catalog example_ibuf_cached
              (Some example_linear_buffer) None 2 0 0
              example_view_settings_raw example_display_settings 0 0 1 1 false)
    as (ibuf' & calls & Hrun & Hcalls & _ & Hflags).
  - vm_compute. reflexivity.
  - exists ibuf', calls. split; [exact Hrun|]. split; [exact Hcalls|].
    apply Hflags. reflexivity.
Defined.

(** C10 fails as stated, in both directions.  For the rectangle with
    xmin = 1, xmax = 0, ymin = 0 and ymax = 1 the product of the differences
    is -1, yet the region goes to the thread pool, because the test is made
    on [(size_t)width * height].  For the rectangle of 64 x 64 pixels and a
    view that was never computed the area is 64 * 64, yet nothing goes to
    the thread pool, because the lookup found no display buffer to update. *)
Lemma threaded_dispatch_of_inverted_rectangle :
  (@IMB_partial_display_buffer_update_threaded example_constants example_helpers
     example_engine example_catalog example_ibuf_cached
     (Some example_linear_buffer) None 2 0 0
     example_view_settings example_display_settings 1 0 0 1
   = Done example_update_threaded_inverted
   /\ existsb is_update_threaded (snd example_update_threaded_inverted) = true
   /\ existsb is_update_here (snd example_update_threaded_inverted) = false
   /\ ~ (64 * 64 <= (0 - 1) * (1 - 0)))
  /\ (@IMB_partial_display_buffer_update_threaded example_constants example_helpers
        example_engine example_catalog example_ibuf_cached
        (Some example_linear_buffer) None 2 0 0
        example_view_settings_raw example_display_settings 0 0 64 64
      = Done example_update_threaded_raw
      /\ existsb is_update_threaded (snd example_update_threaded_raw) = false
      /\ 64 * 64 <= (64 - 0) * (64 - 0)).
Proof.
  repeat split; try (vm_compute; reflexivity); try lia.
Qed.

(** The amended statement C10 for the rectangle of the top left pixel. *)
Lemma partial_update_threaded_dispatch_witness :
  existsb is_update_threaded (snd example_update_threaded_pixel) = false
  /\ existsb is_update_here (snd example_update_threaded_pixel) = true.
Proof.
  destruct (@partial_update_threaded_dispatch example_constants example_helpers
              example_engine example_catalog example_ibuf_cached
              (Some example_linear_buffer) None 2 0 0
              example_view_settings example_display_settings 0 0 1 1
              (fst example_update_threaded_pixel) (snd example_update_threaded_pixel))
    as (found & Hfound & Ht & Hh).
  - lia.
  - lia.
  - vm_compute. discriminate.
  - vm_compute. discriminate.
  - vm_compute. reflexivity.
  - vm_compute in Hfound. injection Hfound as <-.
    split; [rewrite Ht | rewrite Hh]; reflexivity.
Defined.

(** ** The region writer stays inside the rectangle *)

Lemma agree_outside_refl (P : Z -> Prop) (buffer : list Byte.byte) :
  agree_outside P buffer buffer.
Proof. split; [reflexivity | intros; reflexivity]. Qed.

Lemma agree_outside_trans (P : Z -> Prop) (a b c : list Byte.byte) :
  agree_outside P a b -> agree_outside P b c -> agree_outside P a c.
Proof.
  intros [Hlab Hab] [Hlbc Hbc]. split; [congruence|].
  intros i Hi. rewrite Hbc, Hab by exact Hi. reflexivity.
Qed.

(** A store whose bytes all fall on offsets of [P] is defined when it fits
    the buffer, and changes nothing outside [P]. *)
Lemma buffer_store_agree (P : Z -> Prop) (buffer : list Byte.byte) (offset : Z)
    (bytes : list Byte.byte) :
  0 <= offset ->
  offset + Z.of_nat (length bytes) <= Z.of_nat (length buffer) ->
  (forall i, offset <= i < offset + Z.of_nat (length bytes) -> P i) ->
  exists buffer', buffer_store buffer offset bytes = Done buffer'
                  /\ agree_outside P buffer buffer'.
Proof.
  intros Hoff Hfit Hin. unfold buffer_store.
  destruct (Z.leb_spec (offset + Z.of_nat (length bytes)) (Z.of_nat (length buffer))); [|lia].
  eexists. split; [reflexivity|]. split; [apply length_inserts|].
  intros i Hi.
  destruct (Z.lt_ge_cases (Z.of_nat i) offset) as [Hlt|Hge].
  - apply list_lookup_inserts_lt. lia.
  - destruct (Z.lt_ge_cases (Z.of_nat i) (offset + Z.of_nat (length bytes))) as [Hlt'|Hge'].
    + exfalso. apply Hi, Hin. lia.
    + apply list_lookup_inserts_ge. lia.
Qed.

Lemma memcpy_agree (P : Z -> Prop) (dst : list Byte.byte) (dst_offset : Z)
    (src : Z -> Byte.byte) (src_offset n : Z) :
  0 <= dst_offset -> 0 <= n ->
  dst_offset + n <= Z.of_nat (length dst) ->
  (forall i, dst_offset <= i < dst_offset + n -> P i) ->
  exists dst', memcpy dst dst_offset src src_offset n = Done dst'
               /\ agree_outside P dst dst'.
Proof.
  intros Hoff Hn Hfit Hin. unfold memcpy.
  destruct (Z.leb_spec (dst_offset + n) (Z.of_nat (length dst))); [|lia].
  eexists. split; [reflexivity|]. split; [apply length_inserts|].
  intros i Hi.
  assert (Hlen : Z.of_nat (length (src <$> seqZ src_offset n)) = n)
    by (rewrite length_fmap, length_seqZ; lia).
  destruct (Z.lt_ge_cases (Z.of_nat i) dst_offset) as [Hlt|Hge].
  - apply list_lookup_inserts_lt. lia.
  - destruct (Z.lt_ge_cases (Z.of_nat i) (dst_offset + n)) as [Hlt'|Hge'].
    + exfalso. apply Hi, Hin. lia.
    + apply list_lookup_inserts_ge. lia.
Qed.

(** A loop whose every turn completes and keeps an invariant completes and
    keeps it. *)
Lemma exec_fold_invariant {S A} (Inv : S -> Prop) (body : S -> A -> exec S)
    (range : list A) (s : S) :
  Inv s ->
  (forall s1 a, a ∈ range -> Inv s1 -> exists s2, body s1 a = Done s2 /\ Inv s2) ->
  exists s', exec_fold body range s = Done s' /\ Inv s'.
Proof.
  revert s. induction range as [|a range IH]; intros s Hs Hbody; simpl.
  - eauto.
  - destruct (Hbody s a) as (s1 & -> & Hs1); [left | exact Hs|].
    cbn [mbind exec_bind]. apply IH; [exact Hs1|].
    intros s2 b Hb. apply Hbody. now right.
Qed.

Lemma for_yx_invariant {S} (Inv : S -> Prop) (y0 y1 x0 x1 : Z)
    (body : S -> Z -> Z -> exec S) (s : S) :
  Inv s ->
  (forall s1 y x, y0 <= y < y1 -> x0 <= x < x1 -> Inv s1 ->
                  exists s2, body s1 y x = Done s2 /\ Inv s2) ->
  exists s', for_yx y0 y1 x0 x1 body s = Done s' /\ Inv s'.
Proof.
  intros Hs Hbody. unfold for_yx.
  apply exec_fold_invariant; [exact Hs|].
  intros s1 y Hy Hs1. apply elem_of_seqZ in Hy.
  apply exec_fold_invariant; [exact Hs1|].
  intros s2 x Hx Hs2. apply elem_of_seqZ in Hx.
  apply Hbody; [lia | lia | exact Hs2].
Qed.

Lemma buffer_index_small (y stride x c : Z) :
  0 <= y <= CInt.INT_MAX -> 0 <= stride <= CInt.INT_MAX -> 0 <= x <= CInt.INT_MAX ->
  0 <= c <= 4 ->
  buffer_index y stride x c = (y * stride + x) * c.
Proof.
  unfold CInt.INT_MAX. intros Hy Hs Hx Hc.
  unfold buffer_index, CInt.size_mul, CInt.size_add, CInt.to_size_t, CInt.SIZE_MOD.
  pose proof (Z.mul_le_mono_nonneg y (2 ^ 31 - 1) stride (2 ^ 31 - 1)
                ltac:(lia) ltac:(lia)) as Hprod.
  pose proof (Z.mul_nonneg_nonneg y stride ltac:(lia) ltac:(lia)) as Hprod0.
  change ((2 ^ 31 - 1) * (2 ^ 31 - 1)) with 4611686014132420609 in Hprod.
  change (2 ^ 31 - 1) with 2147483647 in *.
  change (2 ^ 64) with 18446744073709551616.
  rewrite (Z.mod_small y) by lia.
  rewrite (Z.mod_small (y * stride)) by lia.
  rewrite (Z.mod_small (y * stride + x)) by lia.
  apply Z.mod_small.
  assert (Hsum : 0 <= y * stride + x <= 4611686016279904256) by lia.
  revert Hsum. generalize (y * stride + x). intros t Ht.
  pose proof (Z.mul_le_mono_nonneg t 4611686016279904256 c 4 ltac:(lia) ltac:(lia)) as Hle.
  pose proof (Z.mul_nonneg_nonneg t c ltac:(lia) ltac:(lia)) as Hge.
  change (4611686016279904256 * 4) with 18446744065119617024 in Hle.
  lia.
Qed.

Lemma CInt_sub_done (a b : Z) :
  CInt.INT_MIN <= a - b <= CInt.INT_MAX -> CInt.sub a b = Done (a - b).
Proof.
  intros H. unfold CInt.sub, CInt.in_int.
  destruct (Z.leb_spec CInt.INT_MIN (a - b)), (Z.leb_spec (a - b) CInt.INT_MAX);
    try reflexivity; lia.
Qed.

(** The bytes of a pixel of a row of [stride] pixels belong to one pixel
    only. *)
Lemma in_rect_bytes_pixel (stride xmin ymin xmax ymax x y k : Z) :
  0 <= xmin -> xmax <= stride ->
  0 <= x < stride -> 0 <= k < 4 ->
  in_rect_bytes stride xmin ymin xmax ymax ((y * stride + x) * 4 + k) ->
  xmin <= x < xmax /\ ymin <= y < ymax.
Proof.
  intros Hxmin Hxmax Hx Hk (x' & y' & Hx' & Hy' & Hrange).
  assert (Hsame : y' * stride + x' = y * stride + x) by lia.
  assert (Hy : y' = y).
  { destruct (Z.lt_trichotomy y' y) as [Hlt|[Heq|Hgt]]; [exfalso|exact Heq|exfalso].
    - assert (y' * stride + stride <= y * stride) by nia. lia.
    - assert (y * stride + stride <= y' * stride) by nia. lia. }
  subst y'. assert (x' = x) by lia. subst x'. tauto.
Qed.

Section RegionWriterFacts.

Context {constants : HeaderConstants} {helpers : Helpers}
        {engine : TransformEngine}.

Lemma bytes4_length c : length (bytes4 c) = 4%nat.
Proof. destruct c as [[[b0 b1] b2] b3]. reflexivity. Qed.

Lemma display_pixel_bytes_length channels pixel :
  length (display_pixel_bytes channels pixel) = 4%nat.
Proof.
  unfold display_pixel_bytes.
  destruct (channels =? 4); [apply bytes4_length|].
  destruct (channels =? 3); [|reflexivity].
  destruct (rgb_float_to_uchar pixel) as [[r g] b]. reflexivity.
Qed.

(** The four bytes of a pixel of the rectangle lie in the buffer and at
    offsets of the rectangle, and their offset is computed without
    wrap-around. *)
Lemma pixel_of_rect_offsets (stride xmin ymin xmax ymax x y buffer_length : Z) :
  0 <= xmin -> xmax <= stride <= CInt.INT_MAX ->
  0 <= ymin -> ymax <= CInt.INT_MAX ->
  4 * stride * ymax <= buffer_length ->
  xmin <= x < xmax -> ymin <= y < ymax ->
  0 <= (y * stride + x) * 4
  /\ (y * stride + x) * 4 + 4 <= buffer_length
  /\ (y * stride + x) * 4 < CInt.SIZE_MOD
  /\ buffer_index y stride x 4 = (y * stride + x) * 4
  /\ (forall i, (y * stride + x) * 4 <= i < (y * stride + x) * 4 + 4 ->
                in_rect_bytes stride xmin ymin xmax ymax i).
Proof.
  intros Hxmin Hxmax Hymin Hymax Hfit Hx Hy.
  pose proof (Z.mul_nonneg_nonneg y stride ltac:(lia) ltac:(lia)) as Hys.
  assert (Hrow : y * stride + stride <= ymax * stride) by nia.
  assert (Hidx : buffer_index y stride x 4 = (y * stride + x) * 4)
    by (apply buffer_index_small; lia).
  split; [lia|]. split; [lia|]. split.
  { rewrite <- Hidx. unfold buffer_index, CInt.size_mul.
    apply Z.mod_pos_bound. reflexivity. }
  split; [exact Hidx|].
  intros i Hi. exists x, y. lia.
Qed.

(** The quantisation of the intermediate float buffer, started at the first
    pixel of the rectangle, writes the pixels of the rectangle. *)
Lemma IMB_buffer_byte_from_float_agree display_buffer rect_from channels_from dither
    stride stride_from xmin ymin xmax ymax :
  0 <= xmin <= xmax -> xmax <= stride <= CInt.INT_MAX ->
  0 <= ymin <= ymax -> ymax <= CInt.INT_MAX ->
  4 * stride * ymax <= Z.of_nat (length display_buffer) ->
  exists display_buffer',
    IMB_buffer_byte_from_float display_buffer ((ymin * stride + xmin) * 4)
      rect_from channels_from dither (xmax - xmin) (ymax - ymin) stride stride_from
    = Done display_buffer'
    /\ agree_outside (in_rect_bytes stride xmin ymin xmax ymax)
         display_buffer display_buffer'.
Proof.
  intros Hx Hxs Hy Hys Hfit. unfold IMB_buffer_byte_from_float.
  apply for_yx_invariant; [apply agree_outside_refl|].
  intros buf y x Hyr Hxr Hagree.
  destruct (pixel_of_rect_offsets stride xmin ymin xmax ymax (xmin + x) (ymin + y)
              (Z.of_nat (length display_buffer)))
    as (H0 & Hend & Hmod & _ & Hin); try lia.
  assert (Hto : CInt.size_add ((ymin * stride + xmin) * 4)
                  (CInt.size_mul (CInt.size_add (CInt.size_mul (CInt.to_size_t stride) y) x) 4)
                = ((ymin + y) * stride + (xmin + x)) * 4).
  { change (CInt.size_mul (CInt.size_add (CInt.size_mul (CInt.to_size_t stride) y) x) 4)
      with (buffer_index stride y x 4).
    rewrite buffer_index_small by (unfold CInt.INT_MAX in *; lia).
    unfold CInt.size_add.
    replace ((ymin * stride + xmin) * 4 + (stride * y + x) * 4)
      with (((ymin + y) * stride + (xmin + x)) * 4) by ring.
    apply Z.mod_small. lia. }
  rewrite Hto.
  destruct (buffer_store_agree (in_rect_bytes stride xmin ymin xmax ymax) buf
              (((ymin + y) * stride + (xmin + x)) * 4)
              (bytes4 (byte_from_float_pixel rect_from channels_from dither stride_from x y)))
    as (buf' & Hstore & Hagree'); rewrite ?bytes4_length.
  - exact H0.
  - destruct Hagree as [Hlen _]. rewrite Hlen. exact Hend.
  - exact Hin.
  - exists buf'. split; [exact Hstore|]. eapply agree_outside_trans; eassumption.
Qed.

(** On the paths that convert straight into the display buffer, that copy,
    or that dither a four-channel buffer, the region writer completes for a
    rectangle inside the buffer and leaves every byte outside the rectangle
    as it was. *)
Lemma partial_buffer_update_rect_agree cat ibuf display_buffer linear_buffer byte_buffer
    display_stride linear_stride linear_offset_x linear_offset_y cm_processor
    xmin ymin xmax ymax :
  0 <= xmin <= xmax -> xmax <= display_stride <= CInt.INT_MAX ->
  0 <= ymin <= ymax -> ymax <= CInt.INT_MAX ->
  4 * display_stride * ymax <= Z.of_nat (length display_buffer) ->
  0 <= linear_offset_x <= CInt.INT_MAX -> 0 <= linear_offset_y <= CInt.INT_MAX ->
  (cm_processor = None -> is_Some byte_buffer) ->
  CFloat.ne (ibuf_dither ibuf) CFloat.zero = false
  \/ ibuf_channels ibuf = 4 \/ cm_processor = None ->
  exists display_buffer',
    partial_buffer_update_rect cat ibuf display_buffer linear_buffer byte_buffer
      display_stride linear_stride linear_offset_x linear_offset_y cm_processor
      xmin ymin xmax ymax = Done display_buffer'
    /\ agree_outside (in_rect_bytes display_stride xmin ymin xmax ymax)
         display_buffer display_buffer'.
Proof.
  intros Hx Hxs Hy Hys Hfit Hox Hoy Hbytes Hpath.
  unfold partial_buffer_update_rect. cbv zeta.
  rewrite (CInt_sub_done xmax xmin), (CInt_sub_done ymax ymin)
    by (unfold CInt.INT_MIN, CInt.INT_MAX in *; lia).
  cbn [mbind exec_bind].
  destruct cm_processor as [processor|].
  - (* a processor is applied to every pixel of the rectangle *)
    destruct (CFloat.ne (ibuf_dither ibuf) CFloat.zero) eqn:Hdither; cbn [andb].
    + (* through the intermediate float buffer *)
      assert (Hch : ibuf_channels ibuf = 4)
        by (destruct Hpath as [Hp|[Hp|Hp]]; [discriminate | exact Hp | discriminate]).
      rewrite Hch.
      destruct (for_yx_invariant
                  (fun s : list Byte.byte * (Z -> float) => fst s = display_buffer)
                  ymin ymax xmin xmax
                  (fun '(buf, fb) y x =>
                     ly ← CInt.sub y linear_offset_y;
                     lx ← CInt.sub x linear_offset_x;
                     mret (buf,
                           float_buffer_put fb
                             (buffer_index (y - ymin) (xmax - xmin) (x - xmin) 4) 4
                             (if negb (Z.land (ibuf_colormanage_flag ibuf)
                                         IMB_COLORMANAGE_IS_DATA =? 0)
                              then partial_update_source_pixel cat (rect_colorspace ibuf)
                                     linear_buffer byte_buffer 4
                                     (buffer_index ly linear_stride lx 4)
                              else IMB_colormanagement_processor_apply_pixel processor
                                     (partial_update_source_pixel cat (rect_colorspace ibuf)
                                        linear_buffer byte_buffer 4
                                        (buffer_index ly linear_stride lx 4)) 4)))
                  (display_buffer, fun _ => CFloat.zero))
        as ([buf fb] & Hloop & Hinv).
      { reflexivity. }
      { intros [buf fb] y x Hyr Hxr Hbuf.
        rewrite (CInt_sub_done y linear_offset_y), (CInt_sub_done x linear_offset_x)
          by (unfold CInt.INT_MIN, CInt.INT_MAX in *; lia).
        eexists. split; [reflexivity | exact Hbuf]. }
      rewrite Hloop. cbn [mbind exec_bind]. cbn in Hinv. subst buf.
      rewrite buffer_index_small by (unfold CInt.INT_MAX in *; lia).
      apply IMB_buffer_byte_from_float_agree; assumption.
    + (* straight into the display buffer *)
      destruct (for_yx_invariant
                  (fun s : list Byte.byte * (Z -> float) =>
                     agree_outside (in_rect_bytes display_stride xmin ymin xmax ymax)
                       display_buffer (fst s))
                  ymin ymax xmin xmax
                  (fun '(buf, fb) y x =>
                     ly ← CInt.sub y linear_offset_y;
                     lx ← CInt.sub x linear_offset_x;
                     buf1 ← buffer_store buf (buffer_index y display_stride x 4)
                              (display_pixel_bytes (ibuf_channels ibuf)
                                 (if negb (Z.land (ibuf_colormanage_flag ibuf)
                                             IMB_COLORMANAGE_IS_DATA =? 0)
                                  then partial_update_source_pixel cat (rect_colorspace ibuf)
                                         linear_buffer byte_buffer (ibuf_channels ibuf)
                                         (buffer_index ly linear_stride lx (ibuf_channels ibuf))
                                  else IMB_colormanagement_processor_apply_pixel processor
                                         (partial_update_source_pixel cat (rect_colorspace ibuf)
                                            linear_buffer byte_buffer (ibuf_channels ibuf)
                                            (buffer_index ly linear_stride lx
                                               (ibuf_channels ibuf)))
                                         (ibuf_channels ibuf)));
                     mret (buf1, fb))
                  (display_buffer, fun _ => CFloat.zero))
        as ([buf fb] & Hloop & Hinv).
      { apply agree_outside_refl. }
      { intros [buf fb] y x Hyr Hxr Hagree. cbn [fst] in Hagree.
        rewrite (CInt_sub_done y linear_offset_y), (CInt_sub_done x linear_offset_x)
          by (unfold CInt.INT_MIN, CInt.INT_MAX in *; lia).
        cbn [mbind exec_bind].
        destruct (pixel_of_rect_offsets display_stride xmin ymin xmax ymax x y
                    (Z.of_nat (length display_buffer)))
          as (H0 & Hend & _ & Hidx & Hin); try lia.
        rewrite Hidx.
        match goal with |- context [buffer_store buf _ ?bytes] =>
          destruct (buffer_store_agree (in_rect_bytes display_stride xmin ymin xmax ymax)
                      buf ((y * display_stride + x) * 4) bytes)
            as (buf' & -> & Hagree')
        end; rewrite ?display_pixel_bytes_length.
        - exact H0.
        - destruct Hagree as [Hlen _]. rewrite Hlen. exact Hend.
        - exact Hin.
        - cbn [mbind exec_bind]. eexists. split; [reflexivity|].
          cbn [fst]. eapply agree_outside_trans; eassumption. }
      rewrite Hloop. cbn [mbind exec_bind]. eexists. split; [reflexivity | exact Hinv].
  - (* no processor: the byte buffer is already in display space *)
    destruct (Hbytes eq_refl) as [bb ->].
    destruct (CFloat.ne (ibuf_dither ibuf) CFloat.zero) eqn:Hdither; cbn [andb].
    + cbn [mbind exec_bind mret exec_ret].
      rewrite buffer_index_small by (unfold CInt.INT_MAX in *; lia).
      apply IMB_buffer_byte_from_float_agree; assumption.
    + destruct (exec_fold_invariant
                  (agree_outside (in_rect_bytes display_stride xmin ymin xmax ymax)
                     display_buffer)
                  (fun buf i =>
                     bb' ← deref (Some bb);
                     memcpy buf (buffer_index display_stride i xmin 4) bb'
                       (buffer_index linear_stride i xmin 4)
                       (CInt.size_mul 4 (xmax - xmin)))
                  (seqZ ymin (ymax - ymin)) display_buffer)
        as (buf & Hloop & Hinv).
      { apply agree_outside_refl. }
      { intros buf i Hi Hagree. apply elem_of_seqZ in Hi.
        cbn [deref mbind exec_bind].
        rewrite buffer_index_small by (unfold CInt.INT_MAX in *; lia).
        assert (Hn : CInt.size_mul 4 (xmax - xmin) = 4 * (xmax - xmin)).
        { unfold CInt.size_mul, CInt.SIZE_MOD. apply Z.mod_small.
          unfold CInt.INT_MAX in *. lia. }
        rewrite Hn.
        pose proof (Z.mul_nonneg_nonneg display_stride i ltac:(lia) ltac:(lia)) as Hsi.
        assert (Hrow : display_stride * i + display_stride <= display_stride * ymax) by nia.
        destruct (memcpy_agree (in_rect_bytes display_stride xmin ymin xmax ymax) buf
                    ((display_stride * i + xmin) * 4) bb
                    (buffer_index linear_stride i xmin 4) (4 * (xmax - xmin)))
          as (buf' & Hcopy & Hagree'); try lia.
        - destruct Hagree as [Hlen _]. rewrite Hlen. lia.
        - intros j Hj. exists (j / 4 - display_stride * i), i.
          pose proof (Z.div_mod j 4 ltac:(lia)) as Hdm.
          pose proof (Z.mod_pos_bound j 4 ltac:(lia)) as Hmb.
          replace (i * display_stride) with (display_stride * i) by ring.
          lia.
        - exists buf'. split; [exact Hcopy|]. eapply agree_outside_trans; eassumption. }
      rewrite Hloop. cbn [mbind exec_bind mret exec_ret].
      eexists. split; [reflexivity | exact Hinv].
Qed.

(** X26. A call of [partial_buffer_update_rect] that completes, on a
    rectangle inside a display buffer that holds [ymax] rows of
    [display_stride] pixels, with offsets in the range of [int], and on a
    path without dither, with four channels or without processor (then
    with a byte buffer), keeps the length of the display buffer and leaves
    every byte of every pixel outside the rectangle as it was.  Whether
    the call completes also depends on the buffers that it reads, which
    are not bounded here. *)
Lemma partial_buffer_update_rect_confined cat ibuf display_buffer linear_buffer byte_buffer
    display_stride linear_stride linear_offset_x linear_offset_y cm_processor
    xmin ymin xmax ymax display_buffer' :
  0 <= xmin <= xmax -> xmax <= display_stride <= CInt.INT_MAX ->
  0 <= ymin <= ymax -> ymax <= CInt.INT_MAX ->
  4 * display_stride * ymax <= Z.of_nat (length display_buffer) ->
  0 <= linear_offset_x <= CInt.INT_MAX -> 0 <= linear_offset_y <= CInt.INT_MAX ->
  (cm_processor = None -> is_Some byte_buffer) ->
  CFloat.ne (ibuf_dither ibuf) CFloat.zero = false
  \/ ibuf_channels ibuf = 4 \/ cm_processor = None ->
  partial_buffer_update_rect cat ibuf display_buffer linear_buffer byte_buffer
    display_stride linear_stride linear_offset_x linear_offset_y cm_processor
    xmin ymin xmax ymax = Done display_buffer' ->
  length display_buffer' = length display_buffer
  /\ forall x y k,
       0 <= x < display_stride -> 0 <= y -> 0 <= k < 4 ->
       ~ (xmin <= x < xmax /\ ymin <= y < ymax) ->
       pixel_byte display_buffer' display_stride x y k
       = pixel_byte display_buffer display_stride x y k.
Proof.
  intros Hx Hxs Hy Hys Hfit Hox Hoy Hbytes Hpath Hdone.
  destruct (partial_buffer_update_rect_agree cat ibuf display_buffer linear_buffer
              byte_buffer display_stride linear_stride linear_offset_x linear_offset_y
              cm_processor xmin ymin xmax ymax Hx Hxs Hy Hys Hfit Hox Hoy Hbytes Hpath)
    as (updated & Hrun & Hlen & Hsame).
  rewrite Hrun in Hdone. injection Hdone as <-.
  split; [exact Hlen|].
  intros x y k Hxr Hyr Hk Hout. unfold pixel_byte. apply Hsame.
  pose proof (Z.mul_nonneg_nonneg y display_stride ltac:(lia) ltac:(lia)) as Hys'.
  rewrite Z2Nat.id by lia.
  intros Hin. apply Hout.
  apply (in_rect_bytes_pixel display_stride xmin ymin xmax ymax x y k); try lia.
  exact Hin.
Qed.

End RegionWriterFacts.

(** C5, at an input where the code leaves the rectangle.  The image buffer
    has three channels and a dither amount of 1, a processor is applied, the
    display buffer has rows of four pixels and the rectangle is the single
    pixel (1, 1), whose bytes are at the offsets 20 to 23.  The intermediate
    float buffer is written back from the offset
    [(ymin * display_stride + xmin) * channels] = 15: byte 3 of the pixel
    (3, 0) and bytes 0 to 2 of the pixel (0, 1) change, the pixel of the
    rectangle does not. *)
Theorem partial_buffer_update_rect_dither_rgb_escapes :
  @partial_buffer_update_rect example_constants example_helpers example_engine
    example_catalog example_ibuf_rgb_dither example_display_buffer_4x2
    (Some example_linear_buffer) None 4 4 0 0 (Some example_processor) 1 1 2 2
  = Done (replicate 15 Byte.x00 ++ replicate 4 Byte.xff ++ replicate 13 Byte.x00)
  /\ pixel_byte example_display_buffer_4x2 4 3 0 3 = Some Byte.x00
  /\ pixel_byte (replicate 15 Byte.x00 ++ replicate 4 Byte.xff ++ replicate 13 Byte.x00)
       4 3 0 3 = Some Byte.xff
  /\ pixel_byte (replicate 15 Byte.x00 ++ replicate 4 Byte.xff ++ replicate 13 Byte.x00)
       4 0 1 0 = Some Byte.xff
  /\ ~ (1 <= 3 < 2 /\ 1 <= 0 < 2)
  /\ ~ (1 <= 0 < 2 /\ 1 <= 1 < 2)
  /\ forall k, 0 <= k < 4 ->
       pixel_byte (replicate 15 Byte.x00 ++ replicate 4 Byte.xff ++ replicate 13 Byte.x00)
         4 1 1 k = Some Byte.x00.
Proof.
  split; [vm_compute; reflexivity|].
  split; [reflexivity|]. split; [reflexivity|]. split; [reflexivity|].
  split; [lia|]. split; [lia|].
  intros k Hk.
  assert (Hcases : k = 0 \/ k = 1 \/ k = 2 \/ k = 3) by lia.
  destruct Hcases as [-> | [-> | [-> | ->]]]; reflexivity.
Qed.

(** The same call on the buffer with four channels stays inside the
    rectangle: only the bytes 20 to 23 change. *)
Example partial_buffer_update_rect_dither_rgba :
  @partial_buffer_update_rect example_constants example_helpers example_engine
    example_catalog example_ibuf_rgba_dither example_display_buffer_4x2
    (Some example_linear_buffer) None 4 4 0 0 (Some example_processor) 1 1 2 2
  = Done (replicate 20 Byte.x00 ++ replicate 4 Byte.xff ++ replicate 8 Byte.x00).
Proof. vm_compute. reflexivity. Qed.

(** The confinement of the region writer at that call: the byte 3 of the
    pixel (3, 0), outside the rectangle, is as it was. *)
Lemma partial_buffer_update_rect_confined_witness :
  pixel_byte (replicate 20 Byte.x00 ++ replicate 4 Byte.xff ++ replicate 8 Byte.x00) 4 3 0 3
  = pixel_byte example_display_buffer_4x2 4 3 0 3.
Proof.
  destruct (@partial_buffer_update_rect_confined example_constants example_helpers
              example_engine example_catalog example_ibuf_rgba_dither
              example_display_buffer_4x2 (Some example_linear_buffer) None 4 4 0 0
              (Some example_processor) 1 1 2 2
              (replicate 20 Byte.x00 ++ replicate 4 Byte.xff ++ replicate 8 Byte.x00))
    as (_ & Hsame).
  - lia.
  - vm_compute. split; discriminate.
  - lia.
  - vm_compute. discriminate.
  - vm_compute. discriminate.
  - vm_compute. split; discriminate.
  - vm_compute. split; discriminate.
  - intros Hnone. discriminate Hnone.
  - right. left. reflexivity.
  - vm_compute. reflexivity.
  - apply (Hsame 3 0 3); lia.
Defined.

(** ** Numbering of the catalog *)

Lemma seqZ_S (k : Z) (n : nat) :
  seqZ k (Z.of_nat (S n)) = k :: seqZ (k + 1) (Z.of_nat n).
Proof.
  rewrite seqZ_cons by lia. f_equal. f_equal; lia.
Qed.

Lemma seqZ_snoc (k : Z) (n : nat) :
  seqZ k (Z.of_nat (S n)) = seqZ k (Z.of_nat n) ++ [k + Z.of_nat n].
Proof.
  replace (Z.of_nat (S n)) with (Z.of_nat n + 1) by lia.
  rewrite seqZ_app by lia. reflexivity.
Qed.

Lemma numbered_nil {A} (index : A -> Z) : numbered index [].
Proof. reflexivity. Qed.

Lemma numbered_snoc {A} (index : A -> Z) (l : list A) (a : A) :
  numbered index l -> index a = Z.of_nat (length l) + 1 ->
  numbered index (l ++ [a]).
Proof.
  unfold numbered. intros Hl Ha.
  rewrite fmap_app, length_app, Hl. simpl.
  replace (length l + 1)%nat with (S (length l)) by lia.
  rewrite seqZ_snoc, Ha. f_equal. f_equal. lia.
Qed.

Lemma numbered_lookup {A} (index : A -> Z) (l : list A) (i : nat) (a : A) :
  numbered index l -> l !! i = Some a -> index a = Z.of_nat i + 1.
Proof.
  unfold numbered. intros Hl Hi.
  assert (Hf : (index <$> l) !! i = Some (index a))
    by (rewrite list_lookup_fmap, Hi; reflexivity).
  rewrite Hl in Hf. apply lookup_seqZ in Hf. lia.
Qed.

Lemma numbered_last {A} (index : A -> Z) (l : list A) (a : A) :
  numbered index l -> last l = Some a -> index a = Z.of_nat (length l).
Proof.
  intros Hl Hlast. rewrite last_lookup in Hlast.
  pose proof (lookup_lt_Some _ _ _ Hlast) as Hlt.
  rewrite (numbered_lookup index l _ a Hl Hlast). lia.
Qed.

(** In a numbered list the entry that a search returns stands at the
    position its index names. *)
Lemma numbered_find {A} (index : A -> Z) (P : A -> bool) (l : list A) (a : A) :
  numbered index l -> find P l = Some a ->
  1 <= index a <= Z.of_nat (length l)
  /\ BLI_findlink l (index a - 1) = Some a.
Proof.
  intros Hl Hfind. apply find_some in Hfind. destruct Hfind as [Hin _].
  apply list_elem_of_In, list_elem_of_lookup in Hin. destruct Hin as [i Hi].
  pose proof (numbered_lookup index l i a Hl Hi) as Hidx.
  pose proof (lookup_lt_Some _ _ _ Hi) as Hlt.
  split; [lia|]. unfold BLI_findlink.
  replace (0 <=? index a - 1) with true by (symmetry; apply Z.leb_le; lia).
  replace (Z.to_nat (index a - 1)) with i by lia. exact Hi.
Qed.

Section CatalogNumbering.

Context {constants : HeaderConstants} {helpers : Helpers}.

Lemma colorspace_renumber_index (l : list ColorSpace) (k : Z) :
  colorspace_index <$> colorspace_renumber l k = seqZ k (Z.of_nat (length l)).
Proof.
  revert k. induction l as [|cs l IH]; intros k; [reflexivity|].
  cbn [colorspace_renumber length]. rewrite fmap_cons, IH, seqZ_S. reflexivity.
Qed.

Lemma colorspace_renumber_length (l : list ColorSpace) (k : Z) :
  length (colorspace_renumber l k) = length l.
Proof.
  revert k. induction l as [|cs l IH]; intros k; [reflexivity|].
  cbn [colorspace_renumber length]. now rewrite IH.
Qed.

Lemma colorspace_insert_length (l : list ColorSpace) (cs : ColorSpace) (k : Z) :
  length (colorspace_insert l cs k) = S (length l).
Proof.
  revert k. induction l as [|prev l IH]; intros k; [reflexivity|].
  cbn [colorspace_insert]. destruct (_ >? 0).
  - cbn [length colorspace_renumber]. now rewrite colorspace_renumber_length.
  - cbn [length]. now rewrite IH.
Qed.

Lemma colorspace_insert_index (l : list ColorSpace) (cs : ColorSpace) (k : Z) :
  colorspace_index <$> colorspace_insert l cs k = seqZ k (Z.of_nat (S (length l))).
Proof.
  revert k. induction l as [|prev l IH]; intros k.
  - cbn. rewrite seqZ_cons by lia. reflexivity.
  - cbn [colorspace_insert]. destruct (_ >? 0).
    + rewrite fmap_cons, colorspace_renumber_index, (seqZ_S k). reflexivity.
    + rewrite fmap_cons, IH, (seqZ_S k). reflexivity.
Qed.

Lemma last_display_add_view_index displays view :
  display_index <$> last_display_add_view displays view = display_index <$> displays.
Proof.
  induction displays as [|d rest IH]; [reflexivity|].
  destruct rest as [|d' rest']; [reflexivity|].
  change (display_index d :: (display_index <$> last_display_add_view (d' :: rest') view)
          = display_index d :: (display_index <$> (d' :: rest'))).
  now rewrite IH.
Qed.

Lemma catalog_lists_numbered_free cat :
  catalog_lists_numbered (colormanage_free_config cat).
Proof. repeat split. Qed.

Lemma catalog_lists_numbered_colorspace_add cat name invertible data :
  catalog_lists_numbered cat ->
  catalog_lists_numbered (colormanage_colorspace_add cat name invertible data).
Proof.
  intros (Hcs & Hd & Hv & Hl & Htc & Htv & Htl).
  unfold catalog_lists_numbered, colormanage_colorspace_add. simpl.
  repeat split; try assumption.
  - unfold numbered. rewrite colorspace_insert_index, colorspace_insert_length. reflexivity.
  - rewrite colorspace_insert_length, Htc. lia.
Qed.

Lemma catalog_lists_numbered_display_add cat name :
  catalog_lists_numbered cat ->
  catalog_lists_numbered (colormanage_display_add cat name).
Proof.
  intros (Hcs & Hd & Hv & Hl & Htc & Htv & Htl).
  unfold catalog_lists_numbered, colormanage_display_add. simpl.
  repeat split; try assumption.
  apply numbered_snoc; [exact Hd|]. simpl.
  destruct (last (global_displays cat)) as [d|] eqn:Hlast.
  - rewrite (numbered_last _ _ _ Hd Hlast). reflexivity.
  - apply last_None in Hlast. rewrite Hlast. reflexivity.
Qed.

Lemma catalog_lists_numbered_load_config_view cat viewname :
  catalog_lists_numbered cat ->
  catalog_lists_numbered (load_config_view cat viewname).
Proof.
  intros (Hcs & Hd & Hv & Hl & Htc & Htv & Htl).
  unfold catalog_lists_numbered, load_config_view.
  destruct (colormanage_view_get_named cat viewname) as [view|]; simpl.
  - repeat split; try assumption.
    unfold numbered. rewrite last_display_add_view_index, last_display_add_view_length.
    exact Hd.
  - repeat split; try assumption.
    + unfold numbered. rewrite last_display_add_view_index, last_display_add_view_length.
      exact Hd.
    + apply numbered_snoc; [exact Hv|]. simpl. lia.
    + rewrite length_app. simpl. lia.
Qed.

Lemma catalog_lists_numbered_load_config_display cat d :
  catalog_lists_numbered cat ->
  catalog_lists_numbered (load_config_display_entry cat d).
Proof.
  intros Hcat. unfold load_config_display_entry.
  assert (H : forall views c, catalog_lists_numbered c ->
                catalog_lists_numbered (fold_left load_config_view views c)).
  { induction views as [|v views IH]; intros c Hc; simpl; [exact Hc|].
    apply IH, catalog_lists_numbered_load_config_view, Hc. }
  apply H, catalog_lists_numbered_display_add, Hcat.
Qed.

Lemma catalog_lists_numbered_look_add cat name process_space noop :
  catalog_lists_numbered cat ->
  catalog_lists_numbered (colormanage_look_add cat name process_space noop).
Proof.
  intros (Hcs & Hd & Hv & Hl & Htc & Htv & Htl).
  unfold catalog_lists_numbered, colormanage_look_add. simpl.
  repeat split; try assumption.
  - apply numbered_snoc; [exact Hl|]. destruct (strstr _ _); simpl; lia.
  - rewrite length_app. simpl. lia.
Qed.

Lemma catalog_lists_numbered_load cat config :
  catalog_lists_numbered cat ->
  catalog_lists_numbered (load_config_entries cat config).
Proof.
  intros Hcat. unfold load_config_entries.
  assert (Hlooks : forall looks c, catalog_lists_numbered c ->
            catalog_lists_numbered
              (fold_left (fun c lk => colormanage_look_add c (fst lk) (snd lk) false) looks c)).
  { induction looks as [|lk looks IH]; intros c Hc; simpl; [exact Hc|].
    apply IH, catalog_lists_numbered_look_add, Hc. }
  assert (Hdisplays : forall displays c, catalog_lists_numbered c ->
            catalog_lists_numbered (fold_left load_config_display_entry displays c)).
  { induction displays as [|d displays IH]; intros c Hc; simpl; [exact Hc|].
    apply IH, catalog_lists_numbered_load_config_display, Hc. }
  assert (Hspaces : forall spaces c, catalog_lists_numbered c ->
            catalog_lists_numbered
              (fold_left (fun c cs => colormanage_colorspace_add c
                                        (fst (fst cs)) (snd (fst cs)) (snd cs)) spaces c)).
  { induction spaces as [|cs spaces IH]; intros c Hc; simpl; [exact Hc|].
    apply IH, catalog_lists_numbered_colorspace_add, Hc. }
  apply Hlooks, catalog_lists_numbered_look_add.
  match goal with |- catalog_lists_numbered (set_global_tot_display ?c _) =>
    assert (Hc : catalog_lists_numbered c) end.
  { apply Hdisplays, Hspaces. exact Hcat. }
  exact Hc.
Qed.

End CatalogNumbering.

Section CatalogLoaded.

Context {constants : HeaderConstants} {helpers : Helpers}.

Lemma fold_colorspace_add_length spaces cat :
  length (global_colorspaces
            (fold_left (fun c cs => colormanage_colorspace_add c
                                      (fst (fst cs)) (snd (fst cs)) (snd cs)) spaces cat))
  = (length spaces + length (global_colorspaces cat))%nat.
Proof.
  revert cat. induction spaces as [|cs spaces IH]; intros cat; simpl; [reflexivity|].
  rewrite IH. unfold colormanage_colorspace_add. simpl.
  rewrite colorspace_insert_length. lia.
Qed.

Lemma fold_look_add_length looks cat :
  length (global_looks
            (fold_left (fun c lk => colormanage_look_add c (fst lk) (snd lk) false) looks cat))
  = (length looks + length (global_looks cat))%nat.
Proof.
  revert cat. induction looks as [|lk looks IH]; intros cat; simpl; [reflexivity|].
  rewrite IH. unfold colormanage_look_add. simpl. rewrite length_app. simpl. lia.
Qed.

Lemma fold_look_add_colorspaces looks cat :
  global_colorspaces
    (fold_left (fun c lk => colormanage_look_add c (fst lk) (snd lk) false) looks cat)
  = global_colorspaces cat.
Proof.
  revert cat. induction looks as [|lk looks IH]; intros cat; simpl; [reflexivity|].
  now rewrite IH.
Qed.

Lemma load_config_view_colorspaces cat viewname :
  global_colorspaces (load_config_view cat viewname) = global_colorspaces cat
  /\ global_looks (load_config_view cat viewname) = global_looks cat.
Proof.
  unfold load_config_view.
  destruct (colormanage_view_get_named cat viewname); simpl; split; reflexivity.
Qed.

Lemma fold_load_config_display_colorspaces displays cat :
  global_colorspaces (fold_left load_config_display_entry displays cat) = global_colorspaces cat
  /\ global_looks (fold_left load_config_display_entry displays cat) = global_looks cat.
Proof.
  revert cat. induction displays as [|d displays IH]; intros cat; simpl; [tauto|].
  destruct (IH (load_config_display_entry cat d)) as [H1 H2]. rewrite H1, H2.
  unfold load_config_display_entry.
  assert (H : forall views c,
            global_colorspaces (fold_left load_config_view views c) = global_colorspaces c
            /\ global_looks (fold_left load_config_view views c) = global_looks c).
  { induction views as [|v views IHv]; intros c; simpl; [tauto|].
    destruct (IHv (load_config_view c v)) as [H3 H4]. rewrite H3, H4.
    apply load_config_view_colorspaces. }
  destruct (H (snd d) (colormanage_display_add cat (fst d))) as [H3 H4].
  rewrite H3, H4. split; reflexivity.
Qed.

Lemma fold_colorspace_add_looks spaces cat :
  global_looks
    (fold_left (fun c cs => colormanage_colorspace_add c
                              (fst (fst cs)) (snd (fst cs)) (snd cs)) spaces cat)
  = global_looks cat.
Proof.
  revert cat. induction spaces as [|cs spaces IH]; intros cat; simpl; [reflexivity|].
  now rewrite IH.
Qed.

(** The colour spaces of a loaded catalog are those that the fold of
    [colormanage_colorspace_add] leaves. *)
Lemma load_config_colorspaces cat config :
  global_colorspaces (load_config_entries cat config)
  = global_colorspaces
      (fold_left (fun c cs => colormanage_colorspace_add c
                                (fst (fst cs)) (snd (fst cs)) (snd cs))
                 (config_colorspaces config) (load_role_scene_linear cat config)).
Proof.
  unfold load_config_entries. rewrite fold_look_add_colorspaces. simpl.
  apply fold_load_config_display_colorspaces.
Qed.

(** The looks of a loaded catalog: those it had, the look "None", and one
    for every look of the configuration. *)
Lemma load_config_looks cat config :
  global_looks (load_config_entries cat config)
  = global_looks
      (fold_left (fun c lk => colormanage_look_add c (fst lk) (snd lk) false)
         (config_looks config)
         (colormanage_look_add
            (set_global_tot_display
               (fold_left load_config_display_entry (config_displays config)
                  (fold_left (fun c cs => colormanage_colorspace_add c
                                            (fst (fst cs)) (snd (fst cs)) (snd cs))
                     (config_colorspaces config) (load_role_scene_linear cat config)))
               (Z.of_nat (length (config_displays config))))
            "None" EmptyString true)).
Proof. reflexivity. Qed.

(** The loops on fetched entries number the lists and make one record
    for every entry. *)
Lemma load_config_entries_numbered cat config :
  let cat' := load_config_entries (colormanage_free_config cat) config in
  catalog_numbered cat'
  /\ length (global_colorspaces cat') = length (config_colorspaces config)
  /\ length (global_displays cat') = length (config_displays config)
  /\ length (global_looks cat') = S (length (config_looks config)).
Proof.
  intros cat'. split; [split|].
  - apply catalog_lists_numbered_load, catalog_lists_numbered_free.
  - unfold cat'. rewrite load_config_tot_display.
    rewrite load_config_displays_length by reflexivity. reflexivity.
  - split; [|split].
    + unfold cat'. rewrite load_config_colorspaces, fold_colorspace_add_length.
      simpl. lia.
    + unfold cat'. apply load_config_displays_length. reflexivity.
    + unfold cat'. rewrite load_config_looks, fold_look_add_length.
      unfold colormanage_look_add. simpl. rewrite length_app.
      destruct (fold_load_config_display_colorspaces (config_displays config)
                  (fold_left (fun c cs => colormanage_colorspace_add c
                                            (fst (fst cs)) (snd (fst cs)) (snd cs))
                     (config_colorspaces config)
                     (load_role_scene_linear (colormanage_free_config cat) config)))
        as [_ Hl].
      rewrite Hl, fold_colorspace_add_looks. simpl. lia.
Qed.

(** X1. After [colormanage_load_config] into a catalog that
    [colormanage_free_config] emptied, the colour spaces, the displays, the
    views and the looks each carry the indices 1, 2, ... in list order, the
    four counts are the lengths of the four lists, and the catalog has one
    colour space and one display for each of the configuration and one
    look more than it. *)
Theorem colormanage_load_config_numbered cat config :
  let cat' := colormanage_load_config (colormanage_free_config cat) config in
  catalog_numbered cat'
  /\ length (global_colorspaces cat') = length (config_colorspaces config)
  /\ length (global_displays cat') = length (config_displays config)
  /\ length (global_looks cat') = S (length (config_looks config)).
Proof.
  intros cat'. unfold cat'. rewrite colormanage_load_config_fetched.
  destruct (load_config_entries_numbered cat (config_fetched config))
    as (Hnumbered & Hspaces & Hdisplays & Hlooks).
  destruct (config_fetched_lengths config) as (Lspaces & Ldisplays & Llooks).
  rewrite <- Lspaces, <- Ldisplays, <- Llooks.
  split; [exact Hnumbered|]. split; [exact Hspaces|]. split; [exact Hdisplays|].
  exact Hlooks.
Qed.

End CatalogLoaded.

(** ** From a name to its index and back *)

Lemma numbered_find_link {A} (index : A -> Z) (P : A -> bool) (l : list A) :
  numbered index l -> Z.of_nat (length l) <= CInt.INT_MAX ->
  (number ← CInt.sub (match find P l with Some a => index a | None => 0 end) 1;
   Done (BLI_findlink l number))
  = Done (find P l).
Proof.
  intros Hl Hlen. destruct (find P l) as [a|] eqn:Hfind.
  - destruct (numbered_find index P l a Hl Hfind) as [Hrange Hlink].
    rewrite CInt_sub_done by (unfold CInt.INT_MIN, CInt.INT_MAX in *; lia).
    cbn. rewrite Hlink. reflexivity.
  - reflexivity.
Qed.

(** X2. In a catalog that is numbered in list order and whose counts fit
    an [int], the index that the lookup by name returns leads the lookup
    by index back to the descriptor that the name has, and the name
    lookup by index back to the name; a name without a descriptor has the
    index 0, for which the lookups by index return NULL, and the empty
    string in the case of colour spaces. *)
Theorem catalog_name_index_round_trip cat name :
  catalog_numbered cat -> catalog_counts_representable cat ->
  (colormanage_colorspace_get_indexed cat
     (IMB_colormanagement_colorspace_get_named_index cat name)
   = Done (colormanage_colorspace_get_named cat name)
   /\ colormanage_display_get_indexed cat
        (IMB_colormanagement_display_get_named_index cat name)
      = Done (colormanage_display_get_named cat name)
   /\ colormanage_view_get_indexed cat
        (IMB_colormanagement_view_get_named_index cat name)
      = Done (colormanage_view_get_named cat name)
   /\ colormanage_look_get_indexed cat
        (IMB_colormanagement_look_get_named_index cat name)
      = Done (colormanage_look_get_named cat name))
  /\ (IMB_colormanagement_colorspace_get_indexed_name cat
        (IMB_colormanagement_colorspace_get_named_index cat name)
      = Done (match colormanage_colorspace_get_named cat name with
              | Some _ => name
              | None => EmptyString
              end)
      /\ IMB_colormanagement_display_get_indexed_name cat
           (IMB_colormanagement_display_get_named_index cat name)
         = Done (match colormanage_display_get_named cat name with
                 | Some _ => Some name
                 | None => None
                 end)
      /\ IMB_colormanagement_view_get_indexed_name cat
           (IMB_colormanagement_view_get_named_index cat name)
         = Done (match colormanage_view_get_named cat name with
                 | Some _ => Some name
                 | None => None
                 end)
      /\ IMB_colormanagement_look_get_indexed_name cat
           (IMB_colormanagement_look_get_named_index cat name)
         = Done (match colormanage_look_get_named cat name with
                 | Some _ => Some name
                 | None => None
                 end)).
Proof.
  intros ((Hcs & Hd & Hv & Hl & Htc & Htv & Htl) & Htd) (Hrc & Hrd & Hrv & Hrl).
  assert (Hspace :
    colormanage_colorspace_get_indexed cat
      (IMB_colormanagement_colorspace_get_named_index cat name)
    = Done (colormanage_colorspace_get_named cat name)).
  { unfold colormanage_colorspace_get_indexed,
      IMB_colormanagement_colorspace_get_named_index, colormanage_colorspace_get_named.
    apply (numbered_find_link colorspace_index); [exact Hcs | lia]. }
  assert (Hdisplay :
    colormanage_display_get_indexed cat
      (IMB_colormanagement_display_get_named_index cat name)
    = Done (colormanage_display_get_named cat name)).
  { unfold colormanage_display_get_indexed,
      IMB_colormanagement_display_get_named_index, colormanage_display_get_named.
    apply (numbered_find_link display_index); [exact Hd | lia]. }
  assert (Hview :
    colormanage_view_get_indexed cat
      (IMB_colormanagement_view_get_named_index cat name)
    = Done (colormanage_view_get_named cat name)).
  { unfold colormanage_view_get_indexed,
      IMB_colormanagement_view_get_named_index, colormanage_view_get_named.
    apply (numbered_find_link view_index); [exact Hv | lia]. }
  assert (Hlook :
    colormanage_look_get_indexed cat
      (IMB_colormanagement_look_get_named_index cat name)
    = Done (colormanage_look_get_named cat name)).
  { unfold colormanage_look_get_indexed,
      IMB_colormanagement_look_get_named_index, colormanage_look_get_named.
    apply (numbered_find_link look_index); [exact Hl | lia]. }
  split; [repeat split; assumption|].
  unfold IMB_colormanagement_colorspace_get_indexed_name,
    IMB_colormanagement_display_get_indexed_name,
    IMB_colormanagement_view_get_indexed_name,
    IMB_colormanagement_look_get_indexed_name.
  rewrite Hspace, Hdisplay, Hview, Hlook. cbn.
  repeat split.
  - unfold colormanage_colorspace_get_named.
    destruct (find _ (global_colorspaces cat)) as [cs|] eqn:Hfind; [|reflexivity].
    apply find_some in Hfind. destruct Hfind as [_ Heq].
    apply String.eqb_eq in Heq. now rewrite Heq.
  - unfold colormanage_display_get_named.
    destruct (find _ (global_displays cat)) as [d|] eqn:Hfind; [|reflexivity].
    apply find_some in Hfind. destruct Hfind as [_ Heq].
    apply String.eqb_eq in Heq. now rewrite Heq.
  - unfold colormanage_view_get_named.
    destruct (find _ (global_views cat)) as [v|] eqn:Hfind; [|reflexivity].
    apply find_some in Hfind. destruct Hfind as [_ Heq].
    apply String.eqb_eq in Heq. now rewrite Heq.
  - unfold colormanage_look_get_named.
    destruct (find _ (global_looks cat)) as [lk|] eqn:Hfind; [|reflexivity].
    apply find_some in Hfind. destruct Hfind as [_ Heq].
    apply String.eqb_eq in Heq. now rewrite Heq.
Qed.

(** The round trip in the example catalog, for the name "sRGB" of a display
    and of a colour space. *)
Lemma catalog_name_index_round_trip_witness :
  IMB_colormanagement_display_get_indexed_name example_catalog
    (IMB_colormanagement_display_get_named_index example_catalog "sRGB")
  = Done (Some "sRGB"%string)
  /\ IMB_colormanagement_look_get_indexed_name example_catalog
       (IMB_colormanagement_look_get_named_index example_catalog "sRGB")
     = Done None.
Proof.
  destruct (catalog_name_index_round_trip example_catalog "sRGB")
    as (_ & _ & Hdisplay & _ & Hlook).
  - repeat split; reflexivity.
  - vm_compute. repeat split; discriminate.
  - split; [exact Hdisplay | exact Hlook].
Defined.

(** ** The colour spaces stay in the order of their names *)

Section ColorspaceOrder.

Context {constants : HeaderConstants} {helpers : Helpers}.

Lemma colorspace_renumber_entry (l : list ColorSpace) (k : Z) :
  colorspace_entry <$> colorspace_renumber l k = colorspace_entry <$> l.
Proof.
  revert k. induction l as [|cs l IH]; intros k; [reflexivity|].
  cbn [colorspace_renumber]. rewrite !fmap_cons, IH. reflexivity.
Qed.

Lemma colorspace_insert_entry (l : list ColorSpace) (cs : ColorSpace) (k : Z) :
  colorspace_entry <$> colorspace_insert l cs k ≡ₚ colorspace_entry cs :: (colorspace_entry <$> l).
Proof.
  revert k. induction l as [|prev l IH]; intros k; [reflexivity|].
  cbn [colorspace_insert]. destruct (_ >? 0).
  - rewrite fmap_cons, colorspace_renumber_entry. reflexivity.
  - rewrite !fmap_cons, IH. apply Permutation_swap.
Qed.

Lemma colorspaces_sorted_renumber (l : list ColorSpace) (k : Z) :
  colorspaces_sorted (colorspace_renumber l k) = colorspaces_sorted l.
Proof.
  revert k. induction l as [|a l IH]; intros k; [reflexivity|].
  cbn [colorspace_renumber colorspaces_sorted]. rewrite IH.
  destruct l as [|b l]; reflexivity.
Qed.

(** The name at the head of the list after an insertion: the new name, or
    the name that was at the head. *)
Lemma colorspace_insert_head (l : list ColorSpace) (cs : ColorSpace) (k : Z) :
  exists h rest,
    colorspace_insert l cs k = h :: rest
    /\ (colorspace_name h = colorspace_name cs
        \/ exists p l', l = p :: l' /\ colorspace_name h = colorspace_name p
                        /\ BLI_strcasecmp (colorspace_name p) (colorspace_name cs) <= 0).
Proof.
  destruct l as [|p l'].
  - eexists _, _. split; [reflexivity|]. left. reflexivity.
  - cbn [colorspace_insert].
    destruct (BLI_strcasecmp (colorspace_name p) (colorspace_name cs) >? 0) eqn:Hcmp.
    + eexists _, _. split; [reflexivity|]. left. reflexivity.
    + eexists _, _. split; [reflexivity|]. right. exists p, l'.
      split; [reflexivity|]. split; [reflexivity|]. rewrite Z.gtb_ltb in Hcmp. apply Z.ltb_ge in Hcmp. exact Hcmp.
Qed.

Lemma colorspaces_sorted_insert (l : list ColorSpace) (cs : ColorSpace) (k : Z) :
  (forall a b : string, 0 < BLI_strcasecmp a b -> BLI_strcasecmp b a <= 0) ->
  colorspaces_sorted l = true ->
  colorspaces_sorted (colorspace_insert l cs k) = true.
Proof.
  intros Hanti. revert k. induction l as [|p l IH]; intros k Hsorted; [reflexivity|].
  cbn [colorspace_insert].
  destruct (BLI_strcasecmp (colorspace_name p) (colorspace_name cs) >? 0) eqn:Hcmp.
  - cbn [colorspaces_sorted colorspace_renumber colorspace_set_index colorspace_name].
    apply andb_true_intro. split.
    + apply Z.leb_le, Hanti. rewrite Z.gtb_ltb in Hcmp. apply Z.ltb_lt in Hcmp. exact Hcmp.
    + change (colorspaces_sorted (colorspace_renumber (p :: l) (k + 1)) = true).
      rewrite colorspaces_sorted_renumber. exact Hsorted.
  - rewrite Z.gtb_ltb in Hcmp. apply Z.ltb_ge in Hcmp.
    cbn [colorspaces_sorted] in Hsorted. apply andb_prop in Hsorted.
    destruct Hsorted as [Hhead Htail].
    specialize (IH (k + 1) Htail).
    destruct (colorspace_insert_head l cs (k + 1)) as (h & rest & Hins & Hh).
    rewrite Hins in IH |- *.
    cbn [colorspaces_sorted colorspace_set_index colorspace_name].
    apply andb_true_intro. split; [|exact IH].
    apply Z.leb_le. destruct Hh as [-> | (q & l' & -> & -> & _)]; [exact Hcmp|].
    apply Z.leb_le in Hhead. exact Hhead.
Qed.

Lemma fold_colorspace_add_sorted spaces cat :
  (forall a b : string, 0 < BLI_strcasecmp a b -> BLI_strcasecmp b a <= 0) ->
  colorspaces_sorted (global_colorspaces cat) = true ->
  colorspaces_sorted
    (global_colorspaces
       (fold_left (fun c cs => colormanage_colorspace_add c
                                 (fst (fst cs)) (snd (fst cs)) (snd cs)) spaces cat))
  = true.
Proof.
  intros Hanti. revert cat.
  induction spaces as [|cs spaces IH]; intros cat Hsorted; simpl; [exact Hsorted|].
  apply IH. unfold colormanage_colorspace_add. simpl.
  apply colorspaces_sorted_insert; assumption.
Qed.

Lemma fold_colorspace_add_entries spaces cat :
  colorspace_entry <$>
    global_colorspaces
      (fold_left (fun c cs => colormanage_colorspace_add c
                                (fst (fst cs)) (snd (fst cs)) (snd cs)) spaces cat)
  ≡ₚ (config_colorspace_entry <$> spaces) ++ (colorspace_entry <$> global_colorspaces cat).
Proof.
  revert cat. induction spaces as [|cs spaces IH]; intros cat; simpl; [reflexivity|].
  rewrite IH. unfold colormanage_colorspace_add.
  cbn [global_colorspaces]. rewrite colorspace_insert_entry.
  symmetry. apply (Permutation_middle (config_colorspace_entry <$> spaces)).
Qed.

Lemma load_config_entries_sorts_colorspaces cat config :
  (forall a b : string, 0 < BLI_strcasecmp a b -> BLI_strcasecmp b a <= 0) ->
  let spaces := global_colorspaces
                  (load_config_entries (colormanage_free_config cat) config) in
  colorspaces_sorted spaces = true
  /\ colorspace_entry <$> spaces ≡ₚ config_colorspace_entry <$> config_colorspaces config.
Proof.
  intros Hanti spaces. unfold spaces. rewrite load_config_colorspaces. split.
  - apply fold_colorspace_add_sorted; [exact Hanti | reflexivity].
  - rewrite fold_colorspace_add_entries. simpl. rewrite app_nil_r. reflexivity.
Qed.

(** X3. When [BLI_strcasecmp] never puts two names each after the other,
    the colour spaces of a catalog loaded after a free are in the order
    of [BLI_strcasecmp] on their names.  They are, each once, the colour
    spaces that the configuration enumerates, with the name cut to the
    name array and the two flags of the colour space that the
    configuration returns for the name; when no name is enumerated twice,
    these are the flags of the entries themselves. *)
Theorem colormanage_load_config_sorts_colorspaces cat config :
  (forall a b : string, 0 < BLI_strcasecmp a b -> BLI_strcasecmp b a <= 0) ->
  let spaces := global_colorspaces
                  (colormanage_load_config (colormanage_free_config cat) config) in
  colorspaces_sorted spaces = true
  /\ colorspace_entry <$> spaces
     ≡ₚ (fun name =>
           (BLI_strncpy name MAX_COLORSPACE_NAME,
            OCIO_colorSpaceIsInvertible (OCIO_configGetColorSpace config name),
            OCIO_colorSpaceIsData (OCIO_configGetColorSpace config name)))
          <$> OCIO_configColorSpaceNames config
  /\ (NoDup (OCIO_configColorSpaceNames config) ->
      colorspace_entry <$> spaces ≡ₚ config_colorspace_entry <$> config_colorspaces config).
Proof.
  intros Hanti spaces. unfold spaces. rewrite colormanage_load_config_fetched.
  destruct (load_config_entries_sorts_colorspaces cat (config_fetched config) Hanti)
    as [Hsorted Hentries].
  split; [exact Hsorted|]. split.
  - rewrite Hentries. unfold config_fetched. cbn [config_colorspaces].
    rewrite <- list_fmap_compose. reflexivity.
  - intros Hnodup. rewrite Hentries, config_fetched_colorspaces by exact Hnodup.
    reflexivity.
Qed.

End ColorspaceOrder.

Lemma example_strcasecmp_antisym (a b : string) :
  0 < example_strcasecmp a b -> example_strcasecmp b a <= 0.
Proof.
  unfold example_strcasecmp. rewrite (String.compare_antisym b a).
  destruct (String.compare a b); simpl; lia.
Qed.

(** The colour spaces of the example configuration, "Linear", "sRGB" and
    "Non-Color", come out as "Linear", "Non-Color", "sRGB". *)
Lemma colormanage_load_config_sorts_colorspaces_witness :
  @colorspaces_sorted example_helpers
    (global_colorspaces
       (@colormanage_load_config example_constants example_helpers
          (colormanage_free_config catalog_initial) example_config)) = true
  /\ colorspace_entry <$>
       global_colorspaces
         (@colormanage_load_config example_constants example_helpers
            (colormanage_free_config catalog_initial) example_config)
     ≡ₚ [("Linear", true, false); ("sRGB", true, false); ("Non-Color", false, true)]%string
  /\ colorspace_name <$>
       global_colorspaces
         (@colormanage_load_config example_constants example_helpers
            (colormanage_free_config catalog_initial) example_config)
     = ["Linear"; "Non-Color"; "sRGB"]%string.
Proof.
  destruct (@colormanage_load_config_sorts_colorspaces example_constants example_helpers
              catalog_initial example_config example_strcasecmp_antisym)
    as (Hsorted & _ & Hentries).
  split; [exact Hsorted|]. split; [|reflexivity].
  apply Hentries. vm_compute. repeat constructor; intros Hin; inversion Hin;
    subst; match goal with H : _ ∈ _ |- _ => inversion H end;
    subst; match goal with H : _ ∈ [] |- _ => inversion H end.
Defined.

(** ** Views are registered once *)

Lemma substring_all (s : string) (m : nat) :
  (String.length s <= m)%nat -> String.substring 0 m s = s.
Proof.
  revert m. induction s as [|c s IH]; intros m Hm.
  - destruct m; reflexivity.
  - destruct m as [|m]; [simpl in Hm; lia|].
    simpl. rewrite IH by (simpl in Hm; lia). reflexivity.
Qed.

(** A string that fits is copied whole. *)
Lemma BLI_strncpy_fits (src : string) (maxncpy : nat) :
  (String.length src < maxncpy)%nat -> BLI_strncpy src maxncpy = src.
Proof. intros Hfit. unfold BLI_strncpy. apply substring_all. lia. Qed.

Lemma last_display_add_view_snoc (displays : list ColorManagedDisplay)
    (display : ColorManagedDisplay) (view : ColorManagedView) :
  last_display_add_view (displays ++ [display]) view
  = displays ++ [{| display_index := display_index display;
                    display_name := display_name display;
                    display_views := display_views display ++ [view] |}].
Proof.
  induction displays as [|d rest IH]; [reflexivity|].
  change ((d :: rest) ++ [display]) with (d :: (rest ++ [display])).
  cbn [last_display_add_view]. rewrite IH.
  destruct (rest ++ [display]) eqn:Hrest; [|reflexivity].
  now destruct rest.
Qed.

Section ViewsOnce.

Context {constants : HeaderConstants} {helpers : Helpers}.

Lemma load_config_view_spec cat viewname displays display :
  (String.length viewname < MAX_COLORSPACE_NAME)%nat ->
  global_displays cat = displays ++ [display] ->
  views_registered_once cat ->
  exists view,
    view_name view = viewname
    /\ global_displays (load_config_view cat viewname)
       = displays ++ [{| display_index := display_index display;
                         display_name := display_name display;
                         display_views := display_views display ++ [view] |}]
    /\ views_registered_once (load_config_view cat viewname).
Proof.
  intros Hfit Hdisplays [Hnodup Hlisted]. unfold load_config_view.
  destruct (colormanage_view_get_named cat viewname) as [view|] eqn:Hfind.
  - unfold colormanage_view_get_named in Hfind. apply find_some in Hfind.
    destruct Hfind as [Hin Hname]. apply String.eqb_eq in Hname.
    apply list_elem_of_In in Hin.
    exists view. split; [exact Hname|]. cbn [global_displays].
    rewrite Hdisplays, last_display_add_view_snoc. split; [reflexivity|].
    split; cbn [global_views global_displays]; [exact Hnodup|].
    intros d v Hd Hv.
    apply elem_of_app in Hd. destruct Hd as [Hd | Hd].
    + apply (Hlisted d v); [|exact Hv]. rewrite Hdisplays. apply elem_of_app. now left.
    + apply list_elem_of_singleton in Hd. subst d. cbn [display_views] in Hv.
      apply elem_of_app in Hv. destruct Hv as [Hv | Hv].
      * apply (Hlisted display v); [|exact Hv].
        rewrite Hdisplays. apply elem_of_app. right. now apply list_elem_of_singleton.
      * apply list_elem_of_singleton in Hv. now subst v.
  - unfold colormanage_view_add. cbn [fst snd global_displays global_views].
    rewrite (BLI_strncpy_fits viewname) by exact Hfit.
    exists {| view_index := global_tot_view cat + 1; view_name := viewname |}.
    split; [reflexivity|].
    rewrite Hdisplays, last_display_add_view_snoc. split; [reflexivity|].
    split; cbn [global_views global_displays].
    + rewrite fmap_app. apply NoDup_app. split; [exact Hnodup|]. split.
      * intros name Hname Hnew. apply list_elem_of_singleton in Hnew. subst name.
        apply list_elem_of_fmap in Hname. destruct Hname as (v & Hv & Hin).
        unfold colormanage_view_get_named in Hfind.
        apply list_elem_of_In in Hin.
        pose proof (find_none _ _ Hfind v Hin) as Hne. cbn in Hne.
        unfold STREQ in Hne. rewrite <- Hv, String.eqb_refl in Hne. discriminate.
      * apply NoDup_singleton.
    + intros d v Hd Hv. apply elem_of_app in Hd. destruct Hd as [Hd | Hd].
      * apply elem_of_app. left.
        apply (Hlisted d v); [|exact Hv]. rewrite Hdisplays. apply elem_of_app. now left.
      * apply list_elem_of_singleton in Hd. subst d. cbn [display_views] in Hv.
        apply elem_of_app in Hv. destruct Hv as [Hv | Hv].
        -- apply elem_of_app. left. apply (Hlisted display v); [|exact Hv].
           rewrite Hdisplays. apply elem_of_app. right. now apply list_elem_of_singleton.
        -- apply elem_of_app. right. exact Hv.
Qed.

Lemma fold_load_config_view_spec viewnames cat displays display :
  Forall (fun viewname => (String.length viewname < MAX_COLORSPACE_NAME)%nat) viewnames ->
  global_displays cat = displays ++ [display] ->
  views_registered_once cat ->
  exists views,
    view_name <$> views = viewnames
    /\ global_displays (fold_left load_config_view viewnames cat)
       = displays ++ [{| display_index := display_index display;
                         display_name := display_name display;
                         display_views := display_views display ++ views |}]
    /\ views_registered_once (fold_left load_config_view viewnames cat).
Proof.
  revert cat display.
  induction viewnames as [|viewname viewnames IH]; intros cat display Hfit Hdisplays Hinv.
  - exists []. split; [reflexivity|]. cbn [fold_left]. rewrite app_nil_r.
    split; [|exact Hinv]. rewrite Hdisplays. now destruct display.
  - apply Forall_cons in Hfit. destruct Hfit as [Hfit Hfits].
    destruct (load_config_view_spec cat viewname displays display Hfit Hdisplays Hinv)
      as (view & Hname & Hdisplays1 & Hinv1).
    destruct (IH _ _ Hfits Hdisplays1 Hinv1) as (views & Hnames & Hdisplays2 & Hinv2).
    exists (view :: views). split; [rewrite fmap_cons, Hname, Hnames; reflexivity|].
    cbn [fold_left]. split; [|exact Hinv2].
    rewrite Hdisplays2. cbn [display_index display_name display_views].
    rewrite <- app_assoc. reflexivity.
Qed.

Lemma load_config_display_spec cat d :
  Forall (fun viewname => (String.length viewname < MAX_COLORSPACE_NAME)%nat) (snd d) ->
  views_registered_once cat ->
  display_entry <$> global_displays (load_config_display_entry cat d)
  = (display_entry <$> global_displays cat) ++ [config_display_entry d]
  /\ views_registered_once (load_config_display_entry cat d).
Proof.
  intros Hfit [Hnodup Hlisted]. unfold load_config_display_entry.
  set (display0 := {| display_index :=
                        match last (global_displays cat) with
                        | Some last_display => display_index last_display
                        | None => 0
                        end + 1;
                      display_name := BLI_strncpy (fst d) MAX_COLORSPACE_NAME;
                      display_views := [] |}).
  assert (Hadd : global_displays (colormanage_display_add cat (fst d))
                 = global_displays cat ++ [display0]) by reflexivity.
  assert (Hinv : views_registered_once (colormanage_display_add cat (fst d))).
  { split; [exact Hnodup|]. intros display view Hd Hv.
    change (global_views (colormanage_display_add cat (fst d))) with (global_views cat).
    rewrite Hadd in Hd. apply elem_of_app in Hd. destruct Hd as [Hd | Hd].
    - exact (Hlisted display view Hd Hv).
    - apply list_elem_of_singleton in Hd. subst display. cbn in Hv.
      now apply elem_of_nil in Hv. }
  destruct (fold_load_config_view_spec (snd d) _ _ _ Hfit Hadd Hinv)
    as (views & Hnames & Hdisplays & Hinv').
  split; [|exact Hinv'].
  rewrite Hdisplays, fmap_app. f_equal.
  unfold display_entry, config_display_entry. cbn. rewrite Hnames. reflexivity.
Qed.

Lemma fold_load_config_display_spec displays cat :
  Forall (fun d => Forall (fun viewname => (String.length viewname < MAX_COLORSPACE_NAME)%nat)
                          (snd d)) displays ->
  views_registered_once cat ->
  display_entry <$> global_displays (fold_left load_config_display_entry displays cat)
  = (display_entry <$> global_displays cat) ++ (config_display_entry <$> displays)
  /\ views_registered_once (fold_left load_config_display_entry displays cat).
Proof.
  revert cat. induction displays as [|d displays IH]; intros cat Hfit Hinv.
  - cbn. rewrite app_nil_r. split; [reflexivity | exact Hinv].
  - apply Forall_cons in Hfit. destruct Hfit as [Hfit Hfits].
    destruct (load_config_display_spec cat d Hfit Hinv) as [Hentries Hinv1].
    destruct (IH _ Hfits Hinv1) as [Hentries2 Hinv2].
    cbn [fold_left]. split; [|exact Hinv2].
    rewrite Hentries2, Hentries, <- app_assoc. reflexivity.
Qed.

Lemma fold_colorspace_add_views spaces cat :
  global_views
    (fold_left (fun c cs => colormanage_colorspace_add c
                              (fst (fst cs)) (snd (fst cs)) (snd cs)) spaces cat)
  = global_views cat.
Proof.
  revert cat. induction spaces as [|cs spaces IH]; intros cat; simpl; [reflexivity|].
  now rewrite IH.
Qed.

Lemma fold_look_add_views looks cat :
  global_views
    (fold_left (fun c lk => colormanage_look_add c (fst lk) (snd lk) false) looks cat)
  = global_views cat.
Proof.
  revert cat. induction looks as [|lk looks IH]; intros cat; simpl; [reflexivity|].
  now rewrite IH.
Qed.

Lemma load_config_entries_views_once cat config :
  config_view_names_fit config ->
  let cat' := load_config_entries (colormanage_free_config cat) config in
  display_entry <$> global_displays cat' = config_display_entry <$> config_displays config
  /\ NoDup (view_name <$> global_views cat')
  /\ (forall display view,
        display ∈ global_displays cat' -> view ∈ display_views display ->
        view ∈ global_views cat').
Proof.
  intros Hfit cat'. unfold cat', load_config_entries.
  match goal with
  | |- context [fold_left load_config_display_entry _ ?c] => set (cat1 := c)
  end.
  assert (Hinv1 : views_registered_once cat1).
  { unfold views_registered_once, cat1.
    rewrite fold_colorspace_add_views, fold_colorspace_add_displays. cbn.
    split; [apply NoDup_nil; exact I|]. intros display view Hd. now apply elem_of_nil in Hd. }
  destruct (fold_load_config_display_spec (config_displays config) cat1 Hfit Hinv1)
    as [Hentries [Hnodup Hlisted]].
  match goal with
  | |- context [fold_left _ (config_looks config) ?c] =>
      destruct (fold_look_add_displays (config_looks config) c) as (_ & Hd & _);
      pose proof (fold_look_add_views (config_looks config) c) as Hv
  end.
  cbn zeta in Hd. rewrite Hd, Hv.
  unfold colormanage_look_add, set_global_tot_display.
  cbn [global_displays global_views].
  split; [|split; [exact Hnodup | exact Hlisted]].
  rewrite Hentries. unfold cat1.
  rewrite fold_colorspace_add_displays. reflexivity.
Qed.

(** The views that the loader fetches are views of the entries. *)
Lemma config_fetched_view_names_fit config :
  config_view_names_fit config -> config_view_names_fit (config_fetched config).
Proof.
  unfold config_view_names_fit, config_fetched. cbn [config_displays].
  intros Hfit. apply Forall_fmap, Forall_forall. intros name _. cbn.
  destruct (OCIO_configViews_entry config name) as [->|(d & Hd & ->)]; [constructor|].
  rewrite Forall_forall in Hfit. exact (Hfit d Hd).
Qed.

(** X4. When every view name of the configuration fits the name array, a
    catalog loaded after a free has one display for every display name
    that the configuration enumerates, in their order, each with the
    views that the configuration returns for the name of the display, in
    their order; when no display name is enumerated twice, these are the
    views of the entries themselves.  No two views of the catalog have
    the same name, and every view that a display lists is a view of the
    catalog. *)
Theorem colormanage_load_config_views_once cat config :
  config_view_names_fit config ->
  let cat' := colormanage_load_config (colormanage_free_config cat) config in
  display_entry <$> global_displays cat'
  = (fun name => (BLI_strncpy name MAX_COLORSPACE_NAME, OCIO_configViews config name))
      <$> OCIO_configDisplays config
  /\ (NoDup (OCIO_configDisplays config) ->
      display_entry <$> global_displays cat'
      = config_display_entry <$> config_displays config)
  /\ NoDup (view_name <$> global_views cat')
  /\ (forall display view,
        display ∈ global_displays cat' -> view ∈ display_views display ->
        view ∈ global_views cat').
Proof.
  intros Hfit cat'. unfold cat'. rewrite colormanage_load_config_fetched.
  destruct (load_config_entries_views_once cat (config_fetched config)
              (config_fetched_view_names_fit config Hfit))
    as (Hentries & Hnodup & Hlisted).
  split; [|split; [|split; [exact Hnodup | exact Hlisted]]].
  - rewrite Hentries. unfold config_fetched. cbn [config_displays].
    rewrite <- list_fmap_compose. reflexivity.
  - intros Hdistinct. rewrite Hentries, config_fetched_displays by exact Hdistinct.
    reflexivity.
Qed.

End ViewsOnce.

(** In the example catalog the display "sRGB" lists the views "Standard"
    and "Raw". *)
Lemma colormanage_load_config_views_once_witness :
  display_entry <$>
    global_displays (@colormanage_load_config example_constants example_helpers
                       (colormanage_free_config catalog_initial) example_config)
  = [("sRGB", ["Standard"; "Raw"])]%string.
Proof.
  destruct (@colormanage_load_config_views_once example_constants example_helpers
              catalog_initial example_config)
    as (_ & Hentries & _ & _).
  - repeat constructor.
  - apply Hentries. vm_compute. repeat constructor. intros Hin. inversion Hin.
Defined.

(** ** The look "None" and the role name across loads *)

Section LooksLoaded.

Context {constants : HeaderConstants} {helpers : Helpers} {engine : TransformEngine}.

Lemma fold_look_add_looks_prefix looks cat :
  exists extra,
    global_looks
      (fold_left (fun c lk => colormanage_look_add c (fst lk) (snd lk) false) looks cat)
    = global_looks cat ++ extra.
Proof.
  revert cat. induction looks as [|lk looks IH]; intros cat.
  - exists []. cbn. now rewrite app_nil_r.
  - destruct (IH (colormanage_look_add cat (fst lk) (snd lk) false)) as [extra Hextra].
    cbn [fold_left]. rewrite Hextra. unfold colormanage_look_add at 1.
    cbn [global_looks]. rewrite <- app_assoc. eexists. reflexivity.
Qed.

Lemma colormanage_look_add_none cat :
  (5 <= MAX_COLORSPACE_NAME)%nat ->
  global_looks (colormanage_look_add cat "None" EmptyString true)
  = global_looks cat
    ++ [{| look_index := global_tot_looks cat + 1; look_name := "None";
           look_ui_name := "None"; look_view := EmptyString;
           look_process_space := EmptyString; is_noop := true |}].
Proof.
  intros Hmax. unfold colormanage_look_add. cbn [global_looks].
  rewrite (BLI_strncpy_fits "None") by (simpl; lia).
  assert (Hempty : BLI_strncpy EmptyString MAX_COLORSPACE_NAME = EmptyString)
    by (apply BLI_strncpy_fits; simpl; lia).
  rewrite Hempty. reflexivity.
Qed.

(** The first look of a loaded catalog is the look "None". *)
Lemma load_config_first_look cat config :
  (5 <= MAX_COLORSPACE_NAME)%nat ->
  exists rest,
    global_looks (load_config_entries (colormanage_free_config cat) config)
    = look_none :: rest.
Proof.
  intros Hmax. rewrite load_config_looks.
  match goal with
  | |- context [fold_left _ (config_looks config) ?c] =>
      destruct (fold_look_add_looks_prefix (config_looks config) c) as [extra Hextra]
  end.
  rewrite Hextra, colormanage_look_add_none by exact Hmax.
  cbn [set_global_tot_display global_looks global_tot_looks].
  destruct (fold_load_config_display_colorspaces (config_displays config)
              (fold_left (fun c cs => colormanage_colorspace_add c
                                        (fst (fst cs)) (snd (fst cs)) (snd cs))
                 (config_colorspaces config)
                 (load_role_scene_linear (colormanage_free_config cat) config)))
    as [_ Hl].
  rewrite Hl, fold_colorspace_add_looks. cbn [load_role_scene_linear global_looks
    colormanage_free_config app].
  pose proof (catalog_lists_numbered_load (colormanage_free_config cat) config
                (catalog_lists_numbered_free cat)) as (_ & _ & _ & Hlooks & _).
  rewrite load_config_looks, Hextra, colormanage_look_add_none in Hlooks by exact Hmax.
  cbn [set_global_tot_display global_looks global_tot_looks] in Hlooks.
  rewrite Hl, fold_colorspace_add_looks in Hlooks.
  cbn [load_role_scene_linear global_looks colormanage_free_config app] in Hlooks.
  match type of Hlooks with
  | numbered _ (?l :: _) =>
      pose proof (numbered_lookup look_index _ 0 l Hlooks eq_refl) as Hindex
  end.
  cbn [look_index] in Hindex.
  exists extra. unfold look_none. rewrite Hindex. reflexivity.
Qed.

(** X5. When the name array holds five characters, the first look of a
    catalog loaded after a free is the look "None" with index 1, which is a
    no-op; the name "None" is found, [colormanage_use_look] answers false
    for it whatever the view, and [create_display_buffer_processor] asks
    the engine for a processor with an empty look name. *)
Theorem colormanage_load_config_look_none cat config :
  (5 <= MAX_COLORSPACE_NAME)%nat ->
  let cat' := colormanage_load_config (colormanage_free_config cat) config in
  global_looks cat' !! 0%nat = Some look_none
  /\ colormanage_look_get_named cat' "None" = Some look_none
  /\ IMB_colormanagement_look_get_named_index cat' "None" = 1
  /\ (forall view_name, colormanage_use_look cat' "None" view_name = Done false)
  /\ (forall view_transform display exposure gamma from_colorspace,
        create_display_buffer_processor cat' "None" view_transform display
          exposure gamma from_colorspace
        = Done (OCIO_createDisplayProcessor
                  {| req_from_colorspace := from_colorspace;
                     req_view_transform := view_transform;
                     req_display := display;
                     req_look := EmptyString;
                     req_scale := display_processor_scale exposure;
                     req_exponent := display_processor_exponent gamma |})).
Proof.
  intros Hmax cat'.
  destruct (load_config_first_look cat (config_fetched config) Hmax) as [rest Hlooks].
  rewrite <- colormanage_load_config_fetched in Hlooks. fold cat' in Hlooks.
  assert (Hfind : colormanage_look_get_named cat' "None" = Some look_none).
  { unfold colormanage_look_get_named. rewrite Hlooks. reflexivity. }
  assert (Huse : forall view_name, colormanage_use_look cat' "None" view_name = Done false).
  { intros view_name. rewrite (colormanage_use_look_found _ _ _ _ Hfind). reflexivity. }
  split; [rewrite Hlooks; reflexivity|]. split; [exact Hfind|].
  split; [unfold IMB_colormanagement_look_get_named_index; rewrite Hfind; reflexivity|].
  split; [exact Huse|].
  intros view_transform display exposure gamma from_colorspace.
  unfold create_display_buffer_processor, display_buffer_processor_request.
  rewrite Huse. reflexivity.
Qed.

Lemma fold_colorspace_add_role spaces cat :
  global_role_scene_linear
    (fold_left (fun c cs => colormanage_colorspace_add c
                              (fst (fst cs)) (snd (fst cs)) (snd cs)) spaces cat)
  = global_role_scene_linear cat.
Proof.
  revert cat. induction spaces as [|cs spaces IH]; intros cat; simpl; [reflexivity|].
  now rewrite IH.
Qed.

Lemma fold_look_add_role looks cat :
  global_role_scene_linear
    (fold_left (fun c lk => colormanage_look_add c (fst lk) (snd lk) false) looks cat)
  = global_role_scene_linear cat.
Proof.
  revert cat. induction looks as [|lk looks IH]; intros cat; simpl; [reflexivity|].
  now rewrite IH.
Qed.

Lemma fold_load_config_display_role displays cat :
  global_role_scene_linear (fold_left load_config_display_entry displays cat)
  = global_role_scene_linear cat.
Proof.
  revert cat. induction displays as [|d displays IH]; intros cat; simpl; [reflexivity|].
  rewrite IH. unfold load_config_display_entry.
  assert (H : forall views c,
            global_role_scene_linear (fold_left load_config_view views c)
            = global_role_scene_linear c).
  { induction views as [|v views IHv]; intros c; simpl; [reflexivity|].
    rewrite IHv. unfold load_config_view.
    destruct (colormanage_view_get_named c v); reflexivity. }
  rewrite H. reflexivity.
Qed.

Lemma load_config_role cat config :
  global_role_scene_linear (load_config_entries cat config)
  = match config_role_scene_linear config with
    | Some name => BLI_strncpy name MAX_COLORSPACE_NAME
    | None => global_role_scene_linear cat
    end.
Proof.
  unfold load_config_entries.
  rewrite fold_look_add_role. unfold colormanage_look_add, set_global_tot_display.
  cbn [global_role_scene_linear].
  rewrite fold_load_config_display_role, fold_colorspace_add_role. reflexivity.
Qed.

(** Of the catalog it loads into, a load after a free reads the name of
    the scene-linear role only, and only when the configuration has none. *)
Lemma load_config_entries_after_free cat1 cat2 config :
  (config_role_scene_linear config = None ->
   global_role_scene_linear cat1 = global_role_scene_linear cat2) ->
  load_config_entries (colormanage_free_config cat1) config
  = load_config_entries (colormanage_free_config cat2) config.
Proof.
  intros Hrole. unfold load_config_entries.
  assert (Hstart : load_role_scene_linear (colormanage_free_config cat1) config
                   = load_role_scene_linear (colormanage_free_config cat2) config).
  { unfold load_role_scene_linear, colormanage_free_config. cbn.
    destruct (config_role_scene_linear config); [reflexivity|].
    rewrite Hrole by reflexivity. reflexivity. }
  rewrite Hstart. reflexivity.
Qed.

Lemma colormanage_load_config_role cat config :
  global_role_scene_linear (colormanage_load_config cat config)
  = match config_role_scene_linear config with
    | Some name => BLI_strncpy name MAX_COLORSPACE_NAME
    | None => global_role_scene_linear cat
    end.
Proof.
  rewrite colormanage_load_config_fetched.
  exact (load_config_role cat (config_fetched config)).
Qed.

Lemma colormanage_load_config_after_free cat1 cat2 config :
  (config_role_scene_linear config = None ->
   global_role_scene_linear cat1 = global_role_scene_linear cat2) ->
  colormanage_load_config (colormanage_free_config cat1) config
  = colormanage_load_config (colormanage_free_config cat2) config.
Proof.
  intros Hrole. rewrite !colormanage_load_config_fetched.
  apply load_config_entries_after_free. exact Hrole.
Qed.

(** X6. Freeing a loaded catalog and loading the same configuration again
    gives the same catalog.  The name of the scene-linear role after a
    load is the one of the configuration or, when the configuration has
    none, the name from before: [colormanage_free_config] does not reset
    it. *)
Theorem colormanage_reload_same_config cat config :
  let cat' := colormanage_load_config (colormanage_free_config cat) config in
  global_role_scene_linear cat'
  = match config_role_scene_linear config with
    | Some name => BLI_strncpy name MAX_COLORSPACE_NAME
    | None => global_role_scene_linear cat
    end
  /\ colormanage_load_config (colormanage_free_config cat') config = cat'.
Proof.
  intros cat'.
  split; [exact (colormanage_load_config_role (colormanage_free_config cat) config)|].
  apply colormanage_load_config_after_free. intros Hnone.
  unfold cat'. rewrite colormanage_load_config_role, Hnone. reflexivity.
Qed.

End LooksLoaded.

(** ** Looks of one view *)

Lemma substring_empty (n m : nat) : String.substring n m EmptyString = EmptyString.
Proof. destruct n, m; reflexivity. Qed.

Lemma substring_prefix_suffix (s : string) (n L : nat) :
  (String.length s <= L)%nat ->
  s = (String.substring 0 n s ++ String.substring n L s)%string.
Proof.
  revert n. induction s as [|c s IH]; intros n Hlen.
  - rewrite !substring_empty. reflexivity.
  - destruct n as [|n].
    + rewrite (substring_all (String c s) L Hlen). destruct L; reflexivity.
    + cbn [String.substring String.append]. f_equal. apply IH. simpl in Hlen. lia.
Qed.

Lemma substring_suffix_split (s : string) (n k L : nat) :
  (String.length s <= L)%nat ->
  String.substring n L s
  = (String.substring n k s ++ String.substring (n + k) L s)%string.
Proof.
  revert n. induction s as [|c s IH]; intros n Hlen.
  - rewrite !substring_empty. reflexivity.
  - destruct n as [|n].
    + rewrite (substring_all (String c s) L Hlen).
      apply (substring_prefix_suffix (String c s) k L Hlen).
    + cbn [String.substring Nat.add]. apply IH. simpl in Hlen. lia.
Qed.

Lemma substring_length_le (s : string) (n m : nat) :
  (String.length (String.substring n m s) <= String.length s)%nat.
Proof.
  revert n m. induction s as [|c s IH]; intros n m.
  - rewrite substring_empty. reflexivity.
  - destruct n as [|n]; destruct m as [|m]; cbn [String.substring String.length].
    + lia.
    + specialize (IH 0%nat m). lia.
    + specialize (IH n 0%nat). lia.
    + specialize (IH n (S m)). lia.
Qed.

Lemma substring_beyond (s : string) (n m : nat) :
  (String.length s <= n)%nat -> String.substring n m s = EmptyString.
Proof.
  revert n. induction s as [|c s IH]; intros n Hn.
  - apply substring_empty.
  - destruct n as [|n]; [simpl in Hn; lia|].
    cbn [String.substring]. apply IH. simpl in Hn. lia.
Qed.

Lemma substring_prefix_length (s : string) (n : nat) :
  (n <= String.length s)%nat -> String.length (String.substring 0 n s) = n.
Proof.
  revert n. induction s as [|c s IH]; intros n Hn.
  - simpl in Hn. replace n with 0%nat by lia. reflexivity.
  - destruct n as [|n]; [reflexivity|].
    cbn [String.substring String.length]. f_equal. apply IH. simpl in Hn. lia.
Qed.

Section LookOfView.

Context {constants : HeaderConstants} {helpers : Helpers}.

(** X7. For a name that fits the name array, [colormanage_look_add]
    appends one look of that name.  When the name contains " - ", the name
    is the view of the look, then " - ", then its UI name, and the view is
    the part before the first " - "; otherwise the look has no view and its
    UI name is the name.  The look is compatible with a view exactly when
    it is a no-op, has no view, or has that view. *)
Theorem colormanage_look_add_view_of_name cat name process_space noop :
  (String.length name < MAX_COLORSPACE_NAME)%nat ->
  exists look,
    global_looks (colormanage_look_add cat name process_space noop)
    = global_looks cat ++ [look]
    /\ look_name look = name
    /\ match strstr name " - " with
       | Some separator_offset =>
           name = (look_view look ++ " - " ++ look_ui_name look)%string
           /\ String.length (look_view look) = separator_offset
       | None => look_view look = EmptyString /\ look_ui_name look = name
       end
    /\ forall view_name,
         colormanage_compatible_look look (Some view_name)
         = noop || str_is_empty (look_view look) || STREQ (look_view look) view_name.
Proof.
  intros Hfit. unfold colormanage_look_add. cbn [global_looks].
  rewrite !(BLI_strncpy_fits name) by exact Hfit.
  destruct (strstr name " - ") as [separator_offset|] eqn:Hsep.
  - eexists. split; [reflexivity|]. cbn [look_name look_view look_ui_name is_noop].
    split; [reflexivity|].
    unfold strstr in Hsep.
    pose proof (String.index_correct1 _ _ _ _ Hsep) as Hat.
    cbn [String.length] in Hat.
    assert (Hui : BLI_strncpy
                    (String.substring (separator_offset + 3) (String.length name) name)
                    MAX_COLORSPACE_NAME
                  = String.substring (separator_offset + 3) (String.length name) name).
    { apply BLI_strncpy_fits.
      pose proof (substring_length_le name (separator_offset + 3) (String.length name)).
      lia. }
    assert (Hview : BLI_strncpy name (separator_offset + 1)
                    = String.substring 0 separator_offset name).
    { unfold BLI_strncpy. rewrite Nat.add_1_r. reflexivity. }
    rewrite Hui, Hview.
    assert (Hname : name = (String.substring 0 separator_offset name ++ " - "
                            ++ String.substring (separator_offset + 3)
                                 (String.length name) name)%string).
    { rewrite <- Hat.
      rewrite <- (substring_suffix_split name separator_offset 3 (String.length name))
        by reflexivity.
      apply substring_prefix_suffix. reflexivity. }
    split; [split|].
    + exact Hname.
    + apply substring_prefix_length.
      destruct (Nat.le_gt_cases (String.length name) separator_offset) as [Hle|Hgt]; [|lia].
      rewrite (substring_beyond name separator_offset 3 Hle) in Hat. discriminate.
    + intros view_name. unfold colormanage_compatible_look. cbn [is_noop look_view].
      destruct noop; reflexivity.
  - eexists. split; [reflexivity|]. cbn [look_name look_view look_ui_name is_noop].
    split; [reflexivity|]. split; [split; reflexivity|].
    intros view_name. unfold colormanage_compatible_look. cbn [is_noop look_view].
    destruct noop; reflexivity.
Qed.

End LookOfView.

(** The look "Standard - High Contrast" belongs to the view "Standard" and
    is shown as "High Contrast". *)
Lemma colormanage_look_add_view_of_name_witness :
  exists look,
    global_looks (@colormanage_look_add example_constants catalog_initial
                    "Standard - High Contrast"%string "Linear"%string false) = [look]
    /\ look_view look = "Standard"%string
    /\ look_ui_name look = "High Contrast"%string.
Proof.
  destruct (@colormanage_look_add_view_of_name example_constants
              catalog_initial "Standard - High Contrast"%string "Linear"%string false)
    as (look & Hlooks & _ & _ & _).
  - vm_compute. lia.
  - exists look. split; [exact Hlooks|].
    cbn in Hlooks. injection Hlooks as <-. split; reflexivity.
Defined.

(** In the example catalog the processor for the look "None" is asked of
    the engine with an empty look name. *)
Lemma colormanage_load_config_look_none_witness :
  @colormanage_use_look
    (@colormanage_load_config example_constants example_helpers
       (colormanage_free_config catalog_initial) example_config)
    "None" (Some "Standard"%string)
  = Done false.
Proof.
  destruct (@colormanage_load_config_look_none example_constants example_helpers
              example_engine catalog_initial example_config)
    as (_ & _ & _ & Huse & _).
  - vm_compute. lia.
  - apply Huse.
Defined.

(** ** Initialisation falls back to the built-in configuration *)

Section InitFacts.

Context {constants : HeaderConstants} {helpers : Helpers}.

(** After a load the display count and the displays are those of the
    configuration. *)
Lemma colormanage_load_config_displays cat config :
  global_tot_display (colormanage_load_config cat config)
  = Z.of_nat (length (config_displays config))
  /\ (global_displays cat = [] ->
      length (global_displays (colormanage_load_config cat config))
      = length (config_displays config)).
Proof.
  rewrite colormanage_load_config_fetched.
  destruct (config_fetched_lengths config) as (_ & Hdisplays & _).
  rewrite <- Hdisplays. split; [apply load_config_tot_display|].
  intros Hempty. now apply load_config_displays_length.
Qed.

(** What the second load of [colormanagement_init] leaves: the records of
    the fallback configuration and nothing of the catalog that was
    freed but, when the fallback has no scene-linear role, the name of
    that role. *)
Lemma colormanage_load_config_fallback loaded fallback :
  let cat := colormanage_load_config (colormanage_free_config loaded) fallback in
  length (global_colorspaces cat) = length (config_colorspaces fallback)
  /\ length (global_displays cat) = length (config_displays fallback)
  /\ length (global_looks cat) = S (length (config_looks fallback))
  /\ catalog_numbered cat
  /\ (forall other,
        (config_role_scene_linear fallback = None ->
         global_role_scene_linear other = global_role_scene_linear loaded) ->
        cat = colormanage_load_config (colormanage_free_config other) fallback).
Proof.
  intros cat. unfold cat.
  split; [|split; [|split; [|split]]].
  5: { intros other Hrole. apply colormanage_load_config_after_free.
       intros Hnone. symmetry. now apply Hrole. }
  all: rewrite colormanage_load_config_fetched;
    destruct (load_config_entries_numbered loaded (config_fetched fallback))
      as (Hnumbered & Hspaces & Hdisplays & Hlooks);
    destruct (config_fetched_lengths fallback) as (Lspaces & Ldisplays & Llooks).
  - now rewrite <- Lspaces.
  - now rewrite <- Ldisplays.
  - now rewrite <- Llooks.
  - exact Hnumbered.
Qed.

End InitFacts.

(** C6. When the first load leaves no display or no view,
    [colormanagement_init] tears the loaded catalog down, so that every
    list is empty and every count is 0, and loads the built-in fallback
    configuration into the emptied catalog; otherwise it keeps what was
    loaded.  After the fallback the catalog holds the records of the
    fallback configuration only, numbered from 1 and counted by the four
    counts, and of the catalog that was loaded first nothing is left but,
    when the fallback has no scene-linear role, the name of that role.
    Provided the fallback configuration of the engine enumerates at least
    one display, initialisation completes and the catalog it leaves has a
    positive display count and a display list that is not empty. *)
Theorem colormanagement_init_has_displays
    {constants : HeaderConstants} {helpers : Helpers}
    (ocio_env : option string) (config_from_env : option OCIO_Config)
    (configdir : option string) (config_from_file : string -> option OCIO_Config)
    (fallback : OCIO_Config) :
  (1 <= length (config_displays fallback))%nat ->
  let loaded := init_first_load ocio_env config_from_env
                  configdir config_from_file (Some fallback) catalog_initial in
  let freed := colormanage_free_config loaded in
  exists cat,
    colormanagement_init ocio_env config_from_env
      configdir config_from_file (Some fallback) catalog_initial = Done cat
    /\ (global_tot_display loaded = 0 \/ global_tot_view loaded = 0 ->
        cat = colormanage_load_config freed fallback
        /\ global_colorspaces freed = [] /\ global_displays freed = []
        /\ global_views freed = [] /\ global_looks freed = []
        /\ global_tot_colorspace freed = 0 /\ global_tot_display freed = 0
        /\ global_tot_view freed = 0 /\ global_tot_looks freed = 0
        /\ length (global_colorspaces cat) = length (config_colorspaces fallback)
        /\ length (global_displays cat) = length (config_displays fallback)
        /\ length (global_looks cat) = S (length (config_looks fallback))
        /\ catalog_numbered cat
        /\ (forall other,
              (config_role_scene_linear fallback = None ->
               global_role_scene_linear other = global_role_scene_linear loaded) ->
              cat = colormanage_load_config (colormanage_free_config other) fallback))
    /\ (global_tot_display loaded <> 0 /\ global_tot_view loaded <> 0 -> cat = loaded)
    /\ 0 < global_tot_display cat
    /\ global_displays cat <> [].
Proof.
  intros Hfb loaded freed. unfold colormanagement_init. fold loaded.
  assert (Hdisp : forall c, global_displays c = [] ->
            0 < global_tot_display (colormanage_load_config c fallback)
            /\ global_displays (colormanage_load_config c fallback) <> []).
  { intros c Hc. destruct (colormanage_load_config_displays c fallback) as [Htot Hlen].
    split; [rewrite Htot; lia|].
    intros Hnil. apply (f_equal (@length _)) in Hnil.
    rewrite Hlen in Hnil by exact Hc. simpl in Hnil. lia. }
  assert (Hfallback :
            exists cat,
              Done (colormanage_load_config freed fallback) = Done cat
              /\ (global_tot_display loaded = 0 \/ global_tot_view loaded = 0 ->
                  cat = colormanage_load_config freed fallback
                  /\ global_colorspaces freed = [] /\ global_displays freed = []
                  /\ global_views freed = [] /\ global_looks freed = []
                  /\ global_tot_colorspace freed = 0 /\ global_tot_display freed = 0
                  /\ global_tot_view freed = 0 /\ global_tot_looks freed = 0
                  /\ length (global_colorspaces cat) = length (config_colorspaces fallback)
                  /\ length (global_displays cat) = length (config_displays fallback)
                  /\ length (global_looks cat) = S (length (config_looks fallback))
                  /\ catalog_numbered cat
                  /\ (forall other,
                        (config_role_scene_linear fallback = None ->
                         global_role_scene_linear other = global_role_scene_linear loaded) ->
                        cat = colormanage_load_config (colormanage_free_config other)
                                fallback))
              /\ 0 < global_tot_display cat
              /\ global_displays cat <> []).
  { exists (colormanage_load_config freed fallback).
    destruct (Hdisp freed eq_refl) as [Hp Hn].
    destruct (colormanage_load_config_fallback loaded fallback)
      as (Hspaces & Hdisplays & Hlooks & Hnumbered & Hother).
    split; [reflexivity|]. split; [|split; assumption].
    intros _. split; [reflexivity|].
    do 8 (split; [reflexivity|]).
    split; [exact Hspaces|]. split; [exact Hdisplays|]. split; [exact Hlooks|].
    split; [exact Hnumbered | exact Hother]. }
  destruct Hfallback as (cat & Hcat & Hdown & Hp & Hn).
  unfold init_needs_fallback.
  destruct (global_tot_display loaded =? 0) eqn:Hd; simpl.
  - exists cat. apply Z.eqb_eq in Hd.
    split; [exact Hcat|]. split; [exact Hdown|].
    split; [intros [Hne _]; contradiction|]. split; assumption.
  - apply Z.eqb_neq in Hd.
    destruct (global_tot_view loaded =? 0) eqn:Hv; simpl.
    + exists cat. apply Z.eqb_eq in Hv.
      split; [exact Hcat|]. split; [exact Hdown|].
      split; [intros [_ Hne]; contradiction|]. split; assumption.
    + apply Z.eqb_neq in Hv. exists loaded.
      assert (Hloaded : exists config,
                loaded = colormanage_load_config catalog_initial config).
      { unfold loaded, init_first_load.
        destruct (init_choose_config ocio_env config_from_env configdir config_from_file
                    (Some fallback)) as [config|] eqn:Hc; [eauto|].
        exfalso. unfold init_choose_config in Hc.
        repeat match type of Hc with
               | context [match ?x with _ => _ end] => destruct x
               end; discriminate. }
      destruct Hloaded as [config Hconfig].
      split; [reflexivity|]. split; [intros [H0|H0]; contradiction|].
      split; [intros _; reflexivity|].
      destruct (colormanage_load_config_displays catalog_initial config) as [Htot Hlen].
      rewrite Hconfig in Hd |- *. rewrite Htot in Hd |- *.
      split; [lia|].
      intros Hnil. apply (f_equal (@length _)) in Hnil.
      rewrite Hlen in Hnil by reflexivity.
      rewrite Hnil in Hd. simpl in Hd. lia.
Qed.

(** The statement above at a start where the file found in the data
    directory enumerates the colour space "Old" and no display: the
    catalog that initialisation leaves has the three colour spaces of the
    fallback configuration, and "Old" is not among them. *)
Lemma colormanagement_init_has_displays_witness :
  exists cat,
    @colormanagement_init example_constants example_helpers None None
      (Some "datafiles"%string)
      (fun _ => Some example_config_no_displays) (Some example_config) catalog_initial
    = Done cat
    /\ colorspace_name <$>
         global_colorspaces
           (@init_first_load example_constants example_helpers None None
              (Some "datafiles"%string)
              (fun _ => Some example_config_no_displays) (Some example_config)
              catalog_initial)
       = ["Old"%string]
    /\ length (global_colorspaces cat) = 3%nat
    /\ 0 < global_tot_display cat.
Proof.
  destruct (@colormanagement_init_has_displays example_constants example_helpers
              None None (Some "datafiles"%string) (fun _ => Some example_config_no_displays)
              example_config)
    as (cat & Hinit & Hdown & _ & Hpos & _).
  - simpl. lia.
  - exists cat. split; [exact Hinit|]. split; [reflexivity|].
    split; [|exact Hpos].
    destruct Hdown as (_ & _ & _ & _ & _ & _ & _ & _ & _ & Hspaces & _).
    + left. reflexivity.
    + exact Hspaces.
Defined.

(** ** The names of a loaded catalog fit *)

Lemma substring_length_bound (s : string) (m : nat) :
  (String.length (String.substring 0 m s) <= m)%nat.
Proof.
  revert m. induction s as [|c s IH]; intros m.
  - rewrite substring_empty. simpl. lia.
  - destruct m as [|m]; [simpl; lia|].
    cbn [String.substring String.length]. specialize (IH m). lia.
Qed.

Lemma BLI_strncpy_length (src : string) (maxncpy : nat) :
  (1 <= maxncpy)%nat -> (String.length (BLI_strncpy src maxncpy) < maxncpy)%nat.
Proof.
  intros Hmax. unfold BLI_strncpy.
  pose proof (substring_length_bound src (Nat.pred maxncpy)). lia.
Qed.

Lemma last_display_add_view_names displays view :
  display_name <$> last_display_add_view displays view = display_name <$> displays.
Proof.
  induction displays as [|d rest IH]; [reflexivity|].
  destruct rest as [|d' rest']; [reflexivity|].
  change (display_name d :: (display_name <$> last_display_add_view (d' :: rest') view)
          = display_name d :: (display_name <$> (d' :: rest'))).
  now rewrite IH.
Qed.

Section NamesFit.

Context {constants : HeaderConstants} {helpers : Helpers}.

(** A property of the catalog that every step of a load keeps holds after
    the load. *)
Lemma colormanage_load_config_invariant (P : Catalog -> Prop) :
  (forall c config, P c -> P (load_role_scene_linear c config)) ->
  (forall c name invertible data, P c -> P (colormanage_colorspace_add c name invertible data)) ->
  (forall c name, P c -> P (colormanage_display_add c name)) ->
  (forall c viewname, P c -> P (load_config_view c viewname)) ->
  (forall c n, P c -> P (set_global_tot_display c n)) ->
  (forall c name process_space noop, P c -> P (colormanage_look_add c name process_space noop)) ->
  forall cat config, P cat -> P (load_config_entries cat config).
Proof.
  intros Hrole Hspace Hdisplay Hview Htot Hlook cat config Hcat.
  unfold load_config_entries.
  assert (Hlooks : forall looks c, P c ->
            P (fold_left (fun c lk => colormanage_look_add c (fst lk) (snd lk) false) looks c)).
  { induction looks as [|lk looks IH]; intros c Hc; simpl; [exact Hc|].
    apply IH, Hlook, Hc. }
  assert (Hviews : forall views c, P c -> P (fold_left load_config_view views c)).
  { induction views as [|v views IH]; intros c Hc; simpl; [exact Hc|].
    apply IH, Hview, Hc. }
  assert (Hdisplays : forall displays c, P c ->
            P (fold_left load_config_display_entry displays c)).
  { induction displays as [|d displays IH]; intros c Hc; simpl; [exact Hc|].
    apply IH. unfold load_config_display_entry. apply Hviews, Hdisplay, Hc. }
  assert (Hspaces : forall spaces c, P c ->
            P (fold_left (fun c cs => colormanage_colorspace_add c
                                        (fst (fst cs)) (snd (fst cs)) (snd cs)) spaces c)).
  { induction spaces as [|cs spaces IH]; intros c Hc; simpl; [exact Hc|].
    apply IH, Hspace, Hc. }
  apply Hlooks, Hlook, Htot, Hdisplays, Hspaces, Hrole, Hcat.
Qed.

Lemma colorspace_renumber_names (l : list ColorSpace) (k : Z) :
  colorspace_name <$> colorspace_renumber l k = colorspace_name <$> l.
Proof.
  revert k. induction l as [|cs l IH]; intros k; [reflexivity|].
  cbn [colorspace_renumber]. rewrite !fmap_cons, IH. reflexivity.
Qed.

Lemma colorspace_insert_names_fit (l : list ColorSpace) (cs : ColorSpace) (k : Z) (n : nat) :
  (String.length (colorspace_name cs) < n)%nat ->
  Forall (fun c => (String.length (colorspace_name c) < n)%nat) l ->
  Forall (fun c => (String.length (colorspace_name c) < n)%nat) (colorspace_insert l cs k).
Proof.
  intros Hcs. revert k. induction l as [|prev l IH]; intros k Hl.
  - cbn. constructor; [exact Hcs | constructor].
  - apply Forall_cons in Hl. destruct Hl as [Hprev Hl].
    cbn [colorspace_insert]. destruct (_ >? 0).
    + constructor; [exact Hcs|].
      apply Forall_fmap with (f := colorspace_name)
                             (P := fun name => (String.length name < n)%nat).
      rewrite colorspace_renumber_names. apply Forall_fmap.
      constructor; assumption.
    + constructor; [exact Hprev | apply IH, Hl].
Qed.

Lemma catalog_names_fit_load_entries cat config :
  (1 <= MAX_COLORSPACE_NAME)%nat ->
  catalog_names_fit cat ->
  catalog_names_fit (load_config_entries cat config).
Proof.
  intros Hmax. apply colormanage_load_config_invariant.
  - intros c cfg Hc. exact Hc.
  - intros c name invertible data (Hcs & Hd & Hv & Hl).
    unfold catalog_names_fit, colormanage_colorspace_add. cbn.
    repeat split; try assumption.
    apply colorspace_insert_names_fit; [|exact Hcs].
    cbn. apply BLI_strncpy_length, Hmax.
  - intros c name (Hcs & Hd & Hv & Hl).
    unfold catalog_names_fit, colormanage_display_add. cbn.
    repeat split; try assumption.
    apply Forall_app. split; [exact Hd|]. constructor; [|constructor].
    cbn. apply BLI_strncpy_length, Hmax.
  - intros c viewname (Hcs & Hd & Hv & Hl).
    assert (Hdisp : forall view,
              Forall (fun display =>
                        (String.length (display_name display) < MAX_COLORSPACE_NAME)%nat)
                     (last_display_add_view (global_displays c) view)).
    { intros view.
      apply Forall_fmap with (f := display_name)
                             (P := fun name => (String.length name < MAX_COLORSPACE_NAME)%nat).
      rewrite last_display_add_view_names. apply Forall_fmap. exact Hd. }
    unfold catalog_names_fit, load_config_view.
    destruct (colormanage_view_get_named c viewname) as [view|]; cbn.
    + repeat split; try assumption. apply Hdisp.
    + repeat split; try assumption; [apply Hdisp|].
      apply Forall_app. split; [exact Hv|]. constructor; [|constructor].
      cbn. apply BLI_strncpy_length, Hmax.
  - intros c n Hc. exact Hc.
  - intros c name process_space noop (Hcs & Hd & Hv & Hl).
    unfold catalog_names_fit, colormanage_look_add. cbn.
    repeat split; try assumption.
    apply Forall_app. split; [exact Hl|]. constructor; [|constructor].
    destruct (strstr _ _); cbn; apply BLI_strncpy_length, Hmax.
Qed.

Lemma catalog_names_fit_load cat config :
  (1 <= MAX_COLORSPACE_NAME)%nat ->
  catalog_names_fit cat ->
  catalog_names_fit (colormanage_load_config cat config).
Proof.
  intros Hmax Hcat. rewrite colormanage_load_config_fetched.
  apply catalog_names_fit_load_entries; assumption.
Qed.

Lemma catalog_names_fit_free cat : catalog_names_fit (colormanage_free_config cat).
Proof. repeat split; constructor. Qed.

End NamesFit.

(** ** Checked settings name what the catalog has *)

Lemma str_is_empty_true (s : string) : str_is_empty s = true -> s = EmptyString.
Proof. destruct s; [reflexivity | discriminate]. Qed.

Lemma str_is_empty_false (s : string) : str_is_empty s = false -> s <> EmptyString.
Proof. destruct s; [discriminate | intros _ H; discriminate H]. Qed.

(** A member of a list is found under its own name, or an earlier member
    of that name is. *)
Lemma find_own_name {A} (name : A -> string) (l : list A) (a : A) :
  a ∈ l -> is_Some (find (fun x => STREQ (name x) (name a)) l).
Proof.
  intros Hin. destruct (find _ l) as [x|] eqn:Hfind; [eexists; reflexivity|].
  apply list_elem_of_In in Hin.
  pose proof (find_none _ _ Hfind a Hin) as Hne. cbn in Hne.
  unfold STREQ in Hne. rewrite String.eqb_refl in Hne. discriminate.
Qed.

Lemma find_member {A} (P : A -> bool) (l : list A) (a : A) :
  find P l = Some a -> a ∈ l.
Proof. intros Hfind. apply find_some in Hfind. apply list_elem_of_In, Hfind. Qed.

Section CheckedSettings.

Context {constants : HeaderConstants} {sizes : SettingsSizes}
        {defaults : ConfigDefaults} {libc : LibC}.

Lemma display_name_copied cat display :
  catalog_names_fit cat -> (MAX_COLORSPACE_NAME <= sizeof_display_device)%nat ->
  display ∈ global_displays cat ->
  BLI_strncpy (display_name display) sizeof_display_device = display_name display
  /\ is_Some (colormanage_display_get_named cat (display_name display)).
Proof.
  intros (_ & Hd & _) Hsize Hin. split.
  - apply BLI_strncpy_fits. rewrite Forall_forall in Hd. specialize (Hd _ Hin). lia.
  - apply (find_own_name display_name), Hin.
Qed.

Lemma view_name_copied cat view :
  catalog_names_fit cat -> (MAX_COLORSPACE_NAME <= sizeof_view_transform)%nat ->
  view ∈ global_views cat ->
  BLI_strncpy (view_name view) sizeof_view_transform = view_name view
  /\ is_Some (colormanage_view_get_named cat (view_name view)).
Proof.
  intros (_ & _ & Hv & _) Hsize Hin. split.
  - apply BLI_strncpy_fits. rewrite Forall_forall in Hv. specialize (Hv _ Hin). lia.
  - apply (find_own_name view_name), Hin.
Qed.

Lemma look_name_copied cat look :
  catalog_names_fit cat -> (MAX_COLORSPACE_NAME <= sizeof_look)%nat ->
  look ∈ global_looks cat ->
  BLI_strncpy (look_name look) sizeof_look = look_name look
  /\ is_Some (colormanage_look_get_named cat (look_name look)).
Proof.
  intros (_ & _ & _ & Hl) Hsize Hin. split.
  - apply BLI_strncpy_fits. rewrite Forall_forall in Hl. specialize (Hl _ Hin). lia.
  - apply (find_own_name look_name), Hin.
Qed.

(** Checked display settings name a display of the catalog: the one they
    named, or the default display. *)
Lemma colormanage_check_display_settings_spec cat display_settings default_display :
  catalog_names_fit cat -> (MAX_COLORSPACE_NAME <= sizeof_display_device)%nat ->
  default_display ∈ global_displays cat ->
  let checked := colormanage_check_display_settings cat display_settings default_display in
  display_settings_known cat checked
  /\ (display_device display_settings <> EmptyString ->
      display_settings_known cat display_settings -> checked = display_settings)
  /\ (display_device display_settings = EmptyString
      \/ ~ display_settings_known cat display_settings ->
      display_device checked = display_name default_display)
  /\ colormanage_check_display_settings cat checked default_display = checked.
Proof.
  intros Hfit Hsize Hin checked.
  destruct (display_name_copied cat default_display Hfit Hsize Hin) as [Hcopy Hknown].
  unfold checked, colormanage_check_display_settings, display_settings_known.
  rewrite !Hcopy.
  destruct (str_is_empty (display_device display_settings)) eqn:Hempty.
  - cbn [display_device]. split; [exact Hknown|].
    split; [intros Hne; apply str_is_empty_true in Hempty; contradiction|].
    split; [reflexivity|].
    destruct (str_is_empty (display_name default_display)); [reflexivity|].
    destruct Hknown as [d ->]. reflexivity.
  - destruct (colormanage_display_get_named cat (display_device display_settings))
      as [d|] eqn:Hfind.
    + split; [rewrite Hfind; eexists; reflexivity|].
      split; [reflexivity|].
      split.
      { intros [Hnone | Hunknown].
        - apply str_is_empty_false in Hempty. contradiction.
        - exfalso. apply Hunknown. eexists. reflexivity. }
      rewrite Hempty, Hfind. reflexivity.
    + cbn [display_device]. split; [exact Hknown|].
      split; [intros _ [d Hd]; discriminate Hd|].
      split; [reflexivity|].
      destruct (str_is_empty (display_name default_display)); [reflexivity|].
      destruct Hknown as [d ->]. reflexivity.
Qed.

Lemma default_view_of_device_done cat display_device :
  exists default_view,
    default_view_of_device cat display_device = Done default_view
    /\ forall view, default_view = Some view -> view ∈ global_views cat.
Proof.
  unfold default_view_of_device.
  destruct (colormanage_display_get_named cat display_device) as [display|].
  - unfold colormanage_view_get_default, colormanage_view_get_default_name. cbn.
    destruct (OCIO_configGetDefaultView (display_name display)) as [name|].
    + destruct (str_is_empty name).
      * exists None. split; [reflexivity | discriminate].
      * eexists. split; [reflexivity|]. intros view Hview.
        apply (find_member _ _ _ Hview).
    + exists None. split; [reflexivity | discriminate].
  - exists None. split; [reflexivity | discriminate].
Qed.

(** Checked view settings name a look of the catalog, and a view of it
    unless the display has no default view. *)
Lemma colormanage_check_view_settings_spec cat display_settings view_settings :
  catalog_names_fit cat ->
  (MAX_COLORSPACE_NAME <= sizeof_look)%nat ->
  (MAX_COLORSPACE_NAME <= sizeof_view_transform)%nat ->
  global_looks cat <> [] ->
  exists checked,
    colormanage_check_view_settings cat display_settings view_settings = Done checked
    /\ look_known cat checked
    /\ (forall view_name, colormanage_use_look cat (vs_look checked) view_name <> Crash)
    /\ (view_known cat checked
        \/ vs_view_transform checked = vs_view_transform view_settings)
    /\ (CFloat.eq (vs_exposure checked) CFloat.zero
        && CFloat.eq (vs_gamma checked) CFloat.zero = false)
    /\ vs_flag checked = vs_flag view_settings
    /\ vs_curve_mapping checked = vs_curve_mapping view_settings.
Proof.
  intros Hfit Hlook Hview Hlooks.
  destruct (global_looks cat) as [|default_look looks] eqn:Hlist; [contradiction|].
  assert (Hdefault : default_look ∈ global_looks cat)
    by (rewrite Hlist; apply list_elem_of_here).
  destruct (look_name_copied cat default_look Hfit Hlook Hdefault) as [Hcopy Hknown].
  unfold colormanage_check_view_settings. rewrite Hlist. cbn [head].
  (* the view *)
  assert (Hstep1 : exists vs1,
    (if str_is_empty (vs_view_transform view_settings)
     then default_view ← default_view_of_device cat (display_device display_settings);
          match default_view with
          | Some view =>
              Done (set_view_transform view_settings
                      (BLI_strncpy (view_name view) sizeof_view_transform))
          | None => Done view_settings
          end
     else match colormanage_view_get_named cat (vs_view_transform view_settings) with
          | Some _ => Done view_settings
          | None =>
              default_view ← default_view_of_device cat (display_device display_settings);
              match default_view with
              | Some view =>
                  Done (set_view_transform view_settings
                          (BLI_strncpy (view_name view) sizeof_view_transform))
              | None => Done view_settings
              end
          end) = Done vs1
    /\ (view_known cat vs1 \/ vs_view_transform vs1 = vs_view_transform view_settings)
    /\ vs_look vs1 = vs_look view_settings
    /\ vs_exposure vs1 = vs_exposure view_settings
    /\ vs_gamma vs1 = vs_gamma view_settings
    /\ vs_flag vs1 = vs_flag view_settings
    /\ vs_curve_mapping vs1 = vs_curve_mapping view_settings).
  { destruct (default_view_of_device_done cat (display_device display_settings))
      as (default_view & Hdone & Hmember).
    assert (Hreplace : exists vs1,
      (default_view ← default_view_of_device cat (display_device display_settings);
       match default_view with
       | Some view =>
           Done (set_view_transform view_settings
                   (BLI_strncpy (view_name view) sizeof_view_transform))
       | None => Done view_settings
       end) = Done vs1
      /\ (view_known cat vs1 \/ vs_view_transform vs1 = vs_view_transform view_settings)
      /\ vs_look vs1 = vs_look view_settings
      /\ vs_exposure vs1 = vs_exposure view_settings
      /\ vs_gamma vs1 = vs_gamma view_settings
      /\ vs_flag vs1 = vs_flag view_settings
      /\ vs_curve_mapping vs1 = vs_curve_mapping view_settings).
    { rewrite Hdone. cbn. destruct default_view as [view|].
      - destruct (view_name_copied cat view Hfit Hview (Hmember view eq_refl))
          as [Hvcopy Hvknown].
        eexists. split; [reflexivity|]. cbn. rewrite Hvcopy.
        split; [left; exact Hvknown|]. repeat split.
      - exists view_settings. split; [reflexivity|]. split; [right; reflexivity|].
        repeat split. }
    destruct (str_is_empty (vs_view_transform view_settings)); [exact Hreplace|].
    destruct (colormanage_view_get_named cat (vs_view_transform view_settings))
      as [view|] eqn:Hfound; [|exact Hreplace].
    exists view_settings. split; [reflexivity|].
    split; [left; unfold view_known; rewrite Hfound; eexists; reflexivity|].
    repeat split. }
  destruct Hstep1 as (vs1 & -> & Hvt & Hlook1 & Hexp1 & Hgam1 & Hflag1 & Hcurve1).
  cbn [mbind exec_bind].
  (* the look *)
  assert (Hstep2 : exists vs2,
    (if str_is_empty (vs_look vs1)
     then look ← deref (Some default_look);
          Done (set_look vs1 (BLI_strncpy (look_name look) sizeof_look))
     else match colormanage_look_get_named cat (vs_look vs1) with
          | Some _ => Done vs1
          | None =>
              look ← deref (Some default_look);
              Done (set_look vs1 (BLI_strncpy (look_name look) sizeof_look))
          end) = Done vs2
    /\ look_known cat vs2
    /\ vs_view_transform vs2 = vs_view_transform vs1
    /\ vs_exposure vs2 = vs_exposure vs1
    /\ vs_gamma vs2 = vs_gamma vs1
    /\ vs_flag vs2 = vs_flag vs1
    /\ vs_curve_mapping vs2 = vs_curve_mapping vs1).
  { assert (Hreplace : exists vs2,
      (look ← deref (Some default_look);
       Done (set_look vs1 (BLI_strncpy (look_name look) sizeof_look))) = Done vs2
      /\ look_known cat vs2
      /\ vs_view_transform vs2 = vs_view_transform vs1
      /\ vs_exposure vs2 = vs_exposure vs1
      /\ vs_gamma vs2 = vs_gamma vs1
      /\ vs_flag vs2 = vs_flag vs1
      /\ vs_curve_mapping vs2 = vs_curve_mapping vs1).
    { cbn. rewrite Hcopy. eexists. split; [reflexivity|].
      split; [exact Hknown|]. repeat split. }
    destruct (str_is_empty (vs_look vs1)); [exact Hreplace|].
    destruct (colormanage_look_get_named cat (vs_look vs1)) as [look|] eqn:Hfound;
      [|exact Hreplace].
    exists vs1. split; [reflexivity|].
    split; [unfold look_known; rewrite Hfound; eexists; reflexivity|]. repeat split. }
  destruct Hstep2 as (vs2 & -> & Hlk & Hvt2 & Hexp2 & Hgam2 & Hflag2 & Hcurve2).
  cbn [mbind exec_bind].
  assert (Huse : forall vs, vs_look vs = vs_look vs2 ->
            forall view_name, colormanage_use_look cat (vs_look vs) view_name <> Crash).
  { intros vs Hsame view_name. rewrite Hsame.
    destruct Hlk as [look Hfound].
    rewrite (colormanage_use_look_found _ _ _ _ Hfound). discriminate. }
  assert (Hvt' : forall vs, vs_view_transform vs = vs_view_transform vs2 ->
            view_known cat vs \/ vs_view_transform vs = vs_view_transform view_settings).
  { intros vs Hsame. unfold view_known in *. rewrite Hsame, Hvt2.
    destruct Hvt as [Hk | Hk]; [left; exact Hk | right; exact Hk]. }
  destruct (CFloat.eq (vs_exposure vs2) CFloat.zero
            && CFloat.eq (vs_gamma vs2) CFloat.zero) eqn:Hzero.
  - eexists. split; [reflexivity|].
    split; [exact Hlk|]. split; [apply Huse; reflexivity|].
    split; [apply Hvt'; reflexivity|]. cbn.
    split; [reflexivity|]. split; congruence.
  - exists vs2. split; [reflexivity|].
    split; [exact Hlk|]. split; [apply Huse; reflexivity|].
    split; [apply Hvt'; reflexivity|].
    split; [exact Hzero|]. split; congruence.
Qed.

Lemma colormanage_check_colorspace_settings_known cat name :
  colorspace_setting_known cat (colormanage_check_colorspace_settings cat name).
Proof.
  unfold colormanage_check_colorspace_settings, colorspace_setting_known.
  destruct (str_is_empty name) eqn:Hempty.
  - left. apply str_is_empty_true, Hempty.
  - destruct (colormanage_colorspace_get_named cat name) as [cs|] eqn:Hfound.
    + right. rewrite Hfound. eexists. reflexivity.
    + left. unfold BLI_strncpy. apply substring_empty.
Qed.

Lemma exec_map_Forall {A B} (f : A -> exec B) (P : B -> Prop) (l : list A) :
  (forall a, a ∈ l -> exists b, f a = Done b /\ P b) ->
  exists bs, exec_map f l = Done bs /\ length bs = length l /\ Forall P bs.
Proof.
  induction l as [|a l IH]; intros Hf.
  - exists []. split; [reflexivity|]. split; [reflexivity | constructor].
  - destruct (Hf a (list_elem_of_here a l)) as (b & Hb & HP).
    destruct IH as (bs & Hbs & Hlen & HPs).
    { intros a' Ha'. apply Hf. apply list_elem_of_further, Ha'. }
    exists (b :: bs). cbn [exec_map]. rewrite Hb. cbn. rewrite Hbs. cbn.
    split; [reflexivity|]. split; [cbn; lia | constructor; assumption].
Qed.

(** X8. [IMB_colormanagement_check_file_config] on a catalog whose names
    fit the name arrays of the settings and that has a look.  Without a
    default display the file is left as it is.  With one, the check
    completes; afterwards every scene names a display and a look of the
    catalog, so that [colormanage_use_look] is defined on its look; its
    sequencer colour space is one of the catalog or the name of the
    sequencer role; and the colour space settings of strips, images and
    movie clips are empty or name a colour space of the catalog. *)
Theorem IMB_colormanagement_check_file_config_known cat roles bmain :
  catalog_names_fit cat -> settings_hold_catalog_names -> global_looks cat <> [] ->
  (colormanage_display_get_default cat = Done None ->
   IMB_colormanagement_check_file_config cat roles bmain = Done bmain)
  /\ (forall default_display,
        colormanage_display_get_default cat = Done (Some default_display) ->
        exists checked,
          IMB_colormanagement_check_file_config cat roles bmain = Done checked
          /\ length (main_scenes checked) = length (main_scenes bmain)
          /\ Forall (scene_settings_known cat roles) (main_scenes checked)
          /\ Forall (colorspace_setting_known cat) (main_images checked)
          /\ Forall (colorspace_setting_known cat) (main_movieclips checked)).
Proof.
  intros Hfit (Hlook & Hview & Hdevice & _) Hlooks.
  unfold IMB_colormanagement_check_file_config. split.
  - intros ->. reflexivity.
  - intros default_display Hdefault. rewrite Hdefault. cbn [mbind exec_bind].
    assert (Hin : default_display ∈ global_displays cat).
    { unfold colormanage_display_get_default in Hdefault.
      destruct colormanage_display_get_default_name as [name|]; [|discriminate].
      cbn in Hdefault. destruct (str_is_empty name); [discriminate|].
      injection Hdefault as Hfound. apply (find_member _ _ _ Hfound). }
    destruct (exec_map_Forall (check_file_config_scene cat roles default_display)
                (scene_settings_known cat roles) (main_scenes bmain))
      as (scenes & Hscenes & Hlen & Hknown).
    { intros scene _. unfold check_file_config_scene.
      destruct (colormanage_check_display_settings_spec cat (scene_display_settings scene)
                  default_display Hfit Hdevice Hin) as (Hdisplay & _).
      destruct (colormanage_check_view_settings_spec cat
                  (colormanage_check_display_settings cat (scene_display_settings scene)
                     default_display)
                  (scene_view_settings scene) Hfit Hlook Hview Hlooks)
        as (checked & -> & Hlk & Huse & _).
      cbn [mbind exec_bind]. eexists. split; [reflexivity|].
      unfold scene_settings_known.
      cbn [scene_display_settings scene_view_settings scene_sequencer_colorspace scene_ed].
      split; [exact Hdisplay|]. split; [exact Hlk|]. split; [exact Huse|]. split.
      - destruct (str_is_empty _) eqn:Hempty; [right; reflexivity|].
        left. destruct (colormanage_check_colorspace_settings_known cat
                          (scene_sequencer_colorspace scene)) as [Hnone | Hsome].
        + apply str_is_empty_false in Hempty. contradiction.
        + exact Hsome.
      - destruct (scene_ed scene) as [seqbase|]; [|exact I].
        apply Forall_fmap, Forall_forall. intros strip _.
        destruct strip as [name|]; [|exact I].
        apply colormanage_check_colorspace_settings_known. }
    rewrite Hscenes. cbn [mbind exec_bind]. eexists. split; [reflexivity|].
    cbn [main_scenes main_images main_movieclips].
    split; [exact Hlen|]. split; [exact Hknown|].
    split; apply Forall_fmap, Forall_forall; intros name _;
      apply colormanage_check_colorspace_settings_known.
Qed.

End CheckedSettings.

Lemma example_catalog_names_fit : @catalog_names_fit example_constants example_catalog.
Proof. repeat split; repeat constructor. Qed.

Lemma example_settings_hold_catalog_names :
  @settings_hold_catalog_names example_constants example_sizes.
Proof. repeat split; vm_compute; lia. Qed.

(** The example file after the check: display "sRGB", view "Standard",
    look "None", gamma 1, sequencer colour space "sRGB", and the unknown
    colour spaces of the strip and of the image emptied. *)
Lemma IMB_colormanagement_check_file_config_known_witness :
  exists checked,
    @IMB_colormanagement_check_file_config example_constants example_sizes
      example_defaults example_catalog example_roles example_main = Done checked
    /\ main_images checked = ["sRGB"; EmptyString]%string.
Proof.
  destruct (@IMB_colormanagement_check_file_config_known example_constants example_sizes
              example_defaults example_catalog example_roles example_main
              example_catalog_names_fit example_settings_hold_catalog_names)
    as [_ Hsome].
  - discriminate.
  - destruct (Hsome {| display_index := 1; display_name := "sRGB";
                       display_views := [{| view_index := 1; view_name := "Standard" |};
                                         {| view_index := 2; view_name := "Raw" |}] |})
      as (checked & Hrun & _).
    + reflexivity.
    + exists checked. split; [exact Hrun|].
      vm_compute in Hrun. injection Hrun as <-. reflexivity.
Defined.

(** ** Settings and the display processor *)

Section SettingsAndProcessor.

Context {constants : HeaderConstants} {helpers : Helpers} {engine : TransformEngine}
        {sizes : SettingsSizes} {defaults : ConfigDefaults} {libc : LibC}.

(** The display processor for settings whose look the catalog has. *)
Lemma IMB_colormanagement_display_processor_new_known cat view_settings display_settings :
  look_known cat view_settings ->
  exists cm_processor use_look,
    IMB_colormanagement_display_processor_new cat view_settings display_settings
    = Done cm_processor
    /\ colormanage_use_look cat (vs_look view_settings)
         (Some (vs_view_transform view_settings)) = Done use_look
    /\ cpu_processor cm_processor
       = OCIO_createDisplayProcessor
           {| req_from_colorspace := global_role_scene_linear cat;
              req_view_transform := vs_view_transform view_settings;
              req_display := display_device display_settings;
              req_look := if use_look : bool then vs_look view_settings else EmptyString;
              req_scale := display_processor_scale (vs_exposure view_settings);
              req_exponent := display_processor_exponent (vs_gamma view_settings) |}
    /\ curve_mapping cm_processor
       = (if negb (Z.land (vs_flag view_settings) COLORMANAGE_VIEW_USE_CURVES =? 0)
          then vs_curve_mapping view_settings else None).
Proof.
  intros [look Hfound].
  unfold IMB_colormanagement_display_processor_new, create_display_buffer_processor,
    display_buffer_processor_request.
  rewrite (colormanage_use_look_found _ _ _ _ Hfound). cbn [mbind exec_bind mret exec_ret].
  eexists _, _. split; [reflexivity|]. split; [reflexivity|].
  split; reflexivity.
Qed.

(** X9. On a catalog whose names fit the name arrays of the settings and
    that has a look, [colormanage_check_view_settings] completes; the
    settings it leaves name a look of the catalog, name a view of the
    catalog unless the view is the one they came with, and do not have
    exposure 0 together with gamma 0; and
    [IMB_colormanagement_display_processor_new] completes on them for
    every display. *)
Theorem colormanage_check_view_settings_processor cat display_settings view_settings :
  catalog_names_fit cat ->
  (MAX_COLORSPACE_NAME <= sizeof_look)%nat ->
  (MAX_COLORSPACE_NAME <= sizeof_view_transform)%nat ->
  global_looks cat <> [] ->
  exists checked,
    colormanage_check_view_settings cat display_settings view_settings = Done checked
    /\ look_known cat checked
    /\ (view_known cat checked
        \/ vs_view_transform checked = vs_view_transform view_settings)
    /\ (CFloat.eq (vs_exposure checked) CFloat.zero
        && CFloat.eq (vs_gamma checked) CFloat.zero = false)
    /\ forall display_settings',
         exists cm_processor,
           IMB_colormanagement_display_processor_new cat checked display_settings'
           = Done cm_processor.
Proof.
  intros Hfit Hlook Hview Hlooks.
  destruct (colormanage_check_view_settings_spec cat display_settings view_settings
              Hfit Hlook Hview Hlooks)
    as (checked & Hrun & Hlk & _ & Hvt & Hgamma & _).
  exists checked. split; [exact Hrun|]. split; [exact Hlk|].
  split; [exact Hvt|]. split; [exact Hgamma|].
  intros display_settings'.
  destruct (IMB_colormanagement_display_processor_new_known cat checked display_settings' Hlk)
    as (cm_processor & _ & Hnew & _).
  exists cm_processor. exact Hnew.
Qed.

(** Without a look in the catalog the check reads the name of a default
    look that is not there. *)
Lemma colormanage_check_view_settings_no_looks cat display_settings view_settings :
  global_looks cat = [] ->
  colormanage_check_view_settings cat display_settings view_settings = Crash.
Proof.
  intros Hlooks. unfold colormanage_check_view_settings. rewrite Hlooks. cbn [head].
  match goal with
  | |- (?step1 ≫= _) = Crash => destruct step1 as [vs1|]; [|reflexivity]
  end.
  cbn [mbind exec_bind].
  destruct (str_is_empty (vs_look vs1)); [reflexivity|].
  unfold colormanage_look_get_named. rewrite Hlooks. reflexivity.
Qed.

(** X10. [IMB_colormanagement_validate_settings] reads through the display
    that the lookup returns: for an unknown display device it is undefined.
    For a known one it completes: settings whose view is one of the views
    of the display stay as they are, others get the name of the default
    view when there is one, and validating the result again changes
    nothing. *)
Theorem IMB_colormanagement_validate_settings_view cat display_settings view_settings :
  (colormanage_display_get_named cat (display_device display_settings) = None ->
   IMB_colormanagement_validate_settings cat display_settings view_settings = Crash)
  /\ (forall display,
        colormanage_display_get_named cat (display_device display_settings) = Some display ->
        exists validated default_view,
          IMB_colormanagement_validate_settings cat display_settings view_settings
          = Done validated
          /\ colormanage_view_get_default cat (Some display) = Done default_view
          /\ (vs_view_transform view_settings ∈ (view_name <$> display_views display) ->
              validated = view_settings)
          /\ (vs_view_transform view_settings ∉ (view_name <$> display_views display) ->
              validated
              = match default_view with
                | Some view =>
                    set_view_transform view_settings
                      (BLI_strncpy (view_name view) sizeof_view_transform)
                | None => view_settings
                end)
          /\ IMB_colormanagement_validate_settings cat display_settings validated
             = Done validated).
Proof.
  unfold IMB_colormanagement_validate_settings. split.
  - intros ->. reflexivity.
  - intros display ->.
    assert (Hdefault : exists default_view,
              colormanage_view_get_default cat (Some display) = Done default_view).
    { unfold colormanage_view_get_default, colormanage_view_get_default_name. cbn.
      destruct (OCIO_configGetDefaultView (display_name display)) as [name|];
        [destruct (str_is_empty name)|]; eexists; reflexivity. }
    destruct Hdefault as [default_view Hdefault]. rewrite Hdefault.
    cbn [mbind exec_bind deref].
    assert (Hfind : forall name,
              is_Some (find (fun view => STREQ (view_name view) name) (display_views display))
              <-> name ∈ (view_name <$> display_views display)).
    { intros name. split.
      - intros [view Hview]. apply find_some in Hview. destruct Hview as [Hin Heq].
        apply String.eqb_eq in Heq. subst name.
        apply list_elem_of_fmap. exists view. split; [reflexivity|].
        apply list_elem_of_In, Hin.
      - intros Hin. apply list_elem_of_fmap in Hin. destruct Hin as (view & -> & Hin).
        apply (find_own_name view_name), Hin. }
    destruct (find _ (display_views display)) as [view|] eqn:Hlink.
    + exists view_settings, default_view. split; [reflexivity|]. split; [reflexivity|].
      split; [reflexivity|]. split.
      * intros Hnot. exfalso. apply Hnot, Hfind. rewrite Hlink. eexists. reflexivity.
      * rewrite Hlink. reflexivity.
    + destruct default_view as [default_view|].
      * eexists _, _. split; [reflexivity|]. split; [reflexivity|]. split.
        { intros Hin. apply Hfind in Hin. rewrite Hlink in Hin.
          destruct Hin as [x Hx]. discriminate Hx. }
        split; [reflexivity|].
        cbn [vs_view_transform set_view_transform].
        destruct (find (fun view => STREQ (view_name view)
                                      (BLI_strncpy (view_name default_view)
                                         sizeof_view_transform))
                       (display_views display)); reflexivity.
      * exists view_settings, None. split; [reflexivity|]. split; [reflexivity|]. split.
        { reflexivity. }
        split; [reflexivity|]. rewrite Hlink. reflexivity.
Qed.

(** X11. In a catalog loaded after a free, with name arrays of at least
    five characters, [IMB_colormanagement_init_default_view_settings]
    completes with the look "None", no flag and no curve mapping, and the
    display processor for these settings is asked of the engine with an
    empty look, scale 1 and exponent 1, and has no curve mapping. *)
Theorem IMB_colormanagement_init_default_view_settings_neutral
    cat config display_settings :
  (5 <= MAX_COLORSPACE_NAME)%nat -> (5 <= sizeof_look)%nat ->
  let cat' := colormanage_load_config (colormanage_free_config cat) config in
  exists view_settings cm_processor,
    IMB_colormanagement_init_default_view_settings cat' display_settings
    = Done view_settings
    /\ vs_look view_settings = "None"%string
    /\ vs_flag view_settings = 0
    /\ vs_curve_mapping view_settings = None
    /\ IMB_colormanagement_display_processor_new cat' view_settings display_settings
       = Done cm_processor
    /\ cpu_processor cm_processor
       = OCIO_createDisplayProcessor
           {| req_from_colorspace := global_role_scene_linear cat';
              req_view_transform := vs_view_transform view_settings;
              req_display := display_device display_settings;
              req_look := EmptyString;
              req_scale := CFloat.one;
              req_exponent := CFloat.one |}
    /\ curve_mapping cm_processor = None.
Proof.
  intros Hmax Hlook cat'.
  destruct (load_config_first_look cat (config_fetched config) Hmax) as [rest Hlooks].
  rewrite <- colormanage_load_config_fetched in Hlooks. fold cat' in Hlooks.
  assert (Hfind : colormanage_look_get_named cat' "None" = Some look_none).
  { unfold colormanage_look_get_named. rewrite Hlooks. reflexivity. }
  assert (Hnone : BLI_strncpy "None" sizeof_look = "None"%string)
    by (apply BLI_strncpy_fits; simpl; lia).
  assert (Hview : exists default_view,
    match colormanage_view_get_named_for_display cat'
            (display_device display_settings) "Standard" with
    | Some view => Done (Some view)
    | None => default_view_of_device cat' (display_device display_settings)
    end = Done default_view).
  { destruct (colormanage_view_get_named_for_display cat' _ _) as [view|].
    - eexists. reflexivity.
    - destruct (default_view_of_device_done cat' (display_device display_settings))
        as (default_view & Hdone & _).
      exists default_view. exact Hdone. }
  destruct Hview as [default_view Hview].
  unfold IMB_colormanagement_init_default_view_settings.
  rewrite Hview. cbn [mbind exec_bind]. rewrite Hnone.
  eexists _, _. split; [reflexivity|].
  cbn [vs_look vs_flag vs_curve_mapping vs_view_transform].
  split; [reflexivity|]. split; [reflexivity|]. split; [reflexivity|].
  unfold IMB_colormanagement_display_processor_new, create_display_buffer_processor,
    display_buffer_processor_request.
  cbn [vs_look vs_flag vs_curve_mapping vs_view_transform vs_exposure vs_gamma].
  rewrite (colormanage_use_look_found _ _ _ _ Hfind).
  cbn [mbind exec_bind mret exec_ret look_none is_noop negb andb].
  split; [reflexivity|]. cbn [cpu_processor curve_mapping].
  split; reflexivity.
Qed.

End SettingsAndProcessor.

(** The settings of the example scene after the check give a processor,
    although the scene named the look "Filmic", which the catalog lacks. *)
Lemma colormanage_check_view_settings_processor_witness :
  exists checked cm_processor,
    @colormanage_check_view_settings example_sizes example_defaults example_catalog
      (scene_display_settings example_scene) (scene_view_settings example_scene)
    = Done checked
    /\ @IMB_colormanagement_display_processor_new example_constants example_helpers
         example_engine example_catalog checked example_display_settings
       = Done cm_processor.
Proof.
  destruct (@colormanage_check_view_settings_processor example_constants example_helpers
              example_engine example_sizes example_defaults example_catalog
              (scene_display_settings example_scene) (scene_view_settings example_scene))
    as (checked & Hrun & _ & _ & _ & Hnew).
  - exact example_catalog_names_fit.
  - vm_compute. lia.
  - vm_compute. lia.
  - discriminate.
  - destruct (Hnew example_display_settings) as [cm_processor Hprocessor].
    exists checked, cm_processor. split; [exact Hrun | exact Hprocessor].
Defined.

(** The default view settings for the display "sRGB" of the example
    catalog: the view "Standard" and the look "None". *)
Lemma IMB_colormanagement_init_default_view_settings_neutral_witness :
  exists view_settings,
    @IMB_colormanagement_init_default_view_settings example_sizes example_defaults
      example_libc
      (@colormanage_load_config example_constants example_helpers
         (colormanage_free_config catalog_initial) example_config)
      example_display_settings
    = Done view_settings
    /\ vs_look view_settings = "None"%string.
Proof.
  destruct (@IMB_colormanagement_init_default_view_settings_neutral example_constants
              example_helpers example_engine example_sizes example_defaults example_libc
              catalog_initial example_config example_display_settings)
    as (view_settings & _ & Hrun & Hlook & _).
  - vm_compute. lia.
  - vm_compute. lia.
  - exists view_settings. split; [exact Hrun | exact Hlook].
Defined.

(** ** The colour space of an image buffer and its data flag *)

Lemma flag_set_bits (flag bit : Z) :
  Z.land (Z.lor flag bit) bit = bit
  /\ Z.land (Z.lor flag bit) (Z.lnot bit) = Z.land flag (Z.lnot bit).
Proof.
  split; apply Z.bits_inj'; intros i Hi;
    rewrite ?Z.land_spec, ?Z.lor_spec, ?Z.lnot_spec by lia;
    destruct (Z.testbit flag i), (Z.testbit bit i); reflexivity.
Qed.

Lemma flag_clear_bits (flag bit : Z) :
  Z.land (Z.land flag (Z.lnot bit)) bit = 0
  /\ Z.land (Z.land flag (Z.lnot bit)) (Z.lnot bit) = Z.land flag (Z.lnot bit).
Proof.
  split; apply Z.bits_inj'; intros i Hi;
    rewrite ?Z.land_spec, ?Z.lnot_spec, ?Z.bits_0 by lia;
    destruct (Z.testbit flag i), (Z.testbit bit i); reflexivity.
Qed.

Section ImageSpaceFacts.

Context {constants : HeaderConstants} {helpers : Helpers}
        {engine : TransformEngine} {threads : TransformThreads}.

Lemma colormanage_flag_for_space_bits (flag : Z) (colorspace : option ColorSpace) :
  Z.land (colormanage_flag_for_space flag colorspace) IMB_COLORMANAGE_IS_DATA
  = (if IMB_colormanagement_space_is_data colorspace then IMB_COLORMANAGE_IS_DATA else 0)
  /\ Z.land (colormanage_flag_for_space flag colorspace) (Z.lnot IMB_COLORMANAGE_IS_DATA)
     = Z.land flag (Z.lnot IMB_COLORMANAGE_IS_DATA).
Proof.
  unfold colormanage_flag_for_space.
  destruct (IMB_colormanagement_space_is_data colorspace).
  - apply flag_set_bits.
  - apply flag_clear_bits.
Qed.

(** X12. After [IMB_colormanagement_assign_rect_colorspace] the image
    buffer has the colour space that the name has in the catalog (none for
    an unknown name); [IMB_colormanagement_get_rect_colorspace] then
    returns the name, or the name of the default byte role for an unknown
    name; the bits of [IMB_COLORMANAGE_IS_DATA] in [colormanage_flag] are
    set for a data colour space and cleared otherwise, the other bits are
    as before; assigning the name again or checking it with
    [IMB_colormanagement_check_is_data] changes nothing. *)
Theorem IMB_colormanagement_assign_rect_colorspace_flag cat roles ibuf name :
  let ibuf' := IMB_colormanagement_assign_rect_colorspace cat ibuf name in
  rect_colorspace ibuf' = colormanage_colorspace_get_named cat name
  /\ IMB_colormanagement_get_rect_colorspace cat roles ibuf'
     = Some (match colormanage_colorspace_get_named cat name with
             | Some _ => name
             | None => global_role_default_byte roles
             end)
  /\ Z.land (ibuf_colormanage_flag ibuf') IMB_COLORMANAGE_IS_DATA
     = (if IMB_colormanagement_space_name_is_data cat name
        then IMB_COLORMANAGE_IS_DATA else 0)
  /\ Z.land (ibuf_colormanage_flag ibuf') (Z.lnot IMB_COLORMANAGE_IS_DATA)
     = Z.land (ibuf_colormanage_flag ibuf) (Z.lnot IMB_COLORMANAGE_IS_DATA)
  /\ IMB_colormanagement_assign_rect_colorspace cat ibuf' name = ibuf'
  /\ IMB_colormanagement_check_is_data cat ibuf' name = ibuf'.
Proof.
  intros ibuf'. unfold ibuf', IMB_colormanagement_assign_rect_colorspace,
    IMB_colormanagement_get_rect_colorspace, IMB_colormanagement_space_name_is_data,
    IMB_colormanagement_check_is_data.
  cbn [set_colormanage_flag set_rect_colorspace rect_colorspace ibuf_colormanage_flag
       ibuf_x ibuf_y ibuf_channels ibuf_dither ibuf_userflags display_buffer_flags
       colormanage_cache].
  destruct (colormanage_flag_for_space_bits (ibuf_colormanage_flag ibuf)
              (colormanage_colorspace_get_named cat name)) as [Hbit Hrest].
  split; [reflexivity|]. split.
  { unfold colormanage_colorspace_get_named.
    destruct (find _ (global_colorspaces cat)) as [cs|] eqn:Hfind; [|reflexivity].
    apply find_some in Hfind. destruct Hfind as [_ Heq].
    apply String.eqb_eq in Heq. cbn. now rewrite Heq. }
  split; [exact Hbit|]. split; [exact Hrest|].
  assert (Hagain :
    colormanage_flag_for_space
      (colormanage_flag_for_space (ibuf_colormanage_flag ibuf)
         (colormanage_colorspace_get_named cat name))
      (colormanage_colorspace_get_named cat name)
    = colormanage_flag_for_space (ibuf_colormanage_flag ibuf)
        (colormanage_colorspace_get_named cat name)).
  { unfold colormanage_flag_for_space.
    destruct (IMB_colormanagement_space_is_data _).
    - apply Z.bits_inj'; intros i Hi. rewrite !Z.lor_spec.
      destruct (Z.testbit _ i), (Z.testbit IMB_COLORMANAGE_IS_DATA i); reflexivity.
    - apply Z.bits_inj'; intros i Hi. rewrite !Z.land_spec, !Z.lnot_spec by lia.
      destruct (Z.testbit _ i), (Z.testbit IMB_COLORMANAGE_IS_DATA i); reflexivity. }
  split; rewrite Hagain; reflexivity.
Qed.

(** X13. [colormanage_imbuf_make_linear].  From a data colour space it
    only sets [IMB_COLORMANAGE_IS_DATA] and leaves both pixel buffers.
    Otherwise, without a float buffer nothing changes; with one, the byte
    buffer is dropped, and the float buffer stays as it is when the source
    name is empty or is the scene-linear role; for another source name the
    call is undefined when the scene-linear role names no colour space of
    the catalog. *)
Theorem colormanage_imbuf_make_linear_keeps_pixels
    cat ibuf rect_float rect predivide from_colorspace :
  (IMB_colormanagement_space_name_is_data cat from_colorspace = true ->
   colormanage_imbuf_make_linear cat ibuf rect_float rect predivide from_colorspace
   = Done (set_colormanage_flag ibuf
             (Z.lor (ibuf_colormanage_flag ibuf) IMB_COLORMANAGE_IS_DATA),
           rect_float, rect))
  /\ (IMB_colormanagement_space_name_is_data cat from_colorspace = false ->
      rect_float = None ->
      colormanage_imbuf_make_linear cat ibuf rect_float rect predivide from_colorspace
      = Done (ibuf, None, rect))
  /\ (IMB_colormanagement_space_name_is_data cat from_colorspace = false ->
      from_colorspace = EmptyString \/ from_colorspace = global_role_scene_linear cat ->
      forall buffer,
        rect_float = Some buffer ->
        colormanage_imbuf_make_linear cat ibuf rect_float rect predivide from_colorspace
        = Done (ibuf, Some buffer, None))
  /\ (IMB_colormanagement_space_name_is_data cat from_colorspace = false ->
      from_colorspace <> EmptyString ->
      from_colorspace <> global_role_scene_linear cat ->
      colormanage_colorspace_get_named cat (global_role_scene_linear cat) = None ->
      forall buffer,
        rect_float = Some buffer ->
        colormanage_imbuf_make_linear cat ibuf rect_float rect predivide from_colorspace
        = Crash).
Proof.
  unfold colormanage_imbuf_make_linear, IMB_colormanagement_space_name_is_data.
  split; [intros ->; reflexivity|].
  split; [intros -> ->; reflexivity|].
  split.
  - intros -> Hfrom buffer ->.
    unfold IMB_colormanagement_transform.
    rewrite (colormanagement_transform_ex_noop cat None (Some buffer)) by exact Hfrom.
    reflexivity.
  - intros -> Hne1 Hne2 Hto buffer ->.
    unfold IMB_colormanagement_transform, colormanagement_transform_ex.
    destruct (str_is_empty from_colorspace) eqn:Hempty;
      [apply str_is_empty_true in Hempty; contradiction|].
    destruct (STREQ from_colorspace (global_role_scene_linear cat)) eqn:Heq;
      [apply String.eqb_eq in Heq; contradiction|].
    unfold IMB_colormanagement_colorspace_processor_new. rewrite Hto. reflexivity.
Qed.

End ImageSpaceFacts.

(** ** The stored description is one line *)

Lemma strip_trailing_line_breaks_split (description : string) :
  exists tail,
    description = (strip_trailing_line_breaks description ++ tail)%string
    /\ only_line_breaks tail = true
    /\ match last_char (strip_trailing_line_breaks description) with
       | Some c => is_line_break c = false
       | None => True
       end.
Proof.
  induction description as [|c rest IH].
  - exists EmptyString. repeat split.
  - destruct IH as (tail & Hsplit & Hbreaks & Hlast).
    cbn [strip_trailing_line_breaks].
    destruct (strip_trailing_line_breaks rest) as [|c' stripped] eqn:Hstripped.
    + destruct (is_line_break c) eqn:Hc.
      * exists (String c tail). cbn [String.append] in *. subst rest.
        split; [reflexivity|]. cbn [only_line_breaks]. rewrite Hc, Hbreaks.
        split; [reflexivity | exact I].
      * exists tail. cbn [String.append] in *. subst rest.
        split; [reflexivity|]. split; [exact Hbreaks|]. cbn. exact Hc.
    + exists tail. cbn [String.append] in *. rewrite Hsplit at 1.
      split; [reflexivity|]. split; [exact Hbreaks|].
      cbn [last_char] in *. exact Hlast.
Qed.

Lemma line_breaks_to_spaces_single_line (s : string) :
  single_line (line_breaks_to_spaces s) = true.
Proof.
  induction s as [|c rest IH]; [reflexivity|].
  cbn [line_breaks_to_spaces single_line]. rewrite IH.
  destruct (is_line_break c) eqn:Hc; [reflexivity|]. rewrite Hc. reflexivity.
Qed.

Lemma line_breaks_to_spaces_length (s : string) :
  String.length (line_breaks_to_spaces s) = String.length s.
Proof.
  induction s as [|c rest IH]; [reflexivity|].
  cbn [line_breaks_to_spaces String.length]. now rewrite IH.
Qed.

Lemma line_breaks_to_spaces_id (s : string) :
  single_line s = true -> line_breaks_to_spaces s = s.
Proof.
  induction s as [|c rest IH]; [reflexivity|].
  cbn [single_line line_breaks_to_spaces]. intros H.
  apply andb_prop in H. destruct H as [Hc Hrest].
  apply negb_true_iff in Hc. rewrite Hc, IH by exact Hrest. reflexivity.
Qed.

Lemma strip_trailing_line_breaks_id (s : string) :
  single_line s = true -> strip_trailing_line_breaks s = s.
Proof.
  induction s as [|c rest IH]; [reflexivity|].
  cbn [single_line strip_trailing_line_breaks]. intros H.
  apply andb_prop in H. destruct H as [Hc Hrest].
  apply negb_true_iff in Hc. rewrite IH by exact Hrest.
  destruct rest; [rewrite Hc|]; reflexivity.
Qed.

Lemma string_length_append (a b : string) :
  String.length (a ++ b) = (String.length a + String.length b)%nat.
Proof.
  induction a as [|c a IH]; [reflexivity|].
  cbn [String.append String.length]. now rewrite IH.
Qed.

(** X14. The description that [colormanage_description_strip] leaves has
    no line break.  It is made from the description without the line
    breaks it ends with, by putting a space for every line break that is
    left, and has the length of that body.  Stripping it again changes
    nothing, and a description without line breaks is left as it is. *)
Theorem colormanage_description_strip_single_line (description : string) :
  let stored := colormanage_description_strip description in
  single_line stored = true
  /\ (exists body tail,
        description = (body ++ tail)%string
        /\ only_line_breaks tail = true
        /\ match last_char body with
           | Some c => is_line_break c = false
           | None => True
           end
        /\ stored = line_breaks_to_spaces body
        /\ String.length stored = String.length body)
  /\ colormanage_description_strip stored = stored
  /\ (single_line description = true -> stored = description).
Proof.
  intros stored. unfold stored, colormanage_description_strip.
  pose proof (line_breaks_to_spaces_single_line (strip_trailing_line_breaks description))
    as Hsingle.
  split; [exact Hsingle|]. split.
  - destruct (strip_trailing_line_breaks_split description) as (tail & Hsplit & Hbreaks & Hlast).
    exists (strip_trailing_line_breaks description), tail.
    split; [exact Hsplit|]. split; [exact Hbreaks|]. split; [exact Hlast|].
    split; [reflexivity | apply line_breaks_to_spaces_length].
  - split.
    + rewrite (strip_trailing_line_breaks_id _ Hsingle).
      apply line_breaks_to_spaces_id, Hsingle.
    + intros Hline. rewrite (strip_trailing_line_breaks_id _ Hline).
      apply line_breaks_to_spaces_id, Hline.
Qed.

(** A description of two lines that ends in a line break. *)
Example colormanage_description_strip_two_lines :
  colormanage_description_strip
    (String.append "Scene linear"
       (String (Ascii.ascii_of_nat 13)
          (String (Ascii.ascii_of_nat 10)
             (String.append "Rec.709 primaries"
                (String (Ascii.ascii_of_nat 10) EmptyString)))))
  = "Scene linear  Rec.709 primaries"%string.
Proof. reflexivity. Qed.

(** ** The hash separates the keys of a catalog *)

Lemma lor_shifted_small (d v : Z) :
  0 <= d -> 0 <= v < 2 ^ 16 -> Z.lor (Z.shiftl d 16) v = d * 65536 + v.
Proof.
  intros Hd Hv.
  assert (Hland : Z.land (Z.shiftl d 16) v = 0).
  { apply Z.bits_inj'. intros i Hi. rewrite Z.land_spec, Z.bits_0.
    destruct (Z.lt_ge_cases i 16) as [Hlow | Hhigh].
    - rewrite Z.shiftl_spec_low by lia. reflexivity.
    - assert (Hvi : Z.testbit v i = false).
      { destruct (Z.eq_dec v 0) as [-> | Hne]; [apply Z.bits_0|].
        apply Z.bits_above_log2; [lia|].
        assert (Z.log2 v < 16) by (apply Z.log2_lt_pow2; lia). lia. }
      rewrite Hvi. apply andb_false_r. }
  pose proof (Z.add_lor_land (Z.shiftl d 16) v) as Hadd.
  rewrite Hland in Hadd. rewrite Z.shiftl_mul_pow2 in Hadd |- * by lia.
  change (2 ^ 16) with 65536 in Hadd |- *. lia.
Qed.

Lemma colormanage_hashhash_value (key : ColormanageCacheKey) :
  0 <= key_display key < 2 ^ 15 -> 0 <= key_view key < 65535 ->
  colormanage_hashhash key = Done (key_display key * 65536 + key_view key).
Proof.
  intros Hd Hv. unfold colormanage_hashhash, int_shl.
  change (2 ^ 15) with 32768 in Hd.
  replace ((0 <=? 16) && (16 <? 32) && (0 <=? key_display key)
           && (key_display key * 2 ^ 16 <=? CInt.INT_MAX)) with true.
  2:{ symmetry. change (2 ^ 16) with 65536. unfold CInt.INT_MAX.
      change (2 ^ 31 - 1) with 2147483647.
      repeat (apply andb_true_intro; split); try reflexivity;
        apply Z.leb_le; lia. }
  cbn [mbind exec_bind].
  rewrite Z.rem_small by lia.
  rewrite lor_shifted_small by (change (2 ^ 16) with 65536; lia).
  rewrite Z.mod_small by (change (2 ^ 32) with 4294967296; lia).
  reflexivity.
Qed.

(** X15. For keys with a display index from 0 to 32767 and a view index
    from 0 to 65534, [colormanage_hashhash] is defined, gives a value of
    [unsigned int], and gives two keys the same value exactly when
    [colormanage_hashcmp] reports them equal. *)
Theorem colormanage_hashhash_separates (a b : ColormanageCacheKey) :
  0 <= key_display a < 2 ^ 15 -> 0 <= key_view a < 65535 ->
  0 <= key_display b < 2 ^ 15 -> 0 <= key_view b < 65535 ->
  exists hash_a hash_b,
    colormanage_hashhash a = Done hash_a
    /\ colormanage_hashhash b = Done hash_b
    /\ 0 <= hash_a < 2 ^ 32
    /\ (hash_a = hash_b <-> colormanage_hashcmp a b = false).
Proof.
  intros Hda Hva Hdb Hvb.
  exists (key_display a * 65536 + key_view a), (key_display b * 65536 + key_view b).
  split; [apply colormanage_hashhash_value; assumption|].
  split; [apply colormanage_hashhash_value; assumption|].
  change (2 ^ 15) with 32768 in *. change (2 ^ 32) with 4294967296.
  split; [lia|].
  unfold colormanage_hashcmp. split.
  - intros Heq.
    assert (key_display a = key_display b) by lia.
    assert (key_view a = key_view b) by lia.
    apply orb_false_intro; apply negb_false_iff, Z.eqb_eq; assumption.
  - intros Hcmp. apply orb_false_elim in Hcmp. destruct Hcmp as [Hv Hd].
    apply negb_false_iff, Z.eqb_eq in Hv, Hd. rewrite Hv, Hd. reflexivity.
Qed.

(** The keys of the two views of the first display. *)
Lemma colormanage_hashhash_separates_witness :
  colormanage_hashhash {| key_view := 1; key_display := 1 |} = Done 65537
  /\ colormanage_hashhash {| key_view := 2; key_display := 1 |} = Done 65538.
Proof.
  destruct (colormanage_hashhash_separates {| key_view := 1; key_display := 1 |}
              {| key_view := 2; key_display := 1 |})
    as (hash_a & hash_b & Ha & Hb & _); try (cbn; lia).
  split; reflexivity.
Defined.

(** ** Delayed updates keep every pixel they were told of *)

(** X16. When [BLI_rcti_init] and [BLI_rcti_union] cover what they are
    given, the rectangle that [IMB_partial_display_buffer_update_delayed]
    leaves holds every pixel of the rectangle it had and every pixel of
    the rectangle it is told of. *)
Theorem IMB_partial_display_buffer_update_delayed_covers {rects : RectOps}
    (invalid_rect : rcti) (xmin ymin xmax ymax x y : Z) :
  rect_ops_cover ->
  in_rcti invalid_rect x y \/ (xmin <= x < xmax /\ ymin <= y < ymax) ->
  in_rcti (IMB_partial_display_buffer_update_delayed invalid_rect xmin ymin xmax ymax) x y.
Proof.
  intros [Hinit Hunion] Hpixel. unfold IMB_partial_display_buffer_update_delayed.
  destruct (Z.eqb_spec (rcti_xmin invalid_rect) (rcti_xmax invalid_rect)) as [Hempty | Hsome].
  - destruct Hpixel as [[Hx _] | [Hx Hy]]; [lia|]. apply Hinit; assumption.
  - apply Hunion. destruct Hpixel as [Hold | [Hx Hy]]; [left; exact Hold|].
    right. apply Hinit; assumption.
Qed.

Lemma example_rect_ops_cover : @rect_ops_cover example_rects.
Proof.
  split.
  - intros xmin xmax ymin ymax x y Hx Hy. unfold in_rcti. cbn. lia.
  - intros a b x y Hin. unfold in_rcti in *. cbn. lia.
Qed.

(** Two delayed updates, of the pixels (0, 0) and (5, 7): the rectangle
    holds both. *)
Lemma IMB_partial_display_buffer_update_delayed_covers_witness :
  in_rcti
    (@IMB_partial_display_buffer_update_delayed example_rects
       (@IMB_partial_display_buffer_update_delayed example_rects
          {| rcti_xmin := 0; rcti_xmax := 0; rcti_ymin := 0; rcti_ymax := 0 |}
          0 0 1 1)
       5 7 6 8)
    0 0.
Proof.
  apply (@IMB_partial_display_buffer_update_delayed_covers example_rects).
  - exact example_rect_ops_cover.
  - left. unfold in_rcti. cbn. lia.
Defined.

(** ** The menus offer what the catalog can look up *)

Lemma fold_item_add {A} (keep : A -> bool) (mk : A -> EnumPropertyItem)
    (l : list A) (items : list EnumPropertyItem) :
  fold_left (fun items a => if negb (keep a) then items else RNA_enum_item_add items (mk a))
            l items
  = items ++ (mk <$> List.filter keep l).
Proof.
  revert items. induction l as [|a l IH]; intros items; simpl.
  - now rewrite app_nil_r.
  - rewrite IH. destruct (keep a); simpl; [|reflexivity].
    unfold RNA_enum_item_add. now rewrite <- app_assoc.
Qed.

Lemma fold_item_add_all {A} (mk : A -> EnumPropertyItem)
    (l : list A) (items : list EnumPropertyItem) :
  fold_left (fun items a => RNA_enum_item_add items (mk a)) l items = items ++ (mk <$> l).
Proof.
  revert items. induction l as [|a l IH]; intros items; simpl.
  - now rewrite app_nil_r.
  - rewrite IH. unfold RNA_enum_item_add. now rewrite <- app_assoc.
Qed.

(** In a numbered list the index of a member leads [BLI_findlink] to it. *)
Lemma numbered_member_link {A} (index : A -> Z) (l : list A) (a : A) :
  numbered index l -> Z.of_nat (length l) <= CInt.INT_MAX -> a ∈ l ->
  (number ← CInt.sub (index a) 1; Done (BLI_findlink l number)) = Done (Some a).
Proof.
  intros Hl Hlen Hin. apply list_elem_of_lookup in Hin. destruct Hin as [i Hi].
  pose proof (numbered_lookup index l i a Hl Hi) as Hidx.
  pose proof (lookup_lt_Some _ _ _ Hi) as Hlt.
  rewrite CInt_sub_done by (unfold CInt.INT_MIN, CInt.INT_MAX in *; lia).
  cbn. unfold BLI_findlink.
  replace (0 <=? index a - 1) with true by (symmetry; apply Z.leb_le; lia).
  replace (Z.to_nat (index a - 1)) with i by lia. now rewrite Hi.
Qed.

Lemma filter_member {A} (keep : A -> bool) (l : list A) (a : A) :
  a ∈ List.filter keep l -> a ∈ l.
Proof.
  intros Hin. apply list_elem_of_In. apply list_elem_of_In in Hin.
  apply filter_In in Hin. tauto.
Qed.

(** X17. In a catalog that is numbered in list order, whose counts fit an
    [int] and whose displays list views of the catalog, each of the four
    functions that fill a menu appends to the items it is given, in list
    order: one item for every display; one for every view of the named
    display, and none for an unknown display; one for every look that
    [colormanage_compatible_look] accepts for the view; one for every
    invertible colour space.  The value of every item that is added is an
    index at which the lookup by index finds the item's identifier. *)
Theorem colormanagement_items_add_indexed cat items description view device :
  catalog_numbered cat -> catalog_counts_representable cat -> views_registered_once cat ->
  (exists added,
     IMB_colormanagement_display_items_add cat items = items ++ added
     /\ item_identifier <$> added = display_name <$> global_displays cat
     /\ Forall (fun item =>
                  IMB_colormanagement_display_get_indexed_name cat (item_value item)
                  = Done (Some (item_identifier item))) added)
  /\ (exists added,
        IMB_colormanagement_view_items_add cat items device = items ++ added
        /\ item_identifier <$> added
           = match colormanage_display_get_named cat device with
             | Some display => view_name <$> display_views display
             | None => []
             end
        /\ Forall (fun item =>
                     IMB_colormanagement_view_get_indexed_name cat (item_value item)
                     = Done (Some (item_identifier item))) added)
  /\ (exists added,
        IMB_colormanagement_look_items_add cat items view = items ++ added
        /\ item_identifier <$> added
           = look_name <$> List.filter (fun look => colormanage_compatible_look look view)
                             (global_looks cat)
        /\ Forall (fun item =>
                     IMB_colormanagement_look_get_indexed_name cat (item_value item)
                     = Done (Some (item_identifier item))) added)
  /\ (exists added,
        IMB_colormanagement_colorspace_items_add description cat items = items ++ added
        /\ item_identifier <$> added
           = colorspace_name <$> List.filter is_invertible (global_colorspaces cat)
        /\ Forall (fun item =>
                     IMB_colormanagement_colorspace_get_indexed_name cat (item_value item)
                     = Done (item_identifier item)) added).
Proof.
  intros ((Hcs & Hd & Hv & Hl & Htc & Htv & Htl) & Htd) (Hrc & Hrd & Hrv & Hrl)
         (_ & Hlisted).
  split; [|split; [|split]].
  - eexists. split; [apply fold_item_add_all|]. split.
    + rewrite <- list_fmap_compose. reflexivity.
    + apply Forall_fmap, Forall_forall. intros display Hin. cbn.
      unfold IMB_colormanagement_display_get_indexed_name, colormanage_display_get_indexed.
      pose proof (numbered_member_link display_index _ display Hd ltac:(lia) Hin) as Hlink.
      cbn in Hlink |- *.
      destruct (CInt.sub (display_index display) 1); [|discriminate].
      cbn in Hlink |- *. injection Hlink as ->. reflexivity.
  - unfold IMB_colormanagement_view_items_add.
    destruct (colormanage_display_get_named cat device) as [display|] eqn:Hfind.
    + eexists. split; [apply fold_item_add_all|]. split.
      * rewrite <- list_fmap_compose. reflexivity.
      * apply Forall_fmap, Forall_forall. intros v Hin. cbn.
        unfold colormanage_display_get_named in Hfind. apply find_some in Hfind.
        destruct Hfind as [Hdin _]. apply list_elem_of_In in Hdin.
        pose proof (Hlisted display v Hdin Hin) as Hvin.
        unfold IMB_colormanagement_view_get_indexed_name, colormanage_view_get_indexed.
        pose proof (numbered_member_link view_index _ v Hv ltac:(lia) Hvin) as Hlink.
        cbn in Hlink |- *.
        destruct (CInt.sub (view_index v) 1); [|discriminate].
        cbn in Hlink |- *. injection Hlink as ->. reflexivity.
    + exists []. rewrite app_nil_r. repeat split. constructor.
  - eexists. split.
    { apply (fold_item_add (fun look => colormanage_compatible_look look view)). }
    split.
    + rewrite <- list_fmap_compose. reflexivity.
    + apply Forall_fmap, Forall_forall. intros look Hin. cbn.
      apply filter_member in Hin.
      unfold IMB_colormanagement_look_get_indexed_name, colormanage_look_get_indexed.
      pose proof (numbered_member_link look_index _ look Hl ltac:(lia) Hin) as Hlink.
      cbn in Hlink |- *.
      destruct (CInt.sub (look_index look) 1); [|discriminate].
      cbn in Hlink |- *. injection Hlink as ->. reflexivity.
  - eexists. split.
    { apply (fold_item_add is_invertible). }
    split.
    + rewrite <- list_fmap_compose. reflexivity.
    + apply Forall_fmap, Forall_forall. intros colorspace Hin. cbn.
      apply filter_member in Hin.
      unfold IMB_colormanagement_colorspace_get_indexed_name,
        colormanage_colorspace_get_indexed.
      pose proof (numbered_member_link colorspace_index _ colorspace Hcs ltac:(lia) Hin)
        as Hlink.
      cbn in Hlink |- *.
      destruct (CInt.sub (colorspace_index colorspace) 1); [|discriminate].
      cbn in Hlink |- *. injection Hlink as ->. reflexivity.
Qed.

Lemma example_catalog_views_registered_once : views_registered_once example_catalog.
Proof.
  split.
  - vm_compute. apply NoDup_cons. split; [|apply NoDup_singleton].
    intros Hin. apply list_elem_of_singleton in Hin. discriminate Hin.
  - intros display view Hd Hv. vm_compute in Hd.
    apply list_elem_of_singleton in Hd. subst display. exact Hv.
Qed.

(** In the example catalog the menu of looks for the view "Raw" offers the
    look "None" alone: the look of the configuration belongs to the view
    "Standard". *)
Lemma colormanagement_items_add_indexed_witness :
  item_identifier <$> IMB_colormanagement_look_items_add example_catalog [] (Some "Raw"%string)
  = ["None"%string].
Proof.
  destruct (colormanagement_items_add_indexed example_catalog [] (fun _ => EmptyString)
              (Some "Raw"%string) "sRGB")
    as (_ & _ & (added & Hadd & Hnames & _) & _).
  - repeat split; reflexivity.
  - vm_compute. repeat split; discriminate.
  - exact example_catalog_views_registered_once.
  - rewrite Hadd. change ([] ++ added) with added. rewrite Hnames. reflexivity.
Defined.

(** ** Loops over the pixels of a buffer *)

Lemma exec_fold_indexed {St} (Inv : Z -> St -> Prop) (body : St -> Z -> exec St)
    (lo n : Z) (s : St) :
  0 <= n -> Inv lo s ->
  (forall i s1, lo <= i < lo + n -> Inv i s1 ->
                exists s2, body s1 i = Done s2 /\ Inv (i + 1) s2) ->
  exists s', exec_fold body (seqZ lo n) s = Done s' /\ Inv (lo + n) s'.
Proof.
  intros Hn. rewrite <- (Z2Nat.id n Hn). generalize (Z.to_nat n) as k. clear n Hn.
  intros k. revert lo s. induction k as [|k IH]; intros lo s Hs Hbody.
  - exists s. split; [reflexivity|]. now rewrite Z.add_0_r.
  - rewrite seqZ_cons by lia. simpl exec_fold.
    destruct (Hbody lo s) as (s1 & -> & Hs1); [lia | exact Hs|].
    cbn [mbind exec_bind].
    replace (Z.pred (Z.of_nat (S k))) with (Z.of_nat k) by lia.
    destruct (IH (Z.succ lo) s1) as (s' & Hrun & Hs').
    + now replace (Z.succ lo) with (lo + 1) by lia.
    + intros i s2 Hi. apply Hbody. lia.
    + exists s'. split; [exact Hrun|].
      now replace (lo + Z.of_nat (S k)) with (Z.succ lo + Z.of_nat k) by lia.
Qed.

Lemma for_yx_indexed {St} (Inv : Z -> St -> Prop) (width height : Z)
    (body : St -> Z -> Z -> exec St) (s : St) :
  0 <= width -> 0 <= height -> Inv 0 s ->
  (forall s1 y x, 0 <= y < height -> 0 <= x < width -> Inv (y * width + x) s1 ->
                  exists s2, body s1 y x = Done s2 /\ Inv (y * width + x + 1) s2) ->
  exists s', for_yx 0 height 0 width body s = Done s' /\ Inv (height * width) s'.
Proof.
  intros Hw Hh Hs Hbody. unfold for_yx. rewrite !Z.sub_0_r.
  destruct (exec_fold_indexed (fun y s1 => Inv (y * width) s1)
              (fun s1 y => exec_fold (fun s2 x => body s2 y x) (seqZ 0 width) s1)
              0 height s Hh) as (s' & Hrun & Hs').
  - exact Hs.
  - intros y s1 Hy Hs1.
    destruct (exec_fold_indexed (fun x s2 => Inv (y * width + x) s2)
                (fun s2 x => body s2 y x) 0 width s1 Hw) as (s2 & Hrun & Hs2).
    + now rewrite Z.add_0_r.
    + intros x s2 Hx Hs2. rewrite Z.add_assoc. apply Hbody; [lia | lia | exact Hs2].
    + exists s2. split; [exact Hrun|].
      now replace ((y + 1) * width) with (y * width + (0 + width)) by ring.
  - exists s'. split; [exact Hrun | exact Hs'].
Qed.

Lemma pixels_written_start {A} (expected : Z -> list A) (old : list A) :
  pixels_written expected old 0 old.
Proof.
  split; [reflexivity|]. split; [intros p k Hp; lia|]. reflexivity.
Qed.

(** The store of the next pixel. *)
Lemma pixels_written_store expected old n buffer bytes :
  pixels_written expected old n buffer -> 0 <= n ->
  4 * n + 4 <= Z.of_nat (length old) ->
  length bytes = 4%nat -> bytes = expected n ->
  exists buffer',
    buffer_store buffer (4 * n) bytes = Done buffer'
    /\ pixels_written expected old (n + 1) buffer'.
Proof.
  intros (Hlen & Hdone & Hrest) Hn Hfit Hbytes Hexp. unfold buffer_store.
  rewrite Hbytes, Hlen.
  destruct (Z.leb_spec (4 * n + Z.of_nat 4) (Z.of_nat (length old))); [|lia].
  eexists. split; [reflexivity|]. split; [|split].
  - now rewrite length_inserts.
  - intros p k Hp Hk.
    destruct (Z.eq_dec p n) as [->|Hne].
    + rewrite list_lookup_inserts by (rewrite ?Hbytes, ?Hlen; lia).
      rewrite Hexp. f_equal. lia.
    + rewrite list_lookup_inserts_lt by lia. apply Hdone; lia.
  - intros i Hi. rewrite list_lookup_inserts_ge by (rewrite Hbytes; lia).
    apply Hrest. lia.
Qed.

(** What is read from the pixels that are not yet written. *)
Lemma pixels_written_get4 expected old n buffer :
  pixels_written expected old n buffer -> 0 <= n ->
  4 * n + 4 <= Z.of_nat (length old) ->
  buffer_get4 buffer (4 * n) = Done (pixel_bytes old n).
Proof.
  intros (Hlen & _ & Hrest) Hn Hfit. unfold buffer_get4, buffer_get, pixel_bytes.
  assert (Hat : forall k, 0 <= k < 4 ->
            buffer !! Z.to_nat (4 * n + k) = old !! (Z.to_nat (4 * n) + Z.to_nat k)%nat).
  { intros k Hk. rewrite Hrest by lia. f_equal. lia. }
  destruct (lookup_lt_is_Some_2 old (Z.to_nat (4 * n) + 0)) as [b0 H0]; [lia|].
  destruct (lookup_lt_is_Some_2 old (Z.to_nat (4 * n) + 1)) as [b1 H1]; [lia|].
  destruct (lookup_lt_is_Some_2 old (Z.to_nat (4 * n) + 2)) as [b2 H2]; [lia|].
  destruct (lookup_lt_is_Some_2 old (Z.to_nat (4 * n) + 3)) as [b3 H3]; [lia|].
  replace (4 * n) with (4 * n + 0) at 1 by lia.
  rewrite (Hat 0), (Hat 1), (Hat 2), (Hat 3) by lia.
  change (Z.to_nat 0) with 0%nat. change (Z.to_nat 1) with 1%nat.
  change (Z.to_nat 2) with 2%nat. change (Z.to_nat 3) with 3%nat.
  rewrite H0, H1, H2, H3. cbn [deref mbind exec_bind mret exec_ret]. f_equal.
  apply list_eq. intros i. rewrite lookup_take, lookup_drop.
  destruct i as [|[|[|[|i]]]]; cbn; case_decide; try lia;
    first [congruence | apply lookup_nil].
Qed.

Lemma pixel_offset_small (y width x : Z) :
  0 <= y <= CInt.INT_MAX -> 0 <= width <= CInt.INT_MAX -> 0 <= x <= CInt.INT_MAX ->
  pixel_offset 4 y width x = 4 * (y * width + x).
Proof.
  unfold CInt.INT_MAX. intros Hy Hw Hx.
  unfold pixel_offset, CInt.size_mul, CInt.size_add, CInt.to_size_t, CInt.SIZE_MOD.
  pose proof (Z.mul_le_mono_nonneg y (2 ^ 31 - 1) width (2 ^ 31 - 1)
                ltac:(lia) ltac:(lia)) as Hprod.
  pose proof (Z.mul_nonneg_nonneg y width ltac:(lia) ltac:(lia)) as Hprod0.
  change ((2 ^ 31 - 1) * (2 ^ 31 - 1)) with 4611686014132420609 in Hprod.
  change (2 ^ 31 - 1) with 2147483647 in *. change (2 ^ 64) with 18446744073709551616.
  rewrite (Z.mod_small y) by lia.
  rewrite (Z.mod_small (y * width)) by lia.
  rewrite (Z.mod_small (y * width + x)) by lia.
  apply Z.mod_small. lia.
Qed.

Section PixelLoops.

Context {constants : HeaderConstants} {helpers : Helpers}
        {engine : TransformEngine} {pixel_helpers : PixelHelpers}.

(** X18. On a buffer of four channels that holds [width] x [height] pixels
    [IMB_colormanagement_processor_apply_byte] completes and is a map over
    the pixels: every pixel becomes the bytes of the processed float
    conversion of its own four bytes before the call, whatever the other
    pixels hold, and the bytes behind the last pixel stay as they are. *)
Theorem IMB_colormanagement_processor_apply_byte_pixelwise
    (cm_processor : ColormanageProcessor) (buffer : list Byte.byte) (width height : Z) :
  0 <= width <= CInt.INT_MAX -> 0 <= height <= CInt.INT_MAX ->
  4 * (height * width) <= Z.of_nat (length buffer) ->
  exists buffer',
    IMB_colormanagement_processor_apply_byte cm_processor buffer width height 4
    = Done buffer'
    /\ pixels_written
         (fun p => bytes4 (rgba_float_to_uchar
                             (IMB_colormanagement_processor_apply_v4 cm_processor
                                (rgba_uchar_to_float (pixel_bytes buffer p)))))
         buffer (height * width) buffer'.
Proof.
  intros Hw Hh Hfit. unfold IMB_colormanagement_processor_apply_byte.
  apply for_yx_indexed; [lia | lia | apply pixels_written_start|].
  intros buf y x Hy Hx Hinv.
  assert (Hp : 0 <= y * width + x < height * width) by nia.
  rewrite pixel_offset_small by lia.
  rewrite (pixels_written_get4 _ _ _ _ Hinv) by lia.
  cbn [mbind exec_bind].
  apply (pixels_written_store _ _ _ _ _ Hinv); [lia | lia | | reflexivity].
  destruct (rgba_float_to_uchar _) as [[[b0 b1] b2] b3]. reflexivity.
Qed.

End PixelLoops.

(** A buffer of two pixels and four more bytes, of which one row of two
    pixels is processed. *)
Lemma IMB_colormanagement_processor_apply_byte_pixelwise_witness :
  exists buffer',
    IMB_colormanagement_processor_apply_byte (helpers := example_helpers) (engine := example_engine) example_processor (replicate 12 Byte.x00) 2 1 4
    = Done buffer'
    /\ buffer' !! 8%nat = Some Byte.x00.
Proof.
  destruct (IMB_colormanagement_processor_apply_byte_pixelwise (helpers := example_helpers) (engine := example_engine) example_processor
              (replicate 12 Byte.x00) 2 1)
    as (buffer' & Hrun & _ & _ & Hrest).
  - vm_compute. split; discriminate.
  - vm_compute. split; discriminate.
  - simpl. lia.
  - exists buffer'. split; [exact Hrun|]. rewrite Hrest by lia. reflexivity.
Defined.

(** ** Byte textures *)

Lemma uchar_value_range (b : Byte.byte) : 0 <= uchar_value b <= 255.
Proof.
  unfold uchar_value. pose proof (Byte.to_N_bounded b). lia.
Qed.

Lemma uchar_value_of_int (z : Z) : 0 <= z <= 255 -> uchar_value (uchar_of_int z) = z.
Proof.
  intros Hz. unfold uchar_value, uchar_of_int. rewrite Z.mod_small by lia.
  destruct (Byte.of_N (Z.to_N z)) as [b|] eqn:Hb.
  - apply Byte.to_of_N in Hb. rewrite Hb. lia.
  - apply Byte.of_N_None_iff in Hb. lia.
Qed.

(** The shift and the conversion back to a byte lose nothing but the
    fraction of the product. *)
Lemma uchar_value_premultiplied (c a : Byte.byte) :
  uchar_value (premultiplied_uchar c a) = uchar_value c * uchar_value a / 256.
Proof.
  unfold premultiplied_uchar. rewrite Z.shiftr_div_pow2 by lia.
  change (2 ^ 8) with 256.
  pose proof (uchar_value_range c) as Hc. pose proof (uchar_value_range a) as Ha.
  apply uchar_value_of_int.
  assert (0 <= uchar_value c * uchar_value a <= 65025) by nia.
  split; [apply Z.div_pos; lia|].
  apply Z.lt_succ_r, Z.div_lt_upper_bound; lia.
Qed.

Lemma int_add_done (a b : Z) :
  CInt.INT_MIN <= a + b <= CInt.INT_MAX -> int_add a b = Done (a + b).
Proof.
  intros H. unfold int_add, CInt.in_int.
  destruct (Z.leb_spec CInt.INT_MIN (a + b)); [|lia].
  destruct (Z.leb_spec (a + b) CInt.INT_MAX); [reflexivity | lia].
Qed.

Lemma int_mul_done (a b : Z) :
  CInt.INT_MIN <= a * b <= CInt.INT_MAX -> int_mul a b = Done (a * b).
Proof.
  intros H. unfold int_mul, CInt.in_int.
  destruct (Z.leb_spec CInt.INT_MIN (a * b)); [|lia].
  destruct (Z.leb_spec (a * b) CInt.INT_MAX); [reflexivity | lia].
Qed.

Lemma size_offset_small (n : Z) :
  0 <= n <= CInt.INT_MAX -> CInt.size_mul (CInt.to_size_t n) 4 = 4 * n.
Proof.
  unfold CInt.INT_MAX, CInt.size_mul, CInt.to_size_t, CInt.SIZE_MOD. intros Hn.
  change (2 ^ 31 - 1) with 2147483647 in Hn. change (2 ^ 64) with 18446744073709551616.
  rewrite (Z.mod_small n) by lia. rewrite Z.mod_small by lia. lia.
Qed.

Lemma row_major_div_mod (y width x : Z) :
  0 <= x < width -> (y * width + x) / width = y /\ (y * width + x) mod width = x.
Proof.
  intros Hx. split.
  - symmetry. apply (Z.div_unique_pos _ _ y x); [lia | ring].
  - symmetry. apply (Z.mod_unique_pos _ _ y x); [lia | ring].
Qed.

(** Reads inside a buffer. *)
Lemma element_at_lookup {A} (d : A) (buffer : list A) (i : Z) :
  0 <= i < Z.of_nat (length buffer) ->
  buffer !! Z.to_nat i = Some (element_at d buffer i).
Proof.
  intros Hi. unfold element_at.
  destruct (lookup_lt_is_Some_2 buffer (Z.to_nat i) ltac:(lia)) as [v Hv].
  now rewrite Hv.
Qed.

Lemma buffer_get_done {A} (d : A) (buffer : list A) (i : Z) :
  0 <= i < Z.of_nat (length buffer) ->
  buffer_get buffer i = Done (element_at d buffer i).
Proof.
  intros Hi. unfold buffer_get. now rewrite (element_at_lookup d buffer i Hi).
Qed.

Lemma read4_done {A} (d : A) (buffer : list A) (i : Z) :
  0 <= i -> i + 4 <= Z.of_nat (length buffer) ->
  read4 buffer i
  = Done (element_at d buffer i, element_at d buffer (i + 1),
          element_at d buffer (i + 2), element_at d buffer (i + 3)).
Proof.
  intros Hi Hfit. unfold read4.
  rewrite !(buffer_get_done d) by lia. reflexivity.
Qed.

(** A pixel of a region inside an image lies inside the image. *)
Lemma region_pixel_inside (X Y offset_x offset_y width height x y : Z) :
  0 <= offset_x -> 0 <= offset_y ->
  offset_x + width <= X -> offset_y + height <= Y ->
  0 <= x <= width -> 0 <= y < height ->
  0 <= (offset_y + y) * X /\ (offset_y + y) * X + offset_x + x <= X * Y
  /\ ((offset_y + y) * X + offset_x + x < X * Y \/ x = width).
Proof.
  intros Hox Hoy Hxw Hyh Hx Hy.
  assert (H1 : 0 <= (offset_y + y) * X) by nia.
  assert (H2 : (offset_y + y) * X + X <= X * Y) by nia.
  split; [exact H1|]. split; [lia|].
  destruct (Z.eq_dec x width); [now right | left; lia].
Qed.

Section ByteTexture.

Context {constants : HeaderConstants} {helpers : Helpers}
        {engine : TransformEngine} {pixel_helpers : PixelHelpers}.

(** X19. [IMB_colormanagement_imbuf_to_byte_texture] when no processor is
    needed (no sRGB compression wanted, no colour space on the byte
    buffer, or a colour space that the engine calls sRGB), for a region
    that lies inside the image, an image whose number of pixels fits an
    [int] and whose byte buffer holds them, and an output buffer that
    holds [width] x [height] pixels: the call completes; pixel (x, y) of
    the output is pixel (offset_x + x, offset_y + y) of the image; without
    premultiplication it is copied byte for byte, with it the alpha byte
    is copied and every colour byte c becomes c * alpha / 256 rounded
    down, so that an opaque pixel (alpha 255) loses one step of every
    colour that is not 0; what lies behind the last pixel of the output
    stays as it is. *)
Theorem IMB_colormanagement_imbuf_to_byte_texture_pixels cat out_buffer
    offset_x offset_y width height ibuf rect alpha_affects_rgb
    compress_as_srgb store_premultiplied :
  (compress_as_srgb = false \/ rect_colorspace ibuf = None
   \/ exists cs, rect_colorspace ibuf = Some cs
                 /\ snd (OCIO_colorSpaceIsBuiltin (colorspace_name cs)) = true) ->
  0 <= offset_x -> 0 <= offset_y -> 0 <= width -> 0 <= height ->
  offset_x + width <= ibuf_x ibuf -> offset_y + height <= ibuf_y ibuf ->
  ibuf_y ibuf <= CInt.INT_MAX -> ibuf_x ibuf * ibuf_y ibuf <= CInt.INT_MAX ->
  4 * (ibuf_x ibuf * ibuf_y ibuf) <= Z.of_nat (length rect) ->
  4 * (height * width) <= Z.of_nat (length out_buffer) ->
  exists out_buffer',
    IMB_colormanagement_imbuf_to_byte_texture cat out_buffer offset_x offset_y width height
      ibuf (Some rect) alpha_affects_rgb compress_as_srgb store_premultiplied
    = Done out_buffer'
    /\ length out_buffer' = length out_buffer
    /\ (forall x y k,
          0 <= x < width -> 0 <= y < height -> 0 <= k < 4 ->
          let i := 4 * ((offset_y + y) * ibuf_x ibuf + offset_x + x) in
          exists c a,
            rect !! Z.to_nat (i + k) = Some c
            /\ rect !! Z.to_nat (i + 3) = Some a
            /\ uchar_value <$> out_buffer' !! Z.to_nat (4 * (y * width + x) + k)
               = Some (if alpha_affects_rgb && store_premultiplied && (k <? 3)
                       then uchar_value c * uchar_value a / 256
                       else uchar_value c)
            /\ (alpha_affects_rgb && store_premultiplied = true -> k < 3 ->
                uchar_value a = 255 -> 0 < uchar_value c ->
                uchar_value <$> out_buffer' !! Z.to_nat (4 * (y * width + x) + k)
                = Some (uchar_value c - 1)))
    /\ (forall i : nat, 4 * (height * width) <= Z.of_nat i ->
          out_buffer' !! i = out_buffer !! i).
Proof.
  intros Hpath Hox Hoy Hw Hh Hxw Hyh Hrows Hin Hrect Hfit.
  unfold IMB_colormanagement_imbuf_to_byte_texture.
  set (use_premultiply := alpha_affects_rgb && store_premultiplied).
  set (bb := element_at Byte.x00 rect).
  assert (Hx : 0 <= ibuf_x ibuf) by lia.
  assert (Hout : height * width <= ibuf_x ibuf * ibuf_y ibuf) by nia.
  assert (Hprocessor :
    (if compress_as_srgb then
       match rect_colorspace ibuf with
       | Some colorspace =>
           is_srgb ← IMB_colormanagement_space_is_srgb (Some colorspace);
           if negb is_srgb
           then Done (colorspace_to_scene_linear_cpu_processor cat colorspace)
           else Done None
       | None => Done None
       end
     else Done None) = Done None).
  { destruct Hpath as [-> | [-> | (cs & -> & Hsrgb)]].
    - reflexivity.
    - now destruct compress_as_srgb.
    - destruct compress_as_srgb; [|reflexivity].
      unfold IMB_colormanagement_space_is_srgb. cbn. now rewrite Hsrgb. }
  rewrite Hprocessor. cbn [mbind exec_bind].
  set (expected := fun p : Z =>
         texture_bytes use_premultiply bb
           (4 * ((offset_y + p / width) * ibuf_x ibuf + offset_x + p mod width))).
  assert (Hloop : exists out_buffer',
    exec_fold
      (fun out_buffer1 y =>
         row ← int_add offset_y y;
         row_start ← int_mul row (ibuf_x ibuf);
         in_offset ← int_add row_start offset_x;
         out_offset ← int_mul y width;
         let in_ := CInt.size_mul (CInt.to_size_t in_offset) 4 in
         let out := CInt.size_mul (CInt.to_size_t out_offset) 4 in
         if use_premultiply then
           exec_fold
             (fun out_buffer2 x =>
                bb' ← deref (Some rect);
                '(c0, c1, c2, c3) ← read4 bb' (in_ + 4 * x);
                buffer_store out_buffer2 (out + 4 * x)
                  [premultiplied_uchar c0 c3;
                   premultiplied_uchar c1 c3;
                   premultiplied_uchar c2 c3;
                   c3])
             (seqZ 0 width) out_buffer1
         else
           exec_fold
             (fun out_buffer2 x =>
                bb' ← deref (Some rect);
                '(c0, c1, c2, c3) ← read4 bb' (in_ + 4 * x);
                buffer_store out_buffer2 (out + 4 * x) [c0; c1; c2; c3])
             (seqZ 0 width) out_buffer1)
      (seqZ 0 height) out_buffer = Done out_buffer'
    /\ pixels_written expected out_buffer (0 + height * width) out_buffer').
  { replace (0 + height * width) with ((0 + height) * width) by ring.
    apply (exec_fold_indexed (fun y buf => pixels_written expected out_buffer (y * width) buf));
      [exact Hh | apply pixels_written_start|].
    intros y buf Hy Hinv.
    destruct (region_pixel_inside (ibuf_x ibuf) (ibuf_y ibuf) offset_x offset_y width height
                0 y Hox Hoy Hxw Hyh ltac:(lia) ltac:(lia)) as (Hrow0 & Hrow1 & _).
    assert (Hyw : 0 <= y * width /\ y * width + width <= height * width) by nia.
    unfold CInt.INT_MAX in Hrows, Hin.
    rewrite (int_add_done offset_y y) by (unfold CInt.INT_MIN, CInt.INT_MAX; lia).
    cbn [mbind exec_bind].
    rewrite (int_mul_done (offset_y + y) (ibuf_x ibuf))
      by (unfold CInt.INT_MIN, CInt.INT_MAX; lia).
    cbn [mbind exec_bind].
    rewrite (int_add_done ((offset_y + y) * ibuf_x ibuf) offset_x)
      by (unfold CInt.INT_MIN, CInt.INT_MAX; lia).
    cbn [mbind exec_bind].
    rewrite (int_mul_done y width) by (unfold CInt.INT_MIN, CInt.INT_MAX; lia).
    cbn [mbind exec_bind]. cbn zeta.
    rewrite !size_offset_small by (unfold CInt.INT_MAX; lia).
    replace ((y + 1) * width) with (y * width + (0 + width)) by ring.
    assert (Hread : forall x, 0 <= x < 0 + width ->
              read4 rect (4 * ((offset_y + y) * ibuf_x ibuf + offset_x) + 4 * x)
              = Done (let i := 4 * ((offset_y + y) * ibuf_x ibuf + offset_x) + 4 * x in
                      (bb i, bb (i + 1), bb (i + 2), bb (i + 3)))).
    { intros x Hxr.
      destruct (region_pixel_inside (ibuf_x ibuf) (ibuf_y ibuf) offset_x offset_y width
                  height x y Hox Hoy Hxw Hyh ltac:(lia) ltac:(lia)) as (_ & _ & [Hlt|Heq]);
        [|lia].
      apply read4_done; lia. }
    assert (Hstep : forall x buf2,
              0 <= x < 0 + width ->
              pixels_written expected out_buffer (y * width + x) buf2 ->
              exists buf3,
                buffer_store buf2 (4 * (y * width) + 4 * x)
                  (texture_bytes use_premultiply bb
                     (4 * ((offset_y + y) * ibuf_x ibuf + offset_x) + 4 * x)) = Done buf3
                /\ pixels_written expected out_buffer (y * width + (x + 1)) buf3).
    { intros x buf2 Hxr Hinv2.
      replace (4 * (y * width) + 4 * x) with (4 * (y * width + x)) by ring.
      rewrite Z.add_assoc.
      apply (pixels_written_store _ _ _ _ _ Hinv2); [lia | lia | |].
      - unfold texture_bytes. now destruct use_premultiply.
      - unfold expected.
        destruct (row_major_div_mod y width x ltac:(lia)) as [-> ->].
        f_equal. ring. }
    destruct use_premultiply eqn:Hpre.
    - apply (exec_fold_indexed
               (fun x buf2 => pixels_written expected out_buffer (y * width + x) buf2));
        [exact Hw | now rewrite Z.add_0_r|].
      intros x buf2 Hxr Hinv2. cbn [deref mbind exec_bind].
      rewrite (Hread x Hxr). cbn [mbind exec_bind]. cbn zeta.
      destruct (Hstep x buf2 Hxr Hinv2) as (buf3 & Hstore & Hinv3).
      exists buf3. split; [|exact Hinv3].
      rewrite <- Hstore. reflexivity.
    - apply (exec_fold_indexed
               (fun x buf2 => pixels_written expected out_buffer (y * width + x) buf2));
        [exact Hw | now rewrite Z.add_0_r|].
      intros x buf2 Hxr Hinv2. cbn [deref mbind exec_bind].
      rewrite (Hread x Hxr). cbn [mbind exec_bind]. cbn zeta.
      destruct (Hstep x buf2 Hxr Hinv2) as (buf3 & Hstore & Hinv3).
      exists buf3. split; [|exact Hinv3].
      rewrite <- Hstore. reflexivity. }
  destruct Hloop as (out_buffer' & Hrun & Hlen & Hpixels & Hrest).
  exists out_buffer'. split.
  { rewrite <- Hrun. cbn zeta. destruct use_premultiply; reflexivity. }
  split; [exact Hlen|]. split; [|intros i Hi; apply Hrest; lia].
  intros x y k Hxr Hyr Hk. cbn zeta.
  set (i := 4 * ((offset_y + y) * ibuf_x ibuf + offset_x + x)).
  destruct (region_pixel_inside (ibuf_x ibuf) (ibuf_y ibuf) offset_x offset_y width height
              x y Hox Hoy Hxw Hyh ltac:(lia) ltac:(lia)) as (Hrow0 & _ & [Hlt|Heq]); [|lia].
  assert (Hp : 0 <= y * width + x < 0 + height * width) by nia.
  assert (Hvalue :
    uchar_value <$> out_buffer' !! Z.to_nat (4 * (y * width + x) + k)
    = Some (if use_premultiply && (k <? 3)
            then uchar_value (bb (i + k)) * uchar_value (bb (i + 3)) / 256
            else uchar_value (bb (i + k)))).
  { rewrite (Hpixels _ k Hp Hk). unfold expected.
    destruct (row_major_div_mod y width x Hxr) as [-> ->]. fold i.
    unfold texture_bytes.
    assert (Hcases : k = 0 \/ k = 1 \/ k = 2 \/ k = 3) by lia.
    destruct use_premultiply; destruct Hcases as [-> | [-> | [-> | ->]]];
      simpl (Z.to_nat _); simpl (_ !! _); simpl (_ <$> _); simpl (_ && _);
      rewrite ?uchar_value_premultiplied, ?Z.add_0_r; reflexivity. }
  exists (bb (i + k)), (bb (i + 3)).
  split; [apply element_at_lookup; unfold i; lia|].
  split; [apply element_at_lookup; unfold i; lia|].
  split; [exact Hvalue|].
  intros Hpre Hk3 Ha Hc. rewrite Hvalue, Hpre.
  destruct (Z.ltb_spec k 3); [|lia]. cbn [andb]. f_equal.
  rewrite Ha. symmetry.
  pose proof (uchar_value_range (bb (i + k))).
  apply Z.div_unique with (r := 256 - uchar_value (bb (i + k))); [lia | ring].
Qed.

End ByteTexture.

(** The pixel (1, 1) of the example image of 2 x 2 opaque grey pixels,
    premultiplied: the colour 128 is stored as 127. *)
Lemma IMB_colormanagement_imbuf_to_byte_texture_pixels_witness :
  exists out_buffer',
    IMB_colormanagement_imbuf_to_byte_texture (helpers := example_helpers)
      (engine := example_engine) (pixel_helpers := example_pixel_helpers)
      example_catalog (replicate 4 Byte.x00) 1 1 1 1 example_ibuf
      (Some example_rect_grey_bytes) true false true
    = Done out_buffer'
    /\ uchar_value <$> out_buffer' !! 0%nat = Some 127.
Proof.
  destruct (IMB_colormanagement_imbuf_to_byte_texture_pixels
              (helpers := example_helpers) (engine := example_engine)
              (pixel_helpers := example_pixel_helpers)
              example_catalog (replicate 4 Byte.x00) 1 1 1 1 example_ibuf
              example_rect_grey_bytes true false true)
    as (out_buffer' & Hrun & _ & Hpixels & _).
  - left. reflexivity.
  - lia.
  - lia.
  - lia.
  - lia.
  - simpl. lia.
  - simpl. lia.
  - vm_compute. discriminate.
  - vm_compute. discriminate.
  - simpl. lia.
  - simpl. lia.
  - exists out_buffer'. split; [exact Hrun|].
    destruct (Hpixels 0 0 0 ltac:(lia) ltac:(lia) ltac:(lia))
      as (c & a & Hc & Ha & _ & Hopaque).
    vm_compute in Hc, Ha. injection Hc as <-. injection Ha as <-.
    apply Hopaque; [reflexivity | lia | reflexivity | vm_compute; reflexivity].
Defined.

(** ** Float textures *)

Lemma size_offset_channels (n c : Z) :
  0 <= n <= CInt.INT_MAX -> 0 <= c <= 4 -> CInt.size_mul (CInt.to_size_t n) c = c * n.
Proof.
  unfold CInt.INT_MAX, CInt.size_mul, CInt.to_size_t, CInt.SIZE_MOD. intros Hn Hc.
  change (2 ^ 31 - 1) with 2147483647 in Hn. change (2 ^ 64) with 18446744073709551616.
  rewrite (Z.mod_small n) by lia. rewrite Z.mod_small by nia. ring.
Qed.

Lemma buffer_set_done {A} (buffer : list A) (i : Z) (v : A) :
  i < Z.of_nat (length buffer) ->
  buffer_set buffer i v = Done (<[Z.to_nat i := v]> buffer).
Proof.
  intros Hi. unfold buffer_set.
  destruct (Z.ltb_spec i (Z.of_nat (length buffer))); [reflexivity | lia].
Qed.

(** The four stores of the next pixel. *)
Lemma pixels_written_store4 expected old n buffer (v0 v1 v2 v3 : float) :
  pixels_written expected old n buffer -> 0 <= n ->
  4 * n + 4 <= Z.of_nat (length old) ->
  [v0; v1; v2; v3] = expected n ->
  exists buffer',
    float_store4 buffer (4 * n) v0 v1 v2 v3 = Done buffer'
    /\ pixels_written expected old (n + 1) buffer'.
Proof.
  intros (Hlen & Hdone & Hrest) Hn Hfit Hexp. unfold float_store4.
  rewrite buffer_set_done by lia. cbn [mbind exec_bind].
  rewrite buffer_set_done by (rewrite length_insert; lia). cbn [mbind exec_bind].
  rewrite buffer_set_done by (rewrite !length_insert; lia). cbn [mbind exec_bind].
  rewrite buffer_set_done by (rewrite !length_insert; lia).
  eexists. split; [reflexivity|]. split; [|split].
  - now rewrite !length_insert.
  - intros p k Hp Hk.
    destruct (Z.eq_dec p n) as [->|Hne].
    + rewrite <- Hexp.
      assert (Hcases : k = 0 \/ k = 1 \/ k = 2 \/ k = 3) by lia.
      destruct Hcases as [-> | [-> | [-> | ->]]].
      * rewrite Z.add_0_r. rewrite !list_lookup_insert_ne by lia.
        rewrite list_lookup_insert_eq by lia. reflexivity.
      * rewrite !list_lookup_insert_ne by lia.
        rewrite list_lookup_insert_eq by (rewrite ?length_insert; lia). reflexivity.
      * rewrite !list_lookup_insert_ne by lia.
        rewrite list_lookup_insert_eq by (rewrite ?length_insert; lia). reflexivity.
      * rewrite list_lookup_insert_eq by (rewrite ?length_insert; lia). reflexivity.
    + rewrite !list_lookup_insert_ne by lia. apply Hdone; lia.
  - intros i Hi. rewrite !list_lookup_insert_ne by lia. apply Hrest. lia.
Qed.

(** A row of pixels copied at once. *)
Lemma pixels_written_memcpy_buffer expected old n buffer (src : list float)
    (off width : Z) :
  pixels_written expected old n buffer -> 0 <= n -> 0 <= width -> 0 <= off ->
  4 * (n + width) <= Z.of_nat (length old) ->
  off + 4 * width <= Z.of_nat (length src) ->
  (forall x k, 0 <= x < width -> 0 <= k < 4 ->
               expected (n + x) !! Z.to_nat k = src !! Z.to_nat (off + 4 * x + k)) ->
  exists buffer',
    memcpy_float_buffer buffer (4 * n) src off (4 * width) = Done buffer'
    /\ pixels_written expected old (n + width) buffer'.
Proof.
  intros (Hlen & Hdone & Hrest) Hn Hw Hoff Hfit Hsrc Hexp. unfold memcpy_float_buffer.
  destruct (Z.leb_spec (4 * n + 4 * width) (Z.of_nat (length buffer))); [|lia].
  destruct (Z.leb_spec (off + 4 * width) (Z.of_nat (length src))); [|lia].
  cbn [andb]. eexists. split; [reflexivity|].
  assert (Hcopy : length (take (Z.to_nat (4 * width)) (drop (Z.to_nat off) src))
                  = Z.to_nat (4 * width))
    by (rewrite length_take, length_drop; lia).
  split; [|split].
  - now rewrite length_inserts.
  - intros p k Hp Hk.
    destruct (Z.lt_ge_cases p n) as [Hlt|Hge].
    + rewrite list_lookup_inserts_lt by lia. apply Hdone; lia.
    + rewrite list_lookup_inserts by (rewrite ?Hcopy; lia).
      rewrite lookup_take. case_decide; [|lia]. rewrite lookup_drop.
      transitivity (expected (n + (p - n)) !! Z.to_nat k); [|do 2 f_equal; lia].
      rewrite (Hexp (p - n) k) by lia.
      f_equal. lia.
  - intros i Hi. rewrite list_lookup_inserts_ge by (rewrite Hcopy; lia).
    apply Hrest. lia.
Qed.

Section FloatTexture.

Context {constants : HeaderConstants} {helpers : Helpers}.

(** X20. [IMB_colormanagement_imbuf_to_float_texture] for a region that
    lies inside the image, an image whose number of pixels fits an [int]
    and whose float buffer holds them, and an output buffer that holds
    [width] x [height] pixels of four floats: the call completes.  For an
    image of one channel every output pixel is the value four times, alpha
    included; for three channels it is the colour with alpha 1; for four
    channels it is the pixel itself, or its conversion to straight alpha
    when alpha affects the colour and premultiplied storage is not wanted.
    For any other number of channels nothing is stored: the output is as
    it was. *)
Theorem IMB_colormanagement_imbuf_to_float_texture_pixels out_buffer
    offset_x offset_y width height ibuf rect_float alpha_affects_rgb store_premultiplied :
  0 <= offset_x -> 0 <= offset_y -> 0 <= width -> 0 <= height ->
  offset_x + width <= ibuf_x ibuf -> offset_y + height <= ibuf_y ibuf ->
  ibuf_y ibuf <= CInt.INT_MAX -> ibuf_x ibuf * ibuf_y ibuf <= CInt.INT_MAX ->
  ibuf_channels ibuf * (ibuf_x ibuf * ibuf_y ibuf) <= Z.of_nat (length rect_float) ->
  4 * (height * width) <= Z.of_nat (length out_buffer) ->
  let channels := ibuf_channels ibuf in
  exists out_buffer',
    IMB_colormanagement_imbuf_to_float_texture out_buffer offset_x offset_y width height
      ibuf (Some rect_float) alpha_affects_rgb store_premultiplied
    = Done out_buffer'
    /\ length out_buffer' = length out_buffer
    /\ (forall x y k,
          0 <= x < width -> 0 <= y < height -> 0 <= k < 4 ->
          let i := channels * ((offset_y + y) * ibuf_x ibuf + offset_x + x) in
          let stored := out_buffer' !! Z.to_nat (4 * (y * width + x) + k) in
          (channels = 1 \/ channels = 3 \/ channels = 4 ->
           0 <= i /\ i + channels <= Z.of_nat (length rect_float))
          /\ (channels = 1 -> stored = rect_float !! Z.to_nat i)
          /\ (channels = 3 ->
              stored = if k <? 3 then rect_float !! Z.to_nat (i + k) else Some CFloat.one)
          /\ (channels = 4 -> alpha_affects_rgb && negb store_premultiplied = false ->
              stored = rect_float !! Z.to_nat (i + k))
          /\ (channels = 4 -> alpha_affects_rgb && negb store_premultiplied = true ->
              exists p0 p1 p2 p3,
                rect_float !! Z.to_nat i = Some p0
                /\ rect_float !! Z.to_nat (i + 1) = Some p1
                /\ rect_float !! Z.to_nat (i + 2) = Some p2
                /\ rect_float !! Z.to_nat (i + 3) = Some p3
                /\ let pixel := premul_to_straight_v4_v4
                                  {| px_r := p0; px_g := p1; px_b := p2; px_a := p3 |} in
                   stored = [px_r pixel; px_g pixel; px_b pixel; px_a pixel] !! Z.to_nat k)
          /\ (channels <> 1 -> channels <> 3 -> channels <> 4 ->
              stored = out_buffer !! Z.to_nat (4 * (y * width + x) + k)))
    /\ (forall i : nat, 4 * (height * width) <= Z.of_nat i ->
          out_buffer' !! i = out_buffer !! i).
Proof.
  intros Hox Hoy Hw Hh Hxw Hyh Hrows Hin Hrect Hfit channels.
  unfold IMB_colormanagement_imbuf_to_float_texture. fold channels. fold channels in Hrect.
  set (use_unpremultiply := alpha_affects_rgb && negb store_premultiplied).
  set (fb := element_at CFloat.zero rect_float).
  assert (Hx : 0 <= ibuf_x ibuf) by lia.
  assert (Hout : height * width <= ibuf_x ibuf * ibuf_y ibuf) by nia.
  set (expected := fun p : Z =>
         texture_floats channels use_unpremultiply fb
           (channels * ((offset_y + p / width) * ibuf_x ibuf + offset_x + p mod width))).
  (* what the int arithmetic of a row comes to *)
  assert (Hrowdone : forall y (K : Z -> Z -> exec (list float)),
    0 <= y < 0 + height ->
    (row ← int_add offset_y y;
     row_start ← int_mul row (ibuf_x ibuf);
     in_offset ← int_add row_start offset_x;
     out_offset ← int_mul y width;
     K in_offset out_offset)
    = K ((offset_y + y) * ibuf_x ibuf + offset_x) (y * width)).
  { intros y K Hy.
    destruct (region_pixel_inside (ibuf_x ibuf) (ibuf_y ibuf) offset_x offset_y width height
                0 y Hox Hoy Hxw Hyh ltac:(lia) ltac:(lia)) as (Hrow0 & Hrow1 & _).
    assert (Hyw : 0 <= y * width /\ y * width + width <= height * width) by nia.
    unfold CInt.INT_MAX in Hrows, Hin.
    rewrite (int_add_done offset_y y) by (unfold CInt.INT_MIN, CInt.INT_MAX; lia).
    cbn [mbind exec_bind].
    rewrite (int_mul_done (offset_y + y) (ibuf_x ibuf))
      by (unfold CInt.INT_MIN, CInt.INT_MAX; lia).
    cbn [mbind exec_bind].
    rewrite (int_add_done ((offset_y + y) * ibuf_x ibuf) offset_x)
      by (unfold CInt.INT_MIN, CInt.INT_MAX; lia).
    cbn [mbind exec_bind].
    rewrite (int_mul_done y width) by (unfold CInt.INT_MIN, CInt.INT_MAX; lia).
    reflexivity. }
  (* the source pixel of an output pixel lies inside the float buffer *)
  assert (Hinside : forall x y,
            0 <= x < width -> 0 <= y < height ->
            channels = 1 \/ channels = 3 \/ channels = 4 ->
            0 <= channels * ((offset_y + y) * ibuf_x ibuf + offset_x + x)
            /\ channels * ((offset_y + y) * ibuf_x ibuf + offset_x + x) + channels
               <= Z.of_nat (length rect_float)).
  { intros x y Hxr Hyr Hc.
    destruct (region_pixel_inside (ibuf_x ibuf) (ibuf_y ibuf) offset_x offset_y width height
                x y Hox Hoy Hxw Hyh ltac:(lia) ltac:(lia)) as (Hrow0 & _ & [Hlt|Heq]);
      [|lia].
    destruct Hc as [Hc | [Hc | Hc]]; rewrite Hc in *; lia. }
  destruct ((channels =? 1) || (channels =? 3) || (channels =? 4)) eqn:Hknown.
  - (* one, three or four channels *)
    assert (Hc : channels = 1 \/ channels = 3 \/ channels = 4).
    { destruct (Z.eqb_spec channels 1); [tauto|].
      destruct (Z.eqb_spec channels 3); [tauto|].
      destruct (Z.eqb_spec channels 4); [tauto | discriminate]. }
    assert (Hloop : exists out_buffer',
      exec_fold
        (fun out_buffer1 y =>
           row ← int_add offset_y y;
           row_start ← int_mul row (ibuf_x ibuf);
           in_offset ← int_add row_start offset_x;
           out_offset ← int_mul y width;
           (fun in_offset out_offset =>
              let in_ := CInt.size_mul (CInt.to_size_t in_offset) channels in
              let out := CInt.size_mul (CInt.to_size_t out_offset) 4 in
              if channels =? 1 then
                exec_fold
                  (fun out_buffer2 x =>
                     fb' ← deref (Some rect_float);
                     v0 ← buffer_get fb' (in_ + 1 * x);
                     float_store4 out_buffer2 (out + 4 * x) v0 v0 v0 v0)
                  (seqZ 0 width) out_buffer1
              else if channels =? 3 then
                exec_fold
                  (fun out_buffer2 x =>
                     fb' ← deref (Some rect_float);
                     let i := in_ + 3 * x in
                     v0 ← buffer_get fb' i;
                     v1 ← buffer_get fb' (i + 1);
                     v2 ← buffer_get fb' (i + 2);
                     float_store4 out_buffer2 (out + 4 * x) v0 v1 v2 CFloat.one)
                  (seqZ 0 width) out_buffer1
              else if channels =? 4 then
                if use_unpremultiply then
                  exec_fold
                    (fun out_buffer2 x =>
                       fb' ← deref (Some rect_float);
                       '(v0, v1, v2, v3) ← read4 fb' (in_ + 4 * x);
                       let pixel := premul_to_straight_v4_v4
                                      {| px_r := v0; px_g := v1; px_b := v2; px_a := v3 |} in
                       float_store4 out_buffer2 (out + 4 * x)
                         (px_r pixel) (px_g pixel) (px_b pixel) (px_a pixel))
                    (seqZ 0 width) out_buffer1
                else
                  fb' ← deref (Some rect_float);
                  if width <? 0 then Crash
                  else memcpy_float_buffer out_buffer1 out fb' in_ (4 * width)
              else Done out_buffer1) in_offset out_offset)
        (seqZ 0 height) out_buffer = Done out_buffer'
      /\ pixels_written expected out_buffer (0 + height * width) out_buffer').
    { replace (0 + height * width) with ((0 + height) * width) by ring.
      apply (exec_fold_indexed
               (fun y buf => pixels_written expected out_buffer (y * width) buf));
        [exact Hh | apply pixels_written_start|].
      intros y buf Hy Hinv. rewrite Hrowdone by exact Hy. cbn beta zeta.
      destruct (region_pixel_inside (ibuf_x ibuf) (ibuf_y ibuf) offset_x offset_y width
                  height 0 y Hox Hoy Hxw Hyh ltac:(lia) ltac:(lia)) as (Hrow0 & Hrow1 & _).
      destruct (region_pixel_inside (ibuf_x ibuf) (ibuf_y ibuf) offset_x offset_y width
                  height width y Hox Hoy Hxw Hyh ltac:(lia) ltac:(lia)) as (_ & Hrow2 & _).
      assert (Hyw : 0 <= y * width /\ y * width + width <= height * width) by nia.
      rewrite (size_offset_channels ((offset_y + y) * ibuf_x ibuf + offset_x) channels)
        by (unfold CInt.INT_MAX in *; lia).
      rewrite (size_offset_small (y * width)) by (unfold CInt.INT_MAX in *; lia).
      replace ((y + 1) * width) with (y * width + (0 + width)) by ring.
      assert (Hstep : forall x buf2 v0 v1 v2 v3,
                0 <= x < 0 + width ->
                pixels_written expected out_buffer (y * width + x) buf2 ->
                [v0; v1; v2; v3]
                = texture_floats channels use_unpremultiply fb
                    (channels * ((offset_y + y) * ibuf_x ibuf + offset_x) + channels * x) ->
                exists buf3,
                  float_store4 buf2 (4 * (y * width) + 4 * x) v0 v1 v2 v3 = Done buf3
                  /\ pixels_written expected out_buffer (y * width + (x + 1)) buf3).
      { intros x buf2 v0 v1 v2 v3 Hxr Hinv2 Hvalues.
        replace (4 * (y * width) + 4 * x) with (4 * (y * width + x)) by ring.
        rewrite Z.add_assoc.
        apply (pixels_written_store4 _ _ _ _ _ _ _ _ Hinv2); [lia | lia |].
        rewrite Hvalues. unfold expected.
        destruct (row_major_div_mod y width x ltac:(lia)) as [-> ->].
        f_equal. ring. }
      assert (Hsource : forall x, 0 <= x < 0 + width ->
                0 <= channels * ((offset_y + y) * ibuf_x ibuf + offset_x) + channels * x
                /\ channels * ((offset_y + y) * ibuf_x ibuf + offset_x) + channels * x
                   + channels <= Z.of_nat (length rect_float)).
      { intros x Hxr.
        destruct (Hinside x y ltac:(lia) ltac:(lia) Hc) as [H0 H1]. lia. }
      destruct Hc as [Hc | [Hc | Hc]]; rewrite Hc in *.
      + cbn [Z.eqb Pos.eqb].
        apply (exec_fold_indexed
                 (fun x buf2 => pixels_written expected out_buffer (y * width + x) buf2));
          [exact Hw | now rewrite Z.add_0_r|].
        intros x buf2 Hxr Hinv2. cbn [deref mbind exec_bind].
        destruct (Hsource x Hxr) as [H0 H1].
        rewrite (buffer_get_done CFloat.zero) by lia. cbn [mbind exec_bind].
        apply Hstep; [exact Hxr | exact Hinv2 | reflexivity].
      + cbn [Z.eqb Pos.eqb].
        apply (exec_fold_indexed
                 (fun x buf2 => pixels_written expected out_buffer (y * width + x) buf2));
          [exact Hw | now rewrite Z.add_0_r|].
        intros x buf2 Hxr Hinv2. cbn [deref mbind exec_bind]. cbn zeta.
        destruct (Hsource x Hxr) as [H0 H1].
        rewrite !(buffer_get_done CFloat.zero) by lia. cbn [mbind exec_bind].
        apply Hstep; [exact Hxr | exact Hinv2 | reflexivity].
      + cbn [Z.eqb Pos.eqb].
        destruct use_unpremultiply eqn:Hun.
        * apply (exec_fold_indexed
                   (fun x buf2 => pixels_written expected out_buffer (y * width + x) buf2));
            [exact Hw | now rewrite Z.add_0_r|].
          intros x buf2 Hxr Hinv2. cbn [deref mbind exec_bind].
          destruct (Hsource x Hxr) as [H0 H1].
          rewrite (read4_done CFloat.zero) by lia. cbn [mbind exec_bind]. cbn zeta.
          apply Hstep; [exact Hxr | exact Hinv2 | reflexivity].
        * cbn [deref mbind exec_bind].
          destruct (Z.ltb_spec width 0); [lia|].
          rewrite Z.add_0_l.
          apply (pixels_written_memcpy_buffer _ _ _ _ _ _ _ Hinv); [lia | lia | lia | nia | lia|].
          intros x k Hxr Hk. unfold expected.
          destruct (row_major_div_mod y width x ltac:(lia)) as [-> ->].
          unfold texture_floats. rewrite !Hc. cbn [Z.eqb Pos.eqb].
          destruct (Hsource x ltac:(lia)) as [H0 H1].
          assert (Hcases : k = 0 \/ k = 1 \/ k = 2 \/ k = 3) by lia.
          destruct Hcases as [-> | [-> | [-> | ->]]]; simpl (Z.to_nat 0);
            simpl (Z.to_nat 1); simpl (Z.to_nat 2); simpl (Z.to_nat 3);
            simpl ([_; _; _; _] !! _); unfold fb;
            rewrite <- (element_at_lookup CFloat.zero) by lia; f_equal; f_equal; ring. }
    destruct Hloop as (out_buffer' & Hrun & Hlen & Hpixels & Hrest).
    exists out_buffer'. split; [exact Hrun|].
    split; [exact Hlen|]. split; [|intros i Hi; apply Hrest; lia].
    intros x y k Hxr Hyr Hk. cbn zeta.
    set (i := channels * ((offset_y + y) * ibuf_x ibuf + offset_x + x)).
    assert (Hp : 0 <= y * width + x < 0 + height * width) by nia.
    rewrite (Hpixels _ k Hp Hk). unfold expected.
    destruct (row_major_div_mod y width x Hxr) as [-> ->]. fold i.
    destruct (Hinside x y Hxr Hyr Hc) as [Hi0 Hi1]. fold i in Hi0, Hi1.
    assert (Hcases : k = 0 \/ k = 1 \/ k = 2 \/ k = 3) by lia.
    split; [intros _; split; assumption|].
    unfold texture_floats, fb.
    split; [|split; [|split; [|split]]].
    + intros H1. rewrite H1 in *. cbn [Z.eqb Pos.eqb].
      rewrite (element_at_lookup CFloat.zero rect_float i) by lia.
      destruct Hcases as [-> | [-> | [-> | ->]]]; reflexivity.
    + intros H3. rewrite H3 in *. cbn [Z.eqb Pos.eqb].
      destruct Hcases as [-> | [-> | [-> | ->]]]; cbn [Z.ltb Z.compare Pos.compare
        Pos.compare_cont];
        rewrite ?(element_at_lookup CFloat.zero rect_float) by lia;
        rewrite ?Z.add_0_r; reflexivity.
    + intros H4 Hun. rewrite H4 in *. cbn [Z.eqb Pos.eqb]. rewrite Hun.
      rewrite (element_at_lookup CFloat.zero rect_float (i + k)) by lia.
      destruct Hcases as [-> | [-> | [-> | ->]]]; rewrite ?Z.add_0_r; reflexivity.
    + intros H4 Hun. rewrite H4 in *. cbn [Z.eqb Pos.eqb]. rewrite Hun.
      exists (element_at CFloat.zero rect_float i),
             (element_at CFloat.zero rect_float (i + 1)),
             (element_at CFloat.zero rect_float (i + 2)),
             (element_at CFloat.zero rect_float (i + 3)).
      split; [apply element_at_lookup; lia|]. split; [apply element_at_lookup; lia|].
      split; [apply element_at_lookup; lia|]. split; [apply element_at_lookup; lia|].
      reflexivity.
    + intros N1 N3 N4. destruct Hc as [Hc | [Hc | Hc]]; contradiction.
  - (* any other number of channels *)
    apply orb_false_elim in Hknown. destruct Hknown as [Hknown H4].
    apply orb_false_elim in Hknown. destruct Hknown as [H1 H3].
    destruct (exec_fold_indexed (fun _ buf => buf = out_buffer)
                (fun out_buffer1 y =>
                   row ← int_add offset_y y;
                   row_start ← int_mul row (ibuf_x ibuf);
                   in_offset ← int_add row_start offset_x;
                   out_offset ← int_mul y width;
                   (fun _ _ => Done out_buffer1) in_offset out_offset)
                0 height out_buffer Hh eq_refl) as (out_buffer' & Hrun & ->).
    { intros y buf Hy ->. rewrite Hrowdone by exact Hy. now exists out_buffer. }
    exists out_buffer. split.
    { rewrite <- Hrun. rewrite H1, H3, H4. reflexivity. }
    split; [reflexivity|]. split; [|reflexivity].
    intros x y k Hxr Hyr Hk. cbn zeta.
    apply Z.eqb_neq in H1, H3, H4.
    split; [intros [Hc | [Hc | Hc]]; contradiction|].
    split; [intros Hc; contradiction|]. split; [intros Hc; contradiction|].
    split; [intros Hc; contradiction|]. split; [intros Hc; contradiction|].
    reflexivity.
Qed.

End FloatTexture.

(** The image of one channel: the value of the pixel (1, 1) becomes the
    colour and the alpha of the output pixel. *)
Lemma IMB_colormanagement_imbuf_to_float_texture_pixels_witness :
  exists out_buffer',
    IMB_colormanagement_imbuf_to_float_texture (helpers := example_helpers)
      (replicate 4 CFloat.zero) 1 1 1 1 example_ibuf_grey
      (Some [CFloat.zero; CFloat.zero; CFloat.zero; CFloat.one]) true true
    = Done out_buffer'
    /\ out_buffer' !! 3%nat = Some CFloat.one.
Proof.
  destruct (IMB_colormanagement_imbuf_to_float_texture_pixels
              (helpers := example_helpers)
              (replicate 4 CFloat.zero) 1 1 1 1 example_ibuf_grey
              [CFloat.zero; CFloat.zero; CFloat.zero; CFloat.one] true true)
    as (out_buffer' & Hrun & _ & Hpixels & _).
  - lia.
  - lia.
  - lia.
  - lia.
  - simpl. lia.
  - simpl. lia.
  - vm_compute. discriminate.
  - vm_compute. discriminate.
  - simpl. lia.
  - simpl. lia.
  - exists out_buffer'. split; [exact Hrun|].
    destruct (Hpixels 0 0 3 ltac:(lia) ltac:(lia) ltac:(lia)) as (_ & Hone & _).
    exact (Hone eq_refl).
Defined.

(** ** The display buffer of an image buffer *)

Lemma same_image_refl ibuf : same_image ibuf ibuf.
Proof. repeat split. Qed.

Lemma same_image_trans a b c : same_image a b -> same_image b c -> same_image a c.
Proof.
  intros (H1 & H2 & H3 & H4 & H5 & H6) (K1 & K2 & K3 & K4 & K5 & K6).
  repeat split; congruence.
Qed.

Lemma same_image_flags ibuf flags : same_image ibuf (set_display_buffer_flags ibuf flags).
Proof. repeat split. Qed.

Lemma same_image_cache ibuf c : same_image ibuf (set_colormanage_cache ibuf c).
Proof. repeat split. Qed.

Lemma same_image_userflags ibuf userflags : same_image ibuf (set_userflags ibuf userflags).
Proof. repeat split. Qed.

Lemma same_image_write ibuf key display_buffer :
  same_image ibuf (ibuf_write_display_buffer ibuf key display_buffer)
  /\ ibuf_userflags (ibuf_write_display_buffer ibuf key display_buffer) = ibuf_userflags ibuf.
Proof.
  unfold ibuf_write_display_buffer. destruct (colormanage_cache ibuf); repeat split.
Qed.

Lemma colormanage_view_settings_to_cache_same cat a b view_settings :
  same_image a b ->
  colormanage_view_settings_to_cache cat b view_settings
  = colormanage_view_settings_to_cache cat a view_settings.
Proof.
  intros (_ & _ & _ & Hd & _). unfold colormanage_view_settings_to_cache. now rewrite Hd.
Qed.

Lemma colormanage_cache_put_frame ibuf view_settings display_settings display_buffer put :
  colormanage_cache_put ibuf view_settings display_settings display_buffer = Done put ->
  same_image ibuf (put_ibuf put)
  /\ ibuf_userflags (put_ibuf put) = ibuf_userflags ibuf
  /\ exists flags,
       display_buffer_flags ibuf = Some flags
       /\ 1 <= cvs_view view_settings <= 31
       /\ 1 <= cds_display display_settings <= Z.of_nat (length flags).
Proof.
  unfold colormanage_cache_put. intros Hput.
  destruct (CInt.shl1 _) as [view_flag|] eqn:Hshl; [|discriminate Hput].
  apply shl1_inv in Hshl. destruct Hshl as [Hview _].
  cbn [mbind exec_bind] in Hput.
  pose proof (colormanage_moviecache_ensure_flags ibuf) as Hensure.
  assert (Hsame : same_image ibuf (fst (colormanage_moviecache_ensure ibuf))
                  /\ ibuf_userflags (fst (colormanage_moviecache_ensure ibuf))
                     = ibuf_userflags ibuf).
  { unfold colormanage_moviecache_ensure.
    destruct (colormanage_cache ibuf) as [c|]; simpl; [destruct (moviecache c)|];
      repeat split. }
  destruct (colormanage_moviecache_ensure ibuf) as [ibuf1 mc]. cbn [fst] in Hensure, Hsame.
  rewrite Hensure in Hput.
  destruct (display_buffer_flags ibuf) as [flags|]; [|discriminate Hput].
  cbn [deref mbind exec_bind] in Hput.
  destruct (array_get flags _) as [element|] eqn:Hget; [|discriminate Hput].
  apply array_get_inv in Hget. destruct Hget as [Hdisplay _].
  cbn [mbind exec_bind] in Hput.
  destruct (array_set flags _ _) as [flags1|]; [|discriminate Hput].
  cbn [mbind exec_bind mret exec_ret] in Hput. injection Hput as <-. cbn [put_ibuf].
  destruct Hsame as [(H1 & H2 & H3 & H4 & H5 & H6) Hu].
  split; [repeat split; assumption|]. split; [exact Hu|].
  exists flags. split; [reflexivity|]. lia.
Qed.

(** A lookup that finds the display buffer has asked the block cache once. *)
Lemma colormanage_cache_get_hit_calls ibuf view_settings display_settings got buffer :
  colormanage_cache_get ibuf view_settings display_settings = Done got ->
  got_buffer got = Some buffer ->
  got_calls got
  = [Call_moviecache_get (colormanage_settings_to_key view_settings display_settings)].
Proof.
  unfold colormanage_cache_get. intros Hget Hbuf. exec_inv Hget.
  destruct (Z.land _ _ =? 0).
  { injection Hget as <-. discriminate Hbuf. }
  unfold colormanage_cache_get_ibuf in Hget.
  destruct (colormanage_moviecache_get ibuf) as [mc|].
  2:{ injection Hget as <-. discriminate Hbuf. }
  destruct (IMB_moviecache_get mc _) as [cache_ibuf|].
  2:{ injection Hget as <-. discriminate Hbuf. }
  exec_inv Hget.
  destruct (cache_data_mismatch _ _); injection Hget as <-; [discriminate Hbuf | reflexivity].
Qed.

(** A lookup that completes was asked for a pair inside the bit field. *)
Lemma colormanage_cache_get_pair ibuf view_settings display_settings got :
  colormanage_cache_get ibuf view_settings display_settings = Done got ->
  exists flags,
    display_buffer_flags ibuf = Some flags
    /\ 1 <= cvs_view view_settings <= 31
    /\ 1 <= cds_display display_settings <= Z.of_nat (length flags).
Proof.
  unfold colormanage_cache_get. intros Hget.
  destruct (CInt.shl1 _) as [view_flag|] eqn:Hshl; [|discriminate Hget].
  apply shl1_inv in Hshl. destruct Hshl as [Hview _].
  cbn [mbind exec_bind] in Hget.
  destruct (display_buffer_flags ibuf) as [flags|]; [|discriminate Hget].
  cbn [deref mbind exec_bind] in Hget.
  destruct (array_get flags _) as [element|] eqn:Harr; [|discriminate Hget].
  apply array_get_inv in Harr. destruct Harr as [Hdisplay _].
  exists flags. split; [reflexivity|]. lia.
Qed.

(** A lookup that finds the display buffer found the bit of the pair set. *)
Lemma colormanage_cache_get_hit_bit ibuf view_settings display_settings got buffer :
  colormanage_cache_get ibuf view_settings display_settings = Done got ->
  got_buffer got = Some buffer ->
  exists flags,
    display_buffer_flags ibuf = Some flags
    /\ display_buffer_bit flags (cds_display display_settings) (cvs_view view_settings)
       = true.
Proof.
  unfold colormanage_cache_get. intros Hget Hbuf.
  destruct (CInt.shl1 _) as [view_flag|] eqn:Hshl; [|discriminate Hget].
  apply shl1_inv in Hshl. destruct Hshl as [Hview ->].
  cbn [mbind exec_bind] in Hget.
  destruct (display_buffer_flags ibuf) as [flags|]; [|discriminate Hget].
  cbn [deref mbind exec_bind] in Hget.
  destruct (array_get flags _) as [element|] eqn:Harr; [|discriminate Hget].
  apply array_get_inv in Harr. destruct Harr as [Hdisplay Hl].
  cbn [mbind exec_bind] in Hget.
  rewrite land_shiftl1_testbit in Hget by lia.
  exists flags. split; [reflexivity|]. unfold display_buffer_bit. rewrite Hl.
  destruct (Z.testbit element (cvs_view view_settings - 1)); [reflexivity|].
  cbn [negb] in Hget. injection Hget as <-. discriminate Hbuf.
Qed.

(** What a completed [colormanage_cache_put] leaves. *)
Lemma colormanage_cache_put_post ibuf view_settings display_settings display_buffer put :
  colormanage_cache_put ibuf view_settings display_settings display_buffer = Done put ->
  exists flags flags',
    display_buffer_flags ibuf = Some flags
    /\ 1 <= cvs_view view_settings <= 31
    /\ 1 <= cds_display display_settings <= Z.of_nat (length flags)
    /\ display_buffer_flags (put_ibuf put) = Some flags'
    /\ length flags' = length flags
    /\ display_buffer_bit flags' (cds_display display_settings) (cvs_view view_settings)
       = true
    /\ moviecache_of (put_ibuf put)
       = IMB_moviecache_put (moviecache_of ibuf)
           (colormanage_settings_to_key view_settings display_settings) (put_handle put)
    /\ cache_rect (put_handle put) = display_buffer
    /\ put_calls put
       = [Call_moviecache_put (colormanage_settings_to_key view_settings display_settings)
            (put_handle put)].
Proof.
  intros Hput.
  destruct (colormanage_cache_put_frame _ _ _ _ _ Hput)
    as (_ & _ & flags & Hflags & Hview & Hdisplay).
  destruct (colormanage_cache_put_done ibuf view_settings display_settings display_buffer
              flags Hflags Hview Hdisplay)
    as (put' & element & Hput' & Hl & Hflags' & Hmc & Hhandle & Hcalls).
  rewrite Hput in Hput'. injection Hput' as <-.
  exists flags, (<[Z.to_nat (cds_display display_settings - 1) :=
                     Z.lor element (Z.shiftl 1 (cvs_view view_settings - 1))]> flags).
  split; [exact Hflags|]. split; [exact Hview|]. split; [exact Hdisplay|].
  split; [exact Hflags'|]. split; [apply length_insert|]. split.
  { unfold display_buffer_bit.
    rewrite list_lookup_insert_eq by (apply lookup_lt_Some in Hl; exact Hl).
    rewrite lor_shiftl1_testbit by lia. rewrite Z.eqb_refl. apply orb_true_r. }
  split; [exact Hmc|]. split; [now rewrite Hhandle | exact Hcalls].
Qed.

Lemma display_buffer_bit_zeros (n : nat) (rest : list Z) (display view : Z) :
  1 <= display <= Z.of_nat n ->
  display_buffer_bit (replicate n 0 ++ rest) display view = false.
Proof.
  intros Hd. unfold display_buffer_bit.
  rewrite lookup_app_l by (rewrite length_replicate; lia).
  rewrite lookup_replicate_2 by lia. apply Z.bits_0.
Qed.

(** What every step of a loop preserves holds after the loop. *)
Lemma exec_fold_preserves {St A} (P : St -> Prop) (body : St -> A -> exec St)
    (range : list A) (s s' : St) :
  (forall s1 a s2, P s1 -> body s1 a = Done s2 -> P s2) ->
  P s -> exec_fold body range s = Done s' -> P s'.
Proof.
  intros Hbody. revert s. induction range as [|a range IH]; intros s Hs Hrun; simpl in Hrun.
  - now injection Hrun as <-.
  - destruct (body s a) as [s1|] eqn:Hstep; [|discriminate Hrun].
    cbn [mbind exec_bind] in Hrun. eapply IH; [|exact Hrun]. eapply Hbody; eassumption.
Qed.

Lemma for_yx_preserves {St} (P : St -> Prop) (y0 y1 x0 x1 : Z)
    (body : St -> Z -> Z -> exec St) (s s' : St) :
  (forall s1 y x s2, P s1 -> body s1 y x = Done s2 -> P s2) ->
  P s -> for_yx y0 y1 x0 x1 body s = Done s' -> P s'.
Proof.
  intros Hbody Hs. unfold for_yx. apply exec_fold_preserves; [|exact Hs].
  intros s1 y s2 Hs1. apply exec_fold_preserves; [|exact Hs1].
  intros s3 x s4. apply Hbody.
Qed.

Lemma buffer_store_length (buffer : list Byte.byte) (offset : Z) (bytes buffer' : list Byte.byte) :
  buffer_store buffer offset bytes = Done buffer' -> length buffer' = length buffer.
Proof.
  unfold buffer_store. destruct (_ <=? _); [|discriminate].
  intros [= <-]. apply length_inserts.
Qed.

Section DisplayBufferFacts.

Context {constants : HeaderConstants} {helpers : Helpers}
        {engine : TransformEngine} {threads : TransformThreads}
        {sizes : SettingsSizes} {defaults : ConfigDefaults} {libc : LibC}
        {rects : RectOps} {display_helpers : DisplayHelpers}.

Lemma is_ibuf_rect_in_display_space_same cat a b view_settings display_settings :
  same_image a b ->
  is_ibuf_rect_in_display_space cat b view_settings display_settings
  = is_ibuf_rect_in_display_space cat a view_settings display_settings.
Proof.
  intros (_ & _ & _ & _ & _ & Hspace). unfold is_ibuf_rect_in_display_space.
  now rewrite Hspace.
Qed.

Lemma display_buffer_early_out_same cat a b rect_float view_settings display_settings :
  same_image a b ->
  display_buffer_early_out cat b rect_float view_settings display_settings
  = display_buffer_early_out cat a rect_float view_settings display_settings.
Proof.
  intros Hsame. unfold display_buffer_early_out.
  rewrite (is_ibuf_rect_in_display_space_same cat a b) by exact Hsame.
  destruct Hsame as (_ & _ & Hc & _ & _ & Hspace). now rewrite Hc, Hspace.
Qed.

(** A partial update changes nothing of an image buffer but its bit field
    and the display buffer in its cache. *)
Lemma imb_partial_display_buffer_update_ex_frame cat ibuf linear_buffer byte_buffer
    stride offset_x offset_y view_settings display_settings
    xmin ymin xmax ymax do_threads ibuf' calls :
  imb_partial_display_buffer_update_ex cat ibuf linear_buffer byte_buffer
    stride offset_x offset_y view_settings display_settings
    xmin ymin xmax ymax do_threads = Done (ibuf', calls) ->
  same_image ibuf ibuf'
  /\ ibuf_userflags ibuf' = ibuf_userflags ibuf
  /\ (is_Some (display_buffer_flags ibuf) -> is_Some (display_buffer_flags ibuf')).
Proof.
  unfold imb_partial_display_buffer_update_ex. intros Hrun.
  destruct (display_buffer_flags ibuf) as [flags|] eqn:Hflags.
  - destruct (partial_update_lookup cat ibuf flags view_settings display_settings)
      as [[ibuf1 got]|] eqn:Hlookup; [|discriminate Hrun].
    cbn [mbind exec_bind mret exec_ret snd] in Hrun.
    pose proof (partial_update_lookup_inv _ _ _ _ _ _ _ Hlookup)
      as (flags1 & element & _ & _ & _ & _ & _ & Hibuf1 & _).
    assert (H1 : same_image ibuf ibuf1 /\ ibuf_userflags ibuf1 = ibuf_userflags ibuf
                 /\ is_Some (display_buffer_flags ibuf1)).
    { rewrite Hibuf1. split; [apply same_image_flags|]. split; [reflexivity|].
      cbn. eauto. }
    destruct H1 as (Hsame1 & Hu1 & Hf1).
    destruct (got_buffer got) as [display_buffer|].
    + assert (Hwritten : exists key buffer,
                ibuf' = ibuf_write_display_buffer ibuf1 key buffer).
      { exec_inv Hrun. unfold mret, exec_ret in Hrun.
        match type of Hrun with
        | Done (ibuf_write_display_buffer _ ?key ?buffer, _) = _ =>
            exists key, buffer; now injection Hrun as <- _
        end. }
      destruct Hwritten as (key & buffer & ->).
      destruct (same_image_write ibuf1 key buffer) as [Hsame2 Hu2].
      split; [eapply same_image_trans; eassumption|].
      split; [congruence|]. intros _.
      now rewrite ibuf_write_display_buffer_flags.
    + injection Hrun as <- <-. split; [exact Hsame1|]. split; [exact Hu1|]. now intros _.
  - cbn in Hrun. injection Hrun as <- <-.
    split; [apply same_image_refl|]. split; [reflexivity|]. intros [? H]. discriminate H.
Qed.

Lemma IMB_partial_display_buffer_update_threaded_frame cat ibuf linear_buffer byte_buffer
    stride offset_x offset_y view_settings display_settings xmin ymin xmax ymax ibuf' calls :
  IMB_partial_display_buffer_update_threaded cat ibuf linear_buffer byte_buffer
    stride offset_x offset_y view_settings display_settings
    xmin ymin xmax ymax = Done (ibuf', calls) ->
  same_image ibuf ibuf'
  /\ ibuf_userflags ibuf' = ibuf_userflags ibuf
  /\ (is_Some (display_buffer_flags ibuf) -> is_Some (display_buffer_flags ibuf')).
Proof.
  unfold IMB_partial_display_buffer_update_threaded. intros Hrun. exec_inv Hrun.
  eapply imb_partial_display_buffer_update_ex_frame. exact Hrun.
Qed.

(** The block on [invalid_rect]: what it leaves of the image buffer, and
    that it leaves no rectangle to update. *)
Lemma display_buffer_update_invalid_rect_frame cat ibuf rect_float rect invalid_rect
    view_settings display_settings ibuf1 invalid_rect1 calls1 :
  display_buffer_update_invalid_rect cat ibuf rect_float rect invalid_rect
    view_settings display_settings = Done (ibuf1, invalid_rect1, calls1) ->
  same_image ibuf ibuf1
  /\ ibuf_userflags ibuf1 = ibuf_userflags ibuf
  /\ (is_Some (display_buffer_flags ibuf) -> is_Some (display_buffer_flags ibuf1))
  /\ (rcti_xmin invalid_rect = rcti_xmax invalid_rect ->
      ibuf1 = ibuf /\ invalid_rect1 = invalid_rect /\ calls1 = [])
  /\ (rcti_xmin invalid_rect <> rcti_xmax invalid_rect ->
      invalid_rect1 = BLI_rcti_init 0 0 0 0).
Proof.
  unfold display_buffer_update_invalid_rect. intros Hrun.
  destruct (Z.eqb_spec (rcti_xmin invalid_rect) (rcti_xmax invalid_rect)) as [Heq|Hne];
    cbn [negb] in Hrun.
  - injection Hrun as <- <- <-.
    split; [apply same_image_refl|]. split; [reflexivity|]. split; [tauto|].
    split; [tauto | contradiction].
  - destruct (Z.land (ibuf_userflags ibuf) IB_DISPLAY_BUFFER_INVALID =? 0).
    + exec_inv Hrun. injection Hrun as <- <- <-.
      match goal with
      | E : IMB_partial_display_buffer_update_threaded _ _ _ _ _ _ _ _ _ _ _ _ _ = Done ?p
        |- _ => destruct p as [ibuf' calls'];
                apply IMB_partial_display_buffer_update_threaded_frame in E;
                destruct E as (Hs & Hu & Hf)
      end.
      cbn [fst snd]. split; [exact Hs|]. split; [exact Hu|]. split; [exact Hf|].
      split; [contradiction | reflexivity].
    + cbn [mbind exec_bind fst snd] in Hrun. injection Hrun as <- <- <-.
      split; [apply same_image_refl|]. split; [reflexivity|]. split; [tauto|].
      split; [contradiction | reflexivity].
Qed.

(** The block that ensures the bit field: afterwards it exists, and the
    mark of all display buffers as invalid is gone unless the bit field
    had to be allocated. *)
Lemma display_buffer_ensure_flags_frame cat ibuf ibuf2 :
  display_buffer_ensure_flags cat ibuf = Done ibuf2 ->
  same_image ibuf ibuf2
  /\ is_Some (display_buffer_flags ibuf2)
  /\ (is_Some (display_buffer_flags ibuf)
      \/ Z.land (ibuf_userflags ibuf) IB_DISPLAY_BUFFER_INVALID = 0 ->
      Z.land (ibuf_userflags ibuf2) IB_DISPLAY_BUFFER_INVALID = 0).
Proof.
  unfold display_buffer_ensure_flags. intros Hrun.
  destruct (display_buffer_flags ibuf) as [flags|] eqn:Hflags.
  - destruct (Z.eqb_spec (Z.land (ibuf_userflags ibuf) IB_DISPLAY_BUFFER_INVALID) 0)
      as [Hclear|Hset]; cbn [negb] in Hrun.
    + injection Hrun as <-. split; [apply same_image_refl|].
      split; [rewrite Hflags; eauto|]. intros _. exact Hclear.
    + exec_inv Hrun. injection Hrun as <-.
      split; [repeat split|]. split; [cbn; eauto|]. intros _. cbn.
      rewrite <- Z.land_assoc, (Z.land_comm (Z.lnot _)), Z.land_lnot_diag.
      apply Z.land_0_r.
  - injection Hrun as <-. split; [apply same_image_flags|]. split; [cbn; eauto|].
    intros [[? H] | H]; [discriminate H | exact H].
Qed.

(** On an image buffer that has its bit field and is not marked, the block
    changes nothing. *)
Lemma display_buffer_ensure_flags_kept cat ibuf :
  is_Some (display_buffer_flags ibuf) ->
  Z.land (ibuf_userflags ibuf) IB_DISPLAY_BUFFER_INVALID = 0 ->
  display_buffer_ensure_flags cat ibuf = Done ibuf.
Proof.
  intros [flags Hflags] Hclear. unfold display_buffer_ensure_flags.
  rewrite Hflags, Hclear. reflexivity.
Qed.

Lemma display_buffer_update_invalid_rect_empty cat ibuf rect_float rect invalid_rect
    view_settings display_settings :
  rcti_xmin invalid_rect = rcti_xmax invalid_rect ->
  display_buffer_update_invalid_rect cat ibuf rect_float rect invalid_rect
    view_settings display_settings = Done (ibuf, invalid_rect, []).
Proof.
  intros Heq. unfold display_buffer_update_invalid_rect.
  rewrite Heq, Z.eqb_refl. reflexivity.
Qed.

(** The settings that are applied have an exposure and a gamma that are
    numbers if those of the caller are. *)
Lemma applied_view_settings_numbers cat view_settings display_settings applied :
  applied_view_settings cat view_settings display_settings = Done applied ->
  settings_are_numbers view_settings ->
  CFloat.eq (vs_exposure applied) (vs_exposure applied) = true
  /\ CFloat.eq (vs_gamma applied) (vs_gamma applied) = true.
Proof.
  unfold applied_view_settings, settings_are_numbers. intros Happlied Hnumbers.
  destruct view_settings as [settings|].
  - injection Happlied as <-. exact Hnumbers.
  - unfold IMB_colormanagement_init_default_view_settings in Happlied.
    exec_inv Happlied. injection Happlied as <-. split; reflexivity.
Qed.

(** X21. A second [IMB_display_buffer_acquire] with the same settings, on
    the image buffer as the first one left it, returns the same buffer
    and the same cache handle, changes nothing, and asks nothing but the
    block cache for its entry: no processor is created and nothing is
    computed.  This holds when the exposure, the gamma and the dither are
    numbers (a NaN never matches the stored settings), when
    [BLI_rcti_init] makes an empty rectangle of zeros, and when the image
    buffer had its bit field or was not marked [IB_DISPLAY_BUFFER_INVALID]
    before the first call: the mark is only cleared when the bit field
    exists already. *)
Theorem IMB_display_buffer_acquire_again cat roles ibuf rect_float rect float_colorspace
    alpha_affects_rgb invalid_rect view_settings display_settings first :
  IMB_display_buffer_acquire cat roles ibuf rect_float rect float_colorspace
    alpha_affects_rgb invalid_rect view_settings display_settings = Done first ->
  is_Some (display_buffer_flags ibuf)
  \/ Z.land (ibuf_userflags ibuf) IB_DISPLAY_BUFFER_INVALID = 0 ->
  rcti_xmin (BLI_rcti_init 0 0 0 0) = rcti_xmax (BLI_rcti_init 0 0 0 0) ->
  settings_are_numbers view_settings ->
  CFloat.eq (ibuf_dither ibuf) (ibuf_dither ibuf) = true ->
  exists calls,
    IMB_display_buffer_acquire cat roles (acquired_ibuf first) rect_float rect
      float_colorspace alpha_affects_rgb (acquired_invalid_rect first)
      view_settings display_settings
    = Done {| acquired_buffer := acquired_buffer first;
              acquired_cache_handle := acquired_cache_handle first;
              acquired_ibuf := acquired_ibuf first;
              acquired_invalid_rect := acquired_invalid_rect first;
              acquired_calls := calls |}
    /\ only_moviecache_gets calls.
Proof.
  intros Hfirst Hmark Hempty Hnumbers Hdither.
  assert (Hnone : only_moviecache_gets []).
  { intros call Hin. now apply elem_of_nil in Hin. }
  unfold IMB_display_buffer_acquire in Hfirst.
  destruct ((ibuf_x ibuf =? 0) || (ibuf_y ibuf =? 0)) eqn:Hzero.
  { injection Hfirst as <-. cbn [acquired_buffer acquired_cache_handle acquired_ibuf
                                 acquired_invalid_rect].
    exists []. split; [|exact Hnone].
    unfold IMB_display_buffer_acquire. now rewrite Hzero. }
  destruct (applied_view_settings cat view_settings display_settings)
    as [applied|] eqn:Happlied; [|discriminate Hfirst].
  cbn [mbind exec_bind] in Hfirst.
  destruct (display_buffer_early_out cat ibuf rect_float applied display_settings)
    as [early|] eqn:Hearly; [|discriminate Hfirst].
  cbn [mbind exec_bind] in Hfirst.
  destruct early.
  { injection Hfirst as <-. cbn [acquired_buffer acquired_cache_handle acquired_ibuf
                                 acquired_invalid_rect].
    exists []. split; [|exact Hnone].
    unfold IMB_display_buffer_acquire. rewrite Hzero, Happlied. cbn [mbind exec_bind].
    now rewrite Hearly. }
  destruct (display_buffer_update_invalid_rect cat ibuf rect_float rect invalid_rect
              applied display_settings) as [[[ibuf1 invalid_rect1] calls1]|] eqn:Hupdate;
    [|discriminate Hfirst].
  cbn [mbind exec_bind] in Hfirst.
  destruct (display_buffer_ensure_flags cat ibuf1) as [ibuf2|] eqn:Hensure;
    [|discriminate Hfirst].
  cbn [mbind exec_bind] in Hfirst.
  destruct (colormanage_cache_get ibuf2
              (colormanage_view_settings_to_cache cat ibuf applied)
              (colormanage_display_settings_to_cache cat display_settings))
    as [got|] eqn:Hget; [|discriminate Hfirst].
  cbn [mbind exec_bind] in Hfirst.
  destruct (display_buffer_update_invalid_rect_frame _ _ _ _ _ _ _ _ _ _ Hupdate)
    as (Hsame1 & Hu1 & Hf1 & Hkept & Hreset).
  destruct (display_buffer_ensure_flags_frame _ _ _ Hensure) as (Hsame2 & Hf2 & Hclear2).
  assert (Hclear : Z.land (ibuf_userflags ibuf2) IB_DISPLAY_BUFFER_INVALID = 0).
  { apply Hclear2. destruct Hmark as [Hsome | Hunmarked]; [left; auto | right; congruence]. }
  assert (Hsame : same_image ibuf ibuf2) by (eapply same_image_trans; eassumption).
  assert (Hrect : rcti_xmin invalid_rect1 = rcti_xmax invalid_rect1).
  { destruct (Z.eq_dec (rcti_xmin invalid_rect) (rcti_xmax invalid_rect)) as [Heq|Hne].
    - destruct (Hkept Heq) as (_ & -> & _). exact Heq.
    - rewrite (Hreset Hne). exact Hempty. }
  (* the second call up to the lookup, on an image buffer [ibuf3] *)
  assert (Hagain : forall ibuf3,
    same_image ibuf ibuf3 ->
    is_Some (display_buffer_flags ibuf3) ->
    Z.land (ibuf_userflags ibuf3) IB_DISPLAY_BUFFER_INVALID = 0 ->
    IMB_display_buffer_acquire cat roles ibuf3 rect_float rect float_colorspace
      alpha_affects_rgb invalid_rect1 view_settings display_settings
    = got3 ← colormanage_cache_get ibuf3
               (colormanage_view_settings_to_cache cat ibuf applied)
               (colormanage_display_settings_to_cache cat display_settings);
      match got_buffer got3 with
      | Some display_buffer =>
          Done {| acquired_buffer := Some (Pointer_display_buffer display_buffer);
                  acquired_cache_handle := got_handle got3;
                  acquired_ibuf := ibuf3; acquired_invalid_rect := invalid_rect1;
                  acquired_calls := [] ++ got_calls got3 |}
      | None =>
          let buffer_size :=
            CInt.size_mul (CInt.size_mul (CInt.size_mul 4 (CInt.to_size_t (ibuf_x ibuf3)))
                             (ibuf_y ibuf3)) 1 in
          let display_buffer := replicate (Z.to_nat buffer_size) Byte.x00 in
          processed ← colormanage_display_buffer_process cat roles ibuf3 rect_float rect
                        float_colorspace alpha_affects_rgb display_buffer
                        applied display_settings;
          put ← colormanage_cache_put ibuf3
                  (colormanage_view_settings_to_cache cat ibuf applied)
                  (colormanage_display_settings_to_cache cat display_settings)
                  (fst processed);
          Done {| acquired_buffer := Some (Pointer_display_buffer (fst processed));
                  acquired_cache_handle := Some (put_handle put);
                  acquired_ibuf := put_ibuf put; acquired_invalid_rect := invalid_rect1;
                  acquired_calls :=
                    [] ++ got_calls got3 ++ snd processed ++ put_calls put |}
      end).
  { intros ibuf3 Hsame3 Hf3 Hclear3. unfold IMB_display_buffer_acquire.
    destruct Hsame3 as (Hx & Hy & Hrest).
    rewrite Hx, Hy, Hzero, Happlied. cbn [mbind exec_bind].
    rewrite (display_buffer_early_out_same cat ibuf ibuf3)
      by (split; [exact Hx | split; [exact Hy | exact Hrest]]).
    rewrite Hearly. cbn [mbind exec_bind].
    rewrite display_buffer_update_invalid_rect_empty by exact Hrect.
    cbn [mbind exec_bind].
    rewrite display_buffer_ensure_flags_kept by assumption.
    cbn [mbind exec_bind].
    rewrite (colormanage_view_settings_to_cache_same cat ibuf ibuf3)
      by (split; [exact Hx | split; [exact Hy | exact Hrest]]).
    reflexivity. }
  destruct (got_buffer got) as [display_buffer|] eqn:Hbuf.
  - (* the first call found the display buffer *)
    injection Hfirst as <-. cbn [acquired_buffer acquired_cache_handle acquired_ibuf
                                 acquired_invalid_rect].
    exists (got_calls got). split.
    + rewrite (Hagain ibuf2 Hsame Hf2 Hclear), Hget. cbn [mbind exec_bind].
      now rewrite Hbuf.
    + rewrite (colormanage_cache_get_hit_calls _ _ _ _ _ Hget Hbuf).
      intros call Hin. apply list_elem_of_singleton in Hin. eauto.
  - (* the first call computed it and put it into the cache *)
    cbn zeta in Hfirst.
    match type of Hfirst with
    | context [colormanage_display_buffer_process ?a ?b ?c ?d ?e ?f ?g ?h ?i ?j] =>
        destruct (colormanage_display_buffer_process a b c d e f g h i j)
          as [processed|] eqn:Hprocess; [|discriminate Hfirst]
    end.
    cbn [mbind exec_bind] in Hfirst.
    destruct (colormanage_cache_put ibuf2
                (colormanage_view_settings_to_cache cat ibuf applied)
                (colormanage_display_settings_to_cache cat display_settings)
                (fst processed)) as [put|] eqn:Hput; [|discriminate Hfirst].
    cbn [mbind exec_bind] in Hfirst. injection Hfirst as <-.
    cbn [acquired_buffer acquired_cache_handle acquired_ibuf acquired_invalid_rect].
    destruct (colormanage_cache_put_frame _ _ _ _ _ Hput)
      as (Hsame3 & Hu3 & flags & Hflags & Hview & Hdisplay).
    destruct (colormanage_cache_put_done ibuf2 _ _ (fst processed) flags
                Hflags Hview Hdisplay)
      as (put' & element & Hput' & _ & Hflags' & _).
    rewrite Hput in Hput'. injection Hput' as <-.
    destruct (applied_view_settings_numbers _ _ _ _ Happlied Hnumbers) as [He Hg].
    assert (Hd : CFloat.eq (cvs_dither (colormanage_view_settings_to_cache cat ibuf applied))
                   (cvs_dither (colormanage_view_settings_to_cache cat ibuf applied))
                 = true) by exact Hdither.
    pose proof (colormanage_cache_get_after_put ibuf2 _ _ (fst processed) flags put
                  Hflags Hview Hdisplay He Hg Hd Hput) as Hhit.
    eexists. split.
    + rewrite (Hagain (put_ibuf put)).
      * rewrite Hhit. cbn [mbind exec_bind got_buffer got_handle got_calls]. reflexivity.
      * eapply same_image_trans; eassumption.
      * rewrite Hflags'. eauto.
      * now rewrite Hu3.
    + intros call Hin. apply list_elem_of_singleton in Hin. eauto.
Qed.

(** X22. The early out of [IMB_display_buffer_acquire]: for an image
    buffer that is not empty, has no float buffer and has a byte buffer of
    four channels in the colour space that the engine names for the
    display and the view, and for settings without curves, with exposure
    0 and gamma 1 and a look without process space, the call returns
    [ibuf->rect] itself and no cache handle; it changes nothing: no bit
    field is allocated, no cache entry is made, no processor is created,
    and a rectangle that waits in [invalid_rect] keeps waiting.  With a
    float buffer, or with another number of channels, [ibuf->rect] is
    never what the call returns. *)
Theorem IMB_display_buffer_acquire_display_space cat roles ibuf rect_float rect
    float_colorspace alpha_affects_rgb invalid_rect settings display_settings colorspace :
  ibuf_x ibuf <> 0 -> ibuf_y ibuf <> 0 ->
  rect_colorspace ibuf = Some colorspace ->
  Z.land (vs_flag settings) COLORMANAGE_VIEW_USE_CURVES = 0 ->
  CFloat.eq (vs_exposure settings) CFloat.zero = true ->
  CFloat.eq (vs_gamma settings) CFloat.one = true ->
  look_has_process_space cat (vs_look settings) = false ->
  OCIO_configGetDisplayColorSpaceName (display_device display_settings)
    (vs_view_transform settings) = Some (colorspace_name colorspace) ->
  (ibuf_channels ibuf = 4 ->
   IMB_display_buffer_acquire cat roles ibuf None rect float_colorspace
     alpha_affects_rgb invalid_rect (Some settings) display_settings
   = Done {| acquired_buffer := match rect with
                                | Some _ => Some Pointer_rect
                                | None => None
                                end;
             acquired_cache_handle := None;
             acquired_ibuf := ibuf;
             acquired_invalid_rect := invalid_rect;
             acquired_calls := [] |})
  /\ (is_Some rect_float \/ ibuf_channels ibuf <> 4 ->
      forall acquired,
        IMB_display_buffer_acquire cat roles ibuf rect_float rect float_colorspace
          alpha_affects_rgb invalid_rect (Some settings) display_settings = Done acquired ->
        acquired_buffer acquired <> Some Pointer_rect).
Proof.
  intros Hx Hy Hspace Hcurves Hexposure Hgamma Hlook Hname.
  assert (Hzero : (ibuf_x ibuf =? 0) || (ibuf_y ibuf =? 0) = false).
  { apply orb_false_intro; apply Z.eqb_neq; assumption. }
  split.
  - intros Hc. unfold IMB_display_buffer_acquire. rewrite Hzero.
    cbn [applied_view_settings mbind exec_bind].
    unfold display_buffer_early_out, is_ibuf_rect_in_display_space.
    rewrite Hspace, Hc, Hcurves, Hexposure, Hgamma, Hlook, Hname.
    cbn [Z.eqb Pos.eqb andb deref mbind exec_bind mret exec_ret].
    unfold STREQ. rewrite String.eqb_refl. reflexivity.
  - intros Hother acquired Hrun. unfold IMB_display_buffer_acquire in Hrun.
    rewrite Hzero in Hrun. cbn [applied_view_settings mbind exec_bind] in Hrun.
    assert (Hearly : display_buffer_early_out cat ibuf rect_float settings display_settings
                     = Done false).
    { unfold display_buffer_early_out.
      destruct Hother as [[buffer ->] | Hc]; [reflexivity|].
      rewrite Hspace. destruct rect_float; [reflexivity|].
      destruct (Z.eqb_spec (ibuf_channels ibuf) 4); [contradiction | reflexivity]. }
    rewrite Hearly in Hrun. cbn [mbind exec_bind] in Hrun.
    exec_inv Hrun.
    destruct (got_buffer _).
    + injection Hrun as <-. discriminate.
    + exec_inv Hrun. injection Hrun as <-. discriminate.
Qed.

(** X23. A display buffer that [IMB_display_buffer_acquire] returns is the
    [rect] of the entry that the block cache of the image buffer then
    holds under the (view, display) key of the request, and the cache
    handle is that entry; the bit of the pair is set in the bit field;
    the view has an index from 1 to 31 and the display one inside the bit
    field (for any other pair the call is undefined); nothing of the
    image buffer but the bit field, the cache and the user flags has
    changed; and, when [BLI_rcti_init] makes an empty rectangle of zeros,
    no rectangle waits in [invalid_rect] any more. *)
Theorem IMB_display_buffer_acquire_cached cat roles ibuf rect_float rect float_colorspace
    alpha_affects_rgb invalid_rect view_settings display_settings acquired display_buffer :
  IMB_display_buffer_acquire cat roles ibuf rect_float rect float_colorspace
    alpha_affects_rgb invalid_rect view_settings display_settings = Done acquired ->
  acquired_buffer acquired = Some (Pointer_display_buffer display_buffer) ->
  exists applied flags handle,
    applied_view_settings cat view_settings display_settings = Done applied
    /\ let view :=
         IMB_colormanagement_view_get_named_index cat (vs_view_transform applied) in
       let display :=
         IMB_colormanagement_display_get_named_index cat (display_device display_settings) in
       1 <= view <= 31
       /\ 1 <= display <= Z.of_nat (length flags)
       /\ display_buffer_flags (acquired_ibuf acquired) = Some flags
       /\ display_buffer_bit flags display view = true
       /\ IMB_moviecache_get (moviecache_of (acquired_ibuf acquired))
            {| key_view := view; key_display := display |} = Some handle
       /\ cache_rect handle = display_buffer
       /\ acquired_cache_handle acquired = Some handle
       /\ same_image ibuf (acquired_ibuf acquired)
       /\ (rcti_xmin (BLI_rcti_init 0 0 0 0) = rcti_xmax (BLI_rcti_init 0 0 0 0) ->
           rcti_xmin (acquired_invalid_rect acquired)
           = rcti_xmax (acquired_invalid_rect acquired)).
Proof.
  intros Hrun Hbuffer. unfold IMB_display_buffer_acquire in Hrun.
  destruct ((ibuf_x ibuf =? 0) || (ibuf_y ibuf =? 0)).
  { injection Hrun as <-. discriminate Hbuffer. }
  destruct (applied_view_settings cat view_settings display_settings)
    as [applied|] eqn:Happlied; [|discriminate Hrun].
  cbn [mbind exec_bind] in Hrun.
  destruct (display_buffer_early_out cat ibuf rect_float applied display_settings)
    as [early|] eqn:Hearly; [|discriminate Hrun].
  cbn [mbind exec_bind] in Hrun.
  destruct early.
  { injection Hrun as <-. cbn in Hbuffer. destruct rect; discriminate Hbuffer. }
  destruct (display_buffer_update_invalid_rect cat ibuf rect_float rect invalid_rect
              applied display_settings) as [[[ibuf1 invalid_rect1] calls1]|] eqn:Hupdate;
    [|discriminate Hrun].
  cbn [mbind exec_bind] in Hrun.
  destruct (display_buffer_ensure_flags cat ibuf1) as [ibuf2|] eqn:Hensure;
    [|discriminate Hrun].
  cbn [mbind exec_bind] in Hrun.
  destruct (colormanage_cache_get ibuf2
              (colormanage_view_settings_to_cache cat ibuf applied)
              (colormanage_display_settings_to_cache cat display_settings))
    as [got|] eqn:Hget; [|discriminate Hrun].
  cbn [mbind exec_bind] in Hrun.
  destruct (display_buffer_update_invalid_rect_frame _ _ _ _ _ _ _ _ _ _ Hupdate)
    as (Hsame1 & Hu1 & Hf1 & Hkept & Hreset).
  destruct (display_buffer_ensure_flags_frame _ _ _ Hensure) as (Hsame2 & Hf2 & _).
  assert (Hsame : same_image ibuf ibuf2) by (eapply same_image_trans; eassumption).
  assert (Hrect : rcti_xmin (BLI_rcti_init 0 0 0 0) = rcti_xmax (BLI_rcti_init 0 0 0 0) ->
                  rcti_xmin invalid_rect1 = rcti_xmax invalid_rect1).
  { intros Hempty.
    destruct (Z.eq_dec (rcti_xmin invalid_rect) (rcti_xmax invalid_rect)) as [Heq|Hne].
    - destruct (Hkept Heq) as (_ & -> & _). exact Heq.
    - rewrite (Hreset Hne). exact Hempty. }
  exists applied.
  destruct (got_buffer got) as [found|] eqn:Hbuf.
  - injection Hrun as <-. cbn in Hbuffer. injection Hbuffer as ->.
    destruct (colormanage_cache_get_pair _ _ _ _ Hget) as (flags & Hflags & Hview & Hdisplay).
    destruct (colormanage_cache_get_hit_bit _ _ _ _ _ Hget Hbuf) as (flags' & Hflags' & Hbit).
    rewrite Hflags in Hflags'. injection Hflags' as <-.
    destruct (colormanage_cache_get_hit_matches _ _ _ _ _ Hget Hbuf)
      as (handle & cache_data & Hfound & Hrect' & Hhandle & _).
    exists flags, handle. split; [reflexivity|].
    cbn [acquired_ibuf acquired_cache_handle acquired_invalid_rect].
    split; [exact Hview|]. split; [exact Hdisplay|]. split; [exact Hflags|].
    split; [exact Hbit|]. split; [exact Hfound|]. split; [exact Hrect'|].
    split; [exact Hhandle|]. split; [exact Hsame | exact Hrect].
  - cbn zeta in Hrun.
    match type of Hrun with
    | context [colormanage_display_buffer_process ?a ?b ?c ?d ?e ?f ?g ?h ?i ?j] =>
        destruct (colormanage_display_buffer_process a b c d e f g h i j)
          as [processed|] eqn:Hprocess; [|discriminate Hrun]
    end.
    cbn [mbind exec_bind] in Hrun.
    destruct (colormanage_cache_put ibuf2
                (colormanage_view_settings_to_cache cat ibuf applied)
                (colormanage_display_settings_to_cache cat display_settings)
                (fst processed)) as [put|] eqn:Hput; [|discriminate Hrun].
    cbn [mbind exec_bind] in Hrun. injection Hrun as <-.
    cbn in Hbuffer. injection Hbuffer as <-.
    destruct (colormanage_cache_put_frame _ _ _ _ _ Hput) as (Hsame3 & _).
    destruct (colormanage_cache_put_post _ _ _ _ _ Hput)
      as (flags & flags' & Hflags & Hview & Hdisplay & Hflags' & Hlen & Hbit & Hmc
          & Hrect' & _).
    exists flags', (put_handle put). split; [reflexivity|].
    cbn [acquired_ibuf acquired_cache_handle acquired_invalid_rect].
    split; [exact Hview|]. split; [rewrite Hlen; exact Hdisplay|].
    split; [exact Hflags'|]. split; [exact Hbit|].
    split; [rewrite Hmc; apply IMB_moviecache_get_put|].
    split; [exact Hrect'|]. split; [reflexivity|].
    split; [eapply same_image_trans; eassumption | exact Hrect].
Qed.

(** *** The size of the display buffer *)

Lemma do_display_buffer_apply_thread_length cat handle floats bytes floats' bytes' :
  do_display_buffer_apply_thread cat handle (floats, Some bytes) = Done (floats', bytes') ->
  exists written, bytes' = Some written /\ length written = length bytes.
Proof.
  unfold do_display_buffer_apply_thread. intros Hrun.
  assert (Hbyte : forall (m : Z -> exec (list Byte.byte)) r,
            match handle_display_buffer_byte handle with
            | Some to => Some <$> m to
            | None => Done (Some bytes)
            end = Done r ->
            (forall to b, m to = Done b -> length b = length bytes) ->
            exists written, r = Some written /\ length written = length bytes).
  { intros m r Hr Hm. destruct (handle_display_buffer_byte handle) as [to|].
    - destruct (m to) as [b|] eqn:Hb; [|discriminate Hr]. injection Hr as <-. eauto.
    - injection Hr as <-. eauto. }
  destruct (handle_cm_processor handle) as [cm_processor|].
  - exec_inv Hrun.
    match goal with
    | E : context [handle_display_buffer_byte handle] |- _ => apply Hbyte in E
    end.
    + injection Hrun as _ <-. assumption.
    + intros to out Hb. unfold IMB_buffer_byte_from_float_predivide in Hb.
      revert Hb. apply (for_yx_preserves (fun buf => length buf = length bytes));
        [|reflexivity].
      intros s1 y x s2 Hs1 Hstore. apply buffer_store_length in Hstore. congruence.
  - exec_inv Hrun.
    match goal with
    | E : context [handle_display_buffer_byte handle] |- _ => apply Hbyte in E
    end.
    + injection Hrun as _ <-. assumption.
    + intros to out Hb. unfold IMB_buffer_byte_from_byte in Hb.
      revert Hb. apply (for_yx_preserves (fun buf => length buf = length bytes));
        [|reflexivity].
      intros s1 y x s2 Hs1 Hstore. exec_inv Hstore.
      apply buffer_store_length in Hstore. congruence.
Qed.

Lemma colormanage_display_buffer_process_ex_length cat roles ibuf rect_float rect
    float_colorspace alpha_affects_rgb display_buffer view_settings display_settings
    floats bytes calls :
  colormanage_display_buffer_process_ex cat roles ibuf rect_float rect float_colorspace
    alpha_affects_rgb None (Some display_buffer) view_settings display_settings
  = Done (floats, bytes, calls) ->
  exists written,
    bytes = Some written /\ length written = length display_buffer
    /\ (calls = [] \/ calls = [Call_display_processor_new; Call_processor_free]).
Proof.
  unfold colormanage_display_buffer_process_ex. intros Hrun. exec_inv Hrun.
  injection Hrun as -> <-.
  match goal with
  | E : display_buffer_apply_threaded _ _ _ _ _ _ _ _ _ ?cm = Done ?b |- _ =>
      unfold display_buffer_apply_threaded, IMB_processor_apply_threaded in E;
      apply (exec_fold_preserves
               (fun buffers => exists written,
                  snd buffers = Some written /\ length written = length display_buffer))
        in E
  end.
  - match goal with
    | E : exists written, snd _ = Some written /\ _ |- _ =>
        destruct E as (written & Hw & Hlen)
    end.
    cbn [snd] in Hw. exists written. split; [exact Hw|]. split; [exact Hlen|].
    match goal with
    | |- context [match ?cm with Some _ => _ | None => _ end] => destruct cm; auto
    end.
  - intros [floats1 bytes1] range [floats2 bytes2] (written & Hw & Hlen) Hstep.
    cbn [snd] in Hw. subst bytes1.
    apply do_display_buffer_apply_thread_length in Hstep.
    destruct Hstep as (written' & -> & Hlen'). exists written'. split; [reflexivity|].
    congruence.
  - exists display_buffer. split; reflexivity.
Qed.

(** The display transform writes into the display buffer that it is
    given: the size stays. *)
Lemma colormanage_display_buffer_process_length cat roles ibuf rect_float rect
    float_colorspace alpha_affects_rgb display_buffer view_settings display_settings
    processed :
  colormanage_display_buffer_process cat roles ibuf rect_float rect float_colorspace
    alpha_affects_rgb display_buffer view_settings display_settings = Done processed ->
  length (fst processed) = length display_buffer
  /\ (snd processed = [] \/ snd processed = [Call_display_processor_new; Call_processor_free]).
Proof.
  unfold colormanage_display_buffer_process. intros Hrun.
  destruct (colormanage_display_buffer_process_ex cat roles ibuf rect_float rect
              float_colorspace alpha_affects_rgb None (Some display_buffer)
              view_settings display_settings) as [[[floats bytes] calls]|] eqn:Hex;
    [|discriminate Hrun].
  apply colormanage_display_buffer_process_ex_length in Hex.
  destruct Hex as (written & -> & Hlen & Hcalls).
  cbn in Hrun. injection Hrun as <-. split; assumption.
Qed.

(** *** When the display buffer is computed anew *)

Lemma colormanage_cache_free_none ibuf :
  colormanage_cache (colormanage_cache_free ibuf) = None
  /\ display_buffer_flags (colormanage_cache_free ibuf) = None.
Proof.
  unfold colormanage_cache_free.
  destruct (colormanage_cache (set_display_buffer_flags ibuf None)) eqn:Hcache;
    split; try reflexivity. exact Hcache.
Qed.

(** Without a bit field, and with all display buffers marked invalid,
    the block on [invalid_rect] leaves the image buffer alone. *)
Lemma display_buffer_update_invalid_rect_idle cat ibuf rect_float rect invalid_rect
    view_settings display_settings ibuf1 invalid_rect1 calls1 :
  display_buffer_update_invalid_rect cat ibuf rect_float rect invalid_rect
    view_settings display_settings = Done (ibuf1, invalid_rect1, calls1) ->
  display_buffer_flags ibuf = None
  \/ Z.land (ibuf_userflags ibuf) IB_DISPLAY_BUFFER_INVALID <> 0 ->
  ibuf1 = ibuf /\ calls1 = [].
Proof.
  unfold display_buffer_update_invalid_rect. intros Hrun Hidle.
  destruct (negb (rcti_xmin invalid_rect =? rcti_xmax invalid_rect)).
  2:{ now injection Hrun as <- <- <-. }
  destruct (Z.eqb_spec (Z.land (ibuf_userflags ibuf) IB_DISPLAY_BUFFER_INVALID) 0)
    as [Hclear|Hset].
  - destruct Hidle as [Hnone | Hmarked]; [|contradiction].
    exec_inv Hrun. injection Hrun as <- <- <-.
    match goal with
    | E : IMB_partial_display_buffer_update_threaded _ _ _ _ _ _ _ _ _ _ _ _ _ = Done ?p
      |- _ => destruct p as [ibuf' calls'];
              unfold IMB_partial_display_buffer_update_threaded in E; exec_inv E;
              apply imb_partial_display_buffer_update_ex_inv in E;
              destruct E as (found & _ & _ & _ & Hflags)
    end.
    rewrite Hnone in Hflags. exact Hflags.
  - cbn [mbind exec_bind fst snd] in Hrun. now injection Hrun as <- <- <-.
Qed.

Lemma display_buffer_size (x y : Z) :
  0 <= x <= CInt.INT_MAX -> 0 <= y <= CInt.INT_MAX ->
  CInt.size_mul (CInt.size_mul (CInt.size_mul 4 (CInt.to_size_t x)) y) 1 = 4 * x * y.
Proof.
  unfold CInt.INT_MAX, CInt.size_mul, CInt.to_size_t, CInt.SIZE_MOD. intros Hx Hy.
  change (2 ^ 31 - 1) with 2147483647 in *. change (2 ^ 64) with 18446744073709551616.
  assert (0 <= x * y <= 2147483647 * 2147483647) by nia.
  rewrite (Z.mod_small x) by lia. rewrite (Z.mod_small (4 * x)) by lia.
  rewrite (Z.mod_small (4 * x * y)) by nia. rewrite Z.mul_1_r. apply Z.mod_small. nia.
Qed.

(** X24. When the image buffer has no bit field (none was made yet, or
    [colormanage_cache_free] freed it), or when it is marked
    [IB_DISPLAY_BUFFER_INVALID] and the display of the request is among
    the displays that are counted, an [IMB_display_buffer_acquire] that
    returns a display buffer has computed it: the block cache is not asked
    for an entry, at most one processor is created and freed, and the one
    call on the block cache puts the new entry, which the cache handle
    names.  The buffer has four bytes for every pixel of the image.  The
    mark is cleared if the bit field existed, and stays if the bit field
    had to be allocated.  After [colormanage_cache_free] the new entry is
    the only one of the cache. *)
Theorem IMB_display_buffer_acquire_recomputes cat roles ibuf rect_float rect
    float_colorspace alpha_affects_rgb invalid_rect view_settings display_settings
    acquired display_buffer :
  IMB_display_buffer_acquire cat roles ibuf rect_float rect float_colorspace
    alpha_affects_rgb invalid_rect view_settings display_settings = Done acquired ->
  acquired_buffer acquired = Some (Pointer_display_buffer display_buffer) ->
  display_buffer_flags ibuf = None
  \/ (Z.land (ibuf_userflags ibuf) IB_DISPLAY_BUFFER_INVALID <> 0
      /\ IMB_colormanagement_display_get_named_index cat (display_device display_settings)
         <= global_tot_display cat) ->
  exists processor_calls key handle,
    acquired_calls acquired = processor_calls ++ [Call_moviecache_put key handle]
    /\ (processor_calls = []
        \/ processor_calls = [Call_display_processor_new; Call_processor_free])
    /\ acquired_cache_handle acquired = Some handle
    /\ cache_rect handle = display_buffer
    /\ (0 <= ibuf_x ibuf <= CInt.INT_MAX -> 0 <= ibuf_y ibuf <= CInt.INT_MAX ->
        Z.of_nat (length display_buffer) = 4 * ibuf_x ibuf * ibuf_y ibuf)
    /\ (is_Some (display_buffer_flags ibuf) ->
        Z.land (ibuf_userflags (acquired_ibuf acquired)) IB_DISPLAY_BUFFER_INVALID = 0)
    /\ (display_buffer_flags ibuf = None ->
        ibuf_userflags (acquired_ibuf acquired) = ibuf_userflags ibuf)
    /\ (forall freed, ibuf = colormanage_cache_free freed ->
        moviecache_of (acquired_ibuf acquired) = [(key, handle)]).
Proof.
  intros Hrun Hbuffer Hcase. unfold IMB_display_buffer_acquire in Hrun.
  destruct ((ibuf_x ibuf =? 0) || (ibuf_y ibuf =? 0)).
  { injection Hrun as <-. discriminate Hbuffer. }
  destruct (applied_view_settings cat view_settings display_settings)
    as [applied|] eqn:Happlied; [|discriminate Hrun].
  cbn [mbind exec_bind] in Hrun.
  destruct (display_buffer_early_out cat ibuf rect_float applied display_settings)
    as [early|] eqn:Hearly; [|discriminate Hrun].
  cbn [mbind exec_bind] in Hrun.
  destruct early.
  { injection Hrun as <-. cbn in Hbuffer. destruct rect; discriminate Hbuffer. }
  destruct (display_buffer_update_invalid_rect cat ibuf rect_float rect invalid_rect
              applied display_settings) as [[[ibuf1 invalid_rect1] calls1]|] eqn:Hupdate;
    [|discriminate Hrun].
  cbn [mbind exec_bind] in Hrun.
  destruct (display_buffer_ensure_flags cat ibuf1) as [ibuf2|] eqn:Hensure;
    [|discriminate Hrun].
  cbn [mbind exec_bind] in Hrun.
  destruct (colormanage_cache_get ibuf2
              (colormanage_view_settings_to_cache cat ibuf applied)
              (colormanage_display_settings_to_cache cat display_settings))
    as [got|] eqn:Hget; [|discriminate Hrun].
  cbn [mbind exec_bind] in Hrun.
  destruct (display_buffer_update_invalid_rect_idle _ _ _ _ _ _ _ _ _ _ Hupdate)
    as [-> ->]; [tauto|].
  destruct (display_buffer_ensure_flags_frame _ _ _ Hensure) as ((Hx & Hy & _) & _ & Hclear).
  (* the bit field after the block that ensures it: zeros where the pair is *)
  assert (Hzeros : exists (n : nat) rest,
            display_buffer_flags ibuf2 = Some (replicate n 0 ++ rest)
            /\ (cds_display (colormanage_display_settings_to_cache cat display_settings)
                <= Z.of_nat (length (replicate n 0 ++ rest)) ->
                cds_display (colormanage_display_settings_to_cache cat display_settings)
                <= Z.of_nat n)
            /\ colormanage_cache ibuf2 = colormanage_cache ibuf
            /\ (display_buffer_flags ibuf = None -> ibuf_userflags ibuf2 = ibuf_userflags ibuf)).
  { unfold display_buffer_ensure_flags in Hensure.
    destruct (display_buffer_flags ibuf) as [flags|] eqn:Hflags.
    - destruct Hcase as [Hnone | [Hmarked Hcounted]]; [discriminate Hnone|].
      destruct (Z.eqb_spec (Z.land (ibuf_userflags ibuf) IB_DISPLAY_BUFFER_INVALID) 0);
        [contradiction|].
      cbn [negb] in Hensure. exec_inv Hensure. injection Hensure as <-.
      match goal with
      | E : memset_zero _ _ = Done _ |- _ =>
          apply memset_zero_inv in E; destruct E as [Hn ->]
      end.
      exists (Z.to_nat (global_tot_display cat)), (drop (Z.to_nat (global_tot_display cat)) flags).
      split; [reflexivity|]. split; [|split; [reflexivity | discriminate]].
      intros _. cbn [cds_display colormanage_display_settings_to_cache]. lia.
    - injection Hensure as <-.
      exists (Z.to_nat (global_tot_display cat)), [].
      split; [cbn; now rewrite app_nil_r|]. split; [|split; reflexivity].
      rewrite app_nil_r, length_replicate. tauto. }
  destruct Hzeros as (n & rest & Hflags2 & Hcounted & Hcache2 & Hu2).
  destruct (colormanage_cache_get_pair _ _ _ _ Hget) as (flags2 & Hflags2' & Hview & Hdisplay).
  rewrite Hflags2 in Hflags2'. injection Hflags2' as <-.
  rewrite (colormanage_cache_get_bit_unset ibuf2 _ _ _ Hflags2 Hview Hdisplay) in Hget
    by (apply display_buffer_bit_zeros; split; [lia | apply Hcounted; lia]).
  injection Hget as <-. cbn [got_buffer got_calls] in Hrun. cbn zeta in Hrun.
  match type of Hrun with
  | context [colormanage_display_buffer_process ?a ?b ?c ?d ?e ?f ?g ?h ?i ?j] =>
      destruct (colormanage_display_buffer_process a b c d e f g h i j)
        as [processed|] eqn:Hprocess; [|discriminate Hrun]
  end.
  cbn [mbind exec_bind] in Hrun.
  destruct (colormanage_cache_put ibuf2
              (colormanage_view_settings_to_cache cat ibuf applied)
              (colormanage_display_settings_to_cache cat display_settings)
              (fst processed)) as [put|] eqn:Hput; [|discriminate Hrun].
  cbn [mbind exec_bind] in Hrun. injection Hrun as <-.
  cbn in Hbuffer. injection Hbuffer as <-.
  destruct (colormanage_cache_put_frame _ _ _ _ _ Hput) as (_ & Hu3 & _).
  destruct (colormanage_cache_put_post _ _ _ _ _ Hput)
    as (_ & _ & _ & _ & _ & _ & _ & _ & Hmc & Hrect' & Hcalls).
  destruct (colormanage_display_buffer_process_length _ _ _ _ _ _ _ _ _ _ _ Hprocess)
    as [Hlen Hprocessor].
  exists (snd processed),
         (colormanage_settings_to_key
            (colormanage_view_settings_to_cache cat ibuf applied)
            (colormanage_display_settings_to_cache cat display_settings)),
         (put_handle put).
  cbn [acquired_calls acquired_cache_handle acquired_ibuf app].
  split; [now rewrite Hcalls|]. split; [exact Hprocessor|].
  split; [reflexivity|]. split; [exact Hrect'|]. split; [|split; [|split]].
  - intros Hxr Hyr. rewrite Hlen, length_replicate, display_buffer_size by assumption.
    rewrite Z2Nat.id by nia. reflexivity.
  - intros Hsome. rewrite Hu3. apply Hclear. now left.
  - intros Hnone. rewrite Hu3. now apply Hu2.
  - intros freed Hfreed. rewrite Hmc. unfold moviecache_of, colormanage_moviecache_get.
    rewrite Hcache2, Hfreed.
    destruct (colormanage_cache_free_none freed) as [-> _]. reflexivity.
Qed.

End DisplayBufferFacts.

(** The second call on the example image buffer: the display buffer of the
    first call comes back from the cache. *)
Lemma IMB_display_buffer_acquire_again_witness :
  exists calls,
    example_acquire (acquired_ibuf example_acquired) (acquired_invalid_rect example_acquired)
    = Done {| acquired_buffer := acquired_buffer example_acquired;
              acquired_cache_handle := acquired_cache_handle example_acquired;
              acquired_ibuf := acquired_ibuf example_acquired;
              acquired_invalid_rect := acquired_invalid_rect example_acquired;
              acquired_calls := calls |}
    /\ only_moviecache_gets calls.
Proof.
  apply (IMB_display_buffer_acquire_again (constants := example_constants)
           (helpers := example_helpers) (engine := example_engine)
           (threads := example_threads) (sizes := example_sizes)
           (defaults := example_defaults) (libc := example_libc)
           (rects := example_rects) (display_helpers := example_display_helpers)
           example_catalog example_roles example_ibuf (Some example_linear_buffer)
           None None false example_invalid_rect (Some example_view_settings)
           example_display_settings example_acquired).
  - vm_compute. reflexivity.
  - left. vm_compute. eauto.
  - reflexivity.
  - split; reflexivity.
  - reflexivity.
Defined.

(** The byte buffer in the colour space of the display is handed out as it
    is. *)
Lemma IMB_display_buffer_acquire_display_space_witness :
  @IMB_display_buffer_acquire example_constants example_helpers example_engine
    example_threads example_sizes example_defaults example_libc example_rects
    example_display_helpers example_catalog example_roles example_ibuf_srgb
    None (Some example_rect_grey) None false example_invalid_rect
    (Some example_view_settings) example_display_settings
  = Done {| acquired_buffer := Some Pointer_rect;
            acquired_cache_handle := None;
            acquired_ibuf := example_ibuf_srgb;
            acquired_invalid_rect := example_invalid_rect;
            acquired_calls := [] |}.
Proof.
  refine (proj1 (IMB_display_buffer_acquire_display_space (constants := example_constants)
                   (helpers := example_helpers) (engine := example_engine)
                   (threads := example_threads) (sizes := example_sizes)
                   (defaults := example_defaults) (libc := example_libc)
                   (rects := example_rects) (display_helpers := example_display_helpers)
                   example_catalog example_roles example_ibuf_srgb None
                   (Some example_rect_grey) None false example_invalid_rect
                   example_view_settings example_display_settings
                   {| colorspace_index := 3; colorspace_name := "sRGB";
                      is_invertible := true; is_data := false |}
                   _ _ _ _ _ _ _ _) _).
  - discriminate.
  - discriminate.
  - reflexivity.
  - reflexivity.
  - reflexivity.
  - reflexivity.
  - reflexivity.
  - reflexivity.
  - reflexivity.
Defined.

(** The display buffer of the example call is the one of the cache entry
    of the first view on the first display. *)
Lemma IMB_display_buffer_acquire_cached_witness :
  IMB_moviecache_get (moviecache_of (acquired_ibuf example_acquired))
    {| key_view := 1; key_display := 1 |}
  = acquired_cache_handle example_acquired.
Proof.
  destruct (IMB_display_buffer_acquire_cached (constants := example_constants)
              (helpers := example_helpers) (engine := example_engine)
              (threads := example_threads) (sizes := example_sizes)
              (defaults := example_defaults) (libc := example_libc)
              (rects := example_rects) (display_helpers := example_display_helpers)
              example_catalog example_roles example_ibuf (Some example_linear_buffer)
              None None false example_invalid_rect (Some example_view_settings)
              example_display_settings example_acquired (replicate 16 Byte.xff))
    as (applied & flags & handle & Happlied & _ & _ & _ & _ & Hfound & _ & Hhandle & _).
  - vm_compute. reflexivity.
  - reflexivity.
  - injection Happlied as <-. rewrite Hhandle. exact Hfound.
Defined.

(** After [colormanage_cache_free] the example call computes the display
    buffer again, and its entry is the only one of the cache. *)
Lemma IMB_display_buffer_acquire_recomputes_witness :
  exists key handle,
    moviecache_of (acquired_ibuf example_acquired_after_free) = [(key, handle)].
Proof.
  destruct (IMB_display_buffer_acquire_recomputes (constants := example_constants)
              (helpers := example_helpers) (engine := example_engine)
              (threads := example_threads) (sizes := example_sizes)
              (defaults := example_defaults) (libc := example_libc)
              (rects := example_rects) (display_helpers := example_display_helpers)
              example_catalog example_roles
              (colormanage_cache_free (acquired_ibuf example_acquired))
              (Some example_linear_buffer) None None false example_invalid_rect
              (Some example_view_settings) example_display_settings
              example_acquired_after_free (replicate 16 Byte.xff))
    as (processor_calls & key & handle & _ & _ & _ & _ & _ & _ & _ & Hcache).
  - vm_compute. reflexivity.
  - reflexivity.
  - left. reflexivity.
  - exists key, handle. exact (Hcache (acquired_ibuf example_acquired) eq_refl).
Defined.

(** ** A partial update that misses marks a stale display buffer valid *)

(** C4, at an input where a partial update whose lookup misses is not a
    no-op.  The cache of the example image buffer holds the display
    buffer of the view "Standard", 16 zero bytes.  A partial update for
    the view "Raw" has cleared the bit of "Standard": its display buffer
    no longer counts as calculated, the lookup of a partial update for
    "Standard" misses, and [IMB_display_buffer_acquire] would compute the
    display buffer anew (16 bytes [0xff] from the example helpers).  The
    partial update for "Standard" makes no call and writes no pixel, but
    it changes the bit field from [2] to [1]: the bit of "Standard" is set
    again although nothing was calculated.  After it
    [IMB_display_buffer_acquire] asks the block cache only and returns the
    old 16 zero bytes. *)
Theorem partial_update_miss_revalidates_stale_buffer :
  display_buffer_flags (fst example_update_raw) = Some [2]
  /\ @partial_update_display_buffer example_constants example_catalog
       (fst example_update_raw) example_view_settings example_display_settings
     = Done None
  /\ (exists fresh,
        example_acquire (fst example_update_raw) example_invalid_rect = Done fresh
        /\ acquired_buffer fresh = Some (Pointer_display_buffer (replicate 16 Byte.xff))
        /\ take 2 (acquired_calls fresh) = [Call_display_processor_new; Call_processor_free])
  /\ @IMB_partial_display_buffer_update example_constants example_helpers example_engine
       example_catalog (fst example_update_raw) (Some example_linear_buffer) None 2 0 0
       example_view_settings example_display_settings 0 0 1 1
     = Done example_update_standard_miss
  /\ snd example_update_standard_miss = []
  /\ moviecache_of (fst example_update_standard_miss)
     = moviecache_of (fst example_update_raw)
  /\ display_buffer_flags (fst example_update_standard_miss) = Some [1]
  /\ fst example_update_standard_miss <> fst example_update_raw
  /\ (exists stale,
        example_acquire (fst example_update_standard_miss) example_invalid_rect = Done stale
        /\ acquired_buffer stale = Some (Pointer_display_buffer (replicate 16 Byte.x00))
        /\ acquired_calls stale = [Call_moviecache_get {| key_view := 1; key_display := 1 |}]).
Proof.
  split; [reflexivity|]. split; [vm_compute; reflexivity|].
  split.
  { eexists. split; [vm_compute; reflexivity|]. split; reflexivity. }
  split; [vm_compute; reflexivity|]. split; [reflexivity|]. split; [reflexivity|].
  split; [reflexivity|]. split.
  { intros Heq. apply (f_equal display_buffer_flags) in Heq. discriminate Heq. }
  eexists. split; [vm_compute; reflexivity|]. split; reflexivity.
Qed.

(** ** The processors of colour picking are asked for once *)

Section ColorPickingFacts.

Context {engine : TransformEngine}.

Lemma color_picking_call_budget cat roles state call :
  let '(state1, _, requests) := color_picking_call cat roles state call in
  (length requests + color_picking_budget state1 <= color_picking_budget state)%nat.
Proof.
  unfold color_picking_call, IMB_colormanagement_scene_linear_to_color_picking_v3,
    IMB_colormanagement_color_picking_to_scene_linear_v3, color_picking_budget.
  destruct call as [pixel|pixel], state as [[to|] [from|] [|]]; cbn;
    try destruct (create_colorspace_transform_processor _ _); cbn; lia.
Qed.

Lemma color_picking_calls_budget cat roles calls state :
  let '(state1, _, requests) := color_picking_calls cat roles state calls in
  (length requests + color_picking_budget state1 <= color_picking_budget state)%nat.
Proof.
  revert state. induction calls as [|call rest IH]; intros state; cbn.
  - lia.
  - pose proof (color_picking_call_budget cat roles state call) as Hcall.
    destruct (color_picking_call cat roles state call) as [[state1 pixel] requests].
    specialize (IH state1).
    destruct (color_picking_calls cat roles state1 rest) as [[state2 pixels] requests2].
    rewrite length_app. lia.
Qed.

(** Without processors in the state every call returns its pixel. *)
Lemma color_picking_calls_failing cat roles calls state :
  create_colorspace_transform_processor (global_role_scene_linear cat)
    (global_role_color_picking roles) = None ->
  create_colorspace_transform_processor (global_role_color_picking roles)
    (global_role_scene_linear cat) = None ->
  cpu_processor_to state = None -> cpu_processor_from state = None ->
  let '(state1, pixels, _) := color_picking_calls cat roles state calls in
  pixels = call_pixel <$> calls.
Proof.
  intros Hto Hfrom. revert state. induction calls as [|call rest IH]; intros state Ht Hf; cbn.
  - reflexivity.
  - assert (Hcall : exists state1 requests,
              color_picking_call cat roles state call = (state1, call_pixel call, requests)
              /\ cpu_processor_to state1 = None /\ cpu_processor_from state1 = None).
    { unfold color_picking_call, IMB_colormanagement_scene_linear_to_color_picking_v3,
        IMB_colormanagement_color_picking_to_scene_linear_v3.
      destruct call as [pixel|pixel]; rewrite ?Ht, ?Hf, ?Hto, ?Hfrom;
        destruct (failed state); cbn; rewrite ?Ht, ?Hf; eauto. }
    destruct Hcall as (state1 & requests & -> & Ht1 & Hf1).
    specialize (IH state1 Ht1 Hf1).
    destruct (color_picking_calls cat roles state1 rest) as [[state2 pixels] requests2].
    now rewrite IH.
Qed.

(** X25. However often and in whatever order
    [IMB_colormanagement_scene_linear_to_color_picking_v3] and
    [IMB_colormanagement_color_picking_to_scene_linear_v3] are called
    after the start, the engine is asked for at most two processors, one
    for each direction.  The flag [failed] is shared: when the engine has
    no processor for either direction, it is asked once, for the
    direction of the first call, and every call returns its pixel as it
    came. *)
Theorem color_picking_processors_once cat roles calls :
  let '(_, pixels, requests) :=
    color_picking_calls cat roles color_picking_state_initial calls in
  (length requests <= 2)%nat
  /\ (create_colorspace_transform_processor (global_role_scene_linear cat)
        (global_role_color_picking roles) = None ->
      create_colorspace_transform_processor (global_role_color_picking roles)
        (global_role_scene_linear cat) = None ->
      (length requests <= 1)%nat /\ pixels = call_pixel <$> calls).
Proof.
  pose proof (color_picking_calls_budget cat roles calls color_picking_state_initial)
    as Hbudget.
  pose proof (color_picking_calls_failing cat roles calls color_picking_state_initial)
    as Hfailing.
  destruct calls as [|call rest].
  { cbn. split; [lia|]. intros _ _. split; [lia | reflexivity]. }
  destruct (color_picking_calls cat roles color_picking_state_initial (call :: rest))
    as [[state pixels] requests] eqn:Hrun.
  cbn in Hbudget. split; [lia|].
  intros Hto Hfrom. split; [|now apply Hfailing].
  (* the first call asks once and fails; the budget is used up *)
  cbn in Hrun.
  assert (Hfirst : exists state1 pixel request,
            color_picking_call cat roles color_picking_state_initial call
            = (state1, pixel, [request]) /\ color_picking_budget state1 = 0%nat).
  { unfold color_picking_call, IMB_colormanagement_scene_linear_to_color_picking_v3,
      IMB_colormanagement_color_picking_to_scene_linear_v3.
    destruct call as [pixel|pixel]; cbn; rewrite ?Hto, ?Hfrom; cbn; eauto. }
  destruct Hfirst as (state1 & pixel & request & Hcall & Hzero).
  rewrite Hcall in Hrun.
  pose proof (color_picking_calls_budget cat roles rest state1) as Hrest.
  destruct (color_picking_calls cat roles state1 rest) as [[state2 pixels2] requests2].
  injection Hrun as _ _ <-. cbn [length app] in *. lia.
Qed.

End ColorPickingFacts.
